(** * Agrimanagement: usage metering, subscription records and the Stripe
      webhook reconciler

    A shallow embedding of
      - [src/lib/stripe.ts]       (plan catalogue; in the tree as unnamed/part_004),
      - [src/lib/subscription.ts] (usage ledger, entitlement check, subscription writes),
      - [src/app/api/stripe/webhook/route.ts] (billing event reconciler),
      - [src/app/api/ocr/route.ts], [src/app/api/ai-assistant/route.ts] and the
        Excel export button (unnamed/part_016), the three metered features,
      - [src/supabase/stripe-schema.sql] (the two tables and their constraints),
    followed by the properties proved about them.

    Asynchronous functions are modelled as state transformers over a [World]
    (database, pending transient faults, request trace, console, clock);
    a JavaScript exception is the [Throw] outcome. *)

From Stdlib Require Import ZArith List String Bool Lia.
Import ListNotations.
Open Scope string_scope.
Open Scope list_scope.
Open Scope Z_scope.

Set Implicit Arguments.

(* ===================================================================== *)
(** ** JavaScript numbers and dates                                        *)
(* ===================================================================== *)

(** The only numbers the metering code handles are integers and
    [Infinity] (the unlimited sentinel of the paid plans). *)
Inductive JsNumber : Type :=
| Finite (z : Z)
| Infinity.

Module JsNum.

Definition add (a b : JsNumber) : JsNumber :=
  match a, b with
  | Finite x, Finite y => Finite (x + y)
  | _, _ => Infinity
  end.

(** [a - b] for a finite [b] (usage counts are always finite). *)
Definition sub (a : JsNumber) (b : Z) : JsNumber :=
  match a with
  | Finite x => Finite (x - b)
  | Infinity => Infinity
  end.

(** [Math.max(0, a)]. *)
Definition max0 (a : JsNumber) : JsNumber :=
  match a with
  | Finite x => Finite (Z.max 0 x)
  | Infinity => Infinity
  end.

(** [n < a] for a finite [n]. *)
Definition ltb (n : Z) (a : JsNumber) : bool :=
  match a with
  | Finite x => n <? x
  | Infinity => true
  end.

End JsNum.

(** Dates follow the ECMAScript [Date] built-ins: a time value is a number of
    milliseconds since the epoch, the calendar is proleptic Gregorian, and the
    executing environment has a fixed offset from UTC (no daylight saving
    rules are modelled). *)
Module JsDate.

Definition msPerDay : Z := 86400000.
Definition msPerMinute : Z := 60000.

(** A calendar date: year, month (1..12), day of month. The database key
    ["YYYY-MM-DD"] is kept as this triple. *)
Record Civil : Type := mkCivil { year : Z; month : Z; day : Z }.

Definition Civil_eqb (a b : Civil) : bool :=
  (year a =? year b) && (month a =? month b) && (day a =? day b).

Definition daysPerEra : Z := 146097.
Definition epochShift : Z := 719468.

(** Inside a 400-year era, whose years start on 1 March: the year a day
    of the era falls in, and the day of the era a year starts on. *)
Definition yearOfEra (doe : Z) : Z :=
  (doe - doe / 1460 + doe / 36524 - doe / 146096) / 365.

Definition yearStart (yoe : Z) : Z := 365 * yoe + yoe / 4 - yoe / 100.

(** Inside such a year: the month (0 is March) a day of the year falls
    in, and the day of the year a month starts on. *)
Definition monthOfYear (doy : Z) : Z := (5 * doy + 2) / 153.

Definition monthStart (mp : Z) : Z := (153 * mp + 2) / 5.

(** Year of era, month and day of the day of era [doe]. *)
Definition civil_of_doe (doe : Z) : Civil :=
  let yoe := yearOfEra doe in
  let doy := doe - yearStart yoe in
  let mp := monthOfYear doy in
  mkCivil yoe (if mp <? 10 then mp + 3 else mp - 9)
          (doy - monthStart mp + 1).

Definition doe_of_civil (yoe m d : Z) : Z :=
  yearStart yoe + monthStart (if 2 <? m then m - 3 else m + 9) + d - 1.

(** Day number (days since 1970-01-01) to calendar date. *)
Definition civil_from_days (z : Z) : Civil :=
  let z' := z + epochShift in
  let era := z' / daysPerEra in
  let c := civil_of_doe (z' mod daysPerEra) in
  mkCivil (year c + era * 400 + (if month c <=? 2 then 1 else 0))
          (month c) (day c).

(** Calendar date to day number. *)
Definition days_from_civil (y m d : Z) : Z :=
  let y' := if m <=? 2 then y - 1 else y in
  (y' / 400) * daysPerEra + doe_of_civil (y' mod 400) m d - epochShift.

(** [Day(t)] of the specification: the day a time value falls in. *)
Definition Day (t : Z) : Z := t / msPerDay.

(** The environment's time zone, in minutes east of UTC
    (JST is [540], US Pacific standard time is [-480]). *)
Definition LocalTime (tzMinutes : Z) (t : Z) : Z := t + tzMinutes * msPerMinute.

Definition getFullYear (tz t : Z) : Z :=
  year (civil_from_days (Day (LocalTime tz t))).

(** [getMonth] is zero based. *)
Definition getMonth (tz t : Z) : Z :=
  month (civil_from_days (Day (LocalTime tz t))) - 1.

(** [new Date(y, monthIndex, d)]: local midnight of the given date, as a
    time value. Years 0..99 denote 1900..1999. [monthIndex] is in 0..11 at
    every call site. *)
Definition fromLocal (tz : Z) (y monthIndex d : Z) : Z :=
  let y' := if (0 <=? y) && (y <=? 99) then 1900 + y else y in
  days_from_civil y' (monthIndex + 1) d * msPerDay - tz * msPerMinute.

(** [date.toISOString().split("T")[0]]: the UTC calendar date. *)
Definition toISODate (t : Z) : Civil := civil_from_days (Day t).

(** The largest time value a [Date] holds, 8.64e15 ms. *)
Definition maxTimeValue : Z := 8640000000000000.

(** [new Date(value)] for a number, [None] being NaN: the time value of
    the new [Date], or [None], the Invalid Date, when the number is NaN
    or beyond [maxTimeValue]. *)
Definition ofNumber (value : option Z) : option Z :=
  match value with
  | Some v => if Z.abs v <=? maxTimeValue then Some v else None
  | None => None
  end.

End JsDate.

(* ===================================================================== *)
(** ** Plan catalogue ([lib/stripe.ts])                                    *)
(* ===================================================================== *)

Inductive PlanType : Type := free | standard | premium | pro_yearly.

Inductive UsageFeature : Type := ocr | export | ai_assistant.

Record PlanLimits : Type := {
  ocrLimit : JsNumber;
  exportLimit : JsNumber;
  aiAssistantLimit : JsNumber
}.

Definition PLAN_LIMITS (planType : PlanType) : PlanLimits :=
  match planType with
  | free =>
      {| ocrLimit := Finite 50; exportLimit := Finite 3;
         aiAssistantLimit := Finite 10 |}
  | standard | premium | pro_yearly =>
      {| ocrLimit := Infinity; exportLimit := Infinity;
         aiAssistantLimit := Infinity |}
  end.

Definition isFreePlan (planType : PlanType) : bool :=
  match planType with free => true | _ => false end.

Definition isPaidPlan (planType : PlanType) : bool :=
  negb (isFreePlan planType).

Definition getFeatureLimit (planType : PlanType) (feature : UsageFeature)
  : JsNumber :=
  let limits := PLAN_LIMITS planType in
  match feature with
  | ocr => ocrLimit limits
  | export => exportLimit limits
  | ai_assistant => aiAssistantLimit limits
  end.

(** [process.env] and the time zone of the executing environment. An unset
    variable is [None]; the empty string is falsy like an unset one. *)
Record ProcessEnv : Type := {
  TZ : Z;
  STRIPE_SECRET_KEY : option string;
  STRIPE_WEBHOOK_SECRET : option string;
  STRIPE_PRICE_STANDARD_MONTHLY : option string;
  STRIPE_PRICE_PREMIUM_MONTHLY : option string;
  STRIPE_PRICE_PRO_YEARLY : option string;
  NEXT_PUBLIC_SUPABASE_URL : option string;
  SUPABASE_SERVICE_ROLE_KEY : option string;
  OPENAI_API_KEY : option string
}.

(** Truthiness of [string | undefined | null]. *)
Definition truthy (v : option string) : bool :=
  match v with
  | Some s => negb (s =? "")%string
  | None => false
  end.

(** [v || fallback]. *)
Definition or_else (v : option string) (fallback : string) : string :=
  match v with
  | Some s => if (s =? "")%string then fallback else s
  | None => fallback
  end.

Record StripePriceIds : Type := {
  price_standard : string;
  price_premium : string;
  price_pro_yearly : string
}.

Definition STRIPE_PRICE_IDS (env : ProcessEnv) : StripePriceIds :=
  {| price_standard :=
       or_else (STRIPE_PRICE_STANDARD_MONTHLY env) "price_standard_monthly";
     price_premium :=
       or_else (STRIPE_PRICE_PREMIUM_MONTHLY env) "price_premium_monthly";
     price_pro_yearly :=
       or_else (STRIPE_PRICE_PRO_YEARLY env) "price_pro_yearly" |}.

(** An object literal used as a map: entries in the order written, a later
    entry with the same key replacing an earlier one. *)
Fixpoint object_get {V : Type} (entries : list (string * V)) (key : string)
  : option V :=
  match entries with
  | [] => None
  | (k, v) :: rest =>
      match object_get rest key with
      | Some v' => Some v'
      | None => if (k =? key)%string then Some v else None
      end
  end.

(** What reading [object[key]] gives when it is not [undefined]: a value
    of the object's own, or the member of that name every object literal
    inherits from [Object.prototype]. *)
Inductive Member (V : Type) : Type :=
| own (v : V)
| inherited (name : string).
Arguments own {V} v.
Arguments inherited {V} name.

(** The members of [Object.prototype]: functions, but for [__proto__],
    which reads as the prototype object itself. All of them are truthy. *)
Definition Object_prototype : list string :=
  [ "constructor"; "hasOwnProperty"; "isPrototypeOf";
    "propertyIsEnumerable"; "toLocaleString"; "toString"; "valueOf";
    "__defineGetter__"; "__defineSetter__"; "__lookupGetter__";
    "__lookupSetter__"; "__proto__" ].

(** [object[key]] on an object literal: its own entry of that key, else
    the inherited member of that name, else [undefined]. *)
Definition object_read {V : Type} (entries : list (string * V))
           (key : string) : option (Member V) :=
  match object_get entries key with
  | Some v => Some (own v)
  | None =>
      if existsb (String.eqb key) Object_prototype
      then Some (inherited key)
      else None
  end.

Definition PRICE_ID_TO_PLAN (env : ProcessEnv) : list (string * PlanType) :=
  [ (price_standard (STRIPE_PRICE_IDS env), standard);
    (price_premium (STRIPE_PRICE_IDS env), premium);
    (price_pro_yearly (STRIPE_PRICE_IDS env), pro_yearly) ].

(* ===================================================================== *)
(** ** The database ([supabase/stripe-schema.sql])                         *)
(* ===================================================================== *)

Inductive Status : Type := active | canceled | past_due | trialing.

(** Table [subscriptions]. [id] is the primary key, [user_id] is UNIQUE and
    references [auth.users]; timestamps are time values. *)
Module Subscriptions.
Record Row : Type := {
  id : Z;
  user_id : string;
  stripe_customer_id : option string;
  stripe_subscription_id : option string;
  plan_type : PlanType;
  status : Status;
  current_period_start : option Z;
  current_period_end : option Z;
  created_at : Z;
  updated_at : Z
}.
End Subscriptions.

(** Table [usage_tracking]. [id] is the primary key, [(user_id, period_start)]
    is UNIQUE, [user_id] references [auth.users], the counters are INTEGER
    columns and [period_start] is a DATE. *)
Module UsageTracking.
Record Row : Type := {
  id : Z;
  user_id : string;
  ocr_count : Z;
  export_count : Z;
  ai_assistant_count : Z;
  period_start : JsDate.Civil;
  created_at : Z
}.
End UsageTracking.

(** [gen_random_uuid()] is modelled by a counter of fresh identifiers. *)
Record Db : Type := {
  auth_users : list string;
  subscriptions : list Subscriptions.Row;
  usage_tracking : list UsageTracking.Row;
  next_uuid : Z
}.

Inductive PgError : Type :=
| PGRST116                       (* .single(): no row, or more than one *)
| unique_violation               (* 23505 *)
| foreign_key_violation          (* 23503 *)
| numeric_value_out_of_range     (* 22003 *)
| check_violation                (* 23514 *)
| invalid_datetime_format        (* 22007, 22008, 22009 *)
| connection_failure.            (* the request did not reach the database *)

(** The [{ data, error }] pair of a PostgREST reply: exactly one is set. *)
Inductive PgResponse (A : Type) : Type :=
| PgData (data : A)
| PgError_ (error : PgError).
Arguments PgData {A} data.
Arguments PgError_ {A} error.

Definition INT4_MAX : Z := 2147483647.
Definition INT4_MIN : Z := -2147483648.

Definition in_int4 (v : Z) : bool := (INT4_MIN <=? v) && (v <=? INT4_MAX).

Definition mem_string (s : string) (l : list string) : bool :=
  existsb (fun x => (x =? s)%string) l.

Definition opt_string_is (o : option string) (s : string) : bool :=
  match o with
  | Some x => (x =? s)%string
  | None => false
  end.

Module Pg.

(** [.select("*")...single()]. *)
Definition single {Row : Type} (rows : list Row) : PgResponse Row :=
  match rows with
  | [r] => PgData r
  | _ => PgError_ PGRST116
  end.

Definition usage_matches (userId : string) (periodStart : JsDate.Civil)
           (r : UsageTracking.Row) : bool :=
  (UsageTracking.user_id r =? userId)%string
  && JsDate.Civil_eqb (UsageTracking.period_start r) periodStart.

(** [from("usage_tracking").select("*").eq("user_id", u)
     .eq("period_start", p).single()]. *)
Definition select_usage (userId : string) (periodStart : JsDate.Civil)
           (now : Z) (d : Db) : PgResponse UsageTracking.Row * Db :=
  (single (filter (usage_matches userId periodStart) (usage_tracking d)), d).

(** [from("usage_tracking").insert({user_id, period_start, 0, 0, 0})
     .select().single()]. *)
Definition insert_usage (userId : string) (periodStart : JsDate.Civil)
           (now : Z) (d : Db) : PgResponse UsageTracking.Row * Db :=
  if negb (mem_string userId (auth_users d)) then
    (PgError_ foreign_key_violation, d)
  else if existsb (usage_matches userId periodStart) (usage_tracking d) then
    (PgError_ unique_violation, d)
  else
    let r := {| UsageTracking.id := next_uuid d;
                UsageTracking.user_id := userId;
                UsageTracking.ocr_count := 0;
                UsageTracking.export_count := 0;
                UsageTracking.ai_assistant_count := 0;
                UsageTracking.period_start := periodStart;
                UsageTracking.created_at := now |} in
    (PgData r,
     {| auth_users := auth_users d;
        subscriptions := subscriptions d;
        usage_tracking := usage_tracking d ++ [r];
        next_uuid := next_uuid d + 1 |}).

Definition set_count (feature : UsageFeature) (v : Z)
           (r : UsageTracking.Row) : UsageTracking.Row :=
  {| UsageTracking.id := UsageTracking.id r;
     UsageTracking.user_id := UsageTracking.user_id r;
     UsageTracking.ocr_count :=
       match feature with ocr => v | _ => UsageTracking.ocr_count r end;
     UsageTracking.export_count :=
       match feature with export => v | _ => UsageTracking.export_count r end;
     UsageTracking.ai_assistant_count :=
       match feature with
       | ai_assistant => v
       | _ => UsageTracking.ai_assistant_count r
       end;
     UsageTracking.period_start := UsageTracking.period_start r;
     UsageTracking.created_at := UsageTracking.created_at r |}.

(** What an update of a counter [.eq("id", rowId)] does to a row. *)
Definition touch (feature : UsageFeature) (v rowId : Z)
           (r : UsageTracking.Row) : UsageTracking.Row :=
  if UsageTracking.id r =? rowId then set_count feature v r else r.

(** [from("usage_tracking").update({ [column]: v }).eq("id", id)], the
    column being the counter of [feature]. *)
Definition update_usage (feature : UsageFeature) (v : Z) (rowId : Z)
           (now : Z) (d : Db) : PgResponse unit * Db :=
  if negb (in_int4 v) then (PgError_ numeric_value_out_of_range, d)
  else
    (PgData tt,
     {| auth_users := auth_users d;
        subscriptions := subscriptions d;
        usage_tracking := map (touch feature v rowId) (usage_tracking d);
        next_uuid := next_uuid d |}).

(** [from("subscriptions").select("*").eq("user_id", u).single()]. *)
Definition select_subscription_by_user (userId : string)
           (now : Z) (d : Db) : PgResponse Subscriptions.Row * Db :=
  (single (filter (fun r => (Subscriptions.user_id r =? userId)%string)
                  (subscriptions d)), d).

(** [from("subscriptions").select("user_id")
     .eq("stripe_subscription_id", s).single()]. *)
Definition select_user_by_stripe_subscription (subscriptionId : string)
           (now : Z) (d : Db) : PgResponse string * Db :=
  (match single (filter (fun r =>
                           opt_string_is
                             (Subscriptions.stripe_subscription_id r)
                             subscriptionId)
                        (subscriptions d)) with
   | PgData r => PgData (Subscriptions.user_id r)
   | PgError_ e => PgError_ e
   end, d).

Definition set_subscriptions (rows : list Subscriptions.Row) (d : Db) : Db :=
  {| auth_users := auth_users d;
     subscriptions := rows;
     usage_tracking := usage_tracking d;
     next_uuid := next_uuid d |}.

(** The object [upsertSubscription] hands to [upsert]. [v_plan_type] is
    whatever the caller passed as the plan: a plan, or at run time a
    member of [Object.prototype]. *)
Record UpsertValues : Type := {
  v_user_id : string;
  v_stripe_customer_id : string;
  v_stripe_subscription_id : string;
  v_plan_type : Member PlanType;
  v_status : Status;
  v_current_period_start : Z;
  v_current_period_end : Z;
  v_updated_at : Z
}.

(** The [plan_type] column of the request body. The client sends
    [JSON.stringify] of the object: a plan goes out as its name; a
    property whose value is a function is left out of the body, so the
    column is not part of the statement (a new row takes the column
    default ['free'], a row that exists keeps its plan); the prototype
    object goes out as [{}], which the CHECK constraint on [plan_type]
    refuses. *)
Definition plan_written (v : UpsertValues) (current : PlanType)
  : PlanType :=
  match v_plan_type v with
  | own p => p
  | inherited _ => current
  end.

Definition plan_refused (v : UpsertValues) : bool :=
  match v_plan_type v with
  | own _ => false
  | inherited name => (name =? "__proto__")%string
  end.

(** A timestamp column is given the text [toISOString] wrote. It reads
    the four-digit years 0001 to 9999, that is the time values from
    0001-01-01T00:00:00Z up to 10000-01-01T00:00:00Z; the year 0000 and
    the signed six-digit years of all other dates are refused. *)
Definition timestamp_read (t : Z) : bool :=
  (-62135596800000 <=? t) && (t <? 253402300800000).

(** Why the statement of an upsert fails whatever the table holds: a
    value that does not convert to its column, or else a constraint the
    new row breaks. *)
Definition refused (v : UpsertValues) : option PgError :=
  if negb (timestamp_read (v_current_period_start v)
           && timestamp_read (v_current_period_end v))
  then Some invalid_datetime_format
  else if plan_refused v then Some check_violation
  else None.

(** The row of a conflicting user after ON CONFLICT ... DO UPDATE; the
    BEFORE UPDATE trigger stamps [updated_at] with the database time. *)
Definition overwrite (v : UpsertValues) (now : Z) (r : Subscriptions.Row)
  : Subscriptions.Row :=
  {| Subscriptions.id := Subscriptions.id r;
     Subscriptions.user_id := v_user_id v;
     Subscriptions.stripe_customer_id := Some (v_stripe_customer_id v);
     Subscriptions.stripe_subscription_id :=
       Some (v_stripe_subscription_id v);
     Subscriptions.plan_type := plan_written v (Subscriptions.plan_type r);
     Subscriptions.status := v_status v;
     Subscriptions.current_period_start := Some (v_current_period_start v);
     Subscriptions.current_period_end := Some (v_current_period_end v);
     Subscriptions.created_at := Subscriptions.created_at r;
     Subscriptions.updated_at := now |}.

(** [from("subscriptions").upsert(values, { onConflict: "user_id" })]. *)
Definition upsert_subscription (v : UpsertValues)
           (now : Z) (d : Db) : PgResponse unit * Db :=
  match refused v with
  | Some e => (PgError_ e, d)
  | None =>
      if existsb (fun r => (Subscriptions.user_id r =? v_user_id v)%string)
                 (subscriptions d)
      then
        (PgData tt,
         set_subscriptions
           (map (fun r => if (Subscriptions.user_id r =? v_user_id v)%string
                          then overwrite v now r else r)
                (subscriptions d)) d)
      else if negb (mem_string (v_user_id v) (auth_users d)) then
        (PgError_ foreign_key_violation, d)
      else
        let r := {| Subscriptions.id := next_uuid d;
                    Subscriptions.user_id := v_user_id v;
                    Subscriptions.stripe_customer_id :=
                      Some (v_stripe_customer_id v);
                    Subscriptions.stripe_subscription_id :=
                      Some (v_stripe_subscription_id v);
                    Subscriptions.plan_type := plan_written v free;
                    Subscriptions.status := v_status v;
                    Subscriptions.current_period_start :=
                      Some (v_current_period_start v);
                    Subscriptions.current_period_end :=
                      Some (v_current_period_end v);
                    Subscriptions.created_at := now;
                    Subscriptions.updated_at := v_updated_at v |} in
        (PgData tt,
         {| auth_users := auth_users d;
            subscriptions := subscriptions d ++ [r];
            usage_tracking := usage_tracking d;
            next_uuid := next_uuid d + 1 |})
  end.

(** [from("subscriptions").update(...).eq("stripe_subscription_id", s)]:
    every matching row is rewritten by [f]; no match is not an error. *)
Definition update_by_stripe_subscription
           (f : Subscriptions.Row -> Subscriptions.Row)
           (subscriptionId : string)
           (now : Z) (d : Db) : PgResponse unit * Db :=
  (PgData tt,
   set_subscriptions
     (map (fun r => if opt_string_is
                         (Subscriptions.stripe_subscription_id r)
                         subscriptionId
                    then f r else r)
          (subscriptions d)) d).

End Pg.

(* ===================================================================== *)
(** ** Effects: requests, exceptions, console                              *)
(* ===================================================================== *)

Inductive Table : Type := t_subscriptions | t_usage_tracking.
Inductive Verb : Type := SELECT | INSERT | UPDATE | UPSERT.

(** One entry of the request trace. *)
Record Query : Type := { q_table : Table; q_verb : Verb }.

(** Texts of thrown errors and of console lines, by what they say. *)
Inductive Message : Type :=
| SubscriptionFetchFailed      (* subscription.ts: getUserSubscription *)
| UsageRecordCreateFailed      (* subscription.ts: getOrCreateUsageRecord *)
| UsageUpdateFailed            (* subscription.ts: incrementUsage *)
| SubscriptionUpsertFailed     (* subscription.ts: upsertSubscription *)
| InvalidTimeValue             (* the RangeError of Date.prototype.toISOString *)
| SubscriptionCancelFailed     (* subscription.ts: cancelSubscription *)
| RevertToFreeFailed           (* subscription.ts: revertToFreePlan *)
| StripeEnvMissing             (* stripe.ts: getStripeClient *)
| WebhookSecretMissing         (* webhook: verifyStripeWebhook *)
| SupabaseEnvMissing           (* webhook: createSupabaseAdminClient *)
| SignatureInvalid             (* stripe.webhooks.constructEvent *)
| StripeApiFailed              (* stripe.subscriptions.retrieve *)
| SignatureMissing             (* webhook: no stripe-signature header *)
| SignatureVerificationFailed  (* webhook: verification error *)
| SubscriptionIdMissing        (* webhook: no subscription id on the event *)
| UserIdMissing                (* webhook: no user id resolved *)
| UnknownPriceId (priceId : option string)   (* webhook: price not in catalogue *)
| StatusUpdateFailed           (* webhook: handlePaymentFailed *)
| WebhookFailed                (* webhook: outer catch *)
| UsageCountUpdateFailed       (* endpoints: incrementUsage threw *)
| LoginRequired
| UsageLimitReached
| ImageRequired
| MessageRequired
| MessageTooLong
| OpenAIKeyMissing
| OpenAIKeyInvalid
| RateLimited
| AnalysisFailed
| ResultUnparseable
| EndpointFailed
| BodyUnreadable               (* request.json() rejected *)
| SalesFetchFailed
| ExpensesFetchFailed
| NoDataInPeriod
| DownloadFailed
| External (text : string)     (* message of an external service's error *)
| Info (text : string).        (* console.log progress lines *)

(** A thrown value: [new Error(message)], or an API error of an external
    client, which also carries an HTTP [status]. *)
Record JsError : Type := {
  err_message : Message;
  err_status : option Z
}.

Definition Error (m : Message) : JsError :=
  {| err_message := m; err_status := None |}.

(** [error?.status === s]. *)
Definition has_status (e : JsError) (s : Z) : bool :=
  match err_status e with
  | Some z => z =? s
  | None => false
  end.

Inductive ConsoleLine : Type :=
| console_log (m : Message)
| console_error (m : Message).

(** What a request handler runs against. [faults] is the schedule of
    transient failures: each database request consumes its head, and a
    [true] makes that request fail without reaching the database. *)
Record World : Type := {
  db : Db;
  faults : list bool;
  trace : list Query;
  console : list ConsoleLine;
  clock : Z
}.

Inductive Outcome (A : Type) : Type :=
| Return (a : A)
| Throw (e : JsError).
Arguments Return {A} a.
Arguments Throw {A} e.

Definition M (A : Type) : Type := World -> Outcome A * World.

Definition ret {A : Type} (a : A) : M A := fun w => (Return a, w).

Definition throw {A : Type} (e : JsError) : M A := fun w => (Throw e, w).

Definition bind {A B : Type} (m : M A) (k : A -> M B) : M B :=
  fun w =>
    match m w with
    | (Return a, w') => k a w'
    | (Throw e, w') => (Throw e, w')
    end.

(** [try { m } catch (e) { h e }]. *)
Definition try_catch {A : Type} (m : M A) (h : JsError -> M A) : M A :=
  fun w =>
    match m w with
    | (Return a, w') => (Return a, w')
    | (Throw e, w') => h e w'
    end.

Declare Scope js_scope.
Delimit Scope js_scope with js.
Notation "x <- m ;; k" := (bind m (fun x => k))
  (at level 61, m at next level, right associativity) : js_scope.
Notation "m ;;; k" := (bind m (fun _ => k))
  (at level 61, right associativity) : js_scope.
Open Scope js_scope.

(** [new Date()] as a time value. *)
Definition new_Date : M Z := fun w => (Return (clock w), w).

Definition emit (l : ConsoleLine) : M unit :=
  fun w =>
    (Return tt,
     {| db := db w; faults := faults w; trace := trace w;
        console := console w ++ [l]; clock := clock w |}).

(** One round trip to the database through the Supabase client. The client
    never throws: a failure comes back in the [error] field. *)
Definition request {A : Type} (q : Query)
           (op : Z -> Db -> PgResponse A * Db) : M (PgResponse A) :=
  fun w =>
    match faults w with
    | true :: rest =>
        (Return (PgError_ connection_failure),
         {| db := db w; faults := rest; trace := trace w ++ [q];
            console := console w; clock := clock w |})
    | _ =>
        let (r, d) := op (clock w) (db w) in
        (Return r,
         {| db := d; faults := tl (faults w); trace := trace w ++ [q];
            console := console w; clock := clock w |})
    end.

(** Time passing between two requests. *)
Definition at_time (t : Z) (w : World) : World :=
  {| db := db w; faults := faults w; trace := trace w;
     console := console w; clock := t |}.

(* ===================================================================== *)
(** ** [lib/subscription.ts]                                               *)
(* ===================================================================== *)

Record Subscription : Type := {
  sub_id : Z;
  userId : string;
  stripeCustomerId : option string;
  stripeSubscriptionId : option string;
  planType : PlanType;
  sub_status : Status;
  currentPeriodStart : option Z;
  currentPeriodEnd : option Z;
  createdAt : Z;
  updatedAt : Z
}.

Record UsageTracking : Type := {
  usage_id : Z;
  usage_userId : string;
  ocrCount : Z;
  exportCount : Z;
  aiAssistantCount : Z;
  periodStart : Z;
  usage_createdAt : Z
}.

Record UsageLimitCheckResult : Type := {
  allowed : bool;
  currentUsage : Z;
  limit : JsNumber;
  remaining : JsNumber;
  check_planType : PlanType
}.

Record FeatureUsage : Type := {
  used : Z;
  fu_limit : JsNumber;
  fu_remaining : JsNumber
}.

Record MonthlyUsage : Type := {
  mu_ocr : FeatureUsage;
  mu_export : FeatureUsage;
  mu_aiAssistant : FeatureUsage;
  mu_periodStart : Z;
  mu_planType : PlanType
}.

Definition getCurrentPeriodStart (env : ProcessEnv) : M Z :=
  now <- new_Date ;;
  ret (JsDate.fromLocal (TZ env)
         (JsDate.getFullYear (TZ env) now) (JsDate.getMonth (TZ env) now) 1).

Definition formatDateForDatabase (date : Z) : JsDate.Civil :=
  JsDate.toISODate date.

(** The [usage_tracking] key a call at time [now] works on. *)
Definition periodKey (env : ProcessEnv) (now : Z) : JsDate.Civil :=
  formatDateForDatabase
    (JsDate.fromLocal (TZ env)
       (JsDate.getFullYear (TZ env) now) (JsDate.getMonth (TZ env) now) 1).

Definition getUserSubscription (userId : string) : M (option Subscription) :=
  r <- request {| q_table := t_subscriptions; q_verb := SELECT |}
               (Pg.select_subscription_by_user userId) ;;
  match r with
  | PgError_ PGRST116 => ret None
  | PgError_ _ =>
      emit (console_error SubscriptionFetchFailed) ;;;
      throw (Error SubscriptionFetchFailed)
  | PgData data =>
      ret (Some {| sub_id := Subscriptions.id data;
                   userId := Subscriptions.user_id data;
                   stripeCustomerId := Subscriptions.stripe_customer_id data;
                   stripeSubscriptionId :=
                     Subscriptions.stripe_subscription_id data;
                   planType := Subscriptions.plan_type data;
                   sub_status := Subscriptions.status data;
                   currentPeriodStart :=
                     Subscriptions.current_period_start data;
                   currentPeriodEnd := Subscriptions.current_period_end data;
                   createdAt := Subscriptions.created_at data;
                   updatedAt := Subscriptions.updated_at data |})
  end.

Definition getUserPlanType (userId : string) : M PlanType :=
  subscription <- getUserSubscription userId ;;
  ret match subscription with
      | Some s => planType s
      | None => free
      end.

Definition toUsageTracking (r : UsageTracking.Row) : UsageTracking :=
  {| usage_id := UsageTracking.id r;
     usage_userId := UsageTracking.user_id r;
     ocrCount := UsageTracking.ocr_count r;
     exportCount := UsageTracking.export_count r;
     aiAssistantCount := UsageTracking.ai_assistant_count r;
     periodStart :=
       JsDate.days_from_civil
         (JsDate.year (UsageTracking.period_start r))
         (JsDate.month (UsageTracking.period_start r))
         (JsDate.day (UsageTracking.period_start r)) * JsDate.msPerDay;
     usage_createdAt := UsageTracking.created_at r |}.

Definition getOrCreateUsageRecord (env : ProcessEnv) (userId : string)
  : M UsageTracking :=
  periodStart <- getCurrentPeriodStart env ;;
  let periodStartString := formatDateForDatabase periodStart in
  sel <- request {| q_table := t_usage_tracking; q_verb := SELECT |}
                 (Pg.select_usage userId periodStartString) ;;
  match sel with
  | PgData existingRecord => ret (toUsageTracking existingRecord)
  | PgError_ _ =>
      ins <- request {| q_table := t_usage_tracking; q_verb := INSERT |}
                     (Pg.insert_usage userId periodStartString) ;;
      match ins with
      | PgError_ _ =>
          emit (console_error UsageRecordCreateFailed) ;;;
          throw (Error UsageRecordCreateFailed)
      | PgData newRecord => ret (toUsageTracking newRecord)
      end
  end.

(** The counter of [feature] in a ledger record (the [switch] shared by
    [checkUsageLimit] and [incrementUsage]). *)
Definition countOf (feature : UsageFeature) (usageRecord : UsageTracking) : Z :=
  match feature with
  | ocr => ocrCount usageRecord
  | export => exportCount usageRecord
  | ai_assistant => aiAssistantCount usageRecord
  end.

Definition checkUsageLimit (env : ProcessEnv) (userId : string)
           (feature : UsageFeature) : M UsageLimitCheckResult :=
  planType <- getUserPlanType userId ;;
  if negb (isFreePlan planType) then
    ret {| allowed := true; currentUsage := 0; limit := Infinity;
           remaining := Infinity; check_planType := planType |}
  else
    usageRecord <- getOrCreateUsageRecord env userId ;;
    let limit := getFeatureLimit planType feature in
    let currentUsage := countOf feature usageRecord in
    let remaining := JsNum.max0 (JsNum.sub limit currentUsage) in
    let allowed := JsNum.ltb currentUsage limit in
    ret {| allowed := allowed; currentUsage := currentUsage; limit := limit;
           remaining := remaining; check_planType := planType |}.

Definition incrementUsage (env : ProcessEnv) (userId : string)
           (feature : UsageFeature) : M unit :=
  usageRecord <- getOrCreateUsageRecord env userId ;;
  let currentCount := countOf feature usageRecord in
  upd <- request {| q_table := t_usage_tracking; q_verb := UPDATE |}
                 (Pg.update_usage feature (currentCount + 1)
                                  (usage_id usageRecord)) ;;
  match upd with
  | PgError_ _ =>
      emit (console_error UsageUpdateFailed) ;;;
      throw (Error UsageUpdateFailed)
  | PgData _ => ret tt
  end.

Definition featureUsage (used : Z) (limit : JsNumber) : FeatureUsage :=
  {| used := used; fu_limit := limit;
     fu_remaining := JsNum.max0 (JsNum.sub limit used) |}.

Definition getMonthlyUsage (env : ProcessEnv) (userId : string)
  : M MonthlyUsage :=
  planType <- getUserPlanType userId ;;
  usageRecord <- getOrCreateUsageRecord env userId ;;
  let limits := PLAN_LIMITS planType in
  ret {| mu_ocr := featureUsage (ocrCount usageRecord) (ocrLimit limits);
         mu_export :=
           featureUsage (exportCount usageRecord) (exportLimit limits);
         mu_aiAssistant :=
           featureUsage (aiAssistantCount usageRecord)
                        (aiAssistantLimit limits);
         mu_periodStart := periodStart usageRecord;
         mu_planType := planType |}.

(** [date.toISOString()] of a [Date] given by its time value: it throws a
    RangeError on the Invalid Date. The timestamp columns keep the time
    value. *)
Definition toISOString (date : option Z) : M Z :=
  match date with
  | Some t => ret t
  | None => throw (Error InvalidTimeValue)
  end.

(** The two period bounds are [Date] objects, [None] being the Invalid
    Date; [planType] is the value the caller passes. The object literal is
    built, in the order written, before the request is made. *)
Definition upsertSubscription (userId stripeCustomerId stripeSubscriptionId
                               : string)
           (planType : Member PlanType) (status : Status)
           (currentPeriodStart currentPeriodEnd : option Z) : M unit :=
  currentPeriodStart <- toISOString currentPeriodStart ;;
  currentPeriodEnd <- toISOString currentPeriodEnd ;;
  now <- new_Date ;;
  r <- request {| q_table := t_subscriptions; q_verb := UPSERT |}
               (Pg.upsert_subscription
                  {| Pg.v_user_id := userId;
                     Pg.v_stripe_customer_id := stripeCustomerId;
                     Pg.v_stripe_subscription_id := stripeSubscriptionId;
                     Pg.v_plan_type := planType;
                     Pg.v_status := status;
                     Pg.v_current_period_start := currentPeriodStart;
                     Pg.v_current_period_end := currentPeriodEnd;
                     Pg.v_updated_at := now |}) ;;
  match r with
  | PgError_ _ =>
      emit (console_error SubscriptionUpsertFailed) ;;;
      throw (Error SubscriptionUpsertFailed)
  | PgData _ => ret tt
  end.

(** The row after [cancelSubscription]'s update. *)
Definition canceled_row (now : Z) (r : Subscriptions.Row) : Subscriptions.Row :=
  {| Subscriptions.id := Subscriptions.id r;
     Subscriptions.user_id := Subscriptions.user_id r;
     Subscriptions.stripe_customer_id := Subscriptions.stripe_customer_id r;
     Subscriptions.stripe_subscription_id :=
       Subscriptions.stripe_subscription_id r;
     Subscriptions.plan_type := Subscriptions.plan_type r;
     Subscriptions.status := canceled;
     Subscriptions.current_period_start :=
       Subscriptions.current_period_start r;
     Subscriptions.current_period_end := Subscriptions.current_period_end r;
     Subscriptions.created_at := Subscriptions.created_at r;
     Subscriptions.updated_at := now |}.

Definition cancelSubscription (stripeSubscriptionId : string) : M unit :=
  now <- new_Date ;;
  r <- request {| q_table := t_subscriptions; q_verb := UPDATE |}
               (Pg.update_by_stripe_subscription (canceled_row now)
                                                 stripeSubscriptionId) ;;
  match r with
  | PgError_ _ =>
      emit (console_error SubscriptionCancelFailed) ;;;
      throw (Error SubscriptionCancelFailed)
  | PgData _ => ret tt
  end.

(** The row after [revertToFreePlan]'s update. *)
Definition free_row (now : Z) (r : Subscriptions.Row) : Subscriptions.Row :=
  {| Subscriptions.id := Subscriptions.id r;
     Subscriptions.user_id := Subscriptions.user_id r;
     Subscriptions.stripe_customer_id := Subscriptions.stripe_customer_id r;
     Subscriptions.stripe_subscription_id := None;
     Subscriptions.plan_type := free;
     Subscriptions.status := active;
     Subscriptions.current_period_start := None;
     Subscriptions.current_period_end := None;
     Subscriptions.created_at := Subscriptions.created_at r;
     Subscriptions.updated_at := now |}.

Definition revertToFreePlan (stripeSubscriptionId : string) : M unit :=
  now <- new_Date ;;
  r <- request {| q_table := t_subscriptions; q_verb := UPDATE |}
               (Pg.update_by_stripe_subscription (free_row now)
                                                 stripeSubscriptionId) ;;
  match r with
  | PgError_ _ =>
      emit (console_error RevertToFreeFailed) ;;;
      throw (Error RevertToFreeFailed)
  | PgData _ => ret tt
  end.

(* ===================================================================== *)
(** ** Stripe objects                                                      *)
(* ===================================================================== *)

(** A field that holds an id, an expanded object with an [id], or nothing. *)
Inductive Expandable : Type :=
| ExpId (id : string)
| ExpObject (id : string)
| ExpNull.

Inductive StripeStatus : Type :=
| stripe_active | stripe_canceled | stripe_incomplete
| stripe_incomplete_expired | stripe_past_due | stripe_paused
| stripe_trialing | stripe_unpaid.

(** [Stripe.Subscription], reduced to the fields the handlers read:
    [metadata.supabase_user_id], [items.data[0].price.id], [customer],
    [status], the period bounds (seconds; [None] when the event carries
    no such field, which reads as [undefined]) and
    [cancel_at_period_end]. *)
Record StripeSubscription : Type := {
  ss_id : string;
  ss_supabase_user_id : option string;
  ss_price_id : option string;
  ss_customer : Expandable;
  ss_status : StripeStatus;
  ss_current_period_start : option Z;
  ss_current_period_end : option Z;
  ss_cancel_at_period_end : bool
}.

Record CheckoutSession : Type := {
  cs_id : string;
  cs_subscription : Expandable;
  cs_supabase_user_id : option string;
  cs_customer : Expandable
}.

Record Invoice : Type := {
  inv_id : string;
  inv_subscription : Expandable
}.

Inductive StripeEvent : Type :=
| checkout_session_completed (session : CheckoutSession)
| customer_subscription_updated (subscription : StripeSubscription)
| customer_subscription_deleted (subscription : StripeSubscription)
| invoice_payment_failed (invoice : Invoice)
| unhandled_event (type : string).

(** The Stripe SDK calls the webhook makes. [None] stands for a thrown
    error. [constructEvent body signature secret] verifies the signature of
    the raw body and parses the event. *)
Record StripeApi : Type := {
  constructEvent : string -> string -> string -> option StripeEvent;
  subscriptions_retrieve : string -> option StripeSubscription
}.

(** [typeof x === "string" ? x : x?.id], undefined being [None]. *)
Definition expandable_id (x : Expandable) : option string :=
  match x with
  | ExpId id => Some id
  | ExpObject id => Some id
  | ExpNull => None
  end.

(** [typeof x === "string" ? x : x?.id || ""]. *)
Definition customer_id_of (x : Expandable) : string :=
  match x with
  | ExpId id => id
  | ExpObject id => id
  | ExpNull => ""
  end.

(** A truthy string, or nothing. *)
Definition nonempty (v : option string) : option string :=
  if truthy v then v else None.

(** [a || b] on optional strings. *)
Definition first_truthy (a b : option string) : option string :=
  if truthy a then a else b.

(* ===================================================================== *)
(** ** HTTP responses                                                      *)
(* ===================================================================== *)

Record UsageInfo : Type := {
  ui_currentUsage : Z;
  ui_limit : JsNumber;
  ui_remaining : JsNumber;
  ui_planType : PlanType
}.

Inductive ErrorCode : Type := UNAUTHORIZED | USAGE_LIMIT_EXCEEDED.

Inductive ResponseBody : Type :=
| json_error (error : Message) (code : option ErrorCode)
             (usageInfo : option UsageInfo)
| json_received
| json_ocr_success (data : string) (usageInfo : UsageInfo)
| json_chat_success (message : string) (usageInfo : UsageInfo).

Record Response : Type := {
  res_status : Z;
  res_body : ResponseBody
}.

(** [NextResponse.json(body, { status })]. *)
Definition NextResponse_json (body : ResponseBody) (status : Z) : Response :=
  {| res_status := status; res_body := body |}.

(* ===================================================================== *)
(** ** [app/api/stripe/webhook/route.ts]                                   *)
(* ===================================================================== *)

Definition createSupabaseAdminClient (env : ProcessEnv) : M unit :=
  if truthy (NEXT_PUBLIC_SUPABASE_URL env)
     && truthy (SUPABASE_SERVICE_ROLE_KEY env)
  then ret tt
  else throw (Error SupabaseEnvMissing).

Definition getStripeClient (env : ProcessEnv) : M unit :=
  if truthy (STRIPE_SECRET_KEY env) then ret tt
  else throw (Error StripeEnvMissing).

Definition verifyStripeWebhook (env : ProcessEnv) (stripe : StripeApi)
           (body signature : string) : M StripeEvent :=
  getStripeClient env ;;;
  match nonempty (STRIPE_WEBHOOK_SECRET env) with
  | None => throw (Error WebhookSecretMissing)
  | Some webhookSecret =>
      match constructEvent stripe body signature webhookSecret with
      | Some event => ret event
      | None => throw (Error SignatureInvalid)
      end
  end.

(** [PRICE_ID_TO_PLAN[priceId] || null]: the plans are non-empty strings
    and the inherited members are functions or an object, so whatever the
    read finds is truthy. *)
Definition getPlanTypeFromPriceId (env : ProcessEnv) (priceId : string)
  : option (Member PlanType) :=
  object_read (PRICE_ID_TO_PLAN env) priceId.

(** [priceId ? getPlanTypeFromPriceId(priceId) : null]. *)
Definition planTypeOfPrice (env : ProcessEnv) (priceId : option string)
  : option (Member PlanType) :=
  match nonempty priceId with
  | Some p => getPlanTypeFromPriceId env p
  | None => None
  end.

(** [new Date(seconds * 1000)]; [undefined * 1000] is NaN. *)
Definition dateOfSeconds (seconds : option Z) : option Z :=
  JsDate.ofNumber (option_map (fun s => s * 1000) seconds).

(** The status mapping of [handleSubscriptionUpdated]. *)
Definition mapStatus (s : StripeStatus) : Status :=
  match s with
  | stripe_canceled | stripe_incomplete_expired => canceled
  | stripe_past_due | stripe_unpaid => past_due
  | stripe_trialing => trialing
  | _ => active
  end.

Definition handleCheckoutCompleted (env : ProcessEnv) (stripe : StripeApi)
           (session : CheckoutSession) : M unit :=
  emit (console_log (Info "checkout completed")) ;;;
  getStripeClient env ;;;
  createSupabaseAdminClient env ;;;
  match nonempty (expandable_id (cs_subscription session)) with
  | None => emit (console_error SubscriptionIdMissing) ;;; ret tt
  | Some subscriptionId =>
      match subscriptions_retrieve stripe subscriptionId with
      | None => throw (Error StripeApiFailed)
      | Some subscription =>
          match first_truthy (ss_supabase_user_id subscription)
                             (nonempty (cs_supabase_user_id session)) with
          | None => emit (console_error UserIdMissing) ;;; ret tt
          | Some userId =>
              let priceId := ss_price_id subscription in
              match planTypeOfPrice env priceId with
              | None => emit (console_error (UnknownPriceId priceId)) ;;; ret tt
              | Some planType =>
                  let customerId := customer_id_of (cs_customer session) in
                  upsertSubscription userId customerId subscriptionId
                    planType active
                    (dateOfSeconds (ss_current_period_start subscription))
                    (dateOfSeconds (ss_current_period_end subscription)) ;;;
                  emit (console_log (Info "subscription stored"))
              end
          end
      end
  end.

Definition handleSubscriptionUpdated (env : ProcessEnv)
           (subscription : StripeSubscription) : M unit :=
  emit (console_log (Info "subscription updated")) ;;;
  createSupabaseAdminClient env ;;;
  match nonempty (ss_supabase_user_id subscription) with
  | None =>
      existingSubscription <-
        request {| q_table := t_subscriptions; q_verb := SELECT |}
                (Pg.select_user_by_stripe_subscription (ss_id subscription)) ;;
      match match existingSubscription with
            | PgData u => nonempty (Some u)
            | PgError_ _ => None
            end with
      | None => emit (console_error UserIdMissing) ;;; ret tt
      | Some existing_user_id =>
          let priceId := ss_price_id subscription in
          match planTypeOfPrice env priceId with
          | None => emit (console_error (UnknownPriceId priceId)) ;;; ret tt
          | Some planType =>
              let customerId := customer_id_of (ss_customer subscription) in
              let status := mapStatus (ss_status subscription) in
              upsertSubscription existing_user_id customerId
                (ss_id subscription) planType status
                (dateOfSeconds (ss_current_period_start subscription))
                (dateOfSeconds (ss_current_period_end subscription)) ;;;
              emit (console_log (Info "subscription stored"))
          end
      end
  | Some userId =>
      let priceId := ss_price_id subscription in
      match planTypeOfPrice env priceId with
      | None => emit (console_error (UnknownPriceId priceId)) ;;; ret tt
      | Some planType =>
          let customerId := customer_id_of (ss_customer subscription) in
          let status := mapStatus (ss_status subscription) in
          upsertSubscription userId customerId (ss_id subscription)
            planType status
            (dateOfSeconds (ss_current_period_start subscription))
            (dateOfSeconds (ss_current_period_end subscription)) ;;;
          emit (console_log (Info "subscription stored"))
      end
  end.

Definition handleSubscriptionDeleted (env : ProcessEnv)
           (subscription : StripeSubscription) : M unit :=
  emit (console_log (Info "subscription deleted")) ;;;
  createSupabaseAdminClient env ;;;
  cancelSubscription (ss_id subscription) ;;;
  if negb (ss_cancel_at_period_end subscription) then
    revertToFreePlan (ss_id subscription) ;;;
    emit (console_log (Info "reverted to the free plan"))
  else
    emit (console_log (Info "reverts at period end")).

(** The row after [handlePaymentFailed]'s update. *)
Definition past_due_row (now : Z) (r : Subscriptions.Row) : Subscriptions.Row :=
  {| Subscriptions.id := Subscriptions.id r;
     Subscriptions.user_id := Subscriptions.user_id r;
     Subscriptions.stripe_customer_id := Subscriptions.stripe_customer_id r;
     Subscriptions.stripe_subscription_id :=
       Subscriptions.stripe_subscription_id r;
     Subscriptions.plan_type := Subscriptions.plan_type r;
     Subscriptions.status := past_due;
     Subscriptions.current_period_start :=
       Subscriptions.current_period_start r;
     Subscriptions.current_period_end := Subscriptions.current_period_end r;
     Subscriptions.created_at := Subscriptions.created_at r;
     Subscriptions.updated_at := now |}.

Definition handlePaymentFailed (env : ProcessEnv) (invoice : Invoice)
  : M unit :=
  emit (console_log (Info "payment failed")) ;;;
  createSupabaseAdminClient env ;;;
  match nonempty (expandable_id (inv_subscription invoice)) with
  | None => emit (console_error SubscriptionIdMissing) ;;; ret tt
  | Some subscriptionId =>
      now <- new_Date ;;
      r <- request {| q_table := t_subscriptions; q_verb := UPDATE |}
                   (Pg.update_by_stripe_subscription (past_due_row now)
                                                     subscriptionId) ;;
      match r with
      | PgError_ _ => emit (console_error StatusUpdateFailed) ;;; ret tt
      | PgData _ => emit (console_log (Info "marked past_due"))
      end
  end.

(** The incoming webhook request: the raw body and the
    [stripe-signature] header. *)
Record WebhookRequest : Type := {
  wh_body : string;
  wh_signature : option string
}.

(** The [switch (event.type)] of the endpoint. *)
Definition dispatch (env : ProcessEnv) (stripe : StripeApi)
           (event : StripeEvent) : M unit :=
  emit (console_log (Info "webhook event received")) ;;;
  match event with
  | checkout_session_completed session =>
      handleCheckoutCompleted env stripe session
  | customer_subscription_updated subscription =>
      handleSubscriptionUpdated env subscription
  | customer_subscription_deleted subscription =>
      handleSubscriptionDeleted env subscription
  | invoice_payment_failed invoice => handlePaymentFailed env invoice
  | unhandled_event _ => emit (console_log (Info "unhandled event type"))
  end.

Module Webhook.

Definition POST (env : ProcessEnv) (stripe : StripeApi)
           (request : WebhookRequest) : M Response :=
  try_catch
    (match nonempty (wh_signature request) with
     | None =>
         emit (console_error SignatureMissing) ;;;
         ret (NextResponse_json (json_error SignatureMissing None None) 400)
     | Some signature =>
         verified <-
           try_catch
             (event <- verifyStripeWebhook env stripe
                         (wh_body request) signature ;;
              ret (Some event))
             (fun verifyError =>
                emit (console_error SignatureVerificationFailed) ;;;
                ret None) ;;
         match verified with
         | None =>
             ret (NextResponse_json
                    (json_error SignatureVerificationFailed None None) 400)
         | Some event =>
             dispatch env stripe event ;;;
             ret (NextResponse_json json_received 200)
         end
     end)
    (fun error =>
       emit (console_error WebhookFailed) ;;;
       ret (NextResponse_json (json_error (err_message error) None None)
                              500)).

End Webhook.

(* ===================================================================== *)
(** ** The metered features                                                *)
(* ===================================================================== *)

(** What [openai.chat.completions.create] does for a request: it throws
    (the error carrying an HTTP status), or it returns a completion whose
    first choice may have no content. *)
Inductive Completion : Type :=
| completion_throws (e : JsError)
| completion_content (content : option string).

(** The OpenAI client and the reading of its answers. [create model input]
    is the API call; [extractJson] is the regular-expression match followed
    by [JSON.parse] of the OCR route ([None]: no JSON found, or it does not
    parse). *)
Record OpenAI : Type := {
  create : string -> string -> Completion;
  extractJson : string -> option string
}.

Definition getOpenAIClient (env : ProcessEnv) : M unit :=
  if truthy (OPENAI_API_KEY env) then ret tt
  else throw (Error OpenAIKeyMissing).

Definition chat_completions_create (openai : OpenAI) (model input : string)
  : M (option string) :=
  match create openai model input with
  | completion_throws e => throw e
  | completion_content c => ret c
  end.

(** The usage snapshot of a success response:
    [{ currentUsage + 1, limit, remaining - 1, planType }]. *)
Definition snapshotAfterUse (usageCheck : UsageLimitCheckResult) : UsageInfo :=
  {| ui_currentUsage := currentUsage usageCheck + 1;
     ui_limit := limit usageCheck;
     ui_remaining := JsNum.sub (remaining usageCheck) 1;
     ui_planType := check_planType usageCheck |}.

(** The usage snapshot of a quota-exceeded response. *)
Definition snapshotOf (usageCheck : UsageLimitCheckResult) : UsageInfo :=
  {| ui_currentUsage := currentUsage usageCheck;
     ui_limit := limit usageCheck;
     ui_remaining := remaining usageCheck;
     ui_planType := check_planType usageCheck |}.

(** [try { await incrementUsage(...) } catch (usageError) { console.error }]. *)
Definition incrementUsageBestEffort (env : ProcessEnv) (userId : string)
           (feature : UsageFeature) : M unit :=
  try_catch (incrementUsage env userId feature)
            (fun usageError => emit (console_error UsageCountUpdateFailed)).

Module Ocr.

(** [session]: the user of [supabase.auth.getUser()], if logged in.
    [json]: the parsed body, [None] when [request.json()] rejects;
    inside, the [imageBase64] field. *)
Record Request : Type := {
  session : option string;
  json : option (option string)
}.

Definition POST (env : ProcessEnv) (openai : OpenAI) (request : Request)
  : M Response :=
  try_catch
    (match session request with
     | None =>
         ret (NextResponse_json
                (json_error LoginRequired (Some UNAUTHORIZED) None) 401)
     | Some user =>
         usageCheck <- checkUsageLimit env user ocr ;;
         if negb (allowed usageCheck) then
           ret (NextResponse_json
                  (json_error UsageLimitReached (Some USAGE_LIMIT_EXCEEDED)
                              (Some (snapshotOf usageCheck))) 403)
         else
           match json request with
           | None => throw (Error BodyUnreadable)
           | Some body =>
               match nonempty body with
               | None =>
                   ret (NextResponse_json
                          (json_error ImageRequired None None) 400)
               | Some imageBase64 =>
                   client <-
                     try_catch (getOpenAIClient env ;;; ret true)
                               (fun _ => ret false) ;;
                   if negb client then
                     ret (NextResponse_json
                            (json_error OpenAIKeyMissing None None) 500)
                   else
                     resultText <-
                       chat_completions_create openai "gpt-4o" imageBase64 ;;
                     match nonempty resultText with
                     | None =>
                         ret (NextResponse_json
                                (json_error AnalysisFailed None None) 500)
                     | Some text =>
                         match extractJson openai text with
                         | None =>
                             emit (console_error ResultUnparseable) ;;;
                             ret (NextResponse_json
                                    (json_error ResultUnparseable None None)
                                    500)
                         | Some ocrResult =>
                             incrementUsageBestEffort env user ocr ;;;
                             ret (NextResponse_json
                                    (json_ocr_success ocrResult
                                       (snapshotAfterUse usageCheck)) 200)
                         end
                     end
               end
           end
     end)
    (fun error =>
       emit (console_error EndpointFailed) ;;;
       if has_status error 401 then
         ret (NextResponse_json (json_error OpenAIKeyInvalid None None) 401)
       else if has_status error 429 then
         ret (NextResponse_json (json_error RateLimited None None) 429)
       else
         ret (NextResponse_json
                (json_error (err_message error) None None) 500)).

End Ocr.

Module AiAssistant.

(** The [message] field of the body when it is a string, with the two
    measures the route takes of it: [message.trim().length] and
    [message.length] (UTF-16 code units). *)
Record ChatInput : Type := {
  text : string;
  trimmedLength : Z;
  length : Z
}.

(** [session]: the user of [supabase.auth.getUser()], if logged in.
    [json]: the parsed body, [None] when [request.json()] rejects; inside,
    the [message] field, [None] when it is absent or not a string.
    [businessData]: what [fetchUserBusinessData] returns from the sales
    and expenses tables, [None] when it throws. *)
Record Request : Type := {
  session : option string;
  json : option (option ChatInput);
  businessData : option string
}.

Definition fallbackContext : string := "(business data unavailable)".

(** [!message || typeof message !== "string"
     || message.trim().length === 0]. *)
Definition messageMissing (m : option ChatInput) : bool :=
  match m with
  | None => true
  | Some c => (length c =? 0) || (trimmedLength c =? 0)
  end.

Definition POST (env : ProcessEnv) (openai : OpenAI) (request : Request)
  : M Response :=
  try_catch
    (match session request with
     | None =>
         ret (NextResponse_json
                (json_error LoginRequired (Some UNAUTHORIZED) None) 401)
     | Some user =>
         usageCheck <- checkUsageLimit env user ai_assistant ;;
         if negb (allowed usageCheck) then
           ret (NextResponse_json
                  (json_error UsageLimitReached (Some USAGE_LIMIT_EXCEEDED)
                              (Some (snapshotOf usageCheck))) 403)
         else
           match json request with
           | None => throw (Error BodyUnreadable)
           | Some body =>
               match body with
               | None =>
                   ret (NextResponse_json
                          (json_error MessageRequired None None) 400)
               | Some message =>
                   if messageMissing body then
                     ret (NextResponse_json
                            (json_error MessageRequired None None) 400)
                   else if 1000 <? length message then
                     ret (NextResponse_json
                            (json_error MessageTooLong None None) 400)
                   else
                     let businessDataContext :=
                       match businessData request with
                       | Some data => data
                       | None => fallbackContext
                       end in
                     client <-
                       try_catch (getOpenAIClient env ;;; ret true)
                                 (fun _ => ret false) ;;
                     if negb client then
                       ret (NextResponse_json
                              (json_error OpenAIKeyMissing None None) 500)
                     else
                       answer <-
                         chat_completions_create openai "gpt-4o-mini"
                           (businessDataContext ++ text message)%string ;;
                       match nonempty answer with
                       | None =>
                           ret (NextResponse_json
                                  (json_error AnalysisFailed None None) 500)
                       | Some assistantMessage =>
                           incrementUsageBestEffort env user ai_assistant ;;;
                           ret (NextResponse_json
                                  (json_chat_success assistantMessage
                                     (snapshotAfterUse usageCheck)) 200)
                       end
               end
           end
     end)
    (fun error =>
       emit (console_error EndpointFailed) ;;;
       if has_status error 429 then
         ret (NextResponse_json (json_error RateLimited None None) 429)
       else
         ret (NextResponse_json
                (json_error (err_message error) None None) 500)).

End AiAssistant.

(** The Excel export button (a client component: it runs in the browser
    with the user's Supabase session and reports through component state
    instead of an HTTP response). *)
Module ExportButton.

(** [salesResult], [expensesResult]: the two reads of the period's rows,
    [None] for an [error] reply, otherwise the number of rows.
    [download]: whether [downloadExcelReport] completes ([false]: it
    throws). *)
Record Click : Type := {
  session : option string;
  salesResult : option nat;
  expensesResult : option nat;
  download : bool
}.

(** What the component shows afterwards: the [exportError] state, and
    whether a file was handed to the browser. *)
Record Outcome : Type := {
  exportError : option Message;
  downloaded : bool
}.

Definition handleExport (env : ProcessEnv) (click : Click) : M Outcome :=
  try_catch
    (match session click with
     | None =>
         ret {| exportError := Some LoginRequired; downloaded := false |}
     | Some user =>
         usageCheck <- checkUsageLimit env user export ;;
         if negb (allowed usageCheck) then
           ret {| exportError := Some UsageLimitReached;
                  downloaded := false |}
         else
           match salesResult click, expensesResult click with
           | None, _ => throw (Error SalesFetchFailed)
           | Some _, None => throw (Error ExpensesFetchFailed)
           | Some sales, Some expenses =>
               if (Nat.eqb sales 0) && (Nat.eqb expenses 0) then
                 ret {| exportError := Some NoDataInPeriod;
                        downloaded := false |}
               else if negb (download click) then
                 throw (Error DownloadFailed)
               else
                 incrementUsageBestEffort env user export ;;;
                 ret {| exportError := None; downloaded := true |}
           end
     end)
    (fun error =>
       emit (console_error EndpointFailed) ;;;
       ret {| exportError := Some (err_message error);
              downloaded := false |}).

End ExportButton.

(* ===================================================================== *)
(** ** Vocabulary of the properties                                        *)
(* ===================================================================== *)

(** No database request of the run fails transiently. *)
Definition no_faults (w : World) : Prop :=
  Forall (fun b => b = false) (faults w).

Definition usage_key (r : UsageTracking.Row) : string * JsDate.Civil :=
  (UsageTracking.user_id r, UsageTracking.period_start r).

(** The counter of [feature] in a ledger row. *)
Definition rowCount (feature : UsageFeature) (r : UsageTracking.Row) : Z :=
  match feature with
  | ocr => UsageTracking.ocr_count r
  | export => UsageTracking.export_count r
  | ai_assistant => UsageTracking.ai_assistant_count r
  end.

(** The constraints the schema puts on [usage_tracking]: PRIMARY KEY (id),
    UNIQUE (user_id, period_start), identifiers handed out so far are below
    the fresh one, and the counters fit their INTEGER columns. *)
Record usage_schema_ok (d : Db) : Prop := {
  ok_ids : NoDup (map UsageTracking.id (usage_tracking d));
  ok_keys : NoDup (map usage_key (usage_tracking d));
  ok_fresh : Forall (fun r => UsageTracking.id r < next_uuid d)
                    (usage_tracking d);
  ok_int4 : Forall (fun r => forall f, in_int4 (rowCount f r) = true)
                   (usage_tracking d)
}.

Definition feature_eqb (f f' : UsageFeature) : bool :=
  match f, f' with
  | ocr, ocr | export, export | ai_assistant, ai_assistant => true
  | _, _ => false
  end.

(** What the ledger holds for a user, a period and a feature: the counter of
    the entry, and [0] while there is no entry. *)
Definition ledgerCount (d : Db) (userId : string) (period : JsDate.Civil)
           (feature : UsageFeature) : Z :=
  match filter (Pg.usage_matches userId period) (usage_tracking d) with
  | r :: _ => rowCount feature r
  | [] => 0
  end.

(** Every subscription row of the user is on the free plan (a user without
    a row is on the free plan as well). *)
Definition on_free_plan (d : Db) (userId : string) : Prop :=
  forall r, In r (subscriptions d) ->
            Subscriptions.user_id r = userId ->
            Subscriptions.plan_type r = free.

(** The monthly limits of the free plan. *)
Definition freeLimit (feature : UsageFeature) : Z :=
  match feature with
  | ocr => 50
  | export => 3
  | ai_assistant => 10
  end.

(** Calls of [incrementUsage] one after the other, at the given times. *)
Fixpoint incrementTimes (env : ProcessEnv) (userId : string)
         (feature : UsageFeature) (times : list Z) (w : World)
  : Outcome unit * World :=
  match times with
  | [] => (Return tt, w)
  | t :: rest =>
      match incrementUsage env userId feature (at_time t w) with
      | (Return _, w') => incrementTimes env userId feature rest w'
      | (Throw e, w') => (Throw e, w')
      end
  end.

(** A ledger row keeps its identity and none of its counters went down. *)
Definition row_le (r r' : UsageTracking.Row) : Prop :=
  UsageTracking.id r' = UsageTracking.id r
  /\ usage_key r' = usage_key r
  /\ forall f, rowCount f r <= rowCount f r'.

(** The ledger after an operation: the rows that were there, in place and
    not decreased, followed by the rows created since. *)
Definition ledger_le (old new : list UsageTracking.Row) : Prop :=
  exists kept created, new = kept ++ created /\ Forall2 row_le old kept.

Definition zero_row (r : UsageTracking.Row) : Prop :=
  forall f, rowCount f r = 0.


(** The operations that touch the usage ledger. *)
Inductive LedgerOp : Type :=
| op_checkUsageLimit (userId : string) (feature : UsageFeature)
| op_getMonthlyUsage (userId : string)
| op_incrementUsage (userId : string) (feature : UsageFeature).

Definition runOp (env : ProcessEnv) (op : LedgerOp) (w : World) : World :=
  match op with
  | op_checkUsageLimit u f => snd (checkUsageLimit env u f w)
  | op_getMonthlyUsage u => snd (getMonthlyUsage env u w)
  | op_incrementUsage u f => snd (incrementUsage env u f w)
  end.

(** A history of ledger operations, each at its own time. *)
Fixpoint runOps (env : ProcessEnv) (ops : list (Z * LedgerOp)) (w : World)
  : World :=
  match ops with
  | [] => w
  | (t, op) :: rest => runOps env rest (runOp env op (at_time t w))
  end.

(** The local calendar month (year, zero-based month) a time falls in. *)
Definition localMonth (env : ProcessEnv) (t : Z) : Z * Z :=
  (JsDate.getFullYear (TZ env) t, JsDate.getMonth (TZ env) t).

(** The local calendar date a time falls on. *)
Definition localDate (env : ProcessEnv) (t : Z) : JsDate.Civil :=
  JsDate.civil_from_days (JsDate.Day (JsDate.LocalTime (TZ env) t)).

(** Offsets from UTC stay within a day either way. *)
Definition tz_in_range (env : ProcessEnv) : Prop :=
  -1440 < TZ env < 1440.

(** A subscription row without its [updated_at] stamp. *)
Definition forget_updated_at (r : Subscriptions.Row) : Subscriptions.Row :=
  {| Subscriptions.id := Subscriptions.id r;
     Subscriptions.user_id := Subscriptions.user_id r;
     Subscriptions.stripe_customer_id := Subscriptions.stripe_customer_id r;
     Subscriptions.stripe_subscription_id :=
       Subscriptions.stripe_subscription_id r;
     Subscriptions.plan_type := Subscriptions.plan_type r;
     Subscriptions.status := Subscriptions.status r;
     Subscriptions.current_period_start :=
       Subscriptions.current_period_start r;
     Subscriptions.current_period_end := Subscriptions.current_period_end r;
     Subscriptions.created_at := Subscriptions.created_at r;
     Subscriptions.updated_at := 0 |}.

(** Two databases hold the same records: everything is equal except the
    [updated_at] stamps of the subscription rows. *)
Definition same_records (d1 d2 : Db) : Prop :=
  auth_users d1 = auth_users d2
  /\ map forget_updated_at (subscriptions d1)
     = map forget_updated_at (subscriptions d2)
  /\ usage_tracking d1 = usage_tracking d2
  /\ next_uuid d1 = next_uuid d2.

(** The subscription row is the one a Stripe subscription id refers to. *)
Definition refers_to (subscriptionId : string) (r : Subscriptions.Row) : bool :=
  opt_string_is (Subscriptions.stripe_subscription_id r) subscriptionId.

(** The world after one database request that left the database as [d]. *)
Definition after_request (q : Query) (d : Db) (w : World) : World :=
  {| db := d; faults := tl (faults w); trace := trace w ++ [q];
     console := console w; clock := clock w |}.

(** The world after one more console line. *)
Definition after_emit (l : ConsoleLine) (w : World) : World :=
  {| db := db w; faults := faults w; trace := trace w;
     console := console w ++ [l]; clock := clock w |}.

(** The ledger row [insert_usage] creates. *)
Definition fresh_usage_row (d : Db) (userId : string) (period : JsDate.Civil)
           (now : Z) : UsageTracking.Row :=
  {| UsageTracking.id := next_uuid d;
     UsageTracking.user_id := userId;
     UsageTracking.ocr_count := 0;
     UsageTracking.export_count := 0;
     UsageTracking.ai_assistant_count := 0;
     UsageTracking.period_start := period;
     UsageTracking.created_at := now |}.

Definition q_select_subscription : Query :=
  {| q_table := t_subscriptions; q_verb := SELECT |}.
Definition q_select_usage : Query :=
  {| q_table := t_usage_tracking; q_verb := SELECT |}.
Definition q_insert_usage : Query :=
  {| q_table := t_usage_tracking; q_verb := INSERT |}.
Definition q_update_usage : Query :=
  {| q_table := t_usage_tracking; q_verb := UPDATE |}.

(* ===================================================================== *)
(** ** Concrete scenarios                                                  *)
(* ===================================================================== *)

Module Scenario.

(** A configured deployment in Japan (UTC+9) and one on UTC. *)
Definition env_jst : ProcessEnv :=
  {| TZ := 540;
     STRIPE_SECRET_KEY := Some "sk_test";
     STRIPE_WEBHOOK_SECRET := Some "whsec_test";
     STRIPE_PRICE_STANDARD_MONTHLY := None;
     STRIPE_PRICE_PREMIUM_MONTHLY := None;
     STRIPE_PRICE_PRO_YEARLY := None;
     NEXT_PUBLIC_SUPABASE_URL := Some "https://db.example";
     SUPABASE_SERVICE_ROLE_KEY := Some "service-role";
     OPENAI_API_KEY := Some "sk-openai" |}.

Definition env_utc : ProcessEnv :=
  {| TZ := 0;
     STRIPE_SECRET_KEY := Some "sk_test";
     STRIPE_WEBHOOK_SECRET := Some "whsec_test";
     STRIPE_PRICE_STANDARD_MONTHLY := None;
     STRIPE_PRICE_PREMIUM_MONTHLY := None;
     STRIPE_PRICE_PRO_YEARLY := None;
     NEXT_PUBLIC_SUPABASE_URL := Some "https://db.example";
     SUPABASE_SERVICE_ROLE_KEY := Some "service-role";
     OPENAI_API_KEY := Some "sk-openai" |}.

Definition alice : string := "alice".

(** 2024-01-31T12:00:00Z, 2024-02-01T12:00:00Z, 2024-02-15T03:00:00Z and
    three later instants of February 2024. *)
Definition jan31 : Z := 1706702400000.
Definition feb01 : Z := 1706788800000.
Definition feb15 : Z := 1707966000000.
Definition feb16 : Z := 1708052400000.
Definition feb17 : Z := 1708138800000.
Definition feb18 : Z := 1708225200000.

(** A registered user with no subscription row and no ledger entry. *)
Definition db_new_user : Db :=
  {| auth_users := [alice]; subscriptions := []; usage_tracking := [];
     next_uuid := 1 |}.

Definition world_of (d : Db) (t : Z) : World :=
  {| db := d; faults := []; trace := []; console := []; clock := t |}.

(** Alice on the premium plan, subscription [sub_1] of customer [cus_1]. *)
Definition premium_row : Subscriptions.Row :=
  {| Subscriptions.id := 1;
     Subscriptions.user_id := alice;
     Subscriptions.stripe_customer_id := Some "cus_1";
     Subscriptions.stripe_subscription_id := Some "sub_1";
     Subscriptions.plan_type := premium;
     Subscriptions.status := active;
     Subscriptions.current_period_start := Some 1706745600000;
     Subscriptions.current_period_end := Some 1709251200000;
     Subscriptions.created_at := 1706745600000;
     Subscriptions.updated_at := 1706745600000 |}.

Definition db_premium : Db :=
  {| auth_users := [alice]; subscriptions := [premium_row];
     usage_tracking := []; next_uuid := 2 |}.

(** Alice, on the free plan, with one export counted in February 2024
    (the entry a UTC deployment keeps for that month). *)
Definition db_one_export : Db :=
  {| auth_users := [alice]; subscriptions := [];
     usage_tracking :=
       [ {| UsageTracking.id := 1;
            UsageTracking.user_id := alice;
            UsageTracking.ocr_count := 0;
            UsageTracking.export_count := 1;
            UsageTracking.ai_assistant_count := 0;
            UsageTracking.period_start := JsDate.mkCivil 2024 2 1;
            UsageTracking.created_at := feb01 |} ];
     next_uuid := 2 |}.

(** An OpenAI client that reads every receipt as the same JSON. *)
Definition openai_ok : OpenAI :=
  {| create := fun _ _ => completion_content (Some "{}");
     extractJson := fun text => Some text |}.

(** A scan request of Alice's, and a click on her export button with one
    sale in the chosen period. *)
Definition scan_request : Ocr.Request :=
  {| Ocr.session := Some alice;
     Ocr.json := Some (Some "data:image/png;base64,AAAA") |}.

Definition export_click : ExportButton.Click :=
  {| ExportButton.session := Some alice;
     ExportButton.salesResult := Some 1%nat;
     ExportButton.expensesResult := Some 0%nat;
     ExportButton.download := true |}.


End Scenario.

(** Every run of [m] takes the database from [d] to some [d'] with [R d d']. *)
Definition db_step (R : Db -> Db -> Prop) {A : Type} (m : M A) : Prop :=
  forall w, R (db w) (db (snd (m w))).

(** A subscription row keeps its user, and its customer reference if it
    had one. *)
Definition customer_kept (r r' : Subscriptions.Row) : Prop :=
  Subscriptions.user_id r' = Subscriptions.user_id r
  /\ (Subscriptions.stripe_customer_id r <> None ->
      Subscriptions.stripe_customer_id r' <> None).

(** Every subscription row is still there, in place, with [customer_kept];
    rows may have been added. *)
Definition customers_kept (d d' : Db) : Prop :=
  exists kept created,
    subscriptions d' = kept ++ created
    /\ Forall2 customer_kept (subscriptions d) kept.

(** The rows are the same ones and no [stripe_customer_id] changed. *)
Definition customers_same (d d' : Db) : Prop :=
  Forall2 (fun r r' =>
             Subscriptions.user_id r' = Subscriptions.user_id r
             /\ Subscriptions.stripe_customer_id r'
                = Subscriptions.stripe_customer_id r)
          (subscriptions d) (subscriptions d').

(** The Supabase service-role client can be built. *)
Definition admin_configured (env : ProcessEnv) : bool :=
  truthy (NEXT_PUBLIC_SUPABASE_URL env)
  && truthy (SUPABASE_SERVICE_ROLE_KEY env).

(** What handling a subscription-deleted event at time [now] makes of a
    subscription row. *)
Definition after_deletion (subscription : StripeSubscription) (now : Z)
           (r : Subscriptions.Row) : Subscriptions.Row :=
  if refers_to (ss_id subscription) r then
    if ss_cancel_at_period_end subscription then canceled_row now r
    else free_row now (canceled_row now r)
  else r.

(** The values of an upsert, stamped at another time. *)
Definition restamped (t : Z) (v : Pg.UpsertValues) : Pg.UpsertValues :=
  {| Pg.v_user_id := Pg.v_user_id v;
     Pg.v_stripe_customer_id := Pg.v_stripe_customer_id v;
     Pg.v_stripe_subscription_id := Pg.v_stripe_subscription_id v;
     Pg.v_plan_type := Pg.v_plan_type v;
     Pg.v_status := Pg.v_status v;
     Pg.v_current_period_start := Pg.v_current_period_start v;
     Pg.v_current_period_end := Pg.v_current_period_end v;
     Pg.v_updated_at := t |}.

Definition q_update_subscription : Query :=
  {| q_table := t_subscriptions; q_verb := UPDATE |}.
Definition q_upsert_subscription : Query :=
  {| q_table := t_subscriptions; q_verb := UPSERT |}.

(** A run of [m] that starts with no fault pending ends with none. *)
Definition nf_step {A : Type} (m : M A) : Prop :=
  forall w, no_faults w -> no_faults (snd (m w)).

(** The user a subscription id leads to in the table, as
    [handleSubscriptionUpdated] looks it up. *)
Definition userOfSubscription (subscriptionId : string) (d : Db)
  : option string :=
  match fst (Pg.select_user_by_stripe_subscription subscriptionId 0 d) with
  | PgData u => nonempty (Some u)
  | PgError_ _ => None
  end.

From Stdlib Require DecimalString.
Unset Implicit Arguments.

(* ===================================================================== *)
(** ** Further vocabulary                                                  *)
(* ===================================================================== *)

(** The entry of a feature in the monthly usage report. *)
Definition monthlyOf (feature : UsageFeature) (m : MonthlyUsage)
  : FeatureUsage :=
  match feature with
  | ocr => mu_ocr m
  | export => mu_export m
  | ai_assistant => mu_aiAssistant m
  end.

(** The requests of a run: what [trace] gained between two worlds. *)
Definition requestsSince (w w' : World) : list Query :=
  skipn (List.length (trace w)) (trace w').

(** The time values from 0001-01-01T00:00:00Z up to, not including,
    10000-01-01T00:00:00Z: those [toISOString] writes with a four-digit
    year, the form a timestamp column reads. *)
Definition fourDigitYear (t : Z) : Prop :=
  -62135596800000 <= t < 253402300800000.

(** A period bound of which [new Date(seconds * 1000)] makes the Invalid
    Date: the field is missing, or the product is beyond the range of
    [Date]. *)
Definition noDate (seconds : option Z) : Prop :=
  match seconds with
  | Some s => JsDate.maxTimeValue < Z.abs (s * 1000)
  | None => True
  end.

(** The plan the [subscriptions] table holds for a user, as
    [getUserPlanType] reads it: the plan of the single row of the user,
    and [free] when [.single()] finds no such row. *)
Definition planOf (d : Db) (userId : string) : PlanType :=
  match filter (fun r => (Subscriptions.user_id r =? userId)%string)
               (subscriptions d) with
  | [r] => Subscriptions.plan_type r
  | _ => free
  end.

(** The users the [subscriptions] table has rows for, in the order of the
    rows. *)
Definition subscription_users (d : Db) : list string :=
  map Subscriptions.user_id (subscriptions d).

(** The constraints the schema puts on the [user_id] column of
    [subscriptions]: UNIQUE, and REFERENCES [auth.users]. *)
Record subscriptions_schema_ok (d : Db) : Prop := {
  ok_one_row_per_user : NoDup (subscription_users d);
  ok_registered : Forall (fun u => In u (auth_users d)) (subscription_users d)
}.

(** The users and the usage ledger are as they were. *)
Definition ledger_untouched (d d' : Db) : Prop :=
  auth_users d' = auth_users d /\ usage_tracking d' = usage_tracking d.

(** From one database to the next, the constraints on [subscriptions]
    hold if they held. *)
Definition keeps_subscriptions_schema (d d' : Db) : Prop :=
  subscriptions_schema_ok d -> subscriptions_schema_ok d'.

(** Billing events of the scenarios: Alice's subscription [sub_1] of
    customer [cus_1], and a Stripe client that accepts every signature and
    delivers the given event. *)
Module Events.

Definition alice_subscription (price : string) (status : StripeStatus)
           (atPeriodEnd : bool) : StripeSubscription :=
  {| ss_id := "sub_1";
     ss_supabase_user_id := Some Scenario.alice;
     ss_price_id := Some price;
     ss_customer := ExpId "cus_1";
     ss_status := status;
     ss_current_period_start := Some 1706745600;
     ss_current_period_end := Some 1709251200;
     ss_cancel_at_period_end := atPeriodEnd |}.

Definition alice_checkout : CheckoutSession :=
  {| cs_id := "cs_1";
     cs_subscription := ExpId "sub_1";
     cs_supabase_user_id := Some Scenario.alice;
     cs_customer := ExpId "cus_1" |}.

Definition alice_invoice : Invoice :=
  {| inv_id := "in_1"; inv_subscription := ExpId "sub_1" |}.

Definition delivering (event : StripeEvent) : StripeApi :=
  {| constructEvent := fun _ _ _ => Some event;
     subscriptions_retrieve :=
       fun _ => Some (alice_subscription "price_premium_monthly"
                                         stripe_active false) |}.

Definition signed : WebhookRequest :=
  {| wh_body := "{}"; wh_signature := Some "t=1,v1=abc" |}.

(** A deployment where premium and pro_yearly are configured with the
    same price id. *)
Definition env_same_price : ProcessEnv :=
  {| TZ := 0;
     STRIPE_SECRET_KEY := Some "sk_test";
     STRIPE_WEBHOOK_SECRET := Some "whsec_test";
     STRIPE_PRICE_STANDARD_MONTHLY := Some "price_A";
     STRIPE_PRICE_PREMIUM_MONTHLY := Some "price_B";
     STRIPE_PRICE_PRO_YEARLY := Some "price_B";
     NEXT_PUBLIC_SUPABASE_URL := Some "https://db.example";
     SUPABASE_SERVICE_ROLE_KEY := Some "service-role";
     OPENAI_API_KEY := Some "sk-openai" |}.

(** Alice, on the free plan, with her three exports of February 2024
    used. *)
Definition db_exports_used : Db :=
  {| auth_users := [Scenario.alice]; subscriptions := [];
     usage_tracking :=
       [ {| UsageTracking.id := 1;
            UsageTracking.user_id := Scenario.alice;
            UsageTracking.ocr_count := 0;
            UsageTracking.export_count := 3;
            UsageTracking.ai_assistant_count := 0;
            UsageTracking.period_start := JsDate.mkCivil 2024 2 1;
            UsageTracking.created_at := Scenario.feb01 |} ];
     next_uuid := 2 |}.



(** 2024-05-15T12:00:00Z. *)
Definition may15 : Z := 1715774400000.

(** A world whose first database request fails. *)
Definition world_failing_first (d : Db) (t : Z) : World :=
  {| db := d; faults := [true]; trace := []; console := []; clock := t |}.

End Events.

(* ===================================================================== *)
(** ** [lib/dateUtils.ts] (in the tree as the head of unnamed/part_004)    *)
(* ===================================================================== *)

Module DateUtils.

(** [String(n)] for an integer [n] (below 1e21 in size, where JavaScript
    switches to exponent notation). *)
Definition jsString (n : Z) : string :=
  DecimalString.NilZero.string_of_int (Z.to_int n).

(** [s.padStart(2, "0")]. *)
Definition padStart2 (s : string) : string :=
  if (String.length s <? 2)%nat then ("0" ++ s)%string else s.

(** The largest time value a Date holds, 8.64e15 ms: 100 000 000 days
    on either side of the epoch. *)
Definition maxTime : Z := 100000000 * JsDate.msPerDay.

(** The year a constructor argument denotes: 0..99 stand for
    1900..1999. *)
Definition fullYearOf (year : Z) : Z :=
  if (0 <=? year) && (year <=? 99) then 1900 + year else year.

(** [new Date(year, monthIndex, day)] for any integers: the month index is
    carried into the year and the day counts on from the first of the
    month (day 0 is the last day of the month before). The result is the
    time value of that local midnight, or [None], the Invalid Date, when
    that lies beyond [maxTime]. *)
Definition newDate (tz year monthIndex day : Z) : option Z :=
  let t :=
    (JsDate.days_from_civil (fullYearOf year + monthIndex / 12)
                            (monthIndex mod 12 + 1) 1
     + day - 1) * JsDate.msPerDay
    - tz * JsDate.msPerMinute in
  if Z.abs t <=? maxTime then Some t else None.

(** [new Date(year, monthIndex, day).toISOString().split("T")[0]]:
    [toISOString] throws a RangeError on the Invalid Date, which is
    [None] here. *)
Definition isoDateOf (tz year monthIndex day : Z) : option JsDate.Civil :=
  option_map JsDate.toISODate (newDate tz year monthIndex day).

Record YearMonthOption : Type := {
  ymo_year : Z;
  ymo_month : Z;
  ymo_label : string;
  ymo_value : string
}.

Record MonthRange : Type := {
  startDate : JsDate.Civil;
  endDate : JsDate.Civil;
  monthKey : string;
  monthLabel : string
}.

(** [`${year}-${String(month).padStart(2, "0")}`]. *)
Definition yearMonthKey (year month : Z) : string :=
  (jsString year ++ "-" ++ padStart2 (jsString month))%string.

(** [`${year}年${month}月`]. *)
Definition yearMonthLabel (year month : Z) : string :=
  (jsString year ++ "年" ++ jsString month ++ "月")%string.

(** The values a loop [for (i = from; i >= from - count + 1; i--)] takes. *)
Definition countdown (from : Z) (count : nat) : list Z :=
  map (fun i => from - Z.of_nat i) (seq 0 count).

(** [getYearMonthOptions(yearsBack)] at time [now]: the outer loop runs
    over the years from the current one down to [currentYear - yearsBack],
    the inner one over the months from [maxMonth] down to 1. *)
Definition getYearMonthOptions (tz now yearsBack : Z)
  : list YearMonthOption :=
  let currentYear := JsDate.getFullYear tz now in
  let currentMonth := JsDate.getMonth tz now + 1 in
  flat_map
    (fun year =>
       let maxMonth := if year =? currentYear then currentMonth else 12 in
       map (fun month =>
              {| ymo_year := year; ymo_month := month;
                 ymo_label := yearMonthLabel year month;
                 ymo_value := yearMonthKey year month |})
           (countdown maxMonth (Z.to_nat maxMonth)))
    (countdown currentYear (Z.to_nat (yearsBack + 1))).

(** One round of the loop of [getMonthRange]: the entry of a month, or
    [None] when one of its two dates throws. *)
Definition monthRangeOf (tz year month : Z) : option MonthRange :=
  match isoDateOf tz year (month - 1) 1 with
  | None => None
  | Some first =>
      match isoDateOf tz year month 0 with
      | None => None
      | Some last =>
          Some {| startDate := first;
                  endDate := last;
                  monthKey := yearMonthKey year month;
                  monthLabel := yearMonthLabel year month |}
      end
  end.

(** How a call of [getMonthRange] ends. *)
Inductive Run (A : Type) : Type :=
| Returns (a : A)
| ThrowsRangeError
| StillRunning.

Arguments Returns {A} a.
Arguments ThrowsRangeError {A}.
Arguments StillRunning {A}.

(** The [while] loop of [getMonthRange], run for at most [fuel] rounds:
    [StillRunning] when the rounds are used up before the loop condition
    fails. *)
Fixpoint monthRangeLoop (fuel : nat) (tz currentYear currentMonth
                                         endYear endMonth : Z)
  : Run (list MonthRange) :=
  if (currentYear <? endYear)
     || ((currentYear =? endYear) && (currentMonth <=? endMonth))
  then
    match fuel with
    | O => StillRunning
    | S fuel' =>
        match monthRangeOf tz currentYear currentMonth with
        | None => ThrowsRangeError
        | Some range =>
            let next :=
              if 12 <? currentMonth + 1 then (currentYear + 1, 1)
              else (currentYear, currentMonth + 1) in
            match monthRangeLoop fuel' tz (fst next) (snd next)
                                 endYear endMonth with
            | Returns ranges => Returns (range :: ranges)
            | ThrowsRangeError => ThrowsRangeError
            | StillRunning => StillRunning
            end
        end
    end
  else Returns [].

(** A number of rounds the loop cannot exceed: the months left in the
    first year, thirteen for each year up to the end year (a start month
    of 0 gives the year thirteen rounds), and one. *)
Definition monthRangeRounds (startYear startMonth endYear : Z) : nat :=
  Z.to_nat (Z.max 0 (13 - startMonth)
            + 13 * Z.max 0 (endYear - startYear) + 1).

Definition getMonthRange (tz startYear startMonth endYear endMonth : Z)
  : Run (list MonthRange) :=
  monthRangeLoop (monthRangeRounds startYear startMonth endYear)
                 tz startYear startMonth endYear endMonth.

Record DateRange : Type := {
  startYear : Z;
  startMonth : Z;
  endYear : Z;
  endMonth : Z
}.

(** [getInitialDateRange(monthsBack)] at time [now];
    [Math.ceil(Math.abs(startMonth) / 12)] is taken on integers. *)
Definition getInitialDateRange (tz now monthsBack : Z) : DateRange :=
  let currentYear := JsDate.getFullYear tz now in
  let currentMonth := JsDate.getMonth tz now + 1 in
  let startMonth0 := currentMonth - (monthsBack - 1) in
  if startMonth0 <=? 0 then
    let yearsBack := (Z.abs startMonth0 + 11) / 12 in
    {| startYear := currentYear - yearsBack;
       startMonth := startMonth0 + yearsBack * 12;
       endYear := currentYear; endMonth := currentMonth |}
  else
    {| startYear := currentYear; startMonth := startMonth0;
       endYear := currentYear; endMonth := currentMonth |}.

(** [getCurrentMonthRange()] of the dashboard page at time [now]:
    [None] when one of the two dates throws. *)
Definition getCurrentMonthRange (tz now : Z)
  : option (JsDate.Civil * JsDate.Civil) :=
  let year := JsDate.getFullYear tz now in
  let month := JsDate.getMonth tz now in
  match isoDateOf tz year month 1 with
  | None => None
  | Some first =>
      match isoDateOf tz year (month + 1) 0 with
      | None => None
      | Some last => Some (first, last)
      end
  end.

End DateUtils.

(* ===================================================================== *)
(** ** The checkout and portal routes                                      *)
(**    ([app/api/stripe/checkout/route.ts], in the tree as
       unnamed/part_001, and [app/api/stripe/portal/route.ts], in the tree
       inside app/api/stripe/webhook/route.ts)                             *)
(* ===================================================================== *)

Module Checkout.

(** The environment variables these routes read beside those of
    [ProcessEnv]. *)
Record ServerEnv : Type := {
  NEXT_PUBLIC_SUPABASE_ANON_KEY : option string;
  NEXT_PUBLIC_APP_URL : option string;
  VERCEL_URL : option string
}.

(** [`${v}`] of an environment variable: an unset one reads
    ["undefined"]. *)
Definition templateOf (v : option string) : string :=
  match v with
  | Some s => s
  | None => "undefined"
  end.

(** The [baseUrl] of the checkout route,
    [process.env.NEXT_PUBLIC_APP_URL || process.env.VERCEL_URL
       ? `https://${process.env.VERCEL_URL}` : "http://localhost:3000"]:
    the conditional binds weaker than [||], so the disjunction is its
    condition. *)
Definition checkoutBaseUrl (senv : ServerEnv) : string :=
  if truthy (NEXT_PUBLIC_APP_URL senv) || truthy (VERCEL_URL senv)
  then ("https://" ++ templateOf (VERCEL_URL senv))%string
  else "http://localhost:3000".

(** The [baseUrl] of the portal route,
    [process.env.NEXT_PUBLIC_APP_URL ||
       (process.env.VERCEL_URL ? `https://${process.env.VERCEL_URL}`
                               : "http://localhost:3000")]. *)
Definition portalBaseUrl (senv : ServerEnv) : string :=
  or_else (NEXT_PUBLIC_APP_URL senv)
          (if truthy (VERCEL_URL senv)
           then ("https://" ++ templateOf (VERCEL_URL senv))%string
           else "http://localhost:3000").

(** [createSupabaseServerClient()]: the client of the logged-in user,
    built from the public URL and the anon key, so row level security
    applies to what it does. *)
Definition createSupabaseServerClient (env : ProcessEnv) (senv : ServerEnv)
  : M unit :=
  if truthy (NEXT_PUBLIC_SUPABASE_URL env)
     && truthy (NEXT_PUBLIC_SUPABASE_ANON_KEY senv)
  then ret tt
  else throw (Error SupabaseEnvMissing).

(** [stripe.customers.create({ email, metadata: { supabase_user_id } })]:
    the id of the new customer, or a thrown error. *)
Record StripeCustomers : Type := {
  customers_create : string -> string -> JsError + string
}.

(** [from("subscriptions").select("stripe_customer_id")
     .eq("user_id", u).single()]. *)
Definition select_customer (userId : string) (now : Z) (d : Db)
  : PgResponse (option string) * Db :=
  (match Pg.single (filter (fun r => (Subscriptions.user_id r =? userId)%string)
                           (subscriptions d)) with
   | PgData r => PgData (Subscriptions.stripe_customer_id r)
   | PgError_ e => PgError_ e
   end, d).

(** What the database answers to the upsert of the route. The route does
    not look at the answer. *)
Inductive WriteReply : Type :=
| written
| refused_by_policy.     (* 42501: row level security *)

(** [from("subscriptions").upsert({ user_id, stripe_customer_id,
     plan_type: "free", status: "active" }, { onConflict: "user_id" })]
    with the session of the user. The schema gives that role a SELECT and
    an INSERT policy on its own row and no UPDATE policy ("updates come
    from the webhook only"): when the user has a row, ON CONFLICT DO
    UPDATE is refused; when there is none, the row is inserted with the
    defaults of the other columns. *)
Definition upsert_customer_as_user (userId customerId : string)
           (now : Z) (d : Db) : PgResponse WriteReply * Db :=
  if existsb (fun r => (Subscriptions.user_id r =? userId)%string)
             (subscriptions d)
  then (PgData refused_by_policy, d)
  else if negb (mem_string userId (auth_users d)) then
    (PgError_ foreign_key_violation, d)
  else
    (PgData written,
     {| auth_users := auth_users d;
        subscriptions :=
          subscriptions d
          ++ [ {| Subscriptions.id := next_uuid d;
                  Subscriptions.user_id := userId;
                  Subscriptions.stripe_customer_id := Some customerId;
                  Subscriptions.stripe_subscription_id := None;
                  Subscriptions.plan_type := free;
                  Subscriptions.status := active;
                  Subscriptions.current_period_start := None;
                  Subscriptions.current_period_end := None;
                  Subscriptions.created_at := now;
                  Subscriptions.updated_at := now |} ];
        usage_tracking := usage_tracking d;
        next_uuid := next_uuid d + 1 |}).

(** [subscription?.stripe_customer_id], when it is truthy. *)
Definition storedCustomer (r : PgResponse (option string)) : option string :=
  match r with
  | PgData c => nonempty c
  | PgError_ _ => None
  end.

Definition getOrCreateStripeCustomer (env : ProcessEnv) (senv : ServerEnv)
           (stripe : StripeCustomers) (userId userEmail : string)
  : M string :=
  getStripeClient env ;;;
  createSupabaseServerClient env senv ;;;
  subscription <-
    request {| q_table := t_subscriptions; q_verb := SELECT |}
            (select_customer userId) ;;
  match storedCustomer subscription with
  | Some customerId => ret customerId
  | None =>
      match customers_create stripe userEmail userId with
      | inl error => throw error
      | inr customerId =>
          request {| q_table := t_subscriptions; q_verb := UPSERT |}
                  (upsert_customer_as_user userId customerId) ;;;
          ret customerId
      end
  end.

(** [getPriceIdForPlan(planType)] for the three plans the route accepts:
    [None] stands for the thrown error. *)
Definition getPriceIdForPlan (env : ProcessEnv) (planType : PlanType)
  : option string :=
  match planType with
  | free => None
  | standard => nonempty (Some (price_standard (STRIPE_PRICE_IDS env)))
  | premium => nonempty (Some (price_premium (STRIPE_PRICE_IDS env)))
  | pro_yearly => nonempty (Some (price_pro_yearly (STRIPE_PRICE_IDS env)))
  end.

(** A configured deployment, and a Stripe account that numbers its
    customers by the user. *)
Definition senv_app_url_only : ServerEnv :=
  {| NEXT_PUBLIC_SUPABASE_ANON_KEY := Some "anon";
     NEXT_PUBLIC_APP_URL := Some "https://farm.example";
     VERCEL_URL := None |}.

Definition stripe_ok : StripeCustomers :=
  {| customers_create := fun email userId => inr ("cus_new_" ++ userId)%string |}.

(** Alice as the signup trigger leaves her: a free row without customer. *)
Definition signup_row : Subscriptions.Row :=
  {| Subscriptions.id := 1;
     Subscriptions.user_id := Scenario.alice;
     Subscriptions.stripe_customer_id := None;
     Subscriptions.stripe_subscription_id := None;
     Subscriptions.plan_type := free;
     Subscriptions.status := active;
     Subscriptions.current_period_start := None;
     Subscriptions.current_period_end := None;
     Subscriptions.created_at := Scenario.feb01;
     Subscriptions.updated_at := Scenario.feb01 |}.

Definition db_signed_up : Db :=
  {| auth_users := [Scenario.alice]; subscriptions := [signup_row];
     usage_tracking := []; next_uuid := 2 |}.

End Checkout.

Open Scope js_scope.
Set Implicit Arguments.

(* ===================================================================== *)
(** * Properties                                                           *)
(* ===================================================================== *)

(** ** Calendar arithmetic *)

Section Calendar.

Import JsDate.

Ltac div_lia := Z.div_mod_to_equations; lia.

Lemma yearOfEra_range doe :
  0 <= doe < daysPerEra ->
  0 <= yearOfEra doe < 400 /\ 0 <= doe - yearStart (yearOfEra doe) <= 365.
Proof. unfold daysPerEra, yearOfEra, yearStart. intros H. div_lia. Qed.

Lemma monthOfYear_range doy :
  0 <= doy <= 365 ->
  0 <= monthOfYear doy <= 11
  /\ 0 <= doy - monthStart (monthOfYear doy) <= 30.
Proof. unfold monthOfYear, monthStart. intros H. div_lia. Qed.

Lemma monthOfYear_monthStart mp :
  0 <= mp <= 11 -> monthOfYear (monthStart mp) = mp.
Proof. unfold monthOfYear, monthStart. intros H. div_lia. Qed.

Lemma monthStart_range mp : 0 <= mp <= 11 -> 0 <= monthStart mp <= 337.
Proof. unfold monthStart. intros H. div_lia. Qed.

Lemma yearStart_mono y1 y2 : y1 <= y2 -> yearStart y1 <= yearStart y2.
Proof. unfold yearStart. intros H. div_lia. Qed.

Lemma yearStart_step y : 365 <= yearStart (y + 1) - yearStart y.
Proof. unfold yearStart. div_lia. Qed.

Lemma yearStart_bounds y :
  0 <= y < 400 -> 0 <= yearStart y /\ yearStart (y + 1) <= 146096.
Proof.
  intros H. pose proof (yearStart_mono (y1 := 0) (y2 := y) ltac:(lia)).
  pose proof (yearStart_mono (y1 := y + 1) (y2 := 400) ltac:(lia)).
  unfold yearStart in *. simpl in *. div_lia.
Qed.

Lemma before_next_year doe :
  0 <= doe < 146096 -> doe < yearStart (yearOfEra doe + 1).
Proof. unfold yearOfEra, yearStart. intros H. div_lia. Qed.

(** A day between the start of a year and the start of the next falls in
    that year. *)
Lemma yearOfEra_yearStart y k :
  0 <= y < 400 -> 0 <= k -> yearStart y + k < yearStart (y + 1) ->
  yearOfEra (yearStart y + k) = y.
Proof.
  intros Hy Hk Hlt. destruct (yearStart_bounds Hy) as [H0 H1].
  assert (Hr : 0 <= yearStart y + k < 146096) by lia.
  destruct (yearOfEra_range (doe := yearStart y + k)) as [Hy' Hd];
    [unfold daysPerEra; lia|].
  pose proof (before_next_year Hr) as Hn.
  set (y' := yearOfEra (yearStart y + k)) in *.
  destruct (Z.lt_trichotomy y' y) as [L|[E|G]]; [|exact E|].
  - pose proof (yearStart_mono (y1 := y' + 1) (y2 := y) ltac:(lia)). lia.
  - pose proof (yearStart_mono (y1 := y + 1) (y2 := y') ltac:(lia)). lia.
Qed.

Lemma Civil_eqb_eq a b : Civil_eqb a b = true <-> a = b.
Proof.
  destruct a as [y1 m1 d1], b as [y2 m2 d2]. unfold Civil_eqb. simpl.
  rewrite !andb_true_iff, !Z.eqb_eq. split.
  - intros [[-> ->] ->]. reflexivity.
  - intros E. inversion E. auto.
Qed.

Lemma Civil_eqb_refl a : Civil_eqb a a = true.
Proof. apply Civil_eqb_eq. reflexivity. Qed.

Lemma Civil_eqb_neq a b : Civil_eqb a b = false <-> a <> b.
Proof.
  rewrite <- Civil_eqb_eq. destruct (Civil_eqb a b); split; congruence.
Qed.

(** The month index behind a month number, and back. *)
Lemma month_index mp :
  0 <= mp <= 11 ->
  let m := if mp <? 10 then mp + 3 else mp - 9 in
  1 <= m <= 12 /\ (if 2 <? m then m - 3 else m + 9) = mp.
Proof.
  intros H m. subst m.
  destruct (Z.ltb_spec mp 10);
    match goal with |- _ /\ (if ?a <? ?b then _ else _) = _ =>
      destruct (Z.ltb_spec a b) end; lia.
Qed.

(** What holds of every day of an era: its fields are in range, they give
    the day back, and the first day of its month reads as day 1 of the
    same month and year. *)
Lemma era_facts doe :
  0 <= doe < daysPerEra ->
  let c := civil_of_doe doe in
  let first := doe_of_civil (year c) (month c) 1 in
  0 <= year c < 400 /\ 1 <= month c <= 12 /\ 1 <= day c <= 31
  /\ doe_of_civil (year c) (month c) (day c) = doe
  /\ 0 <= first <= doe
  /\ civil_of_doe first = mkCivil (year c) (month c) 1.
Proof.
  intros H c first. subst first c. unfold civil_of_doe, doe_of_civil.
  simpl.
  destruct (yearOfEra_range H) as [Hy Hd].
  set (yoe := yearOfEra doe) in *.
  set (doy := doe - yearStart yoe) in *.
  destruct (monthOfYear_range Hd) as [Hm Hday].
  set (mp := monthOfYear doy) in *.
  destruct (month_index Hm) as [Hmr Hback]. simpl in Hmr, Hback.
  rewrite Hback.
  pose proof (monthStart_range Hm) as Hms.
  destruct (yearStart_bounds Hy) as [Hys _].
  pose proof (yearStart_step yoe) as Hstep.
  repeat split; try lia.
  replace (yearStart yoe + monthStart mp + 1 - 1)
    with (yearStart yoe + monthStart mp) by lia.
  rewrite (yearOfEra_yearStart Hy) by lia.
  replace (yearStart yoe + monthStart mp - yearStart yoe)
    with (monthStart mp) by lia.
  rewrite (monthOfYear_monthStart Hm).
  f_equal. lia.
Qed.

Lemma era_split z :
  let z' := z + epochShift in
  z' = (z' / daysPerEra) * daysPerEra + z' mod daysPerEra
  /\ 0 <= z' mod daysPerEra < daysPerEra.
Proof.
  intros z'. split.
  - pose proof (Z.div_mod z' daysPerEra). unfold daysPerEra in *. lia.
  - apply Z.mod_pos_bound. unfold daysPerEra. lia.
Qed.

(** Adding whole eras to a day of era leaves quotient and remainder. *)
Lemma era_div e r :
  0 <= r < daysPerEra ->
  (e * daysPerEra + r) / daysPerEra = e
  /\ (e * daysPerEra + r) mod daysPerEra = r.
Proof.
  intros H. unfold daysPerEra in *. split.
  - symmetry. apply (Z.div_unique _ _ e r); lia.
  - symmetry. apply (Z.mod_unique _ _ e r); lia.
Qed.

Lemma year_div e yoe :
  0 <= yoe < 400 ->
  (yoe + e * 400) / 400 = e /\ (yoe + e * 400) mod 400 = yoe.
Proof.
  intros H. split.
  - symmetry. apply (Z.div_unique _ _ e yoe); lia.
  - symmetry. apply (Z.mod_unique _ _ e yoe); lia.
Qed.

(** The year of era behind a calendar year, whatever the month. *)
Lemma civil_year_shift c e :
  (if month c <=? 2
   then year c + e * 400 + (if month c <=? 2 then 1 else 0) - 1
   else year c + e * 400 + (if month c <=? 2 then 1 else 0))
  = year c + e * 400.
Proof. destruct (month c <=? 2); lia. Qed.

Lemma days_from_civil_of_era z d :
  let z' := z + epochShift in
  let c := civil_of_doe (z' mod daysPerEra) in
  days_from_civil (year (civil_from_days z)) (month (civil_from_days z)) d
  = (z' / daysPerEra) * daysPerEra
    + doe_of_civil (year c) (month c) d - epochShift.
Proof.
  intros z' c. destruct (era_split z) as [_ Hr]. fold z' in Hr.
  destruct (era_facts Hr) as (Hy & _). fold c in Hy.
  unfold days_from_civil, civil_from_days. fold z'. fold c.
  cbn [year month day].
  rewrite civil_year_shift.
  destruct (year_div (z' / daysPerEra) Hy) as [-> ->]. reflexivity.
Qed.

(** Converting a day number to a date and back gives the day number. *)
Lemma days_from_civil_from_days z :
  days_from_civil (year (civil_from_days z)) (month (civil_from_days z))
                  (day (civil_from_days z)) = z.
Proof.
  rewrite days_from_civil_of_era.
  destruct (era_split z) as [Hs Hr].
  destruct (era_facts Hr) as (_ & _ & _ & Hdoe & _).
  unfold civil_from_days at 1. cbn [year month day]. rewrite Hdoe. lia.
Qed.

Lemma civil_from_days_inj z1 z2 :
  civil_from_days z1 = civil_from_days z2 -> z1 = z2.
Proof.
  intros E. rewrite <- (days_from_civil_from_days z1),
                    <- (days_from_civil_from_days z2), E.
  reflexivity.
Qed.

Lemma civil_from_days_month z : 1 <= month (civil_from_days z) <= 12.
Proof.
  destruct (era_split z) as [_ Hr].
  destruct (era_facts Hr) as (_ & Hm & _). exact Hm.
Qed.

(** The first day of the month of a date converts back to day 1 of the
    same month and year. *)
Lemma first_of_month z :
  civil_from_days
    (days_from_civil (year (civil_from_days z))
                     (month (civil_from_days z)) 1)
  = mkCivil (year (civil_from_days z)) (month (civil_from_days z)) 1.
Proof.
  rewrite days_from_civil_of_era.
  destruct (era_split z) as [Hs Hr].
  destruct (era_facts Hr) as (_ & _ & _ & _ & Hf & Hc).
  set (z' := z + epochShift) in *.
  set (c := civil_of_doe (z' mod daysPerEra)) in *.
  set (first := doe_of_civil (year c) (month c) 1) in *.
  unfold civil_from_days at 1.
  replace (z' / daysPerEra * daysPerEra + first - epochShift + epochShift)
    with (z' / daysPerEra * daysPerEra + first) by lia.
  assert (Hfr : 0 <= first < daysPerEra) by lia.
  destruct (era_div (z' / daysPerEra) Hfr) as [-> ->].
  rewrite Hc. cbn [year month day]. unfold civil_from_days.
  fold z'. fold c. reflexivity.
Qed.

(** From the epoch on, years have four digits: the two-digit-year rule of
    the [Date] constructor does not apply. *)
Lemma year_after_epoch z : -1 <= z -> 1600 <= year (civil_from_days z).
Proof.
  intros H. destruct (era_split z) as [Hs Hr].
  destruct (era_facts Hr) as (Hy & _). unfold civil_from_days.
  cbn [year month day].
  assert (4 <= (z + epochShift) / daysPerEra).
  { clear Hs Hr Hy. unfold daysPerEra, epochShift. div_lia. }
  destruct (month (civil_of_doe ((z + epochShift) mod daysPerEra)) <=? 2);
    lia.
Qed.

End Calendar.

Open Scope js_scope.

(** ** The period key *)

Section PeriodKey.

Import JsDate.

Lemma Day_of_midnight D r :
  0 <= r < msPerDay -> Day (D * msPerDay + r) = D.
Proof.
  intros H. unfold Day, msPerDay in *. symmetry.
  apply (Z.div_unique _ _ D r); lia.
Qed.

(** The key depends on the time only through the local month. *)
Lemma periodKey_same_month env t1 t2 :
  localMonth env t1 = localMonth env t2 ->
  periodKey env t1 = periodKey env t2.
Proof.
  unfold localMonth, periodKey. intros E.
  pose proof (f_equal fst E) as Hy. pose proof (f_equal snd E) as Hm.
  cbn [fst snd] in Hy, Hm. rewrite Hy, Hm. reflexivity.
Qed.

Lemma localDate_year env t :
  0 <= t -> tz_in_range env -> 1600 <= year (localDate env t).
Proof.
  intros Ht Htz. apply year_after_epoch. unfold tz_in_range in Htz.
  unfold Day, LocalTime, msPerDay, msPerMinute.
  apply Z.div_le_lower_bound; lia.
Qed.

(** The day number of the first day of the local month of [t]. *)
Lemma periodKey_days env t :
  0 <= t -> tz_in_range env ->
  periodKey env t
  = civil_from_days
      (Day (days_from_civil (year (localDate env t))
                            (month (localDate env t)) 1 * msPerDay
            - TZ env * msPerMinute)).
Proof.
  intros Ht Htz. pose proof (localDate_year Ht Htz) as Hy.
  unfold periodKey, formatDateForDatabase, toISODate, fromLocal,
    getFullYear, getMonth.
  fold (localDate env t).
  replace (month (localDate env t) - 1 + 1) with (month (localDate env t))
    by lia.
  destruct (Z.leb_spec 0 (year (localDate env t)));
    destruct (Z.leb_spec (year (localDate env t)) 99);
    simpl; try reflexivity; lia.
Qed.

(** West of Greenwich and on it, the key is the first day of the local
    month. *)
Lemma periodKey_west env t :
  0 <= t -> -1440 < TZ env <= 0 ->
  periodKey env t
  = mkCivil (year (localDate env t)) (month (localDate env t)) 1.
Proof.
  intros Ht Htz. rewrite periodKey_days by (unfold tz_in_range; lia).
  replace (days_from_civil (year (localDate env t))
                           (month (localDate env t)) 1 * msPerDay
           - TZ env * msPerMinute)
    with (days_from_civil (year (localDate env t))
                          (month (localDate env t)) 1 * msPerDay
          + (- TZ env * msPerMinute)) by lia.
  rewrite Day_of_midnight by (unfold msPerDay, msPerMinute; lia).
  apply first_of_month.
Qed.

(** East of Greenwich, the key is the day before the first day of the
    local month. *)
Lemma periodKey_east env t :
  0 <= t -> 0 < TZ env < 1440 ->
  periodKey env t
  = civil_from_days
      (days_from_civil (year (localDate env t))
                       (month (localDate env t)) 1 - 1).
Proof.
  intros Ht Htz. rewrite periodKey_days by (unfold tz_in_range; lia).
  replace (days_from_civil (year (localDate env t))
                           (month (localDate env t)) 1 * msPerDay
           - TZ env * msPerMinute)
    with ((days_from_civil (year (localDate env t))
                           (month (localDate env t)) 1 - 1) * msPerDay
          + (msPerDay - TZ env * msPerMinute)) by lia.
  rewrite Day_of_midnight by (unfold msPerDay, msPerMinute; lia).
  reflexivity.
Qed.

Lemma periodKey_east_not_first env t :
  0 <= t -> 0 < TZ env < 1440 ->
  periodKey env t
  <> mkCivil (year (localDate env t)) (month (localDate env t)) 1.
Proof.
  intros Ht Htz E. rewrite periodKey_east in E by assumption.
  unfold localDate in E.
  rewrite <- (first_of_month (Day (LocalTime (TZ env) t))) in E.
  apply civil_from_days_inj in E. lia.
Qed.

(** In one environment, two times share a key only within one local
    month. *)
Lemma periodKey_inj env t1 t2 :
  0 <= t1 -> 0 <= t2 -> tz_in_range env ->
  periodKey env t1 = periodKey env t2 ->
  localMonth env t1 = localMonth env t2.
Proof.
  intros H1 H2 Htz E.
  assert (Hd : days_from_civil (year (localDate env t1))
                               (month (localDate env t1)) 1
               = days_from_civil (year (localDate env t2))
                                 (month (localDate env t2)) 1).
  { unfold tz_in_range in Htz.
    destruct (Z_le_gt_dec (TZ env) 0) as [Hw|He].
    - rewrite !periodKey_west in E by lia.
      pose proof (f_equal year E) as Hy. pose proof (f_equal month E) as Hm.
      cbn [year month] in Hy, Hm. rewrite Hy, Hm. reflexivity.
    - rewrite !periodKey_east in E by lia.
      apply civil_from_days_inj in E. lia. }
  apply (f_equal civil_from_days) in Hd.
  unfold localDate in Hd. rewrite !first_of_month in Hd.
  pose proof (f_equal year Hd) as Hy. pose proof (f_equal month Hd) as Hm.
  cbn [year month] in Hy, Hm.
  unfold localMonth, getFullYear, getMonth. rewrite Hy, Hm. reflexivity.
Qed.

End PeriodKey.

Open Scope js_scope.

(** Splits conjunctions only (not records). *)
Ltac split_and := repeat match goal with |- _ /\ _ => split end.

(** ** Running requests *)

Lemma request_eq (A : Type) (q : Query) (op : Z -> Db -> PgResponse A * Db)
      (w : World) :
  request q op w =
  if hd false (faults w)
  then (Return (PgError_ connection_failure), after_request q (db w) w)
  else (Return (fst (op (clock w) (db w))),
        after_request q (snd (op (clock w) (db w))) w).
Proof.
  unfold request, after_request.
  destruct (faults w) as [|[|] rest]; simpl;
    try reflexivity; destruct (op (clock w) (db w)); reflexivity.
Qed.

Lemma no_faults_hd w : no_faults w -> hd false (faults w) = false.
Proof.
  unfold no_faults. intros H. destruct (faults w) as [|b rest]; [reflexivity|].
  inversion H; subst. reflexivity.
Qed.

Lemma no_faults_after_request q d w :
  no_faults w -> no_faults (after_request q d w).
Proof.
  unfold no_faults, after_request. simpl. intros H.
  destruct (faults w); simpl; [constructor|]. inversion H; assumption.
Qed.

Lemma no_faults_after_emit l w : no_faults w -> no_faults (after_emit l w).
Proof. unfold no_faults, after_emit. simpl. auto. Qed.

Lemma no_faults_at_time t w : no_faults w -> no_faults (at_time t w).
Proof. unfold no_faults, at_time. simpl. auto. Qed.

Lemma request_ok (A : Type) (q : Query) (op : Z -> Db -> PgResponse A * Db)
      (w : World) :
  no_faults w ->
  request q op w = (Return (fst (op (clock w) (db w))),
                    after_request q (snd (op (clock w) (db w))) w).
Proof. intros H. rewrite request_eq, (no_faults_hd H). reflexivity. Qed.

Lemma emit_eq l w : emit l w = (Return tt, after_emit l w).
Proof. reflexivity. Qed.

(** ** Rows and keys *)

Lemma usage_matches_iff u k r :
  Pg.usage_matches u k r = true <-> usage_key r = (u, k).
Proof.
  unfold Pg.usage_matches, usage_key.
  rewrite andb_true_iff, String.eqb_eq, Civil_eqb_eq. split.
  - intros [-> ->]. reflexivity.
  - intros E. inversion E. auto.
Qed.

Lemma filter_nil_existsb (A : Type) (p : A -> bool) (l : list A) :
  filter p l = [] <-> existsb p l = false.
Proof.
  induction l as [|a l IH]; simpl; [tauto|].
  destruct (p a); simpl; [split; discriminate|exact IH].
Qed.

Lemma filter_cons_existsb (A : Type) (p : A -> bool) (l : list A) a rest :
  filter p l = a :: rest -> existsb p l = true.
Proof.
  intros H. destruct (existsb p l) eqn:E; [reflexivity|].
  apply filter_nil_existsb in E. congruence.
Qed.

(** Under a NoDup key, at most one row has a given key. *)
Lemma filter_key_unique (A K : Type) (key : A -> K) (p : A -> bool) (k : K)
      (l : list A) :
  (forall a, p a = true <-> key a = k) ->
  NoDup (map key l) ->
  filter p l = [] \/ exists r, filter p l = [r].
Proof.
  intros Hp. induction l as [|a l IH]; simpl; intros Hnd; [left; reflexivity|].
  inversion Hnd as [|? ? Hnotin Hnd']; subst.
  destruct (p a) eqn:Ea.
  - right. exists a. f_equal.
    destruct (filter p l) as [|b rest] eqn:Ef; [reflexivity|].
    exfalso. apply Hnotin.
    assert (Hb : In b (filter p l)) by (rewrite Ef; left; reflexivity).
    apply filter_In in Hb. destruct Hb as [Hin Hpb].
    apply Hp in Ea. apply Hp in Hpb. rewrite Ea, <- Hpb.
    apply in_map. exact Hin.
  - apply IH. exact Hnd'.
Qed.

Lemma usage_filter_unique d u k :
  usage_schema_ok d ->
  filter (Pg.usage_matches u k) (usage_tracking d) = []
  \/ exists r, filter (Pg.usage_matches u k) (usage_tracking d) = [r].
Proof.
  intros Hok. apply (@filter_key_unique _ _ usage_key _ (u, k)).
  - intros a. apply usage_matches_iff.
  - apply (ok_keys Hok).
Qed.

Lemma mem_string_In s l : mem_string s l = true <-> In s l.
Proof.
  unfold mem_string. rewrite existsb_exists. split.
  - intros [x [Hin Hx]]. apply String.eqb_eq in Hx. subst. exact Hin.
  - intros H. exists s. split; [exact H|apply String.eqb_refl].
Qed.

(** ** [getUserPlanType] *)

(** The plan [getUserPlanType] reads from a database it reaches. *)
Lemma getUserPlanType_eq userId w :
  getUserPlanType userId w =
  if hd false (faults w)
  then (Throw (Error SubscriptionFetchFailed),
        after_emit (console_error SubscriptionFetchFailed)
                   (after_request q_select_subscription (db w) w))
  else (Return
          match filter (fun r => (Subscriptions.user_id r =? userId)%string)
                       (subscriptions (db w)) with
          | [r] => Subscriptions.plan_type r
          | _ => free
          end,
        after_request q_select_subscription (db w) w).
Proof.
  unfold getUserPlanType, getUserSubscription, bind.
  fold q_select_subscription.
  rewrite request_eq. destruct (hd false (faults w)); [reflexivity|].
  unfold Pg.select_subscription_by_user, Pg.single. simpl.
  destruct (filter _ (subscriptions (db w))) as [|r [|r' rest]]; reflexivity.
Qed.

Lemma getUserPlanType_free userId w :
  no_faults w -> on_free_plan (db w) userId ->
  getUserPlanType userId w
  = (Return free, after_request q_select_subscription (db w) w).
Proof.
  intros Hnf Hfree. rewrite getUserPlanType_eq, (no_faults_hd Hnf).
  f_equal. f_equal.
  destruct (filter _ (subscriptions (db w))) as [|r [|r' rest]] eqn:Ef;
    try reflexivity.
  assert (Hin : In r (filter (fun r => (Subscriptions.user_id r =? userId)%string)
                             (subscriptions (db w))))
    by (rewrite Ef; left; reflexivity).
  apply filter_In in Hin. destruct Hin as [Hin Hu].
  apply String.eqb_eq in Hu. apply (Hfree r Hin Hu).
Qed.

(** ** [getOrCreateUsageRecord] *)

Lemma getCurrentPeriodStart_eq env w :
  getCurrentPeriodStart env w
  = (Return (JsDate.fromLocal (TZ env)
               (JsDate.getFullYear (TZ env) (clock w))
               (JsDate.getMonth (TZ env) (clock w)) 1), w).
Proof. reflexivity. Qed.

Lemma getOrCreate_found env userId w r :
  no_faults w ->
  filter (Pg.usage_matches userId (periodKey env (clock w)))
         (usage_tracking (db w)) = [r] ->
  getOrCreateUsageRecord env userId w
  = (Return (toUsageTracking r), after_request q_select_usage (db w) w).
Proof.
  intros Hnf Hf. unfold getOrCreateUsageRecord, bind.
  rewrite getCurrentPeriodStart_eq. fold (periodKey env (clock w)).
  fold q_select_usage. rewrite (request_ok _ _ Hnf).
  unfold Pg.select_usage. simpl. rewrite Hf. reflexivity.
Qed.

Lemma getOrCreate_created env userId w :
  no_faults w ->
  filter (Pg.usage_matches userId (periodKey env (clock w)))
         (usage_tracking (db w)) = [] ->
  In userId (auth_users (db w)) ->
  getOrCreateUsageRecord env userId w
  = (Return (toUsageTracking
               (fresh_usage_row (db w) userId (periodKey env (clock w))
                                (clock w))),
     after_request q_insert_usage
       (snd (Pg.insert_usage userId (periodKey env (clock w)) (clock w)
                             (db w)))
       (after_request q_select_usage (db w) w)).
Proof.
  intros Hnf Hf Hu. unfold getOrCreateUsageRecord, bind.
  rewrite getCurrentPeriodStart_eq. fold (periodKey env (clock w)).
  fold q_select_usage. rewrite (request_ok _ _ Hnf).
  unfold Pg.select_usage. simpl. rewrite Hf. simpl.
  fold q_insert_usage.
  rewrite (request_ok _ _ (no_faults_after_request q_select_usage (db w) Hnf)).
  simpl. unfold Pg.insert_usage.
  apply mem_string_In in Hu. rewrite Hu. simpl.
  apply filter_nil_existsb in Hf. rewrite Hf. reflexivity.
Qed.

(** What a call does whatever the pending faults: it finds the entry, or
    creates it with all counters at zero, or throws and leaves the database
    as it was. *)
Lemma getOrCreate_cases env userId w :
  let k := periodKey env (clock w) in
  let out := getOrCreateUsageRecord env userId w in
  clock (snd out) = clock w
  /\ ((exists r, fst out = Return (toUsageTracking r)
                 /\ db (snd out) = db w
                 /\ filter (Pg.usage_matches userId k)
                           (usage_tracking (db w)) = [r])
      \/ (fst out = Return (toUsageTracking
                              (fresh_usage_row (db w) userId k (clock w)))
          /\ db (snd out) = snd (Pg.insert_usage userId k (clock w) (db w))
          /\ existsb (Pg.usage_matches userId k) (usage_tracking (db w))
             = false
          /\ mem_string userId (auth_users (db w)) = true)
      \/ (exists e, fst out = Throw e /\ db (snd out) = db w)).
Proof.
  intros k out. subst out. unfold getOrCreateUsageRecord, bind.
  rewrite getCurrentPeriodStart_eq. fold (periodKey env (clock w)). fold k.
  rewrite request_eq.
  assert (Hins :
    forall w0, clock w0 = clock w -> db w0 = db w ->
    let out := (ins <- request {| q_table := t_usage_tracking;
                                  q_verb := INSERT |}
                         (Pg.insert_usage userId k) ;;
                match ins with
                | PgError_ _ =>
                    emit (console_error UsageRecordCreateFailed) ;;;
                    throw (Error UsageRecordCreateFailed)
                | PgData newRecord => ret (toUsageTracking newRecord)
                end) w0 in
    clock (snd out) = clock w
    /\ ((fst out = Return (toUsageTracking
                             (fresh_usage_row (db w) userId k (clock w)))
         /\ db (snd out) = snd (Pg.insert_usage userId k (clock w) (db w))
         /\ existsb (Pg.usage_matches userId k) (usage_tracking (db w))
            = false
         /\ mem_string userId (auth_users (db w)) = true)
        \/ (exists e, fst out = Throw e /\ db (snd out) = db w))).
  { intros w0 Hc Hd. unfold bind. rewrite request_eq.
    destruct (hd false (faults w0)); simpl.
    - split; [exact Hc|]. right. eexists. split; [reflexivity|exact Hd].
    - rewrite Hc, Hd. unfold Pg.insert_usage.
      destruct (mem_string userId (auth_users (db w))) eqn:Em; simpl.
      + destruct (existsb (Pg.usage_matches userId k)
                          (usage_tracking (db w))) eqn:Ee; simpl.
        * split; [exact Hc|]. right. eexists. split; reflexivity.
        * split; [exact Hc|]. left. repeat split; reflexivity.
      + split; [exact Hc|]. right. eexists. split; reflexivity. }
  destruct (hd false (faults w)).
  - specialize (Hins (after_request {| q_table := t_usage_tracking;
                                       q_verb := SELECT |} (db w) w)
                     eq_refl eq_refl).
    cbn zeta in Hins. destruct Hins as [Hc Hcase]. split; [exact Hc|].
    right. exact Hcase.
  - unfold Pg.select_usage, Pg.single. cbn [fst snd].
    destruct (filter (Pg.usage_matches userId k) (usage_tracking (db w)))
      as [|r [|r' rest]] eqn:Ef.
    + specialize (Hins (after_request {| q_table := t_usage_tracking;
                                         q_verb := SELECT |} (db w) w)
                       eq_refl eq_refl).
      cbn zeta in Hins. destruct Hins as [Hc Hcase]. split; [exact Hc|].
      right. exact Hcase.
    + split; [reflexivity|]. left. exists r. repeat split; reflexivity.
    + specialize (Hins (after_request {| q_table := t_usage_tracking;
                                         q_verb := SELECT |} (db w) w)
                       eq_refl eq_refl).
      cbn zeta in Hins. destruct Hins as [Hc Hcase]. split; [exact Hc|].
      right. exact Hcase.
Qed.

Open Scope js_scope.

(** ** The ledger under insert and update *)

Lemma set_count_key f v r : usage_key (Pg.set_count f v r) = usage_key r.
Proof. reflexivity. Qed.

Lemma set_count_id f v r :
  UsageTracking.id (Pg.set_count f v r) = UsageTracking.id r.
Proof. reflexivity. Qed.

Lemma rowCount_set_count f v f' r :
  rowCount f' (Pg.set_count f v r)
  = match f, f' with
    | ocr, ocr | export, export | ai_assistant, ai_assistant => v
    | _, _ => rowCount f' r
    end.
Proof. destruct f, f'; reflexivity. Qed.

Lemma rowCount_set_count_same f v r : rowCount f (Pg.set_count f v r) = v.
Proof. destruct f; reflexivity. Qed.

Lemma rowCount_set_count_other f v f' r :
  f' <> f -> rowCount f' (Pg.set_count f v r) = rowCount f' r.
Proof. destruct f, f'; intros H; try reflexivity; congruence. Qed.

Lemma countOf_toUsageTracking f r : countOf f (toUsageTracking r) = rowCount f r.
Proof. destruct f; reflexivity. Qed.

Lemma nodup_map_inj (A K : Type) (key : A -> K) (l : list A) a b :
  NoDup (map key l) -> In a l -> In b l -> key a = key b -> a = b.
Proof.
  induction l as [|x l IH]; simpl; intros Hnd Ha Hb E; [contradiction|].
  inversion Hnd as [|? ? Hnotin Hnd']; subst.
  destruct Ha as [->|Ha], Hb as [->|Hb].
  - reflexivity.
  - exfalso. apply Hnotin. rewrite E. apply in_map. exact Hb.
  - exfalso. apply Hnotin. rewrite <- E. apply in_map. exact Ha.
  - apply IH; assumption.
Qed.

Lemma touch_key f v rid r : usage_key (Pg.touch f v rid r) = usage_key r.
Proof. unfold Pg.touch. destruct (_ =? _); reflexivity. Qed.

Lemma touch_id f v rid r :
  UsageTracking.id (Pg.touch f v rid r) = UsageTracking.id r.
Proof. unfold Pg.touch. destruct (_ =? _); reflexivity. Qed.

Lemma touch_matches f v rid u k r :
  Pg.usage_matches u k (Pg.touch f v rid r) = Pg.usage_matches u k r.
Proof. unfold Pg.touch. destruct (_ =? _); reflexivity. Qed.

Lemma filter_map_commute (A : Type) (p : A -> bool) (g : A -> A) (l : list A) :
  (forall a, p (g a) = p a) ->
  filter p (map g l) = map g (filter p l).
Proof.
  intros H. induction l as [|a l IH]; simpl; [reflexivity|].
  rewrite H. destruct (p a); simpl; rewrite IH; reflexivity.
Qed.

Lemma map_ext_id (A : Type) (g : A -> A) (l : list A) :
  (forall a, In a l -> g a = a) -> map g l = l.
Proof.
  intros H. induction l as [|a l IH]; simpl; [reflexivity|].
  rewrite H by (left; reflexivity). f_equal. apply IH.
  intros b Hb. apply H. right. exact Hb.
Qed.

(** *** Schema preservation *)

Lemma insert_usage_ok u k now d :
  usage_schema_ok d -> usage_schema_ok (snd (Pg.insert_usage u k now d)).
Proof.
  intros Hok. unfold Pg.insert_usage.
  destruct (mem_string u (auth_users d)); simpl; [|exact Hok].
  destruct (existsb (Pg.usage_matches u k) (usage_tracking d)) eqn:Ee;
    simpl; [exact Hok|].
  destruct Hok as [Hids Hkeys Hfresh Hint]. constructor; simpl.
  - rewrite map_app. simpl. apply NoDup_app.
    + exact Hids.
    + constructor; [intros []|constructor].
    + intros x Hx [<-|[]]. apply in_map_iff in Hx.
      destruct Hx as [r [Hr Hin]].
      rewrite Forall_forall in Hfresh. specialize (Hfresh r Hin). lia.
  - rewrite map_app. simpl. apply NoDup_app.
    + exact Hkeys.
    + constructor; [intros []|constructor].
    + intros x Hx [<-|[]]. apply in_map_iff in Hx.
      destruct Hx as [r [Hr Hin]].
      assert (Hm : Pg.usage_matches u k r = true)
        by (apply usage_matches_iff; exact Hr).
      assert (He : existsb (Pg.usage_matches u k) (usage_tracking d) = true)
        by (apply existsb_exists; exists r; split; assumption).
      congruence.
  - apply Forall_app. split.
    + eapply Forall_impl; [|exact Hfresh]. simpl. intros r Hr. lia.
    + constructor; [simpl; lia|constructor].
  - apply Forall_app. split; [exact Hint|].
    constructor; [|constructor]. intros f. destruct f; reflexivity.
Qed.

Lemma update_usage_ok f v rid now d :
  usage_schema_ok d -> usage_schema_ok (snd (Pg.update_usage f v rid now d)).
Proof.
  intros Hok. unfold Pg.update_usage.
  destruct (in_int4 v) eqn:Ev; simpl; [|exact Hok].
  destruct Hok as [Hids Hkeys Hfresh Hint]. constructor; simpl.
  - rewrite map_map. erewrite map_ext; [exact Hids|]. intros r. apply touch_id.
  - rewrite map_map. erewrite map_ext; [exact Hkeys|]. intros r.
    apply touch_key.
  - apply Forall_map. eapply Forall_impl; [|exact Hfresh]. simpl.
    intros r Hr. rewrite touch_id. exact Hr.
  - apply Forall_map. eapply Forall_impl; [|exact Hint]. simpl.
    intros r Hr f'. unfold Pg.touch.
    destruct (UsageTracking.id r =? rid); [|apply Hr].
    rewrite rowCount_set_count. destruct f, f'; try exact Ev; apply Hr.
Qed.

(** *** Monotonicity *)

Lemma row_le_refl r : row_le r r.
Proof. unfold row_le. repeat split. intros f. lia. Qed.

Lemma row_le_trans a b c : row_le a b -> row_le b c -> row_le a c.
Proof.
  unfold row_le. intros (Hi & Hk & Hc) (Hi' & Hk' & Hc').
  repeat split; try congruence. intros f.
  specialize (Hc f). specialize (Hc' f). lia.
Qed.

Lemma Forall2_reflexive (A : Type) (R : A -> A -> Prop) (l : list A) :
  (forall a, R a a) -> Forall2 R l l.
Proof. intros H. induction l; constructor; auto. Qed.

Lemma Forall2_map_right (A : Type) (R : A -> A -> Prop) (g : A -> A) (l : list A) :
  (forall a, In a l -> R a (g a)) -> Forall2 R l (map g l).
Proof.
  induction l as [|a l IH]; simpl; intros H; constructor.
  - apply H. left. reflexivity.
  - apply IH. intros b Hb. apply H. right. exact Hb.
Qed.

Lemma Forall2_transitive (A : Type) (R : A -> A -> Prop) :
  (forall a b c, R a b -> R b c -> R a c) ->
  forall l1 l2 l3, Forall2 R l1 l2 -> Forall2 R l2 l3 -> Forall2 R l1 l3.
Proof.
  intros HR l1 l2 l3 H12. revert l3.
  induction H12; intros l3 H23; inversion H23; subst; constructor; eauto.
Qed.

Lemma ledger_le_refl l : ledger_le l l.
Proof.
  exists l, []. split; [symmetry; apply app_nil_r|].
  apply Forall2_reflexive. apply row_le_refl.
Qed.

Lemma ledger_le_trans l1 l2 l3 :
  ledger_le l1 l2 -> ledger_le l2 l3 -> ledger_le l1 l3.
Proof.
  intros (k1 & c1 & -> & H1) (k2 & c2 & -> & H2).
  apply Forall2_app_inv_l in H2.
  destruct H2 as (k2a & k2b & Ha & Hb & ->).
  exists k2a, (k2b ++ c2). split; [symmetry; apply app_assoc|].
  eapply Forall2_transitive; [apply row_le_trans|exact H1|exact Ha].
Qed.

Lemma insert_usage_le u k now d :
  ledger_le (usage_tracking d) (usage_tracking (snd (Pg.insert_usage u k now d))).
Proof.
  unfold Pg.insert_usage.
  destruct (mem_string u (auth_users d)); simpl; [|apply ledger_le_refl].
  destruct (existsb _ _); simpl; [apply ledger_le_refl|].
  eexists _, _. split; [reflexivity|]. apply Forall2_reflexive, row_le_refl.
Qed.


(** Raising the counter of a row that is in the table never lowers a
    counter: identifiers are unique, so no other row is rewritten. *)
Lemma update_usage_le f rid now d r :
  usage_schema_ok d -> In r (usage_tracking d) -> UsageTracking.id r = rid ->
  ledger_le (usage_tracking d)
            (usage_tracking
               (snd (Pg.update_usage f (rowCount f r + 1) rid now d))).
Proof.
  intros Hok Hin Hid. unfold Pg.update_usage.
  destruct (in_int4 (rowCount f r + 1)); simpl; [|apply ledger_le_refl].
  eexists _, []. split; [symmetry; apply app_nil_r|].
  apply Forall2_map_right. intros a Ha. unfold Pg.touch.
  destruct (Z.eqb_spec (UsageTracking.id a) rid) as [E|_];
    [|apply row_le_refl].
  assert (a = r).
  { apply (@nodup_map_inj _ _ UsageTracking.id _ _ _ (ok_ids Hok) Ha Hin). congruence. }
  subst a. unfold row_le. repeat split. intros f'.
  rewrite rowCount_set_count. destruct f, f'; simpl; lia.
Qed.

(** *** Counts *)

Lemma ledgerCount_of_filter d u k f r :
  filter (Pg.usage_matches u k) (usage_tracking d) = [r] ->
  ledgerCount d u k f = rowCount f r.
Proof. unfold ledgerCount. intros ->. reflexivity. Qed.

Lemma ledgerCount_none d u k f :
  filter (Pg.usage_matches u k) (usage_tracking d) = [] ->
  ledgerCount d u k f = 0.
Proof. unfold ledgerCount. intros ->. reflexivity. Qed.

Lemma insert_usage_count u k now d u' k' f' :
  ledgerCount (snd (Pg.insert_usage u k now d)) u' k' f'
  = ledgerCount d u' k' f'.
Proof.
  unfold Pg.insert_usage.
  destruct (mem_string u (auth_users d)); simpl; [|reflexivity].
  destruct (existsb (Pg.usage_matches u k) (usage_tracking d)) eqn:Ee;
    simpl; [reflexivity|].
  unfold ledgerCount. simpl. rewrite filter_app. simpl.
  destruct (Pg.usage_matches u' k' _) eqn:Em.
  - apply usage_matches_iff in Em. unfold usage_key in Em. simpl in Em.
    inversion Em; subst u' k'.
    apply filter_nil_existsb in Ee. rewrite Ee. simpl.
    destruct f'; reflexivity.
  - rewrite app_nil_r. reflexivity.
Qed.

(** After a successful update of the counter of [f] in row [r], that
    counter holds the new value and every other count is as before. *)
Lemma update_usage_count f v now d r u k u' k' f' :
  usage_schema_ok d -> In r (usage_tracking d) -> usage_key r = (u, k) ->
  in_int4 v = true ->
  ledgerCount (snd (Pg.update_usage f v (UsageTracking.id r) now d)) u' k' f'
  = if (u' =? u)%string && JsDate.Civil_eqb k' k
       && feature_eqb f f'
    then v else ledgerCount d u' k' f'.
Proof.
  intros Hok Hin Hkey Hv. unfold Pg.update_usage. rewrite Hv. simpl.
  unfold ledgerCount. simpl.
  rewrite filter_map_commute by (intros a; apply touch_matches).
  destruct (filter (Pg.usage_matches u' k') (usage_tracking d))
    as [|a rest] eqn:Ef; simpl.
  - destruct ((u' =? u)%string && JsDate.Civil_eqb k' k) eqn:E; simpl;
      [|reflexivity].
    exfalso. apply andb_true_iff in E. destruct E as [Eu Ek].
    apply String.eqb_eq in Eu. apply Civil_eqb_eq in Ek. subst u' k'.
    assert (Hr : In r (filter (Pg.usage_matches u k) (usage_tracking d))).
    { apply filter_In. split; [exact Hin|]. apply usage_matches_iff.
      exact Hkey. }
    rewrite Ef in Hr. contradiction.
  - assert (Ha : In a (filter (Pg.usage_matches u' k') (usage_tracking d)))
      by (rewrite Ef; left; reflexivity).
    apply filter_In in Ha. destruct Ha as [Ha Hma].
    apply usage_matches_iff in Hma. unfold Pg.touch.
    destruct (Z.eqb_spec (UsageTracking.id a) (UsageTracking.id r)) as [E|N].
    + assert (a = r)
        by (apply (@nodup_map_inj _ _ UsageTracking.id _ _ _ (ok_ids Hok) Ha Hin E)).
      subst a. rewrite Hkey in Hma. inversion Hma; subst u' k'.
      rewrite String.eqb_refl, Civil_eqb_refl. simpl.
      rewrite rowCount_set_count. destruct f, f'; reflexivity.
    + destruct ((u' =? u)%string && JsDate.Civil_eqb k' k) eqn:E; simpl;
        [|reflexivity].
      exfalso. apply andb_true_iff in E. destruct E as [Eu Ek].
      apply String.eqb_eq in Eu. apply Civil_eqb_eq in Ek. subst u' k'.
      apply N. f_equal.
      apply (@nodup_map_inj _ _ usage_key _ _ _ (ok_keys Hok) Ha Hin). congruence.
Qed.

Open Scope js_scope.
Unset Implicit Arguments.

(** ** [incrementUsage] and [checkUsageLimit] *)

Lemma insert_usage_appends u k now d :
  mem_string u (auth_users d) = true ->
  existsb (Pg.usage_matches u k) (usage_tracking d) = false ->
  usage_tracking (snd (Pg.insert_usage u k now d))
  = usage_tracking d ++ [fresh_usage_row d u k now].
Proof. intros Hm He. unfold Pg.insert_usage. rewrite Hm, He. reflexivity. Qed.

Lemma insert_usage_frame u k now d :
  auth_users (snd (Pg.insert_usage u k now d)) = auth_users d
  /\ subscriptions (snd (Pg.insert_usage u k now d)) = subscriptions d.
Proof.
  unfold Pg.insert_usage. destruct (mem_string _ _); simpl; [|auto].
  destruct (existsb _ _); simpl; auto.
Qed.

Lemma update_usage_frame f v rid now d :
  auth_users (snd (Pg.update_usage f v rid now d)) = auth_users d
  /\ subscriptions (snd (Pg.update_usage f v rid now d)) = subscriptions d.
Proof. unfold Pg.update_usage. destruct (in_int4 v); simpl; auto. Qed.

Lemma update_usage_fst f v rid now d :
  fst (Pg.update_usage f v rid now d)
  = if in_int4 v then PgData tt else PgError_ numeric_value_out_of_range.
Proof. unfold Pg.update_usage. destruct (in_int4 v); reflexivity. Qed.

Lemma update_usage_rejected f v rid now d :
  in_int4 v = false -> snd (Pg.update_usage f v rid now d) = d.
Proof. unfold Pg.update_usage. intros ->. reflexivity. Qed.

(** What a call of [incrementUsage] does whatever the pending faults: the
    entry is found or created, and then either its counter is rewritten to
    one more than was read, or the call throws with no counter changed. *)
Lemma incrementUsage_cases env u f w :
  let k := periodKey env (clock w) in
  let out := incrementUsage env u f w in
  clock (snd out) = clock w
  /\ exists d1,
      (d1 = db w \/ d1 = snd (Pg.insert_usage u k (clock w) (db w)))
      /\ ((exists r,
              fst out = Return tt
              /\ In r (usage_tracking d1) /\ usage_key r = (u, k)
              /\ in_int4 (rowCount f r + 1) = true
              /\ db (snd out)
                 = snd (Pg.update_usage f (rowCount f r + 1)
                                        (UsageTracking.id r) (clock w) d1))
          \/ (exists e, fst out = Throw e /\ db (snd out) = d1)).
Proof.
  intros k out. subst out.
  destruct (getOrCreate_cases env u w) as [Hc Hcase]. fold k in Hcase.
  unfold incrementUsage, bind.
  destruct (getOrCreateUsageRecord env u w) as [o w1]. cbn [fst snd] in *.
  assert (Hupd :
    forall r, o = Return (toUsageTracking r) ->
    In r (usage_tracking (db w1)) -> usage_key r = (u, k) ->
    let out := match o with
               | Return a =>
                   (upd <-
                      request {| q_table := t_usage_tracking;
                                 q_verb := UPDATE |}
                        (Pg.update_usage f (countOf f a + 1) (usage_id a)) ;;
                    match upd with
                    | PgData _ => ret tt
                    | PgError_ _ =>
                        emit (console_error UsageUpdateFailed) ;;;
                        throw (Error UsageUpdateFailed)
                    end) w1
               | Throw e => (Throw e, w1)
               end in
    clock (snd out) = clock w
    /\ ((exists r,
            fst out = Return tt
            /\ In r (usage_tracking (db w1)) /\ usage_key r = (u, k)
            /\ in_int4 (rowCount f r + 1) = true
            /\ db (snd out)
               = snd (Pg.update_usage f (rowCount f r + 1)
                                      (UsageTracking.id r) (clock w) (db w1)))
        \/ (exists e, fst out = Throw e /\ db (snd out) = db w1))).
  { intros r -> Hin Hkey. cbn zeta. unfold bind. rewrite request_eq.
    rewrite countOf_toUsageTracking. cbn [usage_id toUsageTracking].
    destruct (hd false (faults w1)); cbn [fst snd].
    - split; [exact Hc|]. right. eexists. split; reflexivity.
    - rewrite Hc, update_usage_fst.
      destruct (in_int4 (rowCount f r + 1)) eqn:Ev; cbn [negb fst snd].
      + split; [exact Hc|]. left. exists r. repeat split; assumption.
      + split; [exact Hc|]. right. eexists. split; [reflexivity|].
        cbn [db after_request after_emit]. apply update_usage_rejected.
        exact Ev. }
  destruct Hcase as [(r & Ho & Hd & Hf)|[(Ho & Hd & He & Hm)|(e & Ho & Hd)]].
  - assert (Hin : In r (filter (Pg.usage_matches u k) (usage_tracking (db w))))
      by (rewrite Hf; left; reflexivity).
    apply filter_In in Hin. destruct Hin as [Hin Hkey].
    apply usage_matches_iff in Hkey. rewrite <- Hd in Hin.
    destruct (Hupd r Ho Hin Hkey) as [Hc' Hres].
    split; [exact Hc'|]. exists (db w1). split; [left; exact Hd|exact Hres].
  - assert (Hin : In (fresh_usage_row (db w) u k (clock w))
                     (usage_tracking (db w1))).
    { rewrite Hd, (@insert_usage_appends u k (clock w) (db w) Hm He). apply in_or_app.
      right. left. reflexivity. }
    destruct (Hupd _ Ho Hin eq_refl) as [Hc' Hres].
    split; [exact Hc'|]. exists (db w1). split; [right; exact Hd|exact Hres].
  - subst o. split; [exact Hc|]. exists (db w1).
    split; [left; exact Hd|]. right. exists e. split; reflexivity.
Qed.

(** Whatever the faults, [incrementUsage] keeps the schema's constraints
    and lowers no counter. *)
Lemma incrementUsage_monotone env u f w :
  usage_schema_ok (db w) ->
  usage_schema_ok (db (snd (incrementUsage env u f w)))
  /\ ledger_le (usage_tracking (db w))
               (usage_tracking (db (snd (incrementUsage env u f w)))).
Proof.
  intros Hok.
  destruct (incrementUsage_cases env u f w) as [_ (d1 & Hd1 & Hcase)].
  assert (Hok1 : usage_schema_ok d1
                 /\ ledger_le (usage_tracking (db w)) (usage_tracking d1)).
  { destruct Hd1 as [->| ->].
    - split; [exact Hok|apply ledger_le_refl].
    - split; [apply insert_usage_ok; exact Hok|apply insert_usage_le]. }
  destruct Hok1 as [Hok1 Hle1].
  destruct Hcase as [(r & _ & Hin & _ & _ & ->)|(e & _ & ->)].
  - split; [apply update_usage_ok; exact Hok1|].
    eapply ledger_le_trans; [exact Hle1|].
    apply update_usage_le; [exact Hok1|exact Hin|reflexivity].
  - split; assumption.
Qed.

(** A call of [incrementUsage] that returns has raised the counter of the
    feature, in the caller's entry of the current period, by exactly one,
    and has left every other count as it was. *)
Lemma incrementUsage_success env u f w :
  usage_schema_ok (db w) ->
  fst (incrementUsage env u f w) = Return tt ->
  forall u' k' f',
    ledgerCount (db (snd (incrementUsage env u f w))) u' k' f'
    = if (u' =? u)%string
         && JsDate.Civil_eqb k' (periodKey env (clock w))
         && feature_eqb f f'
      then ledgerCount (db w) u k' f + 1
      else ledgerCount (db w) u' k' f'.
Proof.
  intros Hok Hret u' k' f'.
  destruct (incrementUsage_cases env u f w) as [_ (d1 & Hd1 & Hcase)].
  set (k := periodKey env (clock w)) in *.
  destruct Hcase as [(r & _ & Hin & Hkey & Hv & ->)|(e & Ho & _)];
    [|congruence].
  assert (Hok1 : usage_schema_ok d1).
  { destruct Hd1 as [->| ->]; [exact Hok|apply insert_usage_ok; exact Hok]. }
  assert (Hcount : forall u0 k0 f0,
             ledgerCount d1 u0 k0 f0 = ledgerCount (db w) u0 k0 f0).
  { intros. destruct Hd1 as [->| ->]; [reflexivity|apply insert_usage_count]. }
  rewrite (@update_usage_count f _ (clock w) d1 r u k u' k' f' Hok1 Hin Hkey Hv).
  rewrite Hcount.
  destruct ((u' =? u)%string && JsDate.Civil_eqb k' k
            && feature_eqb f f') eqn:E; [|reflexivity].
  apply andb_true_iff in E. destruct E as [E _].
  apply andb_true_iff in E. destruct E as [_ Ek].
  apply Civil_eqb_eq in Ek. subst k'.
  rewrite <- Hcount. f_equal. symmetry. apply ledgerCount_of_filter.
  destruct (@usage_filter_unique d1 u k Hok1) as [Hnil|[r' Hr']].
  - exfalso.
    assert (Hr : In r (filter (Pg.usage_matches u k) (usage_tracking d1))).
    { apply filter_In. split; [exact Hin|]. apply usage_matches_iff.
      exact Hkey. }
    rewrite Hnil in Hr. contradiction.
  - rewrite Hr'. f_equal.
    assert (Hr : In r (filter (Pg.usage_matches u k) (usage_tracking d1))).
    { apply filter_In. split; [exact Hin|]. apply usage_matches_iff.
      exact Hkey. }
    rewrite Hr' in Hr. destruct Hr as [->|[]]. reflexivity.
Qed.

Lemma incrementUsage_frame env u f w :
  auth_users (db (snd (incrementUsage env u f w))) = auth_users (db w)
  /\ subscriptions (db (snd (incrementUsage env u f w)))
     = subscriptions (db w).
Proof.
  destruct (incrementUsage_cases env u f w) as [_ (d1 & Hd1 & Hcase)].
  assert (H1 : auth_users d1 = auth_users (db w)
               /\ subscriptions d1 = subscriptions (db w)).
  { destruct Hd1 as [->| ->]; [auto|apply insert_usage_frame]. }
  destruct Hcase as [(r & _ & _ & _ & _ & ->)|(e & _ & ->)]; [|exact H1].
  destruct (update_usage_frame f (rowCount f r + 1) (UsageTracking.id r)
                               (clock w) d1) as [-> ->].
  exact H1.
Qed.

(** With no fault pending, a registered user's call returns. *)
Lemma incrementUsage_returns env u f w :
  no_faults w -> usage_schema_ok (db w) -> In u (auth_users (db w)) ->
  ledgerCount (db w) u (periodKey env (clock w)) f + 1 <= INT4_MAX ->
  exists w', incrementUsage env u f w = (Return tt, w') /\ no_faults w'.
Proof.
  intros Hnf Hok Hu Hmax. set (k := periodKey env (clock w)) in *.
  unfold incrementUsage, bind.
  destruct (@usage_filter_unique (db w) u k Hok) as [Hnil|[r Hr]].
  - rewrite (@getOrCreate_created env u w Hnf Hnil Hu). fold k.
    rewrite countOf_toUsageTracking.
    set (w1 := after_request q_insert_usage _ _).
    assert (Hnf1 : no_faults w1)
      by (apply no_faults_after_request, no_faults_after_request; exact Hnf).
    rewrite (request_ok _ _ Hnf1), update_usage_fst.
    replace (rowCount f (fresh_usage_row (db w) u k (clock w))) with 0
      by (destruct f; reflexivity).
    cbn [in_int4 Z.add]. simpl. eexists. split; [reflexivity|].
    apply no_faults_after_request. exact Hnf1.
  - rewrite (@getOrCreate_found env u w r Hnf Hr).
    rewrite countOf_toUsageTracking.
    set (w1 := after_request q_select_usage _ _).
    assert (Hnf1 : no_faults w1) by (apply no_faults_after_request; exact Hnf).
    rewrite (request_ok _ _ Hnf1), update_usage_fst.
    assert (Hv : in_int4 (rowCount f r + 1) = true).
    { rewrite (@ledgerCount_of_filter (db w) u k f r Hr) in Hmax.
      assert (Hin : In r (filter (Pg.usage_matches u k)
                                 (usage_tracking (db w))))
        by (rewrite Hr; left; reflexivity).
      apply filter_In in Hin. destruct Hin as [Hin _].
      pose proof (ok_int4 Hok) as Hint. rewrite Forall_forall in Hint.
      specialize (Hint r Hin f). unfold in_int4 in *.
      apply andb_true_iff in Hint. destruct Hint as [Hlo Hhi].
      apply Z.leb_le in Hlo. apply andb_true_iff. split; apply Z.leb_le;
        unfold INT4_MIN, INT4_MAX in *; lia. }
    rewrite Hv. simpl. eexists. split; [reflexivity|].
    apply no_faults_after_request. exact Hnf1.
Qed.

(** The database after [checkUsageLimit]: as before, or with the entry of
    the period inserted. *)
Lemma checkUsageLimit_db env u f w :
  let out := checkUsageLimit env u f w in
  clock (snd out) = clock w
  /\ (db (snd out) = db w
      \/ db (snd out)
         = snd (Pg.insert_usage u (periodKey env (clock w)) (clock w) (db w))).
Proof.
  cbn zeta. unfold checkUsageLimit, bind. rewrite getUserPlanType_eq.
  destruct (hd false (faults w)); cbn [fst snd].
  { split; [reflexivity|left; reflexivity]. }
  match goal with |- context [isFreePlan ?p] => destruct (isFreePlan p) end;
    cbn [negb].
  2:{ split; [reflexivity|left; reflexivity]. }
  set (w0 := after_request q_select_subscription (db w) w).
  destruct (getOrCreate_cases env u w0) as [Hc Hcase].
  destruct (getOrCreateUsageRecord env u w0) as [o w1]. cbn [fst snd] in *.
  change (clock w0) with (clock w) in *. change (db w0) with (db w) in *.
  destruct Hcase as [(r & -> & Hd & _)|[(-> & Hd & _)|(e & -> & Hd)]];
    cbn [fst snd]; (split; [exact Hc|]); auto.
Qed.

Lemma getMonthlyUsage_db env u w :
  let out := getMonthlyUsage env u w in
  clock (snd out) = clock w
  /\ (db (snd out) = db w
      \/ db (snd out)
         = snd (Pg.insert_usage u (periodKey env (clock w)) (clock w) (db w))).
Proof.
  cbn zeta. unfold getMonthlyUsage, bind. rewrite getUserPlanType_eq.
  destruct (hd false (faults w)); cbn [fst snd].
  { split; [reflexivity|left; reflexivity]. }
  set (w0 := after_request q_select_subscription (db w) w).
  destruct (getOrCreate_cases env u w0) as [Hc Hcase].
  destruct (getOrCreateUsageRecord env u w0) as [o w1]. cbn [fst snd] in *.
  change (clock w0) with (clock w) in *. change (db w0) with (db w) in *.
  destruct Hcase as [(r & -> & Hd & _)|[(-> & Hd & _)|(e & -> & Hd)]];
    cbn [fst snd]; (split; [exact Hc|]); auto.
Qed.

(** What the check answers for a user on the free plan when no fault is
    pending. *)
Lemma checkUsageLimit_free env u f w :
  no_faults w -> usage_schema_ok (db w) -> In u (auth_users (db w)) ->
  on_free_plan (db w) u ->
  exists w',
    checkUsageLimit env u f w
    = (Return
         {| allowed :=
              JsNum.ltb (ledgerCount (db w) u (periodKey env (clock w)) f)
                        (getFeatureLimit free f);
            currentUsage := ledgerCount (db w) u (periodKey env (clock w)) f;
            limit := getFeatureLimit free f;
            remaining :=
              JsNum.max0
                (JsNum.sub (getFeatureLimit free f)
                   (ledgerCount (db w) u (periodKey env (clock w)) f));
            check_planType := free |}, w').
Proof.
  intros Hnf Hok Hu Hfree. set (k := periodKey env (clock w)) in *.
  unfold checkUsageLimit, bind.
  rewrite (@getUserPlanType_free u w Hnf Hfree). cbn [isFreePlan negb].
  set (w0 := after_request q_select_subscription (db w) w).
  assert (Hnf0 : no_faults w0) by (apply no_faults_after_request; exact Hnf).
  destruct (@usage_filter_unique (db w) u k Hok) as [Hnil|[r Hr]].
  - rewrite (@getOrCreate_created env u w0 Hnf0 Hnil Hu).
    rewrite countOf_toUsageTracking.
    rewrite (@ledgerCount_none (db w) u k f Hnil).
    change (periodKey env (clock w0)) with k. change (db w0) with (db w).
    replace (rowCount f (fresh_usage_row (db w) u k (clock w0))) with 0
      by (destruct f; reflexivity).
    eexists. reflexivity.
  - rewrite (@getOrCreate_found env u w0 r Hnf0 Hr).
    rewrite countOf_toUsageTracking.
    rewrite (@ledgerCount_of_filter (db w) u k f r Hr).
    eexists. reflexivity.
Qed.

Open Scope js_scope.

(** ** Quota of the free plan *)

Lemma feature_eqb_refl f :
  feature_eqb f f = true.
Proof. destruct f; reflexivity. Qed.

Lemma freeLimit_catalogue f : getFeatureLimit free f = Finite (freeLimit f).
Proof. destruct f; reflexivity. Qed.

(** [n] calls in one period, none failing, add [n] to the counter. *)
Lemma incrementTimes_counts env u f k :
  forall times w,
    no_faults w -> usage_schema_ok (db w) -> In u (auth_users (db w)) ->
    on_free_plan (db w) u ->
    (forall t', In t' times -> periodKey env t' = k) ->
    ledgerCount (db w) u k f + Z.of_nat (List.length times) <= INT4_MAX ->
    exists w1,
      incrementTimes env u f times w = (Return tt, w1)
      /\ no_faults w1 /\ usage_schema_ok (db w1)
      /\ In u (auth_users (db w1)) /\ on_free_plan (db w1) u
      /\ ledgerCount (db w1) u k f
         = ledgerCount (db w) u k f + Z.of_nat (List.length times).
Proof.
  induction times as [|t times IH]; intros w Hnf Hok Hu Hfree Hk Hmax.
  - exists w. cbn [incrementTimes List.length Z.of_nat].
    split_and; try assumption; try reflexivity. lia.
  - cbn [incrementTimes].
    assert (Hkt : periodKey env t = k) by (apply Hk; left; reflexivity).
    set (wt := at_time t w).
    assert (Hnft : no_faults wt) by (apply no_faults_at_time; exact Hnf).
    cbn [List.length] in Hmax. rewrite Nat2Z.inj_succ in Hmax.
    destruct (incrementUsage_returns env u f wt Hnft Hok Hu) as (w' & E & Hnf').
    { change (clock wt) with t. rewrite Hkt. change (db wt) with (db w). lia. }
    rewrite E.
    pose proof (incrementUsage_monotone env u f wt Hok) as [Hok' _].
    pose proof (incrementUsage_frame env u f wt) as [Hau Hsub].
    pose proof (incrementUsage_success env u f wt Hok) as Hcnt.
    rewrite E in Hok', Hau, Hsub, Hcnt. cbn [fst snd] in *.
    specialize (Hcnt eq_refl u k f).
    change (clock wt) with t in Hcnt. rewrite Hkt in Hcnt.
    rewrite String.eqb_refl, Civil_eqb_refl, feature_eqb_refl in Hcnt.
    cbn [andb] in Hcnt. change (db wt) with (db w) in *.
    destruct (IH w') as (w1 & E1 & Hnf1 & Hok1 & Hu1 & Hfree1 & Hc1).
    + exact Hnf'.
    + exact Hok'.
    + rewrite Hau. exact Hu.
    + unfold on_free_plan. rewrite Hsub. exact Hfree.
    + intros t' Ht'. apply Hk. right. exact Ht'.
    + rewrite Hcnt. lia.
    + exists w1. split_and; try assumption.
      rewrite Hc1, Hcnt. cbn [List.length]. lia.
Qed.

(** C1. A user on the free plan who has made [n] successful calls of
    [incrementUsage] for a feature in the current month, starting from a
    count of zero, with [n] at most the feature's free limit (ocr 50,
    export 3, ai_assistant 10): [checkUsageLimit] then reports
    [currentUsage = n], the limit of the catalogue, [remaining = limit - n]
    and [allowed] exactly when [n < limit]; so it allows below the limit and
    denies at the limit, and after three exports it answers
    [{allowed: false, currentUsage: 3, limit: 3, remaining: 0}]. *)
Theorem free_plan_quota env u f times t w :
  no_faults w -> usage_schema_ok (db w) -> In u (auth_users (db w)) ->
  on_free_plan (db w) u ->
  (forall t', In t' times -> localMonth env t' = localMonth env t) ->
  ledgerCount (db w) u (periodKey env t) f = 0 ->
  Z.of_nat (List.length times) <= freeLimit f ->
  exists w1 w2 res,
    incrementTimes env u f times w = (Return tt, w1)
    /\ checkUsageLimit env u f (at_time t w1) = (Return res, w2)
    /\ res = {| allowed := Z.of_nat (List.length times) <? freeLimit f;
                currentUsage := Z.of_nat (List.length times);
                limit := Finite (freeLimit f);
                remaining := Finite (freeLimit f - Z.of_nat (List.length times));
                check_planType := free |}
    /\ limit res = getFeatureLimit free f
    /\ freeLimit f = match f with ocr => 50 | export => 3 | ai_assistant => 10 end
    /\ (Z.of_nat (List.length times) < freeLimit f -> allowed res = true)
    /\ (Z.of_nat (List.length times) = freeLimit f ->
        allowed res = false /\ remaining res = Finite 0)
    /\ (f = export -> List.length times = 3%nat ->
        res = {| allowed := false; currentUsage := 3; limit := Finite 3;
                 remaining := Finite 0; check_planType := free |}).
Proof.
  intros Hnf Hok Hu Hfree Hmonth Hzero Hn.
  set (k := periodKey env t) in *. set (n := Z.of_nat (List.length times)) in *.
  destruct (incrementTimes_counts env u f k times w Hnf Hok Hu Hfree)
    as (w1 & E1 & Hnf1 & Hok1 & Hu1 & Hfree1 & Hc1).
  { intros t' Ht'. apply periodKey_same_month. apply Hmonth. exact Ht'. }
  { rewrite Hzero. fold n. unfold INT4_MAX. destruct f; simpl in Hn; lia. }
  rewrite Hzero in Hc1. fold n in Hc1. cbn [Z.add] in Hc1.
  destruct (checkUsageLimit_free env u f (at_time t w1)
              (no_faults_at_time t Hnf1) Hok1 Hu1 Hfree1) as (w2 & E2).
  change (clock (at_time t w1)) with t in E2.
  change (db (at_time t w1)) with (db w1) in E2. fold k in E2.
  rewrite Hc1, freeLimit_catalogue in E2. cbn [JsNum.ltb JsNum.sub JsNum.max0] in E2.
  replace (Z.max 0 (freeLimit f - n)) with (freeLimit f - n) in E2 by lia.
  exists w1, w2. eexists. split; [exact E1|]. split; [exact E2|].
  split; [reflexivity|]. cbn [limit allowed remaining].
  split; [symmetry; apply freeLimit_catalogue|].
  split; [destruct f; reflexivity|].
  split; [intros Hlt; apply Z.ltb_lt; exact Hlt|].
  split.
  - intros ->. split; [apply Z.ltb_irrefl|]. f_equal. lia.
  - intros -> Hlen. subst n. rewrite Hlen. reflexivity.
Qed.

(** The scenario of three exports in February 2024, in Japan. *)
Lemma free_plan_quota_witness :
  exists w1 w2,
    incrementTimes Scenario.env_jst Scenario.alice export
      [Scenario.feb15; Scenario.feb16; Scenario.feb17]
      (Scenario.world_of Scenario.db_new_user Scenario.feb15) = (Return tt, w1)
    /\ checkUsageLimit Scenario.env_jst Scenario.alice export
         (at_time Scenario.feb18 w1)
       = (Return {| allowed := false; currentUsage := 3; limit := Finite 3;
                    remaining := Finite 0; check_planType := free |}, w2).
Proof.
  destruct (free_plan_quota Scenario.env_jst Scenario.alice export
              [Scenario.feb15; Scenario.feb16; Scenario.feb17] Scenario.feb18
              (Scenario.world_of Scenario.db_new_user Scenario.feb15))
    as (w1 & w2 & res & E1 & E2 & _ & _ & _ & _ & _ & Hres).
  - constructor.
  - constructor; simpl; constructor.
  - left. reflexivity.
  - intros r [].
  - intros t' [<-|[<-|[<-|[]]]]; vm_compute; reflexivity.
  - reflexivity.
  - simpl. lia.
  - exists w1, w2. split; [exact E1|].
    rewrite E2, (Hres eq_refl eq_refl). reflexivity.
Defined.

(** ** Paid plans *)

(** C6. For a user whose subscription row is on a paid plan (standard,
    premium or pro_yearly) and whose plan is read without a transient
    fault, [checkUsageLimit] answers [allowed = true], [currentUsage = 0],
    [limit = remaining = Infinity] for every feature and every content of
    the ledger; the only request it issues is the read of [subscriptions],
    so the ledger is neither read nor written and the database is
    unchanged. *)
Theorem paid_plan_unlimited env u f w r :
  hd false (faults w) = false ->
  filter (fun row => (Subscriptions.user_id row =? u)%string)
         (subscriptions (db w)) = [r] ->
  Subscriptions.plan_type r <> free ->
  checkUsageLimit env u f w
  = (Return {| allowed := true; currentUsage := 0; limit := Infinity;
               remaining := Infinity;
               check_planType := Subscriptions.plan_type r |},
     after_request q_select_subscription (db w) w)
  /\ db (snd (checkUsageLimit env u f w)) = db w
  /\ trace (snd (checkUsageLimit env u f w))
     = trace w ++ [{| q_table := t_subscriptions; q_verb := SELECT |}].
Proof.
  intros Hfault Hrow Hpaid.
  assert (E : checkUsageLimit env u f w
              = (Return {| allowed := true; currentUsage := 0;
                           limit := Infinity; remaining := Infinity;
                           check_planType := Subscriptions.plan_type r |},
                 after_request q_select_subscription (db w) w)).
  { unfold checkUsageLimit, bind.
    rewrite getUserPlanType_eq, Hfault, Hrow.
    destruct (Subscriptions.plan_type r); [congruence| | |]; reflexivity. }
  rewrite E. repeat split; reflexivity.
Qed.

(** Alice on the premium plan asks for an OCR. *)
Lemma paid_plan_unlimited_witness :
  checkUsageLimit Scenario.env_utc Scenario.alice ocr
    (Scenario.world_of Scenario.db_premium Scenario.feb15)
  = (Return {| allowed := true; currentUsage := 0; limit := Infinity;
               remaining := Infinity; check_planType := premium |},
     after_request q_select_subscription Scenario.db_premium
       (Scenario.world_of Scenario.db_premium Scenario.feb15)).
Proof.
  apply (paid_plan_unlimited Scenario.env_utc Scenario.alice ocr
           (Scenario.world_of Scenario.db_premium Scenario.feb15)
           Scenario.premium_row).
  - reflexivity.
  - reflexivity.
  - discriminate.
Defined.

Open Scope js_scope.

(** ** Monotone counters, scoped by month *)

Lemma runOp_db_cases env op w :
  usage_schema_ok (db w) ->
  usage_schema_ok (db (runOp env op w))
  /\ ledger_le (usage_tracking (db w)) (usage_tracking (db (runOp env op w))).
Proof.
  intros Hok. destruct op as [u f|u|u f]; cbn [runOp].
  - destruct (checkUsageLimit_db env u f w) as [_ [-> | ->]].
    + split; [exact Hok|apply ledger_le_refl].
    + split; [apply insert_usage_ok; exact Hok|apply insert_usage_le].
  - destruct (getMonthlyUsage_db env u w) as [_ [-> | ->]].
    + split; [exact Hok|apply ledger_le_refl].
    + split; [apply insert_usage_ok; exact Hok|apply insert_usage_le].
  - apply incrementUsage_monotone. exact Hok.
Qed.

Lemma runOps_monotone env ops :
  forall w,
    usage_schema_ok (db w) ->
    usage_schema_ok (db (runOps env ops w))
    /\ ledger_le (usage_tracking (db w))
                 (usage_tracking (db (runOps env ops w))).
Proof.
  induction ops as [|[t op] ops IH]; intros w Hok; cbn [runOps].
  - split; [exact Hok|apply ledger_le_refl].
  - destruct (runOp_db_cases env op (at_time t w) Hok) as [Hok1 Hle1].
    destruct (IH _ Hok1) as [Hok2 Hle2]. split; [exact Hok2|].
    eapply ledger_le_trans; [exact Hle1|exact Hle2].
Qed.

(** A call of [incrementUsage], returning or not, leaves the counts of
    every other period alone. *)
Lemma incrementUsage_other_period env u f w u' k' f' :
  usage_schema_ok (db w) -> k' <> periodKey env (clock w) ->
  ledgerCount (db (snd (incrementUsage env u f w))) u' k' f'
  = ledgerCount (db w) u' k' f'.
Proof.
  intros Hok Hne.
  destruct (incrementUsage_cases env u f w) as [_ (d1 & Hd1 & Hcase)].
  assert (Hok1 : usage_schema_ok d1).
  { destruct Hd1 as [->| ->]; [exact Hok|apply insert_usage_ok; exact Hok]. }
  assert (Hcount : ledgerCount d1 u' k' f' = ledgerCount (db w) u' k' f').
  { destruct Hd1 as [->| ->]; [reflexivity|apply insert_usage_count]. }
  destruct Hcase as [(r & _ & Hin & Hkey & Hv & ->)|(e & _ & ->)];
    [|exact Hcount].
  rewrite (@update_usage_count f _ (clock w) d1 r u _ u' k' f'
             Hok1 Hin Hkey Hv).
  apply Civil_eqb_neq in Hne. rewrite Hne, andb_false_r. exact Hcount.
Qed.

(** When the caller has no entry for the period and the call returns, the
    ledger is the old one followed by one entry for that period with all
    counters at zero. *)
Lemma getOrCreate_fresh env u w :
  filter (Pg.usage_matches u (periodKey env (clock w)))
         (usage_tracking (db w)) = [] ->
  forall rec, fst (getOrCreateUsageRecord env u w) = Return rec ->
  exists r,
    usage_tracking (db (snd (getOrCreateUsageRecord env u w)))
    = usage_tracking (db w) ++ [r]
    /\ usage_key r = (u, periodKey env (clock w)) /\ zero_row r
    /\ rec = toUsageTracking r.
Proof.
  intros Hnil rec Hret.
  destruct (getOrCreate_cases env u w) as [_ Hcase].
  destruct Hcase as [(r & _ & _ & Hf)|[(Ho & Hd & He & Hm)|(e & Ho & _)]].
  - congruence.
  - exists (fresh_usage_row (db w) u (periodKey env (clock w)) (clock w)).
    rewrite Hd, (@insert_usage_appends u _ (clock w) (db w) Hm He).
    split_and; try reflexivity.
    + intros f. destruct f; reflexivity.
    + congruence.
  - congruence.
Qed.

Section Dates2024.

Import JsDate.

Lemma localDate_day env t c :
  localDate env t = c ->
  Day (LocalTime (TZ env) t) = days_from_civil (year c) (month c) (day c).
Proof.
  unfold localDate. intros <-. symmetry. apply days_from_civil_from_days.
Qed.

Lemma localDate_month env t c :
  localDate env t = c -> localMonth env t = (year c, month c - 1).
Proof.
  unfold localDate, localMonth, getFullYear, getMonth. intros ->.
  reflexivity.
Qed.

(** A time on a local day from 1970-01-02 on is after the epoch. *)
Lemma after_epoch env t c :
  tz_in_range env -> localDate env t = c ->
  1 <= days_from_civil (year c) (month c) (day c) -> 0 <= t.
Proof.
  unfold tz_in_range. intros Htz Hc Hd.
  apply localDate_day in Hc. rewrite <- Hc in Hd.
  unfold Day, LocalTime, msPerDay, msPerMinute in Hd.
  assert (1 * 86400000 <= t + TZ env * 60000).
  { destruct (Z_lt_le_dec (t + TZ env * 60000) 86400000) as [Hlt|]; [|lia].
    exfalso.
    assert ((t + TZ env * 60000) / 86400000 < 1)
      by (apply Z.div_lt_upper_bound; lia).
    lia. }
  lia.
Qed.

(** In any one time zone, a time on 2024-01-31 and a time on 2024-02-01
    have different period keys. *)
Lemma jan31_feb01_keys env t1 t2 :
  tz_in_range env ->
  localDate env t1 = mkCivil 2024 1 31 ->
  localDate env t2 = mkCivil 2024 2 1 ->
  periodKey env t1 <> periodKey env t2.
Proof.
  intros Htz H1 H2 E.
  assert (Ht1 : 0 <= t1)
    by (apply (after_epoch env t1 _ Htz H1); vm_compute; discriminate).
  assert (Ht2 : 0 <= t2)
    by (apply (after_epoch env t2 _ Htz H2); vm_compute; discriminate).
  apply (periodKey_inj Ht1 Ht2 Htz) in E.
  rewrite (localDate_month env t1 _ H1), (localDate_month env t2 _ H2) in E.
  discriminate.
Qed.

End Dates2024.

Open Scope js_scope.

(** ** Relations kept by every step of a handler *)

Section Steps.

Variable R : Db -> Db -> Prop.
Hypothesis R_refl : forall d, R d d.
Hypothesis R_trans : forall a b c, R a b -> R b c -> R a c.

Lemma db_step_ret (A : Type) (a : A) : db_step R (ret a).
Proof. intros w. apply R_refl. Qed.

Lemma db_step_throw (A : Type) (e : JsError) : db_step R (@throw A e).
Proof. intros w. apply R_refl. Qed.

Lemma db_step_emit l : db_step R (emit l).
Proof. intros w. apply R_refl. Qed.

Lemma db_step_new_Date : db_step R new_Date.
Proof. intros w. apply R_refl. Qed.

Lemma db_step_bind (A B : Type) (m : M A) (k : A -> M B) :
  db_step R m -> (forall a, db_step R (k a)) -> db_step R (bind m k).
Proof.
  intros Hm Hk w. unfold bind. specialize (Hm w).
  destruct (m w) as [[a|e] w1]; cbn [snd] in *.
  - eapply R_trans; [exact Hm|apply Hk].
  - exact Hm.
Qed.

Lemma db_step_try_catch (A : Type) (m : M A) (h : JsError -> M A) :
  db_step R m -> (forall e, db_step R (h e)) -> db_step R (try_catch m h).
Proof.
  intros Hm Hh w. unfold try_catch. specialize (Hm w).
  destruct (m w) as [[a|e] w1]; cbn [snd] in *.
  - exact Hm.
  - eapply R_trans; [exact Hm|apply Hh].
Qed.

Lemma db_step_request (A : Type) q (op : Z -> Db -> PgResponse A * Db) :
  (forall now d, R d (snd (op now d))) -> db_step R (request q op).
Proof.
  intros Hop w. rewrite request_eq.
  destruct (hd false (faults w)); cbn [snd db after_request].
  - apply R_refl.
  - apply Hop.
Qed.

Lemma db_step_if (A : Type) (b : bool) (m1 m2 : M A) :
  db_step R m1 -> db_step R m2 -> db_step R (if b then m1 else m2).
Proof. destruct b; auto. Qed.

End Steps.

(** Handlers are chains of binds over requests, console lines and throws:
    a reflexive and transitive relation that every request keeps is kept by
    the handler. What is left to prove is the relation for each request. *)
Ltac db_steps Hrefl Htrans :=
  repeat first
    [ apply (db_step_ret _ Hrefl)
    | apply (db_step_throw _ Hrefl)
    | apply (db_step_emit _ Hrefl)
    | apply (db_step_new_Date _ Hrefl)
    | apply (db_step_bind _ Htrans); [|intros ?]
    | apply (db_step_try_catch _ Htrans); [|intros ?]
    | apply (db_step_request _ Hrefl); intros ? ?
    | match goal with
      | |- db_step _ (match ?x with _ => _ end) => destruct x
      | |- db_step _ (if ?x then _ else _) => destruct x
      end
    | progress unfold upsertSubscription, toISOString, cancelSubscription,
        revertToFreePlan, createSupabaseAdminClient, getStripeClient ].

(** ** Reads leave the database alone *)

Lemma select_usage_db u k now d : snd (Pg.select_usage u k now d) = d.
Proof. reflexivity. Qed.

Lemma select_subscription_db u now d :
  snd (Pg.select_subscription_by_user u now d) = d.
Proof. reflexivity. Qed.

Lemma select_user_db s now d :
  snd (Pg.select_user_by_stripe_subscription s now d) = d.
Proof. reflexivity. Qed.

Lemma verifyStripeWebhook_pure env stripe body signature w :
  snd (verifyStripeWebhook env stripe body signature w) = w.
Proof.
  unfold verifyStripeWebhook, getStripeClient, bind.
  destruct (truthy (STRIPE_SECRET_KEY env)); cbn; [|reflexivity].
  destruct (nonempty (STRIPE_WEBHOOK_SECRET env)); cbn; [|reflexivity].
  destruct (constructEvent stripe body signature s); reflexivity.
Qed.

Open Scope js_scope.

(** ** The webhook endpoint *)

(** C4. A webhook request without a [stripe-signature] header (or with an
    empty one), or one whose signature verification throws, is answered
    with status 400, a client error; the database is left as it was and no
    database request is issued at all. *)
Theorem webhook_rejects_unverified env stripe req w :
  (nonempty (wh_signature req) = None
   \/ exists signature e,
        nonempty (wh_signature req) = Some signature
        /\ fst (verifyStripeWebhook env stripe (wh_body req) signature w)
           = Throw e) ->
  exists res w',
    Webhook.POST env stripe req w = (Return res, w')
    /\ res_status res = 400 /\ 400 <= res_status res < 500
    /\ db w' = db w /\ trace w' = trace w /\ faults w' = faults w.
Proof.
  intros [Hmissing|(signature & e & Hsig & Hthrow)];
    unfold Webhook.POST, try_catch, bind.
  - rewrite Hmissing. cbn. eexists _, _. split; [reflexivity|].
    cbn. split_and; try reflexivity; lia.
  - rewrite Hsig.
    pose proof (verifyStripeWebhook_pure env stripe (wh_body req) signature w)
      as Hpure.
    destruct (verifyStripeWebhook env stripe (wh_body req) signature w)
      as [o w0]. cbn [fst snd] in *. subst o w0. cbn.
    eexists _, _. split; [reflexivity|].
    cbn. split_and; try reflexivity; lia.
Qed.

(** An unsigned request against Alice's premium subscription. *)
Lemma webhook_rejects_unverified_witness :
  exists res w',
    Webhook.POST Scenario.env_utc
      {| constructEvent := fun _ _ _ => None;
         subscriptions_retrieve := fun _ => None |}
      {| wh_body := "{}"; wh_signature := None |}
      (Scenario.world_of Scenario.db_premium Scenario.feb15) = (Return res, w')
    /\ res_status res = 400 /\ db w' = Scenario.db_premium.
Proof.
  destruct (webhook_rejects_unverified Scenario.env_utc
              {| constructEvent := fun _ _ _ => None;
                 subscriptions_retrieve := fun _ => None |}
              {| wh_body := "{}"; wh_signature := None |}
              (Scenario.world_of Scenario.db_premium Scenario.feb15))
    as (res & w' & E & Hs & _ & Hd & _).
  - left. reflexivity.
  - exists res, w'. split_and; assumption.
Defined.

(** ** Unknown prices *)

Lemma planTypeOfPrice_unknown env price :
  (forall p, price = Some p -> getPlanTypeFromPriceId env p = None) ->
  planTypeOfPrice env price = None.
Proof.
  intros H. unfold planTypeOfPrice, nonempty.
  destruct (truthy price); [|reflexivity].
  destruct price as [p|]; [apply H; reflexivity|reflexivity].
Qed.

(** With an unknown price, [handleSubscriptionUpdated] writes nothing. *)
Lemma handleSubscriptionUpdated_unknown env sub :
  planTypeOfPrice env (ss_price_id sub) = None ->
  db_step eq (handleSubscriptionUpdated env sub).
Proof.
  intros Hprice. unfold handleSubscriptionUpdated. rewrite Hprice.
  db_steps (@eq_refl Db) (@eq_trans Db). reflexivity.
Qed.

Lemma createSupabaseAdminClient_eq env w :
  createSupabaseAdminClient env w
  = if admin_configured env then (Return tt, w)
    else (Throw (Error SupabaseEnvMissing), w).
Proof.
  unfold createSupabaseAdminClient, admin_configured.
  destruct (_ && _); reflexivity.
Qed.

(** What it logs: the unknown price, or that no user could be found. *)
Lemma handleSubscriptionUpdated_unknown_log env sub w :
  planTypeOfPrice env (ss_price_id sub) = None ->
  admin_configured env = true ->
  fst (handleSubscriptionUpdated env sub w) = Return tt
  /\ (In (console_error (UnknownPriceId (ss_price_id sub)))
         (console (snd (handleSubscriptionUpdated env sub w)))
      \/ (nonempty (ss_supabase_user_id sub) = None
          /\ In (console_error UserIdMissing)
                (console (snd (handleSubscriptionUpdated env sub w))))).
Proof.
  intros Hprice Hadmin. unfold handleSubscriptionUpdated, bind.
  rewrite Hprice, emit_eq, createSupabaseAdminClient_eq, Hadmin.
  destruct (nonempty (ss_supabase_user_id sub)) as [userId|].
  - cbn. split; [reflexivity|]. left. apply in_or_app. right. left.
    reflexivity.
  - rewrite request_eq.
    destruct (hd false (faults _)); cbn [fst snd].
    + cbn. split; [reflexivity|]. right. split; [reflexivity|].
      apply in_or_app. right. left. reflexivity.
    + destruct (fst (Pg.select_user_by_stripe_subscription _ _ _))
        as [user|err]; cbn.
      * destruct (nonempty (Some user)); cbn.
        -- split; [reflexivity|]. left. apply in_or_app. right. left.
           reflexivity.
        -- split; [reflexivity|]. right. split; [reflexivity|].
           apply in_or_app. right. left. reflexivity.
      * split; [reflexivity|]. right. split; [reflexivity|].
        apply in_or_app. right. left. reflexivity.
Qed.

(** What the endpoint does with a verified event. *)
Lemma POST_verified env stripe req w signature event :
  nonempty (wh_signature req) = Some signature ->
  fst (verifyStripeWebhook env stripe (wh_body req) signature w)
  = Return event ->
  Webhook.POST env stripe req w
  = match dispatch env stripe event w with
    | (Return _, w') => (Return (NextResponse_json json_received 200), w')
    | (Throw error, w') =>
        (Return (NextResponse_json
                   (json_error (err_message error) None None) 500),
         after_emit (console_error WebhookFailed) w')
    end.
Proof.
  intros Hsig Hver. unfold Webhook.POST, try_catch, bind. rewrite Hsig.
  pose proof (verifyStripeWebhook_pure env stripe (wh_body req) signature w)
    as Hpure.
  destruct (verifyStripeWebhook env stripe (wh_body req) signature w)
    as [o w0]. cbn [fst snd] in *. subst o w0. cbn [ret].
  destruct (dispatch env stripe event w) as [[[]|error] w']; reflexivity.
Qed.

Lemma dispatch_updated_eq env stripe sub w :
  dispatch env stripe (customer_subscription_updated sub) w
  = handleSubscriptionUpdated env sub
      (after_emit (console_log (Info "webhook event received")) w).
Proof. reflexivity. Qed.

(** X29. A validly signed subscription-updated event whose price id
    [getPlanTypeFromPriceId] reads as [null] (an id that is none of the
    configured ones and not the name of a member of [Object.prototype], or
    no id at all) changes nothing in the database: no row is written or
    set to any tier. With the service-role client configured the handler
    logs the error (the unknown price, or, when the event carries no user
    id and no row refers to the subscription, the missing user) and the
    endpoint acknowledges the event. *)
Theorem unknown_price_rejected env stripe req w signature sub :
  nonempty (wh_signature req) = Some signature ->
  fst (verifyStripeWebhook env stripe (wh_body req) signature w)
  = Return (customer_subscription_updated sub) ->
  (forall p, ss_price_id sub = Some p -> getPlanTypeFromPriceId env p = None) ->
  db (snd (Webhook.POST env stripe req w)) = db w
  /\ (admin_configured env = true ->
      fst (Webhook.POST env stripe req w)
      = Return (NextResponse_json json_received 200)
      /\ (In (console_error (UnknownPriceId (ss_price_id sub)))
             (console (snd (Webhook.POST env stripe req w)))
          \/ (nonempty (ss_supabase_user_id sub) = None
              /\ In (console_error UserIdMissing)
                    (console (snd (Webhook.POST env stripe req w)))))).
Proof.
  intros Hsig Hver Hprice.
  apply planTypeOfPrice_unknown in Hprice.
  rewrite (POST_verified env stripe req w signature _ Hsig Hver).
  rewrite dispatch_updated_eq.
  set (w1 := after_emit (console_log (Info "webhook event received")) w).
  pose proof (handleSubscriptionUpdated_unknown env sub Hprice w1) as Hdb.
  pose proof (handleSubscriptionUpdated_unknown_log env sub w1 Hprice) as Hlog.
  destruct (handleSubscriptionUpdated env sub w1) as [[[]|error] w2];
    cbn [fst snd db after_emit] in *.
  - split; [symmetry; exact Hdb|]. intros Hadmin.
    split; [reflexivity|]. apply (Hlog Hadmin).
  - split; [symmetry; exact Hdb|]. intros Hadmin.
    destruct (Hlog Hadmin) as [Habs _]. discriminate.
Qed.

(** A signed update of Alice's subscription to a price nobody sells. *)
Lemma unknown_price_rejected_witness :
  db (snd (Webhook.POST Scenario.env_utc
             {| constructEvent := fun _ _ _ =>
                  Some (customer_subscription_updated
                          {| ss_id := "sub_1";
                             ss_supabase_user_id := Some Scenario.alice;
                             ss_price_id := Some "price_unknown";
                             ss_customer := ExpId "cus_1";
                             ss_status := stripe_active;
                             ss_current_period_start := Some 1706745600;
                             ss_current_period_end := Some 1709251200;
                             ss_cancel_at_period_end := false |});
                subscriptions_retrieve := fun _ => None |}
             {| wh_body := "{}"; wh_signature := Some "t=1,v1=abc" |}
             (Scenario.world_of Scenario.db_premium Scenario.feb15)))
  = Scenario.db_premium.
Proof.
  refine (proj1 (unknown_price_rejected Scenario.env_utc _ _ _
                   "t=1,v1=abc" _ _ _ _)).
  - reflexivity.
  - reflexivity.
  - intros p [= <-]. reflexivity.
Defined.

(** ** A price id that names a member of [Object.prototype] *)

(** C7. The price id [toString] is in no entry of the catalogue, but the
    lookup returns the function every object inherits under that name,
    and the handler takes it for a plan. For a validly signed
    subscription-updated event of Alice's with that price id the endpoint
    answers 200 without logging an unknown price and sends the upsert:
    her premium row is rewritten (status, period bounds) with the plan
    column left out of the statement, and a user without a row gets one
    on the column default, the free plan. *)
Theorem prototype_price_id_is_not_rejected :
  let sub :=
    {| ss_id := "sub_1";
       ss_supabase_user_id := Some Scenario.alice;
       ss_price_id := Some "toString";
       ss_customer := ExpId "cus_1";
       ss_status := stripe_past_due;
       ss_current_period_start := Some 1709251200;
       ss_current_period_end := Some 1711929600;
       ss_cancel_at_period_end := false |} in
  let stripe :=
    {| constructEvent := fun _ _ _ =>
         Some (customer_subscription_updated sub);
       subscriptions_retrieve := fun _ => None |} in
  let req := {| wh_body := "{}"; wh_signature := Some "t=1,v1=abc" |} in
  let run d :=
    Webhook.POST Scenario.env_utc stripe req
                 (Scenario.world_of d Scenario.feb15) in
  object_get (PRICE_ID_TO_PLAN Scenario.env_utc) "toString" = None
  /\ getPlanTypeFromPriceId Scenario.env_utc "toString"
     = Some (inherited "toString")
  /\ fst (run Scenario.db_premium)
     = Return (NextResponse_json json_received 200)
  /\ trace (snd (run Scenario.db_premium)) = [q_upsert_subscription]
  /\ ~ In (console_error (UnknownPriceId (Some "toString")))
          (console (snd (run Scenario.db_premium)))
  /\ subscriptions (db (snd (run Scenario.db_premium)))
     = [ {| Subscriptions.id := 1;
            Subscriptions.user_id := Scenario.alice;
            Subscriptions.stripe_customer_id := Some "cus_1";
            Subscriptions.stripe_subscription_id := Some "sub_1";
            Subscriptions.plan_type := premium;
            Subscriptions.status := past_due;
            Subscriptions.current_period_start := Some 1709251200000;
            Subscriptions.current_period_end := Some 1711929600000;
            Subscriptions.created_at := 1706745600000;
            Subscriptions.updated_at := Scenario.feb15 |} ]
  /\ db (snd (run Scenario.db_premium)) <> Scenario.db_premium
  /\ map Subscriptions.plan_type
         (subscriptions (db (snd (run Scenario.db_new_user)))) = [free].
Proof.
  cbv zeta. split_and.
  - reflexivity.
  - reflexivity.
  - vm_compute. reflexivity.
  - vm_compute. reflexivity.
  - vm_compute. intros [H|[H|[H|[]]]]; discriminate.
  - vm_compute. reflexivity.
  - vm_compute. discriminate.
  - vm_compute. reflexivity.
Qed.

Open Scope js_scope.

(** ** The customer reference *)

Lemma customer_kept_refl r : customer_kept r r.
Proof. unfold customer_kept. auto. Qed.

Lemma customer_kept_trans a b c :
  customer_kept a b -> customer_kept b c -> customer_kept a c.
Proof.
  unfold customer_kept. intros [Hu Hc] [Hu' Hc']. split; [congruence|auto].
Qed.

Lemma customers_kept_refl d : customers_kept d d.
Proof.
  exists (subscriptions d), []. split; [symmetry; apply app_nil_r|].
  apply Forall2_reflexive. apply customer_kept_refl.
Qed.

Lemma customers_kept_trans a b c :
  customers_kept a b -> customers_kept b c -> customers_kept a c.
Proof.
  intros (k1 & c1 & E1 & H1) (k2 & c2 & E2 & H2). rewrite E1 in H2.
  apply Forall2_app_inv_l in H2.
  destruct H2 as (k2a & k2b & Ha & Hb & ->).
  exists k2a, (k2b ++ c2). split; [rewrite E2; symmetry; apply app_assoc|].
  eapply Forall2_transitive; [apply customer_kept_trans|exact H1|exact Ha].
Qed.

Lemma customers_same_refl d : customers_same d d.
Proof. apply Forall2_reflexive. auto. Qed.

Lemma customers_same_trans a b c :
  customers_same a b -> customers_same b c -> customers_same a c.
Proof.
  unfold customers_same. apply Forall2_transitive.
  intros x y z [Hu Hc] [Hu' Hc']. split; congruence.
Qed.

Lemma customers_same_kept d d' : customers_same d d' -> customers_kept d d'.
Proof.
  intros H. exists (subscriptions d'), [].
  split; [symmetry; apply app_nil_r|].
  eapply Forall2_impl; [|exact H]. intros r r' [Hu Hc].
  split; [exact Hu|]. rewrite Hc. auto.
Qed.

(** An upsert overwrites the customer reference of the user's row with
    one from the event, never with NULL. *)
Lemma upsert_customers_kept v now d :
  customers_kept d (snd (Pg.upsert_subscription v now d)).
Proof.
  unfold Pg.upsert_subscription.
  destruct (Pg.refused v); [apply customers_kept_refl|].
  destruct (existsb _ (subscriptions d)); cbn [snd].
  - eexists _, []. split; [symmetry; apply app_nil_r|].
    cbn [subscriptions Pg.set_subscriptions]. apply Forall2_map_right.
    intros r _. destruct (String.eqb_spec (Subscriptions.user_id r)
                                          (Pg.v_user_id v)) as [E|_].
    + split; [symmetry; exact E|]. intros _. discriminate.
    + apply customer_kept_refl.
  - destruct (mem_string _ _); cbn [negb snd].
    + eexists _, _. split; [reflexivity|].
      apply Forall2_reflexive, customer_kept_refl.
    + apply customers_kept_refl.
Qed.

(** The three updates by subscription id touch neither the user nor the
    customer reference. *)
Lemma update_customers_same f s now d :
  (forall r, Subscriptions.user_id (f r) = Subscriptions.user_id r
             /\ Subscriptions.stripe_customer_id (f r)
                = Subscriptions.stripe_customer_id r) ->
  customers_same d (snd (Pg.update_by_stripe_subscription f s now d)).
Proof.
  intros Hf. unfold customers_same, Pg.update_by_stripe_subscription.
  cbn [snd subscriptions Pg.set_subscriptions]. apply Forall2_map_right.
  intros r _. destruct (opt_string_is _ s); [apply Hf|auto].
Qed.

Lemma handleSubscriptionDeleted_customers env sub :
  db_step customers_same (handleSubscriptionDeleted env sub).
Proof.
  unfold handleSubscriptionDeleted.
  db_steps customers_same_refl customers_same_trans;
    apply update_customers_same; intros r; split; reflexivity.
Qed.

Lemma handlePaymentFailed_customers env invoice :
  db_step customers_same (handlePaymentFailed env invoice).
Proof.
  unfold handlePaymentFailed.
  db_steps customers_same_refl customers_same_trans;
    apply update_customers_same; intros r; split; reflexivity.
Qed.

Lemma dispatch_customers_kept env stripe event :
  db_step customers_kept (dispatch env stripe event).
Proof.
  unfold dispatch.
  apply (db_step_bind _ customers_kept_trans);
    [apply (db_step_emit _ customers_kept_refl)|intros _].
  destruct event as [session|sub|sub|invoice|other].
  - unfold handleCheckoutCompleted.
    db_steps customers_kept_refl customers_kept_trans.
    apply upsert_customers_kept.
  - unfold handleSubscriptionUpdated.
    db_steps customers_kept_refl customers_kept_trans;
      try apply upsert_customers_kept; apply customers_kept_refl.
  - intros w. apply customers_same_kept.
    apply handleSubscriptionDeleted_customers.
  - intros w. apply customers_same_kept.
    apply handlePaymentFailed_customers.
  - apply (db_step_emit _ customers_kept_refl).
Qed.

Open Scope js_scope.

(** ** Subscription writes with no fault pending *)

Lemma cancelSubscription_ok sid w :
  no_faults w ->
  cancelSubscription sid w
  = (Return tt,
     after_request q_update_subscription
       (snd (Pg.update_by_stripe_subscription (canceled_row (clock w)) sid
                                              (clock w) (db w))) w).
Proof.
  intros Hnf. unfold cancelSubscription, bind, new_Date.
  fold q_update_subscription. rewrite (request_ok _ _ Hnf). reflexivity.
Qed.

Lemma revertToFreePlan_ok sid w :
  no_faults w ->
  revertToFreePlan sid w
  = (Return tt,
     after_request q_update_subscription
       (snd (Pg.update_by_stripe_subscription (free_row (clock w)) sid
                                              (clock w) (db w))) w).
Proof.
  intros Hnf. unfold revertToFreePlan, bind, new_Date.
  fold q_update_subscription. rewrite (request_ok _ _ Hnf). reflexivity.
Qed.

Lemma refers_to_canceled sid now r :
  refers_to sid (canceled_row now r) = refers_to sid r.
Proof. reflexivity. Qed.

Lemma refers_to_free sid now r : refers_to sid (free_row now r) = false.
Proof. reflexivity. Qed.

(** The table after a subscription-deleted event. *)
Lemma handleSubscriptionDeleted_ok env sub w :
  no_faults w -> admin_configured env = true ->
  exists w',
    handleSubscriptionDeleted env sub w = (Return tt, w')
    /\ no_faults w' /\ clock w' = clock w
    /\ db w' = Pg.set_subscriptions
                 (map (after_deletion sub (clock w)) (subscriptions (db w)))
                 (db w).
Proof.
  intros Hnf Hadmin. unfold handleSubscriptionDeleted, bind.
  rewrite emit_eq, createSupabaseAdminClient_eq, Hadmin.
  set (w0 := after_emit _ w).
  assert (Hnf0 : no_faults w0) by (apply no_faults_after_emit; exact Hnf).
  rewrite (cancelSubscription_ok _ _ Hnf0).
  set (w1 := after_request _ _ w0).
  assert (Hnf1 : no_faults w1) by (apply no_faults_after_request; exact Hnf0).
  unfold after_deletion.
  destruct (ss_cancel_at_period_end sub); cbn [negb].
  - rewrite emit_eq. eexists. split; [reflexivity|].
    split; [apply no_faults_after_emit; exact Hnf1|].
    split; reflexivity.
  - rewrite (revertToFreePlan_ok _ _ Hnf1), emit_eq.
    eexists. split; [reflexivity|].
    split; [apply no_faults_after_emit, no_faults_after_request; exact Hnf1|].
    split; [reflexivity|].
    cbn [db after_emit after_request w1 w0 clock snd
         Pg.update_by_stripe_subscription Pg.set_subscriptions
         subscriptions auth_users usage_tracking next_uuid].
    unfold Pg.set_subscriptions. cbn [auth_users usage_tracking next_uuid].
    f_equal. rewrite map_map. apply map_ext. intros r.
    fold (refers_to (ss_id sub) r).
    destruct (refers_to (ss_id sub) r) eqn:E.
    + fold (refers_to (ss_id sub) (canceled_row (clock w) r)).
      rewrite refers_to_canceled, E. reflexivity.
    + fold (refers_to (ss_id sub) r). rewrite E. reflexivity.
Qed.

(** C3. Handling a subscription-deleted event (no fault pending, service
    role configured) first sets the status of every row that refers to
    the subscription to canceled. If [cancel_at_period_end] is false the
    row then ends on the free plan with status active, no subscription
    reference and no period bounds; if it is true the row keeps its plan,
    subscription reference and period bounds and only its status (and
    [updated_at]) changed. Identity, user and customer reference of the row
    are kept, and every other row and table is untouched. *)
Theorem subscription_deleted_transition env sub w :
  no_faults w -> admin_configured env = true ->
  exists w',
    handleSubscriptionDeleted env sub w = (Return tt, w')
    /\ auth_users (db w') = auth_users (db w)
    /\ usage_tracking (db w') = usage_tracking (db w)
    /\ Forall2
         (fun r r1 =>
            if refers_to (ss_id sub) r
            then Subscriptions.status r1 = canceled
            else r1 = r)
         (subscriptions (db w))
         (subscriptions (db (snd (cancelSubscription (ss_id sub) w))))
    /\ Forall2
         (fun r r' =>
            if refers_to (ss_id sub) r then
              Subscriptions.id r' = Subscriptions.id r
              /\ Subscriptions.user_id r' = Subscriptions.user_id r
              /\ Subscriptions.stripe_customer_id r'
                 = Subscriptions.stripe_customer_id r
              /\ Subscriptions.created_at r' = Subscriptions.created_at r
              /\ if ss_cancel_at_period_end sub then
                   Subscriptions.status r' = canceled
                   /\ Subscriptions.plan_type r' = Subscriptions.plan_type r
                   /\ Subscriptions.stripe_subscription_id r'
                      = Subscriptions.stripe_subscription_id r
                   /\ Subscriptions.current_period_start r'
                      = Subscriptions.current_period_start r
                   /\ Subscriptions.current_period_end r'
                      = Subscriptions.current_period_end r
                 else
                   Subscriptions.plan_type r' = free
                   /\ Subscriptions.status r' = active
                   /\ Subscriptions.stripe_subscription_id r' = None
                   /\ Subscriptions.current_period_start r' = None
                   /\ Subscriptions.current_period_end r' = None
            else r' = r)
         (subscriptions (db w)) (subscriptions (db w')).
Proof.
  intros Hnf Hadmin.
  destruct (handleSubscriptionDeleted_ok env sub w Hnf Hadmin)
    as (w' & E & _ & _ & Hdb).
  exists w'. split; [exact E|]. rewrite Hdb.
  split; [reflexivity|]. split; [reflexivity|]. split.
  - rewrite (cancelSubscription_ok _ _ Hnf).
    cbn [snd db after_request Pg.update_by_stripe_subscription
         Pg.set_subscriptions subscriptions].
    apply Forall2_map_right. intros r _.
    fold (refers_to (ss_id sub) r).
    destruct (refers_to (ss_id sub) r); reflexivity.
  - cbn [Pg.set_subscriptions subscriptions].
    apply Forall2_map_right. intros r _. unfold after_deletion.
    destruct (refers_to (ss_id sub) r); [|reflexivity].
    destruct (ss_cancel_at_period_end sub); split_and; reflexivity.
Qed.

(** Scenario B: Alice, premium and active, and her subscription is deleted
    at once. *)
Lemma subscription_deleted_transition_witness :
  exists w',
    handleSubscriptionDeleted Scenario.env_utc
      {| ss_id := "sub_1"; ss_supabase_user_id := None;
         ss_price_id := Some "price_premium_monthly";
         ss_customer := ExpId "cus_1"; ss_status := stripe_canceled;
         ss_current_period_start := Some 1706745600;
         ss_current_period_end := Some 1709251200;
         ss_cancel_at_period_end := false |}
      (Scenario.world_of Scenario.db_premium Scenario.feb15) = (Return tt, w')
    /\ subscriptions (db w')
       = [ {| Subscriptions.id := 1;
              Subscriptions.user_id := Scenario.alice;
              Subscriptions.stripe_customer_id := Some "cus_1";
              Subscriptions.stripe_subscription_id := None;
              Subscriptions.plan_type := free;
              Subscriptions.status := active;
              Subscriptions.current_period_start := None;
              Subscriptions.current_period_end := None;
              Subscriptions.created_at := 1706745600000;
              Subscriptions.updated_at := Scenario.feb15 |} ].
Proof.
  destruct (subscription_deleted_transition Scenario.env_utc
              {| ss_id := "sub_1"; ss_supabase_user_id := None;
                 ss_price_id := Some "price_premium_monthly";
                 ss_customer := ExpId "cus_1"; ss_status := stripe_canceled;
                 ss_current_period_start := Some 1706745600;
                 ss_current_period_end := Some 1709251200;
                 ss_cancel_at_period_end := false |}
              (Scenario.world_of Scenario.db_premium Scenario.feb15))
    as (w' & E & _).
  - constructor.
  - reflexivity.
  - exists w'. split; [exact E|].
    apply (f_equal snd) in E. cbn [snd] in E. rewrite <- E.
    vm_compute. reflexivity.
Defined.

Open Scope js_scope.

Lemma POST_customers_kept env stripe req :
  db_step customers_kept (Webhook.POST env stripe req).
Proof.
  unfold Webhook.POST, verifyStripeWebhook.
  db_steps customers_kept_refl customers_kept_trans;
    first [ apply upsert_customers_kept
          | apply customers_same_kept, update_customers_same;
            intros r; split; reflexivity
          | apply customers_kept_refl ].
Qed.

(** C10. No transition of the reconciler sets [stripe_customer_id] to
    NULL. Whatever the request, the pending faults and the event, every
    subscription row is still in place after the webhook endpoint ran, for
    the same user, and a row that had a customer reference has one
    (checkout-completed and subscription-updated overwrite it with the
    customer of the event). Subscription-deleted and payment-failed events
    leave every [stripe_customer_id] exactly as it was; in particular an
    immediate deletion clears the subscription reference and the period
    bounds of the rows it matches and keeps their customer reference. *)
Theorem customer_reference_never_cleared :
  (forall env stripe req w,
      customers_kept (db w) (db (snd (Webhook.POST env stripe req w))))
  /\ (forall env stripe event w,
         customers_kept (db w) (db (snd (dispatch env stripe event w))))
  /\ (forall env sub w,
         customers_same (db w)
                        (db (snd (handleSubscriptionDeleted env sub w))))
  /\ (forall env invoice w,
         customers_same (db w)
                        (db (snd (handlePaymentFailed env invoice w))))
  /\ (forall env sub w,
         no_faults w -> admin_configured env = true ->
         ss_cancel_at_period_end sub = false ->
         Forall2
           (fun r r' =>
              if refers_to (ss_id sub) r then
                Subscriptions.stripe_subscription_id r' = None
                /\ Subscriptions.current_period_start r' = None
                /\ Subscriptions.current_period_end r' = None
                /\ Subscriptions.stripe_customer_id r'
                   = Subscriptions.stripe_customer_id r
              else r' = r)
           (subscriptions (db w))
           (subscriptions (db (snd (handleSubscriptionDeleted env sub w))))).
Proof.
  split_and.
  - intros env stripe req. apply POST_customers_kept.
  - intros env stripe event. apply dispatch_customers_kept.
  - intros env sub. apply handleSubscriptionDeleted_customers.
  - intros env invoice. apply handlePaymentFailed_customers.
  - intros env sub w Hnf Hadmin Hnow.
    destruct (handleSubscriptionDeleted_ok env sub w Hnf Hadmin)
      as (w' & E & _ & _ & Hdb).
    rewrite E. cbn [snd]. rewrite Hdb.
    cbn [Pg.set_subscriptions subscriptions].
    apply Forall2_map_right. intros r _. unfold after_deletion.
    rewrite Hnow. destruct (refers_to (ss_id sub) r); [|reflexivity].
    split_and; reflexivity.
Qed.

(** Alice keeps [cus_1] through the immediate deletion of [sub_1]. *)
Lemma customer_reference_never_cleared_witness :
  customers_same Scenario.db_premium
    (db (snd (handleSubscriptionDeleted Scenario.env_utc
                {| ss_id := "sub_1"; ss_supabase_user_id := None;
                   ss_price_id := Some "price_premium_monthly";
                   ss_customer := ExpId "cus_1";
                   ss_status := stripe_canceled;
                   ss_current_period_start := Some 1706745600;
                   ss_current_period_end := Some 1709251200;
                   ss_cancel_at_period_end := false |}
                (Scenario.world_of Scenario.db_premium Scenario.feb15)))).
Proof.
  exact (proj1 (proj2 (proj2 customer_reference_never_cleared))
           Scenario.env_utc
           {| ss_id := "sub_1"; ss_supabase_user_id := None;
              ss_price_id := Some "price_premium_monthly";
              ss_customer := ExpId "cus_1";
              ss_status := stripe_canceled;
              ss_current_period_start := Some 1706745600;
              ss_current_period_end := Some 1709251200;
              ss_cancel_at_period_end := false |}
           (Scenario.world_of Scenario.db_premium Scenario.feb15)).
Defined.

Open Scope js_scope.

(** ** Applying an event twice *)

(** *** Faults stay away *)

Lemma nf_step_ret (A : Type) (a : A) : nf_step (ret a).
Proof. intros w H. exact H. Qed.

Lemma nf_step_throw (A : Type) (e : JsError) : nf_step (@throw A e).
Proof. intros w H. exact H. Qed.

Lemma nf_step_emit l : nf_step (emit l).
Proof. intros w H. exact H. Qed.

Lemma nf_step_new_Date : nf_step new_Date.
Proof. intros w H. exact H. Qed.

Lemma nf_step_bind (A B : Type) (m : M A) (k : A -> M B) :
  nf_step m -> (forall a, nf_step (k a)) -> nf_step (bind m k).
Proof.
  intros Hm Hk w Hw. unfold bind. specialize (Hm w Hw).
  destruct (m w) as [[a|e] w1]; cbn [snd] in *; [apply Hk|]; exact Hm.
Qed.

Lemma nf_step_try_catch (A : Type) (m : M A) (h : JsError -> M A) :
  nf_step m -> (forall e, nf_step (h e)) -> nf_step (try_catch m h).
Proof.
  intros Hm Hh w Hw. unfold try_catch. specialize (Hm w Hw).
  destruct (m w) as [[a|e] w1]; cbn [snd] in *; [|apply Hh]; exact Hm.
Qed.

Lemma nf_step_request (A : Type) q (op : Z -> Db -> PgResponse A * Db) :
  nf_step (request q op).
Proof.
  intros w Hw. rewrite (request_ok q op Hw). cbn [snd].
  apply no_faults_after_request. exact Hw.
Qed.

Ltac nf_steps :=
  repeat first
    [ apply nf_step_ret
    | apply nf_step_throw
    | apply nf_step_emit
    | apply nf_step_new_Date
    | apply nf_step_bind; [|intros ?]
    | apply nf_step_try_catch; [|intros ?]
    | apply nf_step_request
    | match goal with
      | |- nf_step (match ?x with _ => _ end) => destruct x
      | |- nf_step (if ?x then _ else _) => destruct x
      end
    | progress unfold upsertSubscription, toISOString, cancelSubscription,
        revertToFreePlan, createSupabaseAdminClient, getStripeClient ].

Lemma dispatch_no_faults env stripe event : nf_step (dispatch env stripe event).
Proof.
  unfold dispatch, handleCheckoutCompleted, handleSubscriptionUpdated,
    handleSubscriptionDeleted, handlePaymentFailed.
  nf_steps.
Qed.

(** *** Records *)

Lemma same_records_refl d : same_records d d.
Proof. unfold same_records. auto. Qed.

Lemma existsb_map_same (A : Type) (p : A -> bool) (g : A -> A) (l : list A) :
  (forall a, p (g a) = p a) -> existsb p (map g l) = existsb p l.
Proof.
  intros H. induction l as [|a l IH]; cbn; [reflexivity|].
  rewrite H, IH. reflexivity.
Qed.

Lemma map_id_when_none (A : Type) (p : A -> bool) (g : A -> A) (l : list A) :
  existsb p l = false -> map (fun a => if p a then g a else a) l = l.
Proof.
  induction l as [|a l IH]; cbn; [reflexivity|]. intros H.
  apply orb_false_iff in H. destruct H as [Ha Hl].
  rewrite Ha, (IH Hl). reflexivity.
Qed.

Lemma upsert_refused_case v t d e :
  Pg.refused v = Some e ->
  Pg.upsert_subscription v t d = (PgError_ e, d).
Proof. intros H. unfold Pg.upsert_subscription. rewrite H. reflexivity. Qed.

Lemma upsert_update_case v t d :
  Pg.refused v = None ->
  existsb (fun r => (Subscriptions.user_id r =? Pg.v_user_id v)%string)
          (subscriptions d) = true ->
  Pg.upsert_subscription v t d
  = (PgData tt,
     Pg.set_subscriptions
       (map (fun r => if (Subscriptions.user_id r =? Pg.v_user_id v)%string
                      then Pg.overwrite v t r else r)
            (subscriptions d)) d).
Proof.
  intros Hp H. unfold Pg.upsert_subscription. rewrite Hp, H. reflexivity.
Qed.

Lemma upsert_insert_case v t d :
  Pg.refused v = None ->
  existsb (fun r => (Subscriptions.user_id r =? Pg.v_user_id v)%string)
          (subscriptions d) = false ->
  mem_string (Pg.v_user_id v) (auth_users d) = true ->
  Pg.upsert_subscription v t d
  = (PgData tt,
     {| auth_users := auth_users d;
        subscriptions :=
          subscriptions d
          ++ [ {| Subscriptions.id := next_uuid d;
                  Subscriptions.user_id := Pg.v_user_id v;
                  Subscriptions.stripe_customer_id :=
                    Some (Pg.v_stripe_customer_id v);
                  Subscriptions.stripe_subscription_id :=
                    Some (Pg.v_stripe_subscription_id v);
                  Subscriptions.plan_type := Pg.plan_written v free;
                  Subscriptions.status := Pg.v_status v;
                  Subscriptions.current_period_start :=
                    Some (Pg.v_current_period_start v);
                  Subscriptions.current_period_end :=
                    Some (Pg.v_current_period_end v);
                  Subscriptions.created_at := t;
                  Subscriptions.updated_at := Pg.v_updated_at v |} ];
        usage_tracking := usage_tracking d;
        next_uuid := next_uuid d + 1 |}).
Proof.
  intros Hp H Hm. unfold Pg.upsert_subscription. rewrite Hp, H, Hm.
  reflexivity.
Qed.

Lemma upsert_reject_case v t d :
  Pg.refused v = None ->
  existsb (fun r => (Subscriptions.user_id r =? Pg.v_user_id v)%string)
          (subscriptions d) = false ->
  mem_string (Pg.v_user_id v) (auth_users d) = false ->
  Pg.upsert_subscription v t d = (PgError_ foreign_key_violation, d).
Proof.
  intros Hp H Hm. unfold Pg.upsert_subscription. rewrite Hp, H, Hm.
  reflexivity.
Qed.

(** An upsert repeated with the same values, at whatever later time,
    changes no record. *)
Lemma upsert_idem v t1 t2 d :
  same_records
    (snd (Pg.upsert_subscription v t1 d))
    (snd (Pg.upsert_subscription (restamped t2 v) t2
            (snd (Pg.upsert_subscription v t1 d)))).
Proof.
  set (p := fun r => (Subscriptions.user_id r =? Pg.v_user_id v)%string).
  destruct (Pg.refused v) as [e|] eqn:Hp.
  { rewrite (upsert_refused_case v t1 d e Hp). cbn [snd].
    rewrite (upsert_refused_case (restamped t2 v) t2 d e Hp).
    apply same_records_refl. }
  assert (Hp2 : Pg.refused (restamped t2 v) = None) by exact Hp.
  destruct (existsb p (subscriptions d)) eqn:Ex.
  - rewrite (upsert_update_case v t1 d Hp Ex). cbn [snd].
    rewrite (upsert_update_case _ _ _ Hp2).
    2:{ cbn [restamped Pg.v_user_id Pg.set_subscriptions subscriptions].
        fold p. rewrite existsb_map_same; [exact Ex|].
        intros r. unfold p.
        destruct (String.eqb (Subscriptions.user_id r) (Pg.v_user_id v))
          eqn:E; [|exact E].
        cbn [Pg.overwrite Subscriptions.user_id]. apply String.eqb_refl. }
    unfold same_records.
    cbn [snd restamped Pg.v_user_id Pg.set_subscriptions subscriptions
         auth_users usage_tracking next_uuid].
    split_and; try reflexivity.
    rewrite !map_map. apply map_ext. intros r.
    destruct (String.eqb (Subscriptions.user_id r) (Pg.v_user_id v)) eqn:E.
    + cbn [Pg.overwrite Subscriptions.user_id]. rewrite String.eqb_refl.
      unfold Pg.overwrite, Pg.plan_written.
      cbn [restamped Pg.v_plan_type Subscriptions.plan_type
           Subscriptions.id Subscriptions.created_at Pg.v_user_id
           Pg.v_stripe_customer_id Pg.v_stripe_subscription_id
           Pg.v_status Pg.v_current_period_start Pg.v_current_period_end].
      destruct (Pg.v_plan_type v); reflexivity.
    + rewrite E. reflexivity.
  - destruct (mem_string (Pg.v_user_id v) (auth_users d)) eqn:Em.
    + rewrite (upsert_insert_case v t1 d Hp Ex Em). cbn [snd].
      rewrite (upsert_update_case _ _ _ Hp2).
      2:{ cbn [restamped Pg.v_user_id subscriptions]. rewrite existsb_app.
          cbn [existsb Subscriptions.user_id]. rewrite String.eqb_refl.
          apply orb_true_r. }
      unfold same_records.
      cbn [snd restamped Pg.v_user_id Pg.set_subscriptions subscriptions
           auth_users usage_tracking next_uuid].
      split_and; try reflexivity.
      rewrite (map_app (fun r => if (_ =? _)%string then _ else r)).
      fold p. rewrite (map_id_when_none _ p _ _ Ex).
      rewrite map_app. cbn [map]. unfold p. cbn beta.
      cbn [Subscriptions.user_id]. rewrite String.eqb_refl.
      rewrite map_app. cbn [map forget_updated_at].
      unfold Pg.overwrite, Pg.plan_written.
      cbn [restamped Pg.v_plan_type Subscriptions.plan_type
           Subscriptions.id Subscriptions.created_at Pg.v_user_id
           Pg.v_stripe_customer_id Pg.v_stripe_subscription_id
           Pg.v_status Pg.v_current_period_start Pg.v_current_period_end].
      destruct (Pg.v_plan_type v); reflexivity.
    + rewrite (upsert_reject_case v t1 d Hp Ex Em). cbn [snd].
      rewrite (upsert_reject_case (restamped t2 v) t2 d Hp2 Ex Em).
      apply same_records_refl.
Qed.

(** The values an upsert with these two [Date]s would write, when both
    are valid. *)
Lemma upsertSubscription_db u c s p st start stop w :
  no_faults w ->
  db (snd (upsertSubscription u c s p st start stop w))
  = match start, stop with
    | Some ps, Some pe =>
        snd (Pg.upsert_subscription
               (Pg.Build_UpsertValues u c s p st ps pe (clock w)) (clock w)
               (db w))
    | _, _ => db w
    end.
Proof.
  intros Hnf. unfold upsertSubscription, toISOString.
  destruct start as [ps|]; [|reflexivity].
  destruct stop as [pe|]; [|reflexivity].
  unfold bind, ret, new_Date.
  rewrite (request_ok _ _ Hnf).
  destruct (fst (Pg.upsert_subscription _ _ _)); reflexivity.
Qed.

(** *** What each handler does to the database *)

Lemma bind_emit (B : Type) l (k : unit -> M B) w :
  bind (emit l) k w = k tt (after_emit l w).
Proof. reflexivity. Qed.

Lemma bind_ret (A B : Type) (a : A) (k : A -> M B) w :
  bind (ret a) k w = k a w.
Proof. reflexivity. Qed.

Lemma bind_throw (A B : Type) e (k : A -> M B) w :
  bind (throw e) k w = (Throw e, w).
Proof. reflexivity. Qed.

Lemma db_bind_then_emit (A : Type) (m : M A) l w :
  db (snd (bind m (fun _ => emit l) w)) = db (snd (m w)).
Proof. unfold bind. destruct (m w) as [[a|e] w1]; reflexivity. Qed.

Lemma restamped_build u c s p st ps pe t t' :
  restamped t' (Pg.Build_UpsertValues u c s p st ps pe t)
  = Pg.Build_UpsertValues u c s p st ps pe t'.
Proof. reflexivity. Qed.

(** A handler whose only write is an upsert of values fixed by the event
    (stamped with the time of the call) is idempotent. *)
Lemma upsert_effect_idem (h : M unit) (o : option Pg.UpsertValues) :
  (forall w, no_faults w ->
             db (snd (h w))
             = match o with
               | None => db w
               | Some v => snd (Pg.upsert_subscription
                                  (restamped (clock w) v) (clock w) (db w))
               end) ->
  forall w w2, no_faults w -> no_faults w2 -> db w2 = db (snd (h w)) ->
               same_records (db (snd (h w))) (db (snd (h w2))).
Proof.
  intros Heff w w2 Hw Hw2 Hdb.
  rewrite (Heff w2 Hw2), Hdb.
  destruct o as [v|]; [|apply same_records_refl].
  rewrite (Heff w Hw).
  apply (upsert_idem (restamped (clock w) v) (clock w) (clock w2) (db w)).
Qed.

Lemma handleCheckoutCompleted_effect env stripe session :
  exists o,
    forall w, no_faults w ->
      db (snd (handleCheckoutCompleted env stripe session w))
      = match o with
        | None => db w
        | Some v => snd (Pg.upsert_subscription
                           (restamped (clock w) v) (clock w) (db w))
        end.
Proof.
  unfold handleCheckoutCompleted, getStripeClient.
  destruct (truthy (STRIPE_SECRET_KEY env));
    [|exists None; intros w _; reflexivity].
  destruct (admin_configured env) eqn:Hadmin.
  2:{ exists None. intros w _.
      rewrite bind_emit, bind_ret.
      unfold bind. rewrite createSupabaseAdminClient_eq, Hadmin.
      reflexivity. }
  destruct (nonempty (expandable_id (cs_subscription session)))
    as [subscriptionId|].
  2:{ exists None. intros w _. rewrite bind_emit, bind_ret.
      unfold bind. rewrite createSupabaseAdminClient_eq, Hadmin.
      reflexivity. }
  destruct (subscriptions_retrieve stripe subscriptionId) as [subscription|].
  2:{ exists None. intros w _. rewrite bind_emit, bind_ret.
      unfold bind. rewrite createSupabaseAdminClient_eq, Hadmin.
      reflexivity. }
  destruct (first_truthy (ss_supabase_user_id subscription)
                         (nonempty (cs_supabase_user_id session)))
    as [userId|].
  2:{ exists None. intros w _. rewrite bind_emit, bind_ret.
      unfold bind. rewrite createSupabaseAdminClient_eq, Hadmin.
      reflexivity. }
  destruct (planTypeOfPrice env (ss_price_id subscription)) as [planType|].
  2:{ exists None. intros w _. rewrite bind_emit, bind_ret.
      unfold bind. rewrite createSupabaseAdminClient_eq, Hadmin.
      reflexivity. }
  exists (match dateOfSeconds (ss_current_period_start subscription),
                dateOfSeconds (ss_current_period_end subscription) with
          | Some ps, Some pe =>
              Some (Pg.Build_UpsertValues userId
                      (customer_id_of (cs_customer session)) subscriptionId
                      planType active ps pe 0)
          | _, _ => None
          end).
  intros w Hw. rewrite bind_emit, bind_ret.
  unfold bind at 1. rewrite createSupabaseAdminClient_eq, Hadmin.
  rewrite db_bind_then_emit, upsertSubscription_db
    by (apply no_faults_after_emit; exact Hw).
  destruct (dateOfSeconds (ss_current_period_start subscription));
    [|reflexivity].
  destruct (dateOfSeconds (ss_current_period_end subscription));
    reflexivity.
Qed.

Lemma handleSubscriptionUpdated_effect env sub userId :
  nonempty (ss_supabase_user_id sub) = Some userId ->
  exists o,
    forall w, no_faults w ->
      db (snd (handleSubscriptionUpdated env sub w))
      = match o with
        | None => db w
        | Some v => snd (Pg.upsert_subscription
                           (restamped (clock w) v) (clock w) (db w))
        end.
Proof.
  intros Hu. unfold handleSubscriptionUpdated. rewrite Hu.
  destruct (admin_configured env) eqn:Hadmin.
  2:{ exists None. intros w _. rewrite bind_emit.
      unfold bind. rewrite createSupabaseAdminClient_eq, Hadmin.
      reflexivity. }
  destruct (planTypeOfPrice env (ss_price_id sub)) as [planType|].
  2:{ exists None. intros w _. rewrite bind_emit.
      unfold bind. rewrite createSupabaseAdminClient_eq, Hadmin.
      reflexivity. }
  exists (match dateOfSeconds (ss_current_period_start sub),
                dateOfSeconds (ss_current_period_end sub) with
          | Some ps, Some pe =>
              Some (Pg.Build_UpsertValues userId
                      (customer_id_of (ss_customer sub)) (ss_id sub)
                      planType (mapStatus (ss_status sub)) ps pe 0)
          | _, _ => None
          end).
  intros w Hw. rewrite bind_emit.
  unfold bind at 1. rewrite createSupabaseAdminClient_eq, Hadmin.
  rewrite db_bind_then_emit, upsertSubscription_db
    by (apply no_faults_after_emit; exact Hw).
  destruct (dateOfSeconds (ss_current_period_start sub)); [|reflexivity].
  destruct (dateOfSeconds (ss_current_period_end sub)); reflexivity.
Qed.

(** Without a user id on the event, the user is looked up by the
    subscription reference first. *)
Lemma handleSubscriptionUpdated_lookup env sub w :
  nonempty (ss_supabase_user_id sub) = None -> no_faults w ->
  db (snd (handleSubscriptionUpdated env sub w))
  = match (if admin_configured env
           then userOfSubscription (ss_id sub) (db w) else None),
          planTypeOfPrice env (ss_price_id sub),
          dateOfSeconds (ss_current_period_start sub),
          dateOfSeconds (ss_current_period_end sub) with
    | Some u, Some p, Some ps, Some pe =>
        snd (Pg.upsert_subscription
               (Pg.Build_UpsertValues u (customer_id_of (ss_customer sub))
                  (ss_id sub) p (mapStatus (ss_status sub))
                  ps pe (clock w))
               (clock w) (db w))
    | _, _, _, _ => db w
    end.
Proof.
  intros Hu Hw. unfold handleSubscriptionUpdated. rewrite Hu, bind_emit.
  unfold bind at 1. rewrite createSupabaseAdminClient_eq.
  destruct (admin_configured env); [|reflexivity].
  set (w0 := after_emit _ w).
  assert (Hw0 : no_faults w0) by (apply no_faults_after_emit; exact Hw).
  unfold bind at 1. rewrite (request_ok _ _ Hw0).
  unfold userOfSubscription.
  change (fst (Pg.select_user_by_stripe_subscription (ss_id sub) (clock w0)
                                                     (db w0)))
    with (fst (Pg.select_user_by_stripe_subscription (ss_id sub) 0 (db w))).
  destruct (match fst (Pg.select_user_by_stripe_subscription
                         (ss_id sub) 0 (db w)) with
            | PgData u => nonempty (Some u)
            | PgError_ _ => None
            end) as [u|]; [|reflexivity].
  destruct (planTypeOfPrice env (ss_price_id sub)) as [p|]; [|reflexivity].
  rewrite db_bind_then_emit, upsertSubscription_db
    by (apply no_faults_after_request; exact Hw0).
  destruct (dateOfSeconds (ss_current_period_start sub)); [|reflexivity].
  destruct (dateOfSeconds (ss_current_period_end sub)); reflexivity.
Qed.

Lemma userOfSubscription_row sid d u :
  userOfSubscription sid d = Some u ->
  exists r, filter (refers_to sid) (subscriptions d) = [r]
            /\ Subscriptions.user_id r = u.
Proof.
  unfold userOfSubscription, Pg.select_user_by_stripe_subscription, Pg.single.
  cbn [fst]. fold (refers_to sid).
  destruct (filter (refers_to sid) (subscriptions d)) as [|r [|r' rest]];
    try discriminate.
  unfold nonempty. destruct (truthy _); [|discriminate].
  intros [= <-]. exists r. split; reflexivity.
Qed.

(** After the upsert for the user a subscription id led to, the id leads
    to the same user or to nobody. *)
Lemma userOfSubscription_after_upsert sid d u v t u' :
  userOfSubscription sid d = Some u ->
  Pg.v_user_id v = u -> Pg.v_stripe_subscription_id v = sid ->
  userOfSubscription sid (snd (Pg.upsert_subscription v t d)) = Some u' ->
  u' = u.
Proof.
  intros H0 Hvu Hvs H1.
  destruct (userOfSubscription_row _ _ _ H0) as (r0 & Hf0 & Hu0).
  destruct (userOfSubscription_row _ _ _ H1) as (r1 & Hf1 & Hu1).
  assert (Hin0 : In r0 (subscriptions d) /\ refers_to sid r0 = true).
  { apply filter_In. rewrite Hf0. left. reflexivity. }
  destruct Hin0 as [Hin0 _].
  assert (Hex : existsb (fun r => (Subscriptions.user_id r
                                   =? Pg.v_user_id v)%string)
                        (subscriptions d) = true).
  { apply existsb_exists. exists r0. split; [exact Hin0|].
    rewrite Hu0, Hvu. apply String.eqb_refl. }
  destruct (Pg.refused v) as [e|] eqn:Hp.
  { rewrite (upsert_refused_case v t d e Hp) in H1. cbn [snd] in H1.
    congruence. }
  rewrite (upsert_update_case v t d Hp Hex) in Hf1.
  cbn [snd Pg.set_subscriptions subscriptions] in Hf1.
  assert (Hin1 : In (Pg.overwrite v t r0)
                    (filter (refers_to sid)
                       (map (fun r => if (Subscriptions.user_id r
                                          =? Pg.v_user_id v)%string
                                      then Pg.overwrite v t r else r)
                            (subscriptions d)))).
  { apply filter_In. split.
    - apply in_map_iff. exists r0. split; [|exact Hin0].
      rewrite Hu0, Hvu, String.eqb_refl. reflexivity.
    - unfold refers_to, opt_string_is.
      cbn [Pg.overwrite Subscriptions.stripe_subscription_id].
      rewrite Hvs. apply String.eqb_refl. }
  rewrite Hf1 in Hin1. destruct Hin1 as [E|[]]. subst r1.
  rewrite <- Hu1. cbn [Pg.overwrite Subscriptions.user_id]. exact Hvu.
Qed.

Lemma handleSubscriptionUpdated_lookup_idem env sub :
  nonempty (ss_supabase_user_id sub) = None ->
  forall w w2, no_faults w -> no_faults w2 ->
    db w2 = db (snd (handleSubscriptionUpdated env sub w)) ->
    same_records (db (snd (handleSubscriptionUpdated env sub w)))
                 (db (snd (handleSubscriptionUpdated env sub w2))).
Proof.
  intros Hu w w2 Hw Hw2 Hdb.
  rewrite (handleSubscriptionUpdated_lookup env sub w2 Hu Hw2), Hdb.
  rewrite (handleSubscriptionUpdated_lookup env sub w Hu Hw).
  destruct (admin_configured env); [|apply same_records_refl].
  destruct (userOfSubscription (ss_id sub) (db w)) as [u|] eqn:E0.
  2:{ rewrite E0. apply same_records_refl. }
  destruct (planTypeOfPrice env (ss_price_id sub)) as [p|].
  2:{ destruct (userOfSubscription (ss_id sub) (db w));
        apply same_records_refl. }
  destruct (dateOfSeconds (ss_current_period_start sub)) as [ps|].
  2:{ destruct (userOfSubscription (ss_id sub) (db w));
        apply same_records_refl. }
  destruct (dateOfSeconds (ss_current_period_end sub)) as [pe|].
  2:{ destruct (userOfSubscription (ss_id sub) (db w));
        apply same_records_refl. }
  set (v := Pg.Build_UpsertValues u (customer_id_of (ss_customer sub))
              (ss_id sub) p (mapStatus (ss_status sub))
              ps pe (clock w)).
  destruct (userOfSubscription (ss_id sub)
              (snd (Pg.upsert_subscription v (clock w) (db w))))
    as [u'|] eqn:E1; [|apply same_records_refl].
  assert (u' = u)
    by (apply (userOfSubscription_after_upsert (ss_id sub) (db w) u v
                 (clock w) u' E0 eq_refl eq_refl E1)).
  subst u'.
  apply (upsert_idem v (clock w) (clock w2) (db w)).
Qed.

Lemma handleSubscriptionDeleted_unconfigured env sub w :
  admin_configured env = false ->
  db (snd (handleSubscriptionDeleted env sub w)) = db w.
Proof.
  intros Hadmin. unfold handleSubscriptionDeleted. rewrite bind_emit.
  unfold bind. rewrite createSupabaseAdminClient_eq, Hadmin. reflexivity.
Qed.

Lemma after_deletion_twice sub t1 t2 r :
  forget_updated_at (after_deletion sub t2 (after_deletion sub t1 r))
  = forget_updated_at (after_deletion sub t1 r).
Proof.
  unfold after_deletion. destruct (refers_to (ss_id sub) r) eqn:E.
  - destruct (ss_cancel_at_period_end sub) eqn:Ec.
    + rewrite refers_to_canceled, E. reflexivity.
    + rewrite refers_to_free. reflexivity.
  - rewrite E. reflexivity.
Qed.

Lemma after_deletion_immediate sub t1 t2 r :
  ss_cancel_at_period_end sub = false ->
  refers_to (ss_id sub) (after_deletion sub t1 r) = false
  /\ after_deletion sub t2 (after_deletion sub t1 r)
     = after_deletion sub t1 r.
Proof.
  intros Hc. unfold after_deletion. rewrite Hc.
  destruct (refers_to (ss_id sub) r) eqn:E.
  - rewrite refers_to_free. split; reflexivity.
  - rewrite E. split; reflexivity.
Qed.

Lemma handleSubscriptionDeleted_idem env sub :
  forall w w2, no_faults w -> no_faults w2 ->
    db w2 = db (snd (handleSubscriptionDeleted env sub w)) ->
    same_records (db (snd (handleSubscriptionDeleted env sub w)))
                 (db (snd (handleSubscriptionDeleted env sub w2))).
Proof.
  intros w w2 Hw Hw2 Hdb.
  destruct (admin_configured env) eqn:Hadmin.
  - destruct (handleSubscriptionDeleted_ok env sub w Hw Hadmin)
      as (w1 & E1 & _ & _ & Hd1).
    destruct (handleSubscriptionDeleted_ok env sub w2 Hw2 Hadmin)
      as (w3 & E3 & _ & _ & Hd3).
    rewrite E1 in *. rewrite E3. cbn [snd] in *.
    rewrite Hd3, Hdb, Hd1. unfold same_records.
    cbn [Pg.set_subscriptions subscriptions auth_users usage_tracking
         next_uuid].
    split_and; try reflexivity.
    rewrite !map_map. apply map_ext. intros r. symmetry.
    apply after_deletion_twice.
  - rewrite (handleSubscriptionDeleted_unconfigured env sub w2 Hadmin), Hdb.
    apply same_records_refl.
Qed.

Lemma handlePaymentFailed_effect env invoice w :
  no_faults w ->
  db (snd (handlePaymentFailed env invoice w))
  = match (if admin_configured env
           then nonempty (expandable_id (inv_subscription invoice))
           else None) with
    | Some s =>
        Pg.set_subscriptions
          (map (fun r => if refers_to s r then past_due_row (clock w) r
                         else r)
               (subscriptions (db w))) (db w)
    | None => db w
    end.
Proof.
  intros Hw. unfold handlePaymentFailed. rewrite bind_emit.
  unfold bind at 1. rewrite createSupabaseAdminClient_eq.
  destruct (admin_configured env); [|reflexivity].
  destruct (nonempty (expandable_id (inv_subscription invoice))) as [s|];
    [|reflexivity].
  unfold bind, new_Date.
  rewrite (request_ok _ _ (no_faults_after_emit _ Hw)). reflexivity.
Qed.

Lemma handlePaymentFailed_idem env invoice :
  forall w w2, no_faults w -> no_faults w2 ->
    db w2 = db (snd (handlePaymentFailed env invoice w)) ->
    same_records (db (snd (handlePaymentFailed env invoice w)))
                 (db (snd (handlePaymentFailed env invoice w2))).
Proof.
  intros w w2 Hw Hw2 Hdb.
  rewrite (handlePaymentFailed_effect env invoice w2 Hw2), Hdb.
  rewrite (handlePaymentFailed_effect env invoice w Hw).
  destruct (if admin_configured env
            then nonempty (expandable_id (inv_subscription invoice))
            else None) as [s|]; [|apply same_records_refl].
  unfold same_records.
  cbn [Pg.set_subscriptions subscriptions auth_users usage_tracking
       next_uuid].
  split_and; try reflexivity.
  rewrite !map_map. apply map_ext. intros r.
  destruct (refers_to s r) eqn:E.
  - change (refers_to s (past_due_row (clock w) r)) with (refers_to s r).
    rewrite E. reflexivity.
  - rewrite E. reflexivity.
Qed.

Lemma dispatch_eq env stripe event w :
  dispatch env stripe event w
  = match event with
    | checkout_session_completed session =>
        handleCheckoutCompleted env stripe session
    | customer_subscription_updated subscription =>
        handleSubscriptionUpdated env subscription
    | customer_subscription_deleted subscription =>
        handleSubscriptionDeleted env subscription
    | invoice_payment_failed invoice => handlePaymentFailed env invoice
    | unhandled_event _ => emit (console_log (Info "unhandled event type"))
    end (after_emit (console_log (Info "webhook event received")) w).
Proof. reflexivity. Qed.

(** C2. Applying the same billing event twice in succession, with no fault
    pending, leaves the same records as applying it once: after the second
    application every table is as after the first, except that the
    [updated_at] stamp of a rewritten subscription row is the time of the
    second application. This holds for the four handled types (and for
    every other event, which changes nothing). After an immediate deletion
    no row refers to the subscription any more, so the second application
    matches no row and the database is exactly as it was. The subscription
    that checkout-completed retrieves from Stripe is the same at both
    applications. *)
Theorem reconciler_idempotent env stripe event w t2 :
  no_faults w ->
  same_records
    (db (snd (dispatch env stripe event w)))
    (db (snd (dispatch env stripe event
                (at_time t2 (snd (dispatch env stripe event w))))))
  /\ (forall sub,
         event = customer_subscription_deleted sub ->
         ss_cancel_at_period_end sub = false ->
         admin_configured env = true ->
         (forall r,
             In r (subscriptions (db (snd (dispatch env stripe event w)))) ->
             refers_to (ss_id sub) r = false)
         /\ db (snd (dispatch env stripe event
                       (at_time t2 (snd (dispatch env stripe event w)))))
            = db (snd (dispatch env stripe event w))).
Proof.
  intros Hw.
  pose proof (dispatch_no_faults env stripe event w Hw) as Hnf1.
  set (once := snd (dispatch env stripe event w)) in *.
  assert (Hw0 : no_faults (after_emit
                             (console_log (Info "webhook event received")) w))
    by (apply no_faults_after_emit; exact Hw).
  assert (Hw2 : no_faults (after_emit
                             (console_log (Info "webhook event received"))
                             (at_time t2 once)))
    by (apply no_faults_after_emit, no_faults_at_time; exact Hnf1).
  split.
  - rewrite (dispatch_eq env stripe event (at_time t2 once)).
    subst once. rewrite (dispatch_eq env stripe event w) in *.
    destruct event as [session|sub|sub|invoice|other].
    + destruct (handleCheckoutCompleted_effect env stripe session)
        as (o & Heff).
      apply (upsert_effect_idem _ o Heff _ _ Hw0 Hw2). reflexivity.
    + destruct (nonempty (ss_supabase_user_id sub)) as [userId|] eqn:Hu.
      * destruct (handleSubscriptionUpdated_effect env sub userId Hu)
          as (o & Heff).
        apply (upsert_effect_idem _ o Heff _ _ Hw0 Hw2). reflexivity.
      * apply (handleSubscriptionUpdated_lookup_idem env sub Hu _ _ Hw0 Hw2).
        reflexivity.
    + apply (handleSubscriptionDeleted_idem env sub _ _ Hw0 Hw2).
      reflexivity.
    + apply (handlePaymentFailed_idem env invoice _ _ Hw0 Hw2). reflexivity.
    + apply same_records_refl.
  - intros sub -> Hnow Hadmin.
    rewrite (dispatch_eq env stripe _ (at_time t2 once)).
    subst once. rewrite (dispatch_eq env stripe _ w) in *.
    destruct (handleSubscriptionDeleted_ok env sub _ Hw0 Hadmin)
      as (w1 & E1 & _ & _ & Hd1).
    rewrite E1 in *. cbn [snd] in *.
    destruct (handleSubscriptionDeleted_ok env sub _ Hw2 Hadmin)
      as (w3 & E3 & _ & _ & Hd3).
    rewrite E3. cbn [snd]. rewrite Hd3.
    cbn [db clock at_time after_emit] in *. rewrite Hd1.
    cbn [Pg.set_subscriptions subscriptions]. split.
    + intros r Hr. apply in_map_iff in Hr. destruct Hr as (r0 & <- & _).
      apply (after_deletion_immediate sub (clock w) t2 r0 Hnow).
    + unfold Pg.set_subscriptions.
      cbn [auth_users usage_tracking next_uuid]. f_equal.
      rewrite map_map. apply map_ext. intros r.
      apply (after_deletion_immediate sub (clock w) t2 r Hnow).
Qed.

(** The immediate deletion of Alice's subscription, delivered twice. *)
Lemma reconciler_idempotent_witness :
  same_records
    (db (snd (dispatch Scenario.env_utc
                {| constructEvent := fun _ _ _ => None;
                   subscriptions_retrieve := fun _ => None |}
                (customer_subscription_deleted
                   {| ss_id := "sub_1"; ss_supabase_user_id := None;
                      ss_price_id := Some "price_premium_monthly";
                      ss_customer := ExpId "cus_1";
                      ss_status := stripe_canceled;
                      ss_current_period_start := Some 1706745600;
                      ss_current_period_end := Some 1709251200;
                      ss_cancel_at_period_end := false |})
                (Scenario.world_of Scenario.db_premium Scenario.feb15))))
    (db (snd (dispatch Scenario.env_utc
                {| constructEvent := fun _ _ _ => None;
                   subscriptions_retrieve := fun _ => None |}
                (customer_subscription_deleted
                   {| ss_id := "sub_1"; ss_supabase_user_id := None;
                      ss_price_id := Some "price_premium_monthly";
                      ss_customer := ExpId "cus_1";
                      ss_status := stripe_canceled;
                      ss_current_period_start := Some 1706745600;
                      ss_current_period_end := Some 1709251200;
                      ss_cancel_at_period_end := false |})
                (at_time Scenario.feb16
                   (snd (dispatch Scenario.env_utc
                           {| constructEvent := fun _ _ _ => None;
                              subscriptions_retrieve := fun _ => None |}
                           (customer_subscription_deleted
                              {| ss_id := "sub_1";
                                 ss_supabase_user_id := None;
                                 ss_price_id := Some "price_premium_monthly";
                                 ss_customer := ExpId "cus_1";
                                 ss_status := stripe_canceled;
                                 ss_current_period_start := Some 1706745600;
                                 ss_current_period_end := Some 1709251200;
                                 ss_cancel_at_period_end := false |})
                           (Scenario.world_of Scenario.db_premium
                                             Scenario.feb15))))))).
Proof.
  refine (proj1 (reconciler_idempotent Scenario.env_utc _ _
                   (Scenario.world_of Scenario.db_premium Scenario.feb15)
                   Scenario.feb16 _)).
  constructor.
Defined.

Open Scope js_scope.

(** ** The metered features *)



(** An error of [incrementUsage] is caught: the best-effort call always
    returns, and leaves the database as [incrementUsage] left it. *)
Lemma incrementUsageBestEffort_swallows env u f w :
  fst (incrementUsageBestEffort env u f w) = Return tt
  /\ db (snd (incrementUsageBestEffort env u f w))
     = db (snd (incrementUsage env u f w)).
Proof.
  unfold incrementUsageBestEffort, try_catch.
  destruct (incrementUsage env u f w) as [[[]|e] w1]; split; reflexivity.
Qed.

Lemma getOpenAIClient_try env w :
  try_catch (getOpenAIClient env ;;; ret true) (fun _ => ret false) w
  = (Return (truthy (OPENAI_API_KEY env)), w).
Proof.
  unfold try_catch, bind, getOpenAIClient.
  destruct (truthy (OPENAI_API_KEY env)); reflexivity.
Qed.

Lemma bind_best_effort (B : Type) env u f (k : unit -> M B) w :
  bind (incrementUsageBestEffort env u f) k w
  = k tt (snd (incrementUsageBestEffort env u f w)).
Proof.
  unfold bind.
  pose proof (incrementUsageBestEffort_swallows env u f w) as [H _].
  destruct (incrementUsageBestEffort env u f w) as [o w1].
  cbn [fst snd] in *. subst o. reflexivity.
Qed.





(* ===================================================================== *)
(** * Metered features: the increment comes last and cannot fail the call *)
(* ===================================================================== *)




(* ===================================================================== *)
(** * The period key of a new ledger entry                                *)
(* ===================================================================== *)

(** The entry [getOrCreateUsageRecord] creates is stored under
    [periodKey], the UTC date of local midnight on the first of the local
    month.  On UTC and west of it that is the first day of the month of the
    call; east of UTC it is the day before, the last day of the previous
    month, and so never the first day of the month of the call. *)
Lemma created_entry_period_start :
  forall env u w rec,
    0 <= clock w -> tz_in_range env ->
    filter (Pg.usage_matches u (periodKey env (clock w)))
           (usage_tracking (db w)) = [] ->
    fst (getOrCreateUsageRecord env u w) = Return rec ->
    exists r,
      usage_tracking (db (snd (getOrCreateUsageRecord env u w)))
      = usage_tracking (db w) ++ [r]
      /\ rec = toUsageTracking r
      /\ UsageTracking.period_start r = periodKey env (clock w)
      /\ (TZ env <= 0 ->
          UsageTracking.period_start r
          = JsDate.mkCivil (JsDate.year (localDate env (clock w)))
                           (JsDate.month (localDate env (clock w))) 1)
      /\ (0 < TZ env ->
          UsageTracking.period_start r
          = JsDate.civil_from_days
              (JsDate.days_from_civil
                 (JsDate.year (localDate env (clock w)))
                 (JsDate.month (localDate env (clock w))) 1 - 1)
          /\ UsageTracking.period_start r
             <> JsDate.mkCivil (JsDate.year (localDate env (clock w)))
                               (JsDate.month (localDate env (clock w))) 1).
Proof.
  intros env u w rec Ht Htz Hnil Hret. unfold tz_in_range in Htz.
  destruct (getOrCreate_fresh env u w Hnil rec Hret)
    as (r & Happ & Hkey & _ & Hrec).
  exists r. unfold usage_key in Hkey.
  assert (Hp : UsageTracking.period_start r = periodKey env (clock w))
    by congruence.
  split_and; try assumption.
  - intros Hwest. rewrite Hp. apply periodKey_west; lia.
  - intros Heast. rewrite Hp. split.
    + apply periodKey_east; lia.
    + apply periodKey_east_not_first; lia.
Qed.

(** C9.  The claim that a new entry is stored under the first day of
    the month of the call fails east of UTC.  Alice's first use of
    February 2024 on a deployment in Japan, at noon of 2024-02-15 local
    time: [getOrCreateUsageRecord] returns the entry it created, the only
    one of the ledger, and its [period_start] is 2024-01-31, not
    2024-02-01. *)
Theorem period_start_east_of_utc_is_previous_day :
  localDate Scenario.env_jst Scenario.feb15 = JsDate.mkCivil 2024 2 15
  /\ exists r,
      getOrCreateUsageRecord
        Scenario.env_jst Scenario.alice
        (Scenario.world_of Scenario.db_new_user Scenario.feb15)
      = (Return (toUsageTracking r),
         snd (getOrCreateUsageRecord
                Scenario.env_jst Scenario.alice
                (Scenario.world_of Scenario.db_new_user Scenario.feb15)))
      /\ usage_tracking
           (db (snd (getOrCreateUsageRecord
                       Scenario.env_jst Scenario.alice
                       (Scenario.world_of Scenario.db_new_user Scenario.feb15))))
         = [r]
      /\ UsageTracking.period_start r = JsDate.mkCivil 2024 1 31
      /\ UsageTracking.period_start r <> JsDate.mkCivil 2024 2 1.
Proof.
  split; [vm_compute; reflexivity|].
  destruct (created_entry_period_start
              Scenario.env_jst Scenario.alice
              (Scenario.world_of Scenario.db_new_user Scenario.feb15)
              (toUsageTracking
                 (fresh_usage_row Scenario.db_new_user Scenario.alice
                                  (JsDate.mkCivil 2024 1 31) Scenario.feb15)))
    as (r & Happ & Hrec & Hp & _).
  - vm_compute. discriminate.
  - unfold tz_in_range. simpl. lia.
  - reflexivity.
  - vm_compute. reflexivity.
  - exists r.
    assert (Hk : UsageTracking.period_start r = JsDate.mkCivil 2024 1 31)
      by (rewrite Hp; vm_compute; reflexivity).
    split_and.
    + rewrite <- Hrec. vm_compute. reflexivity.
    + exact Happ.
    + exact Hk.
    + rewrite Hk. discriminate.
Qed.

(* ===================================================================== *)
(** * Further properties of the usage ledger ([lib/subscription.ts])      *)
(* ===================================================================== *)

Lemma requestsSince_app w w' qs :
  trace w' = trace w ++ qs -> requestsSince w w' = qs.
Proof.
  intros E. unfold requestsSince. rewrite E.
  rewrite skipn_app, skipn_all, Nat.sub_diag. reflexivity.
Qed.

(** A call that returns, made with no fault pending, is one of the two
    explicit runs: the entry was found, or it was created. *)
Lemma getOrCreate_returns env u w rec :
  no_faults w -> usage_schema_ok (db w) ->
  fst (getOrCreateUsageRecord env u w) = Return rec ->
  (exists r,
      filter (Pg.usage_matches u (periodKey env (clock w)))
             (usage_tracking (db w)) = [r]
      /\ rec = toUsageTracking r
      /\ getOrCreateUsageRecord env u w
         = (Return rec, after_request q_select_usage (db w) w))
  \/ (filter (Pg.usage_matches u (periodKey env (clock w)))
             (usage_tracking (db w)) = []
      /\ In u (auth_users (db w))
      /\ rec = toUsageTracking
                 (fresh_usage_row (db w) u (periodKey env (clock w))
                                  (clock w))
      /\ getOrCreateUsageRecord env u w
         = (Return rec,
            after_request q_insert_usage
              (snd (Pg.insert_usage u (periodKey env (clock w)) (clock w)
                                    (db w)))
              (after_request q_select_usage (db w) w))).
Proof.
  intros Hnf Hok Hret.
  destruct (@usage_filter_unique (db w) u (periodKey env (clock w)) Hok)
    as [Hnil|[r Hr]].
  - right.
    destruct (getOrCreate_cases env u w) as [_ Hcase].
    destruct Hcase as [(r & _ & _ & Hf)|[(Ho & _ & _ & Hm)|(e & Ho & _)]].
    + congruence.
    + apply mem_string_In in Hm.
      pose proof (@getOrCreate_created env u w Hnf Hnil Hm) as E.
      rewrite E in Hret. cbn [fst] in Hret. injection Hret as <-.
      split_and; try assumption; reflexivity.
    + congruence.
  - left. exists r.
    pose proof (@getOrCreate_found env u w r Hnf Hr) as E.
    rewrite E in Hret. cbn [fst] in Hret. injection Hret as <-.
    split_and; try assumption; reflexivity.
Qed.

(** X1. Once [getOrCreateUsageRecord] has returned an entry, a later call
    for the same user at any time of the same local month returns that
    same entry with a single SELECT: nothing is inserted and the database
    is unchanged. *)
Theorem getOrCreateUsageRecord_reuses_entry env u w t2 rec :
  no_faults w -> usage_schema_ok (db w) ->
  fst (getOrCreateUsageRecord env u w) = Return rec ->
  localMonth env t2 = localMonth env (clock w) ->
  getOrCreateUsageRecord
    env u (at_time t2 (snd (getOrCreateUsageRecord env u w)))
  = (Return rec,
     after_request q_select_usage
       (db (snd (getOrCreateUsageRecord env u w)))
       (at_time t2 (snd (getOrCreateUsageRecord env u w)))).
Proof.
  intros Hnf Hok Hret Hmonth.
  apply periodKey_same_month in Hmonth.
  destruct (getOrCreate_returns env u w rec Hnf Hok Hret)
    as [(r & Hr & -> & E)|(Hnil & Hu & -> & E)]; rewrite E; cbn [snd].
  - etransitivity; [apply (@getOrCreate_found env u _ r)|reflexivity].
    + apply no_faults_at_time, no_faults_after_request, Hnf.
    + cbn [clock db at_time after_request]. rewrite Hmonth. exact Hr.
  - etransitivity;
      [apply (@getOrCreate_found env u _
                (fresh_usage_row (db w) u (periodKey env (clock w))
                                 (clock w)))|reflexivity].
    + apply no_faults_at_time, no_faults_after_request,
        no_faults_after_request, Hnf.
    + cbn [clock db at_time after_request]. rewrite Hmonth.
      rewrite insert_usage_appends.
      * rewrite filter_app, Hnil. cbn [filter app].
        replace (Pg.usage_matches u (periodKey env (clock w))
                   (fresh_usage_row (db w) u (periodKey env (clock w))
                                    (clock w)))
          with true; [reflexivity|].
        symmetry. apply usage_matches_iff. reflexivity.
      * apply mem_string_In, Hu.
      * apply filter_nil_existsb, Hnil.
Qed.

(** Alice's first and second look at the ledger in February 2024. *)
Lemma getOrCreateUsageRecord_reuses_entry_witness :
  exists rec w2,
    getOrCreateUsageRecord
      Scenario.env_utc Scenario.alice
      (at_time Scenario.feb16
         (snd (getOrCreateUsageRecord
                 Scenario.env_utc Scenario.alice
                 (Scenario.world_of Scenario.db_new_user Scenario.feb15))))
    = (Return rec, w2)
    /\ usage_id rec = 1
    /\ List.length (usage_tracking (db w2)) = 1%nat.
Proof.
  do 2 eexists. split.
  - apply (getOrCreateUsageRecord_reuses_entry
             Scenario.env_utc Scenario.alice
             (Scenario.world_of Scenario.db_new_user Scenario.feb15)
             Scenario.feb16).
    + constructor.
    + constructor; simpl; constructor.
    + vm_compute. reflexivity.
    + vm_compute. reflexivity.
  - split; vm_compute; reflexivity.
Defined.

(** [incrementUsage] on an entry that is there, with no fault pending. *)
Lemma incrementUsage_found env u f w r :
  no_faults w ->
  filter (Pg.usage_matches u (periodKey env (clock w)))
         (usage_tracking (db w)) = [r] ->
  incrementUsage env u f w
  = if in_int4 (rowCount f r + 1)
    then (Return tt,
          after_request q_update_usage
            (snd (Pg.update_usage f (rowCount f r + 1) (UsageTracking.id r)
                                  (clock w) (db w)))
            (after_request q_select_usage (db w) w))
    else (Throw (Error UsageUpdateFailed),
          after_emit (console_error UsageUpdateFailed)
            (after_request q_update_usage (db w)
               (after_request q_select_usage (db w) w))).
Proof.
  intros Hnf Hr. unfold incrementUsage. unfold bind at 1.
  rewrite (@getOrCreate_found env u w r Hnf Hr).
  rewrite countOf_toUsageTracking. unfold bind at 1. fold q_update_usage.
  rewrite request_ok by (apply no_faults_after_request, Hnf).
  cbn [clock db after_request toUsageTracking usage_id].
  rewrite update_usage_fst.
  destruct (in_int4 (rowCount f r + 1)) eqn:Hin.
  - reflexivity.
  - rewrite update_usage_rejected by exact Hin.
    unfold bind. rewrite emit_eq. reflexivity.
Qed.

(** X2. The counters are INTEGER columns: when the counter of a feature
    stands at 2147483647, [incrementUsage] asks for 2147483648, the
    database rejects the update, and the call throws with the ledger
    unchanged. *)
Theorem incrementUsage_at_int4_max env u f w r :
  no_faults w ->
  filter (Pg.usage_matches u (periodKey env (clock w)))
         (usage_tracking (db w)) = [r] ->
  rowCount f r = INT4_MAX ->
  fst (incrementUsage env u f w) = Throw (Error UsageUpdateFailed)
  /\ db (snd (incrementUsage env u f w)) = db w
  /\ requestsSince w (snd (incrementUsage env u f w))
     = [q_select_usage; q_update_usage].
Proof.
  intros Hnf Hr Hmax.
  rewrite (incrementUsage_found env u f w r Hnf Hr), Hmax.
  change (in_int4 (INT4_MAX + 1)) with false. cbn [fst snd].
  split_and; try reflexivity.
  apply requestsSince_app.
  cbn [trace after_emit after_request]. rewrite <- app_assoc. reflexivity.
Qed.

Lemma incrementUsage_at_int4_max_witness :
  fst (incrementUsage
         Scenario.env_utc Scenario.alice ocr
         (Scenario.world_of
            {| auth_users := [Scenario.alice]; subscriptions := [];
               usage_tracking :=
                 [ {| UsageTracking.id := 1;
                      UsageTracking.user_id := Scenario.alice;
                      UsageTracking.ocr_count := 2147483647;
                      UsageTracking.export_count := 0;
                      UsageTracking.ai_assistant_count := 0;
                      UsageTracking.period_start := JsDate.mkCivil 2024 2 1;
                      UsageTracking.created_at := Scenario.feb01 |} ];
               next_uuid := 2 |}
            Scenario.feb15))
  = Throw (Error UsageUpdateFailed).
Proof.
  refine (proj1 (incrementUsage_at_int4_max
                   Scenario.env_utc Scenario.alice ocr _ _ _ _ _)).
  - constructor.
  - vm_compute. reflexivity.
  - reflexivity.
Defined.

(** The run of [incrementUsage] with no fault pending, for a registered
    user whose counter is below the INTEGER bound. *)
Lemma incrementUsage_run env u f w :
  no_faults w -> usage_schema_ok (db w) -> In u (auth_users (db w)) ->
  ledgerCount (db w) u (periodKey env (clock w)) f < INT4_MAX ->
  exists w' qs,
    incrementUsage env u f w = (Return tt, w')
    /\ trace w' = trace w ++ qs
    /\ Forall (fun q => q_table q = t_usage_tracking) qs
    /\ console w' = console w.
Proof.
  intros Hnf Hok Hu Hlt.
  set (k := periodKey env (clock w)) in *.
  assert (Hint : forall r, In r (usage_tracking (db w)) ->
                           INT4_MIN <= rowCount f r ->
                           rowCount f r < INT4_MAX ->
                           in_int4 (rowCount f r + 1) = true).
  { intros r _ H0 H1. unfold in_int4, INT4_MIN, INT4_MAX in *.
    apply andb_true_intro. split; apply Z.leb_le; lia. }
  destruct (@usage_filter_unique (db w) u k Hok) as [Hnil|[r Hr]].
  - (* the entry is created first *)
    unfold incrementUsage. unfold bind at 1. fold k.
    rewrite (@getOrCreate_created env u w Hnf Hnil Hu). fold k.
    rewrite countOf_toUsageTracking. unfold bind at 1. fold q_update_usage.
    rewrite request_ok
      by (apply no_faults_after_request, no_faults_after_request, Hnf).
    rewrite update_usage_fst.
    change (in_int4 (rowCount f (fresh_usage_row (db w) u k (clock w)) + 1))
      with (in_int4 (match f with ocr | export | ai_assistant => 0 end + 1)).
    replace (in_int4 (match f with ocr | export | ai_assistant => 0 end + 1))
      with true by (destruct f; reflexivity).
    eexists. exists [q_select_usage; q_insert_usage; q_update_usage].
    split; [reflexivity|].
    cbn [trace console after_request]. rewrite <- !app_assoc.
    split_and; try reflexivity. repeat constructor.
  - rewrite (incrementUsage_found env u f w r Hnf Hr).
    rewrite (@ledgerCount_of_filter (db w) u k f r Hr) in Hlt.
    assert (Hin : In r (usage_tracking (db w))).
    { assert (H : In r (filter (Pg.usage_matches u k) (usage_tracking (db w))))
        by (rewrite Hr; left; reflexivity).
      apply filter_In in H. apply H. }
    assert (H0 : in_int4 (rowCount f r) = true).
    { pose proof (ok_int4 Hok) as Hall. rewrite Forall_forall in Hall.
      apply Hall, Hin. }
    rewrite Hint; try assumption.
    + eexists. exists [q_select_usage; q_update_usage].
      split; [reflexivity|].
      cbn [trace console after_request]. rewrite <- !app_assoc.
      split_and; try reflexivity. repeat constructor.
    + unfold in_int4 in H0. apply andb_prop in H0.
      destruct H0 as [H0 _]. apply Z.leb_le in H0. exact H0.
Qed.

(** X3. [incrementUsage] counts on every plan: for a registered user,
    free or paying, with no fault pending and a counter below the INTEGER
    bound, it returns, raises the counter of the feature in the entry of
    the current period by one, and talks to [usage_tracking] only; the
    [subscriptions] table is neither read nor written. *)
Theorem incrementUsage_counts_on_every_plan env u f w :
  no_faults w -> usage_schema_ok (db w) -> In u (auth_users (db w)) ->
  ledgerCount (db w) u (periodKey env (clock w)) f < INT4_MAX ->
  exists w',
    incrementUsage env u f w = (Return tt, w')
    /\ ledgerCount (db w') u (periodKey env (clock w)) f
       = ledgerCount (db w) u (periodKey env (clock w)) f + 1
    /\ subscriptions (db w') = subscriptions (db w)
    /\ Forall (fun q => q_table q = t_usage_tracking) (requestsSince w w').
Proof.
  intros Hnf Hok Hu Hlt.
  destruct (incrementUsage_run env u f w Hnf Hok Hu Hlt)
    as (w' & qs & E & Ht & Hqs & _).
  exists w'. split; [exact E|].
  pose proof (incrementUsage_success env u f w Hok) as Hcount.
  pose proof (incrementUsage_frame env u f w) as [_ Hsub].
  rewrite E in Hcount, Hsub. cbn [fst snd] in Hcount, Hsub.
  split_and.
  - rewrite (Hcount eq_refl).
    rewrite String.eqb_refl, Civil_eqb_refl, feature_eqb_refl. reflexivity.
  - exact Hsub.
  - rewrite (requestsSince_app w w' qs Ht). exact Hqs.
Qed.

(** Alice on the premium plan: her scans are counted all the same. *)
Lemma incrementUsage_counts_on_every_plan_witness :
  exists w',
    incrementUsage Scenario.env_utc Scenario.alice ocr
                   (Scenario.world_of Scenario.db_premium Scenario.feb15)
    = (Return tt, w')
    /\ ledgerCount (db w') Scenario.alice (JsDate.mkCivil 2024 2 1) ocr = 1
    /\ subscriptions (db w') = [Scenario.premium_row].
Proof.
  destruct (incrementUsage_counts_on_every_plan
              Scenario.env_utc Scenario.alice ocr
              (Scenario.world_of Scenario.db_premium Scenario.feb15))
    as (w' & E & Hc & Hs & _).
  - constructor.
  - constructor; simpl; constructor.
  - left. reflexivity.
  - vm_compute. reflexivity.
  - exists w'. split; [exact E|]. split; [exact Hc|exact Hs].
Defined.

(** ** Reading the plan *)

Lemma getUserPlanType_planOf u w :
  hd false (faults w) = false ->
  getUserPlanType u w
  = (Return (planOf (db w) u), after_request q_select_subscription (db w) w).
Proof.
  intros Hf. rewrite getUserPlanType_eq, Hf. reflexivity.
Qed.

(** X4. Reading the plan tells a missing row from a failed read: a user
    without a subscription row is on the free plan, but when the read of
    [subscriptions] fails [getUserPlanType] throws, and so does
    [checkUsageLimit], after that one request and without touching the
    database: a failed read never grants and never counts. *)
Theorem plan_read_missing_row_or_failure env u f w :
  (hd false (faults w) = false ->
   filter (fun r => (Subscriptions.user_id r =? u)%string)
          (subscriptions (db w)) = [] ->
   fst (getUserPlanType u w) = Return free)
  /\ (hd false (faults w) = true ->
      fst (getUserPlanType u w) = Throw (Error SubscriptionFetchFailed)
      /\ fst (checkUsageLimit env u f w)
         = Throw (Error SubscriptionFetchFailed)
      /\ db (snd (checkUsageLimit env u f w)) = db w
      /\ requestsSince w (snd (checkUsageLimit env u f w))
         = [q_select_subscription]).
Proof.
  split.
  - intros Hf Hnil. rewrite (getUserPlanType_planOf u w Hf).
    unfold planOf. rewrite Hnil. reflexivity.
  - intros Hf. unfold checkUsageLimit, bind.
    rewrite getUserPlanType_eq, Hf. cbn [fst snd].
    split_and; try reflexivity.
    apply requestsSince_app. reflexivity.
Qed.

Lemma plan_read_missing_row_or_failure_witness :
  fst (getUserPlanType Scenario.alice
         (Scenario.world_of Scenario.db_new_user Scenario.feb15))
  = Return free
  /\ fst (checkUsageLimit
            Scenario.env_utc Scenario.alice ocr
            {| db := Scenario.db_premium; faults := [true]; trace := [];
               console := []; clock := Scenario.feb15 |})
     = Throw (Error SubscriptionFetchFailed).
Proof.
  split.
  - apply (proj1 (plan_read_missing_row_or_failure
                    Scenario.env_utc Scenario.alice ocr _));
      reflexivity.
  - apply (proj2 (plan_read_missing_row_or_failure
                    Scenario.env_utc Scenario.alice ocr _)).
    reflexivity.
Defined.

(** ** The monthly report *)

Lemma planOf_free d u : on_free_plan d u -> planOf d u = free.
Proof.
  intros Hfree. unfold planOf.
  destruct (filter (fun r => (Subscriptions.user_id r =? u)%string)
                   (subscriptions d)) as [|r [|r' rest]] eqn:E;
    try reflexivity.
  assert (H : In r (filter (fun r => (Subscriptions.user_id r =? u)%string)
                           (subscriptions d)))
    by (rewrite E; left; reflexivity).
  apply filter_In in H. destruct H as [Hin Hu].
  apply String.eqb_eq in Hu. apply (Hfree r Hin Hu).
Qed.

(** The run of [getMonthlyUsage] for a registered user with no fault
    pending: each feature is reported with the count of the ledger and the
    limit of the user's plan. *)
Lemma getMonthlyUsage_run env u w :
  no_faults w -> usage_schema_ok (db w) -> In u (auth_users (db w)) ->
  exists m w',
    getMonthlyUsage env u w = (Return m, w')
    /\ mu_planType m = planOf (db w) u
    /\ (forall f,
           monthlyOf f m
           = featureUsage (ledgerCount (db w) u (periodKey env (clock w)) f)
                          (getFeatureLimit (planOf (db w) u) f))
    /\ filter (Pg.usage_matches u (periodKey env (clock w)))
              (usage_tracking (db w')) <> [].
Proof.
  intros Hnf Hok Hu. unfold getMonthlyUsage. unfold bind at 1.
  rewrite (getUserPlanType_planOf u w (no_faults_hd Hnf)).
  set (w0 := after_request q_select_subscription (db w) w).
  assert (Hnf0 : no_faults w0) by (apply no_faults_after_request, Hnf).
  set (k := periodKey env (clock w)).
  unfold bind at 1.
  destruct (@usage_filter_unique (db w) u k Hok) as [Hnil|[r Hr]].
  - rewrite (@getOrCreate_created env u w0 Hnf0 Hnil Hu).
    do 2 eexists. split; [reflexivity|].
    cbn [mu_planType]. split; [reflexivity|]. split.
    + intros f. rewrite (@ledgerCount_none (db w) u k f Hnil).
      destruct f; reflexivity.
    + cbn [db after_request]. change (clock w0) with (clock w).
      change (db w0) with (db w). fold k.
      rewrite insert_usage_appends
        by (first [apply mem_string_In, Hu|apply filter_nil_existsb, Hnil]).
      rewrite filter_app, Hnil. cbn [filter app].
      replace (Pg.usage_matches u k (fresh_usage_row (db w) u k (clock w)))
        with true; [discriminate|].
      symmetry. apply usage_matches_iff. reflexivity.
  - rewrite (@getOrCreate_found env u w0 r Hnf0 Hr).
    do 2 eexists. split; [reflexivity|].
    cbn [mu_planType]. split; [reflexivity|]. split.
    + intros f. rewrite (@ledgerCount_of_filter (db w) u k f r Hr).
      destruct f; reflexivity.
    + cbn [db after_request]. change (db w0) with (db w). fold k.
      rewrite Hr. discriminate.
Qed.

(** X5. For a registered user on the free plan, with no fault pending,
    the monthly report and the entitlement check agree: for every feature
    [getMonthlyUsage] reports as used, limit and remaining what
    [checkUsageLimit] returns as currentUsage, limit and remaining, and
    the check allows exactly when the report has something remaining. *)
Theorem getMonthlyUsage_agrees_with_check env u w :
  no_faults w -> usage_schema_ok (db w) -> In u (auth_users (db w)) ->
  on_free_plan (db w) u ->
  exists m w1,
    getMonthlyUsage env u w = (Return m, w1)
    /\ mu_planType m = free
    /\ forall f,
        exists c w2,
          checkUsageLimit env u f w = (Return c, w2)
          /\ used (monthlyOf f m) = currentUsage c
          /\ fu_limit (monthlyOf f m) = limit c
          /\ fu_remaining (monthlyOf f m) = remaining c
          /\ (allowed c = true <-> fu_remaining (monthlyOf f m) <> Finite 0).
Proof.
  intros Hnf Hok Hu Hfree.
  destruct (getMonthlyUsage_run env u w Hnf Hok Hu)
    as (m & w1 & E & Hplan & Hm & _).
  rewrite (planOf_free _ _ Hfree) in Hplan, Hm.
  exists m, w1. split; [exact E|]. split; [exact Hplan|].
  intros f.
  destruct (checkUsageLimit_free env u f w Hnf Hok Hu Hfree) as (w2 & E2).
  do 2 eexists. split; [exact E2|].
  rewrite Hm. cbn [used fu_limit fu_remaining featureUsage currentUsage limit
                   remaining allowed].
  split_and; try reflexivity.
  assert (Hrem : forall c L,
             (c <? L) = true <-> Finite (Z.max 0 (L - c)) <> Finite 0).
  { intros c L. rewrite Z.ltb_lt. split.
    - intros Hlt [= Hz]. lia.
    - intros Hne. destruct (Z.lt_ge_cases c L) as [H|H]; [exact H|].
      exfalso. apply Hne. f_equal. lia. }
  destruct f; apply Hrem.
Qed.

(** Alice with one export counted: report and check both say 1 of 3. *)
Lemma getMonthlyUsage_agrees_with_check_witness :
  exists m w1 c w2,
    getMonthlyUsage Scenario.env_utc Scenario.alice
                    (Scenario.world_of Scenario.db_one_export Scenario.feb15)
    = (Return m, w1)
    /\ checkUsageLimit Scenario.env_utc Scenario.alice export
                       (Scenario.world_of Scenario.db_one_export Scenario.feb15)
       = (Return c, w2)
    /\ used (mu_export m) = currentUsage c
    /\ fu_remaining (mu_export m) = remaining c.
Proof.
  destruct (getMonthlyUsage_agrees_with_check
              Scenario.env_utc Scenario.alice
              (Scenario.world_of Scenario.db_one_export Scenario.feb15))
    as (m & w1 & E & _ & Hall).
  - constructor.
  - constructor; simpl; repeat constructor; try (intros []; discriminate);
      try (intros [|[]]); try (intros f; destruct f; reflexivity);
      try lia; auto.
  - left. reflexivity.
  - intros r [].
  - destruct (Hall export) as (c & w2 & E2 & Hused & _ & Hrem & _).
    exists m, w1, c, w2. split_and; assumption.
Defined.

(** X6. On a paid plan the monthly report still shows what was counted:
    for a registered user whose row is on standard, premium or pro_yearly,
    [getMonthlyUsage] reports for every feature the count of the ledger
    with limit and remaining [Infinity] (where [checkUsageLimit] answers
    [currentUsage = 0] without reading the ledger), and it leaves an
    entry for the period in the ledger. *)
Theorem getMonthlyUsage_on_paid_plan env u w r :
  no_faults w -> usage_schema_ok (db w) -> In u (auth_users (db w)) ->
  filter (fun row => (Subscriptions.user_id row =? u)%string)
         (subscriptions (db w)) = [r] ->
  Subscriptions.plan_type r <> free ->
  exists m w1,
    getMonthlyUsage env u w = (Return m, w1)
    /\ mu_planType m = Subscriptions.plan_type r
    /\ (forall f,
           monthlyOf f m
           = {| used := ledgerCount (db w) u (periodKey env (clock w)) f;
                fu_limit := Infinity; fu_remaining := Infinity |})
    /\ filter (Pg.usage_matches u (periodKey env (clock w)))
              (usage_tracking (db w1)) <> [].
Proof.
  intros Hnf Hok Hu Hrow Hpaid.
  destruct (getMonthlyUsage_run env u w Hnf Hok Hu)
    as (m & w1 & E & Hplan & Hm & Hentry).
  assert (Hp : planOf (db w) u = Subscriptions.plan_type r)
    by (unfold planOf; rewrite Hrow; reflexivity).
  rewrite Hp in Hplan, Hm.
  exists m, w1. split_and; try assumption.
  intros f. rewrite Hm.
  destruct (Subscriptions.plan_type r); [congruence| | |];
    destruct f; reflexivity.
Qed.

(** Alice on the premium plan, nothing counted yet this month. *)
Lemma getMonthlyUsage_on_paid_plan_witness :
  exists m w1,
    getMonthlyUsage Scenario.env_utc Scenario.alice
                    (Scenario.world_of Scenario.db_premium Scenario.feb15)
    = (Return m, w1)
    /\ mu_ocr m = {| used := 0; fu_limit := Infinity;
                     fu_remaining := Infinity |}
    /\ List.length (usage_tracking (db w1)) = 1%nat.
Proof.
  destruct (getMonthlyUsage_on_paid_plan
              Scenario.env_utc Scenario.alice
              (Scenario.world_of Scenario.db_premium Scenario.feb15)
              Scenario.premium_row)
    as (m & w1 & E & _ & Hm & _).
  - constructor.
  - constructor; simpl; constructor.
  - left. reflexivity.
  - reflexivity.
  - discriminate.
  - exists m, w1. split; [exact E|]. split; [exact (Hm ocr)|].
    vm_compute in E. injection E as <- <-. reflexivity.
Defined.

Open Scope js_scope.

(* ===================================================================== *)
(** * Further properties of the webhook ([api/stripe/webhook/route.ts])   *)
(* ===================================================================== *)

(** ** What the endpoint never touches *)

Lemma ledger_untouched_refl d : ledger_untouched d d.
Proof. split; reflexivity. Qed.

Lemma ledger_untouched_trans a b c :
  ledger_untouched a b -> ledger_untouched b c -> ledger_untouched a c.
Proof. intros [H1 H2] [H3 H4]. split; congruence. Qed.

Lemma upsert_ledger_untouched v now d :
  ledger_untouched d (snd (Pg.upsert_subscription v now d)).
Proof.
  unfold Pg.upsert_subscription.
  destruct (Pg.refused v); [split; reflexivity|].
  destruct (existsb _ (subscriptions d)); [split; reflexivity|].
  destruct (mem_string _ _); split; reflexivity.
Qed.

Lemma update_ledger_untouched f s now d :
  ledger_untouched d (snd (Pg.update_by_stripe_subscription f s now d)).
Proof. split; reflexivity. Qed.

Lemma POST_ledger_untouched env stripe req :
  db_step ledger_untouched (Webhook.POST env stripe req).
Proof.
  unfold Webhook.POST, verifyStripeWebhook, dispatch,
    handleCheckoutCompleted, handleSubscriptionUpdated,
    handleSubscriptionDeleted, handlePaymentFailed.
  db_steps ledger_untouched_refl ledger_untouched_trans;
    first [ apply upsert_ledger_untouched
          | apply update_ledger_untouched
          | apply ledger_untouched_refl ].
Qed.

(** X7. Whatever the request, the event and the pending faults, the
    webhook endpoint leaves the usage ledger and the registered users
    exactly as they were: billing events never reset, raise or remove a
    usage counter. *)
Theorem webhook_never_touches_ledger env stripe req w :
  usage_tracking (db (snd (Webhook.POST env stripe req w)))
  = usage_tracking (db w)
  /\ auth_users (db (snd (Webhook.POST env stripe req w)))
     = auth_users (db w).
Proof.
  destruct (POST_ledger_untouched env stripe req w) as [Hu Hl].
  split; assumption.
Qed.

(** ** The constraints on [subscriptions] *)

Lemma keeps_schema_refl d : keeps_subscriptions_schema d d.
Proof. intros H. exact H. Qed.

Lemma keeps_schema_trans a b c :
  keeps_subscriptions_schema a b -> keeps_subscriptions_schema b c ->
  keeps_subscriptions_schema a c.
Proof. intros H1 H2 H. apply H2, H1, H. Qed.

Lemma map_user_id_same (g : Subscriptions.Row -> Subscriptions.Row)
      (p : Subscriptions.Row -> bool) (l : list Subscriptions.Row) :
  (forall r, p r = true ->
             Subscriptions.user_id (g r) = Subscriptions.user_id r) ->
  map Subscriptions.user_id (map (fun r => if p r then g r else r) l)
  = map Subscriptions.user_id l.
Proof.
  intros Hg. rewrite map_map. apply map_ext_in. intros r _.
  destruct (p r) eqn:E; [apply Hg, E|reflexivity].
Qed.

Lemma existsb_user_In u l :
  existsb (fun r => (Subscriptions.user_id r =? u)%string) l = true
  <-> In u (map Subscriptions.user_id l).
Proof.
  rewrite existsb_exists, in_map_iff. split.
  - intros (r & Hin & E). apply String.eqb_eq in E. exists r. auto.
  - intros (r & E & Hin). exists r. split; [exact Hin|].
    apply String.eqb_eq, E.
Qed.

Lemma upsert_users v now d :
  subscription_users (snd (Pg.upsert_subscription v now d))
  = match Pg.refused v with
    | Some _ => subscription_users d
    | None =>
        if existsb (fun r => (Subscriptions.user_id r
                              =? Pg.v_user_id v)%string)
                   (subscriptions d)
        then subscription_users d
        else if mem_string (Pg.v_user_id v) (auth_users d)
             then subscription_users d ++ [Pg.v_user_id v]
             else subscription_users d
    end.
Proof.
  unfold Pg.upsert_subscription, subscription_users.
  destruct (Pg.refused v); [reflexivity|].
  destruct (existsb _ (subscriptions d)); cbn [snd].
  - cbn [subscriptions Pg.set_subscriptions].
    apply map_user_id_same. intros r E. apply String.eqb_eq in E.
    symmetry. exact E.
  - destruct (mem_string _ _); cbn [negb snd subscriptions];
      [|reflexivity].
    rewrite map_app. reflexivity.
Qed.

Lemma upsert_keeps_schema v now d :
  keeps_subscriptions_schema d (snd (Pg.upsert_subscription v now d)).
Proof.
  intros [Hnd Hreg].
  assert (Hau : auth_users (snd (Pg.upsert_subscription v now d))
                = auth_users d)
    by apply upsert_ledger_untouched.
  constructor; rewrite ?Hau, upsert_users.
  - destruct (Pg.refused v); [exact Hnd|].
    destruct (existsb _ (subscriptions d)) eqn:Hex; [exact Hnd|].
    destruct (mem_string _ _); [|exact Hnd].
    clear Hreg. unfold subscription_users in *.
    assert (Hnot : ~ In (Pg.v_user_id v)
                        (map Subscriptions.user_id (subscriptions d))).
    { intros Hin. apply existsb_user_In in Hin. congruence. }
    induction (map Subscriptions.user_id (subscriptions d)) as [|a l IH].
    + repeat constructor. intros [].
    + inversion Hnd as [|? ? Ha Hl]; subst. cbn [app]. constructor.
      * intros Hin. apply in_app_or in Hin. destruct Hin as [Hin|[E|[]]].
        -- apply Ha, Hin.
        -- apply Hnot. left. symmetry. exact E.
      * apply IH; [exact Hl|]. intros Hin. apply Hnot. right. exact Hin.
  - destruct (Pg.refused v); [exact Hreg|].
    destruct (existsb _ (subscriptions d)); [exact Hreg|].
    destruct (mem_string _ _) eqn:Hm; [|exact Hreg].
    apply Forall_app. split; [exact Hreg|].
    constructor; [|constructor]. apply mem_string_In, Hm.
Qed.

Lemma update_keeps_schema f s now d :
  (forall r, Subscriptions.user_id (f r) = Subscriptions.user_id r) ->
  keeps_subscriptions_schema
    d (snd (Pg.update_by_stripe_subscription f s now d)).
Proof.
  intros Hf [Hnd Hreg].
  assert (E : subscription_users
                (snd (Pg.update_by_stripe_subscription f s now d))
              = subscription_users d).
  { unfold subscription_users, Pg.update_by_stripe_subscription.
    cbn [snd subscriptions Pg.set_subscriptions].
    apply map_user_id_same. intros r _. apply Hf. }
  constructor; rewrite E; assumption.
Qed.

Lemma POST_keeps_schema env stripe req :
  db_step keeps_subscriptions_schema (Webhook.POST env stripe req).
Proof.
  unfold Webhook.POST, verifyStripeWebhook, dispatch,
    handleCheckoutCompleted, handleSubscriptionUpdated,
    handleSubscriptionDeleted, handlePaymentFailed.
  db_steps keeps_schema_refl keeps_schema_trans;
    first [ apply upsert_keeps_schema
          | apply update_keeps_schema; intros r; reflexivity
          | apply keeps_schema_refl ].
Qed.

(** X8. The webhook endpoint keeps the constraints of the [user_id]
    column of [subscriptions]: if there was at most one row per user and
    every row belonged to a registered user, the same holds after any
    request, event and faults. An event for a user who has a row rewrites
    that row; a second row for the user is never inserted. *)
Theorem webhook_keeps_one_row_per_user env stripe req w :
  subscriptions_schema_ok (db w) ->
  subscriptions_schema_ok (db (snd (Webhook.POST env stripe req w))).
Proof. apply POST_keeps_schema. Qed.

Lemma webhook_keeps_one_row_per_user_witness :
  subscriptions_schema_ok
    (db (snd (Webhook.POST
                Scenario.env_utc
                (Events.delivering
                   (customer_subscription_updated
                      (Events.alice_subscription "price_standard_monthly"
                                                 stripe_active false)))
                Events.signed
                (Scenario.world_of Scenario.db_premium Scenario.feb15))))
  /\ map Subscriptions.plan_type
         (subscriptions
            (db (snd (Webhook.POST
                        Scenario.env_utc
                        (Events.delivering
                           (customer_subscription_updated
                              (Events.alice_subscription
                                 "price_standard_monthly" stripe_active
                                 false)))
                        Events.signed
                        (Scenario.world_of Scenario.db_premium
                                          Scenario.feb15)))))
     = [standard].
Proof.
  split.
  - apply webhook_keeps_one_row_per_user.
    constructor; cbn.
    + constructor; [intros []|constructor].
    + constructor; [left; reflexivity|constructor].
  - vm_compute. reflexivity.
Defined.

(** ** Writing a subscription and reading it back *)

Lemma upsertSubscription_run u c s p st ps pe w :
  no_faults w ->
  upsertSubscription u c s p st (Some ps) (Some pe) w
  = match fst (Pg.upsert_subscription
                 (Pg.Build_UpsertValues u c s p st ps pe (clock w))
                 (clock w) (db w)) with
    | PgData _ =>
        (Return tt,
         after_request q_upsert_subscription
           (snd (Pg.upsert_subscription
                   (Pg.Build_UpsertValues u c s p st ps pe (clock w))
                   (clock w) (db w))) w)
    | PgError_ _ =>
        (Throw (Error SubscriptionUpsertFailed),
         after_emit (console_error SubscriptionUpsertFailed)
           (after_request q_upsert_subscription
              (snd (Pg.upsert_subscription
                      (Pg.Build_UpsertValues u c s p st ps pe (clock w))
                      (clock w) (db w))) w))
    end.
Proof.
  intros Hnf. unfold upsertSubscription, toISOString, bind, ret, new_Date.
  fold q_upsert_subscription. rewrite (request_ok _ _ Hnf).
  destruct (fst (Pg.upsert_subscription _ (clock w) (db w)));
    [reflexivity|]. rewrite emit_eq. reflexivity.
Qed.

(** An Invalid Date among the two bounds: [toISOString] throws while the
    object for the request is being built. *)
Lemma upsertSubscription_invalid u c s p st start stop w :
  start = None \/ stop = None ->
  upsertSubscription u c s p st start stop w
  = (Throw (Error InvalidTimeValue), w).
Proof.
  intros H. unfold upsertSubscription, toISOString.
  destruct start as [ps|]; [|reflexivity].
  destruct stop as [pe|]; [|reflexivity].
  destruct H; discriminate.
Qed.

Lemma filter_user_unique d u :
  NoDup (subscription_users d) ->
  filter (fun r => (Subscriptions.user_id r =? u)%string) (subscriptions d)
  = []
  \/ exists r,
      filter (fun r => (Subscriptions.user_id r =? u)%string)
             (subscriptions d) = [r].
Proof.
  intros Hnd.
  apply (@filter_key_unique _ _ Subscriptions.user_id _ u).
  - intros a. apply String.eqb_eq.
  - exact Hnd.
Qed.

(** The row of the user after an upsert that the database accepts. *)
Lemma timestamp_read_iff t : Pg.timestamp_read t = true <-> fourDigitYear t.
Proof.
  unfold Pg.timestamp_read, fourDigitYear.
  rewrite andb_true_iff, Z.leb_le, Z.ltb_lt. reflexivity.
Qed.

Lemma upsert_then_filter v p now d :
  NoDup (subscription_users d) -> In (Pg.v_user_id v) (auth_users d) ->
  Pg.v_plan_type v = own p ->
  fourDigitYear (Pg.v_current_period_start v) ->
  fourDigitYear (Pg.v_current_period_end v) ->
  fst (Pg.upsert_subscription v now d) = PgData tt
  /\ exists r',
      filter (fun r => (Subscriptions.user_id r =? Pg.v_user_id v)%string)
             (subscriptions (snd (Pg.upsert_subscription v now d))) = [r']
      /\ Subscriptions.user_id r' = Pg.v_user_id v
      /\ Subscriptions.stripe_customer_id r'
         = Some (Pg.v_stripe_customer_id v)
      /\ Subscriptions.stripe_subscription_id r'
         = Some (Pg.v_stripe_subscription_id v)
      /\ Subscriptions.plan_type r' = p
      /\ Subscriptions.status r' = Pg.v_status v
      /\ Subscriptions.current_period_start r'
         = Some (Pg.v_current_period_start v)
      /\ Subscriptions.current_period_end r'
         = Some (Pg.v_current_period_end v).
Proof.
  intros Hnd Hu Hplan Hps Hpe.
  assert (Hp : Pg.refused v = None).
  { unfold Pg.refused, Pg.plan_refused. rewrite Hplan.
    apply timestamp_read_iff in Hps, Hpe. rewrite Hps, Hpe. reflexivity. }
  assert (Hw : forall current, Pg.plan_written v current = p)
    by (intros current; unfold Pg.plan_written; rewrite Hplan; reflexivity).
  destruct (existsb (fun r => (Subscriptions.user_id r =? Pg.v_user_id v)%string)
                    (subscriptions d)) eqn:Hex.
  - rewrite (upsert_update_case v now d Hp Hex). cbn [fst snd].
    split; [reflexivity|].
    cbn [subscriptions Pg.set_subscriptions].
    rewrite filter_map_commute.
    + destruct (filter_user_unique d (Pg.v_user_id v) Hnd) as [Hnil|[r Hr]].
      * apply filter_nil_existsb in Hnil. congruence.
      * rewrite Hr. cbn [map].
        assert (Hin : In r (filter (fun r => (Subscriptions.user_id r
                                               =? Pg.v_user_id v)%string)
                                   (subscriptions d)))
          by (rewrite Hr; left; reflexivity).
        apply filter_In in Hin. destruct Hin as [_ Hm]. rewrite Hm.
        eexists. split; [reflexivity|].
        cbn [Pg.overwrite Subscriptions.user_id
             Subscriptions.stripe_customer_id
             Subscriptions.stripe_subscription_id Subscriptions.plan_type
             Subscriptions.status Subscriptions.current_period_start
             Subscriptions.current_period_end].
        rewrite Hw. split_and; reflexivity.
    + intros a. destruct (Subscriptions.user_id a =? Pg.v_user_id v)%string
        eqn:Ha; [|exact Ha].
      cbn [Pg.overwrite Subscriptions.user_id]. apply String.eqb_refl.
  - apply mem_string_In in Hu.
    rewrite (upsert_insert_case v now d Hp Hex Hu). cbn [fst snd].
    split; [reflexivity|]. cbn [subscriptions].
    rewrite filter_app.
    apply filter_nil_existsb in Hex. rewrite Hex. cbn [filter app].
    cbn [Subscriptions.user_id]. rewrite String.eqb_refl.
    eexists. split; [reflexivity|].
    cbn [Subscriptions.user_id Subscriptions.stripe_customer_id
         Subscriptions.stripe_subscription_id Subscriptions.plan_type
         Subscriptions.status Subscriptions.current_period_start
         Subscriptions.current_period_end].
    rewrite Hw. split_and; reflexivity.
Qed.

Lemma getUserSubscription_found u w r :
  hd false (faults w) = false ->
  filter (fun r => (Subscriptions.user_id r =? u)%string)
         (subscriptions (db w)) = [r] ->
  exists sub,
    getUserSubscription u w
    = (Return (Some sub), after_request q_select_subscription (db w) w)
    /\ userId sub = Subscriptions.user_id r
    /\ stripeCustomerId sub = Subscriptions.stripe_customer_id r
    /\ stripeSubscriptionId sub = Subscriptions.stripe_subscription_id r
    /\ planType sub = Subscriptions.plan_type r
    /\ sub_status sub = Subscriptions.status r
    /\ currentPeriodStart sub = Subscriptions.current_period_start r
    /\ currentPeriodEnd sub = Subscriptions.current_period_end r.
Proof.
  intros Hf Hr. unfold getUserSubscription, bind.
  fold q_select_subscription. rewrite request_eq, Hf.
  unfold Pg.select_subscription_by_user. cbn [fst snd]. rewrite Hr.
  cbn [Pg.single]. eexists. split; [reflexivity|].
  split_and; reflexivity.
Qed.

(** X9. Writing then reading. The two period bounds are [Date]s. When
    both are valid, with time values of the years 1 to 9999, no fault is
    pending and there is at most one row per user, [upsertSubscription]
    of a plan for a registered user returns, and [getUserSubscription]
    then returns a subscription carrying exactly the customer,
    subscription id, plan, status and period bounds that were written, so
    [getUserPlanType] is the written plan; the rows of the other users
    are the same as before. When one of the two is the Invalid Date the
    call throws the RangeError of [toISOString] before any request is
    made: nothing is written and no fault is consumed. *)
Theorem upsert_then_read u c s p st start stop w :
  no_faults w -> NoDup (subscription_users (db w)) ->
  In u (auth_users (db w)) ->
  (forall ps pe,
      start = Some ps -> stop = Some pe ->
      fourDigitYear ps -> fourDigitYear pe ->
      exists w1 w2 sub,
        upsertSubscription u c s (own p) st start stop w = (Return tt, w1)
        /\ getUserSubscription u w1 = (Return (Some sub), w2)
        /\ userId sub = u
        /\ stripeCustomerId sub = Some c
        /\ stripeSubscriptionId sub = Some s
        /\ planType sub = p
        /\ sub_status sub = st
        /\ currentPeriodStart sub = Some ps
        /\ currentPeriodEnd sub = Some pe
        /\ fst (getUserPlanType u w1) = Return p
        /\ forall u', u' <> u ->
             filter (fun r => (Subscriptions.user_id r =? u')%string)
                    (subscriptions (db w1))
             = filter (fun r => (Subscriptions.user_id r =? u')%string)
                      (subscriptions (db w)))
  /\ (start = None \/ stop = None ->
      upsertSubscription u c s (own p) st start stop w
      = (Throw (Error InvalidTimeValue), w)).
Proof.
  intros Hnf Hnd Hu. split; [|apply upsertSubscription_invalid].
  intros ps pe -> -> Hps Hpe.
  set (v := Pg.Build_UpsertValues u c s (own p) st ps pe (clock w)).
  destruct (upsert_then_filter v p (clock w) (db w) Hnd Hu eq_refl Hps Hpe)
    as (Hfst & r' & Hr' & Hf1 & Hf2 & Hf3 & Hf4 & Hf5 & Hf6 & Hf7).
  rewrite (upsertSubscription_run u c s (own p) st ps pe w Hnf). fold v.
  rewrite Hfst.
  cbn [Pg.v_user_id Pg.v_stripe_customer_id Pg.v_stripe_subscription_id
       Pg.v_plan_type Pg.v_status Pg.v_current_period_start
       Pg.v_current_period_end v] in Hr', Hf1, Hf2, Hf3, Hf4, Hf5, Hf6, Hf7.
  set (w1 := after_request q_upsert_subscription _ w).
  assert (Hnf1 : no_faults w1) by (apply no_faults_after_request, Hnf).
  destruct (getUserSubscription_found u w1 r' (no_faults_hd Hnf1) Hr')
    as (sub & E & Hs1 & Hs2 & Hs3 & Hs4 & Hs5 & Hs6 & Hs7).
  exists w1, (after_request q_select_subscription (db w1) w1), sub.
  split; [reflexivity|]. split; [exact E|].
  split_and; try congruence.
  - rewrite (getUserPlanType_planOf u w1 (no_faults_hd Hnf1)).
    cbn [fst]. unfold planOf.
    change (db w1) with (snd (Pg.upsert_subscription v (clock w) (db w))).
    rewrite Hr'. rewrite Hf4. reflexivity.
  - intros u' Hne. subst w1. cbn [db after_request].
    unfold Pg.upsert_subscription.
    destruct (Pg.refused v); [reflexivity|]. cbn [Pg.v_user_id v].
    destruct (existsb _ (subscriptions (db w))); cbn [snd].
    + cbn [subscriptions Pg.set_subscriptions].
      induction (subscriptions (db w)) as [|a l IH]; [reflexivity|].
      cbn [map filter].
      destruct (String.eqb_spec (Subscriptions.user_id a) u) as [Ea|Ea].
      * cbn [Pg.overwrite Subscriptions.user_id Pg.v_user_id v].
        rewrite Ea.
        destruct (String.eqb_spec u u') as [Eu|Eu]; [congruence|].
        exact IH.
      * destruct (Subscriptions.user_id a =? u')%string;
          [f_equal|]; exact IH.
    + destruct (mem_string u (auth_users (db w))); cbn [negb snd];
        [|reflexivity].
      cbn [subscriptions]. rewrite filter_app. cbn [filter].
      cbn [Subscriptions.user_id].
      destruct (String.eqb_spec u u') as [Eu|Eu]; [congruence|].
      apply app_nil_r.
Qed.

(** Alice subscribes to the standard plan for February 2024; with an
    Invalid Date for the end of the period nothing is stored. *)
Lemma upsert_then_read_witness :
  (exists w1,
      upsertSubscription Scenario.alice "cus_1" "sub_1" (own standard) active
                         (Some 1706745600000) (Some 1709251200000)
                         (Scenario.world_of Scenario.db_new_user Scenario.feb15)
      = (Return tt, w1)
      /\ fst (getUserPlanType Scenario.alice w1) = Return standard)
  /\ upsertSubscription Scenario.alice "cus_1" "sub_1" (own standard) active
                        (Some 1706745600000) None
                        (Scenario.world_of Scenario.db_new_user Scenario.feb15)
     = (Throw (Error InvalidTimeValue),
        Scenario.world_of Scenario.db_new_user Scenario.feb15).
Proof.
  split.
  - destruct (proj1 (upsert_then_read
                       Scenario.alice "cus_1" "sub_1" standard active
                       (Some 1706745600000) (Some 1709251200000)
                       (Scenario.world_of Scenario.db_new_user Scenario.feb15)
                       ltac:(constructor) ltac:(constructor)
                       ltac:(left; reflexivity))
                    1706745600000 1709251200000 eq_refl eq_refl
                    ltac:(unfold fourDigitYear; lia)
                    ltac:(unfold fourDigitYear; lia))
      as (w1 & _ & _ & E & _ & _ & _ & _ & _ & _ & _ & _ & Hplan & _).
    exists w1. split; assumption.
  - apply (proj2 (upsert_then_read
                    Scenario.alice "cus_1" "sub_1" standard active
                    (Some 1706745600000) None
                    (Scenario.world_of Scenario.db_new_user Scenario.feb15)
                    ltac:(constructor) ltac:(constructor)
                    ltac:(left; reflexivity))).
    right. reflexivity.
Defined.

(** ** Events the endpoint does not handle *)

(** X10. A verified event of a type the endpoint has no case for is
    acknowledged with 200: no database request is made (no fault is
    consumed) and the database is unchanged. *)
Theorem unhandled_event_acknowledged env stripe req w signature type :
  nonempty (wh_signature req) = Some signature ->
  fst (verifyStripeWebhook env stripe (wh_body req) signature w)
  = Return (unhandled_event type) ->
  fst (Webhook.POST env stripe req w)
  = Return (NextResponse_json json_received 200)
  /\ db (snd (Webhook.POST env stripe req w)) = db w
  /\ trace (snd (Webhook.POST env stripe req w)) = trace w
  /\ faults (snd (Webhook.POST env stripe req w)) = faults w.
Proof.
  intros Hsig Hver.
  rewrite (POST_verified env stripe req w signature _ Hsig Hver).
  rewrite dispatch_eq, emit_eq. cbn [fst snd]. split_and; reflexivity.
Qed.

Lemma unhandled_event_acknowledged_witness :
  fst (Webhook.POST Scenario.env_utc
         (Events.delivering (unhandled_event "customer.created"))
         Events.signed
         (Events.world_failing_first Scenario.db_premium Scenario.feb15))
  = Return (NextResponse_json json_received 200).
Proof.
  refine (proj1 (unhandled_event_acknowledged
                   Scenario.env_utc _ Events.signed _ "t=1,v1=abc"
                   "customer.created" _ _)); reflexivity.
Defined.

(** ** The price catalogue *)

Lemma object_read_own (V : Type) (entries : list (string * V)) key v :
  object_get entries key = Some v ->
  object_read entries key = Some (own v).
Proof. intros H. unfold object_read. rewrite H. reflexivity. Qed.

Lemma in_Object_prototype key :
  existsb (String.eqb key) Object_prototype = true
  <-> In key Object_prototype.
Proof.
  rewrite existsb_exists. split.
  - intros (x & Hin & E). apply String.eqb_eq in E. subst x. exact Hin.
  - intros Hin. exists key. split; [exact Hin|apply String.eqb_refl].
Qed.

(** The own entries of the catalogue, by the three configured ids. *)
Lemma catalogue_own env priceId :
  object_get (PRICE_ID_TO_PLAN env) priceId
  = if (price_pro_yearly (STRIPE_PRICE_IDS env) =? priceId)%string
    then Some pro_yearly
    else if (price_premium (STRIPE_PRICE_IDS env) =? priceId)%string
         then Some premium
         else if (price_standard (STRIPE_PRICE_IDS env) =? priceId)%string
              then Some standard
              else None.
Proof.
  unfold PRICE_ID_TO_PLAN. cbn [object_get].
  destruct (_ =? priceId)%string; [reflexivity|].
  destruct (_ =? priceId)%string; [reflexivity|].
  destruct (_ =? priceId)%string; reflexivity.
Qed.

(** X11. What [getPlanTypeFromPriceId] reads from [PRICE_ID_TO_PLAN]. It
    never yields the free plan, and yields a paid plan only for the price
    id configured for that plan: the price of pro_yearly always maps back
    to pro_yearly, the price of premium maps back to premium unless it
    equals the price of pro_yearly, and the price of standard maps back
    to standard unless it equals one of the other two (of two plans
    configured with the same price id, the one written last in the table
    wins). For an id that is none of the three configured ones the result
    is [null] exactly when the id is not the name of a member of
    [Object.prototype]; for such a name ([toString], [constructor],
    [__proto__], ...) the lookup returns the inherited member, which is
    truthy and is no plan. *)
Theorem price_catalogue_lookup env :
  (forall priceId p,
      getPlanTypeFromPriceId env priceId = Some (own p) ->
      match p with
      | free => False
      | standard => priceId = price_standard (STRIPE_PRICE_IDS env)
      | premium => priceId = price_premium (STRIPE_PRICE_IDS env)
      | pro_yearly => priceId = price_pro_yearly (STRIPE_PRICE_IDS env)
      end)
  /\ getPlanTypeFromPriceId env (price_pro_yearly (STRIPE_PRICE_IDS env))
     = Some (own pro_yearly)
  /\ (price_premium (STRIPE_PRICE_IDS env)
      <> price_pro_yearly (STRIPE_PRICE_IDS env) ->
      getPlanTypeFromPriceId env (price_premium (STRIPE_PRICE_IDS env))
      = Some (own premium))
  /\ (price_standard (STRIPE_PRICE_IDS env)
      <> price_premium (STRIPE_PRICE_IDS env) ->
      price_standard (STRIPE_PRICE_IDS env)
      <> price_pro_yearly (STRIPE_PRICE_IDS env) ->
      getPlanTypeFromPriceId env (price_standard (STRIPE_PRICE_IDS env))
      = Some (own standard))
  /\ (price_premium (STRIPE_PRICE_IDS env)
      = price_pro_yearly (STRIPE_PRICE_IDS env) ->
      getPlanTypeFromPriceId env (price_premium (STRIPE_PRICE_IDS env))
      = Some (own pro_yearly))
  /\ (forall priceId,
         priceId <> price_standard (STRIPE_PRICE_IDS env) ->
         priceId <> price_premium (STRIPE_PRICE_IDS env) ->
         priceId <> price_pro_yearly (STRIPE_PRICE_IDS env) ->
         (In priceId Object_prototype ->
          getPlanTypeFromPriceId env priceId = Some (inherited priceId))
         /\ (~ In priceId Object_prototype ->
             getPlanTypeFromPriceId env priceId = None)).
Proof.
  unfold getPlanTypeFromPriceId, object_read.
  set (a := price_standard (STRIPE_PRICE_IDS env)).
  set (b := price_premium (STRIPE_PRICE_IDS env)).
  set (c := price_pro_yearly (STRIPE_PRICE_IDS env)).
  split_and.
  - intros priceId p. rewrite catalogue_own. fold a b c.
    destruct (String.eqb_spec c priceId) as [Ec|Ec].
    + intros [= <-]. symmetry. exact Ec.
    + destruct (String.eqb_spec b priceId) as [Eb|Eb].
      * intros [= <-]. symmetry. exact Eb.
      * destruct (String.eqb_spec a priceId) as [Ea|Ea].
        -- intros [= <-]. symmetry. exact Ea.
        -- destruct (existsb _ Object_prototype); discriminate.
  - rewrite catalogue_own. fold c. rewrite String.eqb_refl. reflexivity.
  - intros Hbc. rewrite catalogue_own. fold b c.
    destruct (String.eqb_spec c b) as [E|_]; [congruence|].
    rewrite String.eqb_refl. reflexivity.
  - intros Hab Hac. rewrite catalogue_own. fold a b c.
    destruct (String.eqb_spec c a) as [E|_]; [congruence|].
    destruct (String.eqb_spec b a) as [E|_]; [congruence|].
    rewrite String.eqb_refl. reflexivity.
  - intros Hbc. rewrite catalogue_own. fold b c.
    rewrite Hbc, String.eqb_refl. reflexivity.
  - intros priceId Ha Hb Hc. rewrite catalogue_own. fold a b c.
    destruct (String.eqb_spec c priceId) as [E|_]; [congruence|].
    destruct (String.eqb_spec b priceId) as [E|_]; [congruence|].
    destruct (String.eqb_spec a priceId) as [E|_]; [congruence|].
    split.
    + intros Hin. apply in_Object_prototype in Hin. rewrite Hin.
      reflexivity.
    + intros Hnot.
      destruct (existsb (String.eqb priceId) Object_prototype) eqn:E;
        [|reflexivity].
      apply in_Object_prototype in E. contradiction.
Qed.

(** With no price configured the three defaults are distinct and map
    back; with premium and pro_yearly configured alike, the premium price
    reads as pro_yearly; the id [toString] reads as the inherited function
    and an id nobody sells as [null]. *)
Lemma price_catalogue_lookup_witness :
  getPlanTypeFromPriceId Scenario.env_utc "price_standard_monthly"
  = Some (own standard)
  /\ getPlanTypeFromPriceId Events.env_same_price "price_B"
     = Some (own pro_yearly)
  /\ getPlanTypeFromPriceId Scenario.env_utc "toString"
     = Some (inherited "toString")
  /\ getPlanTypeFromPriceId Scenario.env_utc "price_unknown" = None.
Proof.
  split_and.
  - apply (proj1 (proj2 (proj2 (proj2 (price_catalogue_lookup
                                        Scenario.env_utc)))));
      discriminate.
  - exact (proj1 (proj2 (proj2 (proj2 (proj2 (price_catalogue_lookup
                                                Events.env_same_price)))))
             eq_refl).
  - apply (proj2 (proj2 (proj2 (proj2 (proj2 (price_catalogue_lookup
                                                Scenario.env_utc))))));
      try discriminate.
    unfold Object_prototype. cbn [In]. tauto.
  - apply (proj2 (proj2 (proj2 (proj2 (proj2 (price_catalogue_lookup
                                                Scenario.env_utc))))));
      try discriminate.
    unfold Object_prototype. cbn [In].
    intros H. repeat (destruct H as [H|H]; [discriminate|]). exact H.
Defined.

(** ** A write that fails *)





(** ** From billing events to entitlements *)

Lemma POST_verified_ok env stripe req w signature event w' :
  nonempty (wh_signature req) = Some signature ->
  fst (verifyStripeWebhook env stripe (wh_body req) signature w)
  = Return event ->
  dispatch env stripe event w = (Return tt, w') ->
  Webhook.POST env stripe req w
  = (Return (NextResponse_json json_received 200), w').
Proof.
  intros Hsig Hver Hd.
  rewrite (POST_verified env stripe req w signature event Hsig Hver), Hd.
  reflexivity.
Qed.

Lemma verified_has_secret_key env stripe body signature w event :
  fst (verifyStripeWebhook env stripe body signature w) = Return event ->
  truthy (STRIPE_SECRET_KEY env) = true.
Proof.
  unfold verifyStripeWebhook, getStripeClient, bind.
  destruct (truthy (STRIPE_SECRET_KEY env)); [reflexivity|discriminate].
Qed.

Lemma planTypeOfPrice_paid env price p :
  planTypeOfPrice env price = Some (own p) -> p <> free.
Proof.
  unfold planTypeOfPrice, getPlanTypeFromPriceId, object_read.
  destruct (nonempty price) as [id|]; [|discriminate].
  rewrite catalogue_own.
  destruct (_ =? id)%string; [intros [= <-]; discriminate|].
  destruct (_ =? id)%string; [intros [= <-]; discriminate|].
  destruct (_ =? id)%string; [intros [= <-]; discriminate|].
  destruct (existsb _ Object_prototype); discriminate.
Qed.

(** [new Date(seconds * 1000)] for a bound the columns can take. *)
Lemma dateOfSeconds_some s :
  fourDigitYear (s * 1000) -> dateOfSeconds (Some s) = Some (s * 1000).
Proof.
  unfold fourDigitYear, dateOfSeconds, JsDate.ofNumber. intros H.
  cbn [option_map].
  replace (Z.abs (s * 1000) <=? JsDate.maxTimeValue) with true;
    [reflexivity|].
  symmetry. apply Z.leb_le. unfold JsDate.maxTimeValue. lia.
Qed.

(** A bound that is missing, or beyond the range of [Date], gives the
    Invalid Date. *)
Lemma dateOfSeconds_none seconds :
  noDate seconds -> dateOfSeconds seconds = None.
Proof.
  unfold noDate, dateOfSeconds, JsDate.ofNumber.
  destruct seconds as [s|]; [|reflexivity]. intros H.
  cbn [option_map].
  replace (Z.abs (s * 1000) <=? JsDate.maxTimeValue) with false;
    [reflexivity|].
  symmetry. apply Z.leb_gt. exact H.
Qed.

(** The entitlement check of a user whose single row is on a paid plan,
    when the read of the plan does not fail. *)
Lemma checkUsageLimit_paid_row env u f w r :
  hd false (faults w) = false ->
  filter (fun row => (Subscriptions.user_id row =? u)%string)
         (subscriptions (db w)) = [r] ->
  Subscriptions.plan_type r <> free ->
  fst (checkUsageLimit env u f w)
  = Return {| allowed := true; currentUsage := 0; limit := Infinity;
              remaining := Infinity;
              check_planType := Subscriptions.plan_type r |}.
Proof.
  intros Hf Hr Hpaid. unfold checkUsageLimit, bind.
  rewrite (getUserPlanType_planOf u w Hf). unfold planOf. rewrite Hr.
  destruct (Subscriptions.plan_type r); [congruence| | |]; reflexivity.
Qed.

Lemma handleCheckoutCompleted_ok env stripe session sid sub u p ps pe w :
  no_faults w -> admin_configured env = true ->
  truthy (STRIPE_SECRET_KEY env) = true ->
  NoDup (subscription_users (db w)) -> In u (auth_users (db w)) ->
  nonempty (expandable_id (cs_subscription session)) = Some sid ->
  subscriptions_retrieve stripe sid = Some sub ->
  first_truthy (ss_supabase_user_id sub)
               (nonempty (cs_supabase_user_id session)) = Some u ->
  planTypeOfPrice env (ss_price_id sub) = Some (own p) ->
  ss_current_period_start sub = Some ps ->
  ss_current_period_end sub = Some pe ->
  fourDigitYear (ps * 1000) -> fourDigitYear (pe * 1000) ->
  exists w',
    handleCheckoutCompleted env stripe session w = (Return tt, w')
    /\ no_faults w'
    /\ db w'
       = snd (Pg.upsert_subscription
                (Pg.Build_UpsertValues
                   u (customer_id_of (cs_customer session)) sid (own p)
                   active (ps * 1000) (pe * 1000) (clock w))
                (clock w) (db w)).
Proof.
  intros Hnf Hadmin Hkey Hnd Hu Hsid Hsub Huser Hplan Hps Hpe Hrs Hre.
  unfold handleCheckoutCompleted.
  rewrite bind_emit. unfold bind at 1. unfold getStripeClient.
  rewrite Hkey. cbn [ret]. unfold bind at 1.
  rewrite createSupabaseAdminClient_eq, Hadmin, Hsid, Hsub, Huser, Hplan.
  rewrite Hps, Hpe, (dateOfSeconds_some ps Hrs), (dateOfSeconds_some pe Hre).
  set (w0 := after_emit _ w).
  assert (Hnf0 : no_faults w0) by (apply no_faults_after_emit, Hnf).
  unfold bind at 1.
  rewrite (upsertSubscription_run _ _ _ _ _ _ _ w0 Hnf0).
  change (clock w0) with (clock w). change (db w0) with (db w).
  destruct (upsert_then_filter
              (Pg.Build_UpsertValues
                 u (customer_id_of (cs_customer session)) sid (own p)
                 active (ps * 1000) (pe * 1000) (clock w))
              p (clock w) (db w) Hnd Hu eq_refl Hrs Hre) as [Hfst _].
  rewrite Hfst, emit_eq. eexists. split; [reflexivity|]. split.
  - apply no_faults_after_emit, no_faults_after_request, Hnf0.
  - reflexivity.
Qed.

(** X13. From payment to entitlement. When the endpoint receives a
    verified checkout-completed event whose subscription carries a price
    of the catalogue, the id of a registered user and both period bounds,
    in seconds, within the years 1 to 9999, then with no fault pending it
    answers 200, and from then on [getUserPlanType] reads the plan of
    that price for the user and [checkUsageLimit] allows every feature
    without limit. *)
Theorem checkout_completed_grants_plan
        env stripe req w signature session sid sub u p ps pe :
  no_faults w -> admin_configured env = true ->
  NoDup (subscription_users (db w)) -> In u (auth_users (db w)) ->
  nonempty (wh_signature req) = Some signature ->
  fst (verifyStripeWebhook env stripe (wh_body req) signature w)
  = Return (checkout_session_completed session) ->
  nonempty (expandable_id (cs_subscription session)) = Some sid ->
  subscriptions_retrieve stripe sid = Some sub ->
  first_truthy (ss_supabase_user_id sub)
               (nonempty (cs_supabase_user_id session)) = Some u ->
  planTypeOfPrice env (ss_price_id sub) = Some (own p) ->
  ss_current_period_start sub = Some ps ->
  ss_current_period_end sub = Some pe ->
  fourDigitYear (ps * 1000) -> fourDigitYear (pe * 1000) ->
  exists w1,
    Webhook.POST env stripe req w
    = (Return (NextResponse_json json_received 200), w1)
    /\ (forall t, fst (getUserPlanType u (at_time t w1)) = Return p)
    /\ forall f t,
        fst (checkUsageLimit env u f (at_time t w1))
        = Return {| allowed := true; currentUsage := 0; limit := Infinity;
                    remaining := Infinity; check_planType := p |}.
Proof.
  intros Hnf Hadmin Hnd Hu Hsig Hver Hsid Hsub Huser Hplan Hps Hpe Hrs Hre.
  pose proof (verified_has_secret_key _ _ _ _ _ _ Hver) as Hkey.
  destruct (handleCheckoutCompleted_ok
              env stripe session sid sub u p ps pe
              (after_emit (console_log (Info "webhook event received")) w))
    as (w1 & E & Hnf1 & Hdb); try assumption.
  exists w1. split.
  - apply (POST_verified_ok env stripe req w signature _ w1 Hsig Hver).
    rewrite dispatch_eq. exact E.
  - cbn [clock db after_emit] in Hdb.
    destruct (upsert_then_filter
                (Pg.Build_UpsertValues
                   u (customer_id_of (cs_customer session)) sid (own p)
                   active (ps * 1000) (pe * 1000) (clock w))
                p (clock w) (db w) Hnd Hu eq_refl Hrs Hre)
      as (_ & r' & Hr' & _ & _ & _ & Hp & _).
    rewrite <- Hdb in Hr'. cbn [Pg.v_user_id Pg.v_plan_type] in Hr', Hp.
    assert (Hhd : forall t, hd false (faults (at_time t w1)) = false)
      by (intros t; apply no_faults_hd, no_faults_at_time, Hnf1).
    split.
    + intros t. rewrite (getUserPlanType_planOf u _ (Hhd t)).
      cbn [fst db at_time]. unfold planOf. rewrite Hr', Hp. reflexivity.
    + intros f t. rewrite <- Hp.
      apply (checkUsageLimit_paid_row env u f (at_time t w1) r' (Hhd t)).
      * exact Hr'.
      * rewrite Hp. apply (planTypeOfPrice_paid env _ p Hplan).
Qed.

(** Alice, a new user on the free plan, pays for the premium plan. *)
Lemma checkout_completed_grants_plan_witness :
  exists w1,
    Webhook.POST Scenario.env_utc
      (Events.delivering (checkout_session_completed Events.alice_checkout))
      Events.signed
      (Scenario.world_of Scenario.db_new_user Scenario.feb15)
    = (Return (NextResponse_json json_received 200), w1)
    /\ fst (checkUsageLimit Scenario.env_utc Scenario.alice export
                            (at_time Scenario.feb16 w1))
       = Return {| allowed := true; currentUsage := 0; limit := Infinity;
                   remaining := Infinity; check_planType := premium |}.
Proof.
  destruct (checkout_completed_grants_plan
              Scenario.env_utc
              (Events.delivering
                 (checkout_session_completed Events.alice_checkout))
              Events.signed
              (Scenario.world_of Scenario.db_new_user Scenario.feb15)
              "t=1,v1=abc" Events.alice_checkout "sub_1"
              (Events.alice_subscription "price_premium_monthly"
                                         stripe_active false)
              Scenario.alice premium 1706745600 1709251200)
    as (w1 & E & _ & Hcheck).
  - constructor.
  - reflexivity.
  - constructor.
  - left. reflexivity.
  - reflexivity.
  - reflexivity.
  - reflexivity.
  - reflexivity.
  - reflexivity.
  - reflexivity.
  - reflexivity.
  - reflexivity.
  - unfold fourDigitYear. lia.
  - unfold fourDigitYear. lia.
  - exists w1. split; [exact E|apply Hcheck].
Defined.

Lemma handlePaymentFailed_ok env invoice s w :
  no_faults w -> admin_configured env = true ->
  nonempty (expandable_id (inv_subscription invoice)) = Some s ->
  exists w',
    handlePaymentFailed env invoice w = (Return tt, w')
    /\ no_faults w'
    /\ db w' = Pg.set_subscriptions
                 (map (fun r => if refers_to s r
                                then past_due_row (clock w) r else r)
                      (subscriptions (db w))) (db w).
Proof.
  intros Hnf Hadmin Hs. unfold handlePaymentFailed, bind.
  rewrite emit_eq, createSupabaseAdminClient_eq, Hadmin, Hs.
  unfold new_Date. fold q_update_subscription.
  rewrite request_ok by (apply no_faults_after_emit, Hnf).
  cbn [fst snd Pg.update_by_stripe_subscription].
  eexists. split; [reflexivity|]. split.
  - apply no_faults_after_emit, no_faults_after_request,
      no_faults_after_emit, Hnf.
  - reflexivity.
Qed.

(** The row of a user after an update by subscription id that keeps the
    user of every row. *)
Lemma filter_user_after_update (g : Subscriptions.Row -> Subscriptions.Row)
      u l r :
  (forall a, Subscriptions.user_id (g a) = Subscriptions.user_id a) ->
  filter (fun a => (Subscriptions.user_id a =? u)%string) l = [r] ->
  filter (fun a => (Subscriptions.user_id a =? u)%string) (map g l) = [g r].
Proof.
  intros Hg Hr. rewrite filter_map_commute.
  - rewrite Hr. reflexivity.
  - intros a. rewrite Hg. reflexivity.
Qed.

(** X14. The entitlement check does not look at the status of a
    subscription. After a verified payment-failed event, and after a
    verified subscription-deleted event with cancel_at_period_end, handled
    with no fault pending, the row the event refers to has the status
    past_due, respectively canceled, and keeps its paid plan: for its
    user [checkUsageLimit] still allows every feature without limit. *)
Theorem unpaid_or_cancelling_subscriber_keeps_access
        env stripe req w signature u r :
  no_faults w -> admin_configured env = true ->
  nonempty (wh_signature req) = Some signature ->
  filter (fun a => (Subscriptions.user_id a =? u)%string)
         (subscriptions (db w)) = [r] ->
  Subscriptions.plan_type r <> free ->
  (forall invoice s,
      fst (verifyStripeWebhook env stripe (wh_body req) signature w)
      = Return (invoice_payment_failed invoice) ->
      nonempty (expandable_id (inv_subscription invoice)) = Some s ->
      refers_to s r = true ->
      exists w1 r1,
        Webhook.POST env stripe req w
        = (Return (NextResponse_json json_received 200), w1)
        /\ filter (fun a => (Subscriptions.user_id a =? u)%string)
                  (subscriptions (db w1)) = [r1]
        /\ Subscriptions.status r1 = past_due
        /\ forall f t,
            fst (checkUsageLimit env u f (at_time t w1))
            = Return {| allowed := true; currentUsage := 0;
                        limit := Infinity; remaining := Infinity;
                        check_planType := Subscriptions.plan_type r |})
  /\ (forall sub,
         fst (verifyStripeWebhook env stripe (wh_body req) signature w)
         = Return (customer_subscription_deleted sub) ->
         ss_cancel_at_period_end sub = true ->
         refers_to (ss_id sub) r = true ->
         exists w1 r1,
           Webhook.POST env stripe req w
           = (Return (NextResponse_json json_received 200), w1)
           /\ filter (fun a => (Subscriptions.user_id a =? u)%string)
                     (subscriptions (db w1)) = [r1]
           /\ Subscriptions.status r1 = canceled
           /\ forall f t,
               fst (checkUsageLimit env u f (at_time t w1))
               = Return {| allowed := true; currentUsage := 0;
                           limit := Infinity; remaining := Infinity;
                           check_planType := Subscriptions.plan_type r |}).
Proof.
  intros Hnf Hadmin Hsig Hr Hpaid.
  set (w0 := after_emit (console_log (Info "webhook event received")) w).
  assert (Hnf0 : no_faults w0) by (apply no_faults_after_emit, Hnf).
  split.
  - intros invoice s Hver Hs Href.
    destruct (handlePaymentFailed_ok env invoice s w0 Hnf0 Hadmin Hs)
      as (w1 & E & Hnf1 & Hdb).
    exists w1, (past_due_row (clock w) r). split.
    { apply (POST_verified_ok env stripe req w signature _ w1 Hsig Hver).
      rewrite dispatch_eq. exact E. }
    assert (Hrow : filter (fun a => (Subscriptions.user_id a =? u)%string)
                          (subscriptions (db w1))
                   = [past_due_row (clock w) r]).
    { rewrite Hdb. cbn [subscriptions Pg.set_subscriptions db clock w0
                        after_emit].
      rewrite (filter_user_after_update _ u _ r); [rewrite Href| |exact Hr].
      - reflexivity.
      - intros a. destruct (refers_to s a); reflexivity. }
    split; [exact Hrow|]. split; [reflexivity|].
    intros f t.
    apply (checkUsageLimit_paid_row env u f (at_time t w1)
                                    (past_due_row (clock w) r)).
    + apply no_faults_hd, no_faults_at_time, Hnf1.
    + exact Hrow.
    + exact Hpaid.
  - intros sub Hver Hend Href.
    destruct (handleSubscriptionDeleted_ok env sub w0 Hnf0 Hadmin)
      as (w1 & E & Hnf1 & _ & Hdb).
    exists w1, (canceled_row (clock w) r). split.
    { apply (POST_verified_ok env stripe req w signature _ w1 Hsig Hver).
      rewrite dispatch_eq. exact E. }
    assert (Hrow : filter (fun a => (Subscriptions.user_id a =? u)%string)
                          (subscriptions (db w1))
                   = [canceled_row (clock w) r]).
    { rewrite Hdb. cbn [subscriptions Pg.set_subscriptions db clock w0
                        after_emit].
      rewrite (filter_user_after_update _ u _ r); [| |exact Hr].
      - unfold after_deletion. rewrite Href, Hend. reflexivity.
      - intros a. unfold after_deletion.
        destruct (refers_to (ss_id sub) a); [|reflexivity].
        destruct (ss_cancel_at_period_end sub); reflexivity. }
    split; [exact Hrow|]. split; [reflexivity|].
    intros f t.
    apply (checkUsageLimit_paid_row env u f (at_time t w1)
                                    (canceled_row (clock w) r)).
    + apply no_faults_hd, no_faults_at_time, Hnf1.
    + exact Hrow.
    + exact Hpaid.
Qed.

(** Alice's payment for the premium plan fails: she is past_due and still
    unlimited. *)
Lemma unpaid_or_cancelling_subscriber_keeps_access_witness :
  exists w1 r1,
    Webhook.POST Scenario.env_utc
      (Events.delivering (invoice_payment_failed Events.alice_invoice))
      Events.signed (Scenario.world_of Scenario.db_premium Scenario.feb15)
    = (Return (NextResponse_json json_received 200), w1)
    /\ subscriptions (db w1) = [r1]
    /\ Subscriptions.status r1 = past_due
    /\ fst (checkUsageLimit Scenario.env_utc Scenario.alice ocr
                            (at_time Scenario.feb16 w1))
       = Return {| allowed := true; currentUsage := 0; limit := Infinity;
                   remaining := Infinity; check_planType := premium |}.
Proof.
  destruct (proj1 (unpaid_or_cancelling_subscriber_keeps_access
                     Scenario.env_utc
                     (Events.delivering
                        (invoice_payment_failed Events.alice_invoice))
                     Events.signed
                     (Scenario.world_of Scenario.db_premium Scenario.feb15)
                     "t=1,v1=abc" Scenario.alice Scenario.premium_row
                     ltac:(constructor) eq_refl eq_refl eq_refl
                     ltac:(discriminate))
              Events.alice_invoice "sub_1" eq_refl eq_refl eq_refl)
    as (w1 & r1 & E & Hrow & Hst & Hcheck).
  exists w1, r1. split; [exact E|]. split_and.
  - rewrite <- Hrow. vm_compute in E. injection E as <-. reflexivity.
  - exact Hst.
  - apply Hcheck.
Defined.

(** X15. After a verified subscription-deleted event without
    cancel_at_period_end, handled with no fault pending, the user of the
    row the event refers to is read as on the free plan, and with the
    ledger constraints holding [checkUsageLimit] applies the monthly
    limits of the free plan to that user again. *)
Theorem immediate_deletion_restores_limits
        env stripe req w signature sub u r :
  no_faults w -> admin_configured env = true ->
  usage_schema_ok (db w) -> In u (auth_users (db w)) ->
  nonempty (wh_signature req) = Some signature ->
  fst (verifyStripeWebhook env stripe (wh_body req) signature w)
  = Return (customer_subscription_deleted sub) ->
  ss_cancel_at_period_end sub = false ->
  filter (fun a => (Subscriptions.user_id a =? u)%string)
         (subscriptions (db w)) = [r] ->
  refers_to (ss_id sub) r = true ->
  exists w1,
    Webhook.POST env stripe req w
    = (Return (NextResponse_json json_received 200), w1)
    /\ (forall t, fst (getUserPlanType u (at_time t w1)) = Return free)
    /\ forall f t,
        exists c,
          fst (checkUsageLimit env u f (at_time t w1)) = Return c
          /\ limit c = Finite (freeLimit f)
          /\ currentUsage c = ledgerCount (db w) u (periodKey env t) f
          /\ check_planType c = free.
Proof.
  intros Hnf Hadmin Hok Hu Hsig Hver Hend Hr Href.
  set (w0 := after_emit (console_log (Info "webhook event received")) w).
  assert (Hnf0 : no_faults w0) by (apply no_faults_after_emit, Hnf).
  destruct (handleSubscriptionDeleted_ok env sub w0 Hnf0 Hadmin)
    as (w1 & E & Hnf1 & _ & Hdb).
  exists w1. split.
  { apply (POST_verified_ok env stripe req w signature _ w1 Hsig Hver).
    rewrite dispatch_eq. exact E. }
  assert (Hrow : filter (fun a => (Subscriptions.user_id a =? u)%string)
                        (subscriptions (db w1))
                 = [free_row (clock w) (canceled_row (clock w) r)]).
  { rewrite Hdb. cbn [subscriptions Pg.set_subscriptions db clock w0
                      after_emit].
    rewrite (filter_user_after_update _ u _ r); [| |exact Hr].
    - unfold after_deletion. rewrite Href, Hend. reflexivity.
    - intros a. unfold after_deletion.
      destruct (refers_to (ss_id sub) a); [|reflexivity].
      destruct (ss_cancel_at_period_end sub); reflexivity. }
  assert (Hfree : on_free_plan (db w1) u).
  { intros a Hin Ha.
    assert (H : In a (filter (fun a => (Subscriptions.user_id a =? u)%string)
                             (subscriptions (db w1)))).
    { apply filter_In. split; [exact Hin|]. apply String.eqb_eq, Ha. }
    rewrite Hrow in H. destruct H as [<-|[]]. reflexivity. }
  assert (Hl : usage_tracking (db w1) = usage_tracking (db w)
               /\ auth_users (db w1) = auth_users (db w)
               /\ next_uuid (db w1) = next_uuid (db w))
    by (rewrite Hdb; split_and; reflexivity).
  destruct Hl as (Hl1 & Hl2 & Hl3).
  assert (Hok1 : usage_schema_ok (db w1)).
  { destruct Hok as [H1 H2 H3 H4].
    constructor; rewrite ?Hl1, ?Hl3; assumption. }
  split.
  - intros t.
    rewrite (@getUserPlanType_free u (at_time t w1)).
    + reflexivity.
    + apply no_faults_at_time, Hnf1.
    + exact Hfree.
  - intros f t.
    destruct (checkUsageLimit_free env u f (at_time t w1)) as (w2 & E2).
    + apply no_faults_at_time, Hnf1.
    + exact Hok1.
    + cbn [db at_time]. rewrite Hl2. exact Hu.
    + exact Hfree.
    + rewrite E2. eexists. split; [reflexivity|].
      cbn [limit currentUsage check_planType clock db at_time].
      split_and.
      * destruct f; reflexivity.
      * unfold ledgerCount. rewrite Hl1. reflexivity.
      * reflexivity.
Qed.

(** Alice's premium subscription is deleted at once: her exports are
    limited to 3 a month again. *)
Lemma immediate_deletion_restores_limits_witness :
  exists w1 c,
    Webhook.POST Scenario.env_utc
      (Events.delivering
         (customer_subscription_deleted
            (Events.alice_subscription "price_premium_monthly"
                                       stripe_canceled false)))
      Events.signed (Scenario.world_of Scenario.db_premium Scenario.feb15)
    = (Return (NextResponse_json json_received 200), w1)
    /\ fst (checkUsageLimit Scenario.env_utc Scenario.alice export
                            (at_time Scenario.feb16 w1)) = Return c
    /\ limit c = Finite 3.
Proof.
  destruct (immediate_deletion_restores_limits
              Scenario.env_utc
              (Events.delivering
                 (customer_subscription_deleted
                    (Events.alice_subscription "price_premium_monthly"
                                               stripe_canceled false)))
              Events.signed
              (Scenario.world_of Scenario.db_premium Scenario.feb15)
              "t=1,v1=abc"
              (Events.alice_subscription "price_premium_monthly"
                                         stripe_canceled false)
              Scenario.alice Scenario.premium_row)
    as (w1 & E & _ & Hcheck); try reflexivity.
  - constructor.
  - constructor; simpl; constructor.
  - left. reflexivity.
  - destruct (Hcheck export Scenario.feb16) as (c & Ec & Hlim & _).
    exists w1, c. split; [exact E|]. split; [exact Ec|exact Hlim].
Defined.

(** ** Period bounds that are no dates *)

Lemma upsertSubscription_no_date u c s p st start stop w :
  noDate start \/ noDate stop ->
  upsertSubscription u c s p st (dateOfSeconds start) (dateOfSeconds stop) w
  = (Throw (Error InvalidTimeValue), w).
Proof.
  intros H. apply upsertSubscription_invalid.
  destruct H as [H|H]; [left|right]; apply dateOfSeconds_none, H.
Qed.

(** What the endpoint answers when the handler throws. *)
Lemma POST_verified_throw env stripe req w signature event e w' :
  nonempty (wh_signature req) = Some signature ->
  fst (verifyStripeWebhook env stripe (wh_body req) signature w)
  = Return event ->
  dispatch env stripe event w = (Throw e, w') ->
  Webhook.POST env stripe req w
  = (Return (NextResponse_json (json_error (err_message e) None None) 500),
     after_emit (console_error WebhookFailed) w').
Proof.
  intros Hsig Hver Hd.
  rewrite (POST_verified env stripe req w signature event Hsig Hver), Hd.
  reflexivity.
Qed.

(** X30. A subscription whose period bound is missing from the event, or
    is so large that [new Date(seconds * 1000)] is the Invalid Date, is
    not stored. For a verified subscription-updated event that names its
    user, and for a verified checkout-completed event, with a price the
    lookup accepts and the service-role client configured, the handler
    throws the RangeError of [toISOString] while it builds the row: the
    endpoint answers 500 with that error's message, no request reaches
    the database, and the database is unchanged. *)
Theorem invalid_period_answers_500 env stripe req w signature :
  admin_configured env = true ->
  nonempty (wh_signature req) = Some signature ->
  (forall sub u p,
      fst (verifyStripeWebhook env stripe (wh_body req) signature w)
      = Return (customer_subscription_updated sub) ->
      nonempty (ss_supabase_user_id sub) = Some u ->
      planTypeOfPrice env (ss_price_id sub) = Some p ->
      noDate (ss_current_period_start sub)
      \/ noDate (ss_current_period_end sub) ->
      fst (Webhook.POST env stripe req w)
      = Return (NextResponse_json
                  (json_error InvalidTimeValue None None) 500)
      /\ db (snd (Webhook.POST env stripe req w)) = db w
      /\ trace (snd (Webhook.POST env stripe req w)) = trace w
      /\ faults (snd (Webhook.POST env stripe req w)) = faults w)
  /\ (forall session sid sub u p,
         fst (verifyStripeWebhook env stripe (wh_body req) signature w)
         = Return (checkout_session_completed session) ->
         nonempty (expandable_id (cs_subscription session)) = Some sid ->
         subscriptions_retrieve stripe sid = Some sub ->
         first_truthy (ss_supabase_user_id sub)
                      (nonempty (cs_supabase_user_id session)) = Some u ->
         planTypeOfPrice env (ss_price_id sub) = Some p ->
         noDate (ss_current_period_start sub)
         \/ noDate (ss_current_period_end sub) ->
         fst (Webhook.POST env stripe req w)
         = Return (NextResponse_json
                     (json_error InvalidTimeValue None None) 500)
         /\ db (snd (Webhook.POST env stripe req w)) = db w
         /\ trace (snd (Webhook.POST env stripe req w)) = trace w
         /\ faults (snd (Webhook.POST env stripe req w)) = faults w).
Proof.
  intros Hadmin Hsig. split.
  - intros sub u p Hver Hu Hplan Hno.
    rewrite (POST_verified_throw
               env stripe req w signature _ (Error InvalidTimeValue)
               (after_emit (console_log (Info "subscription updated"))
                  (after_emit (console_log (Info "webhook event received"))
                     w))
               Hsig Hver).
    + cbn [fst snd db trace faults after_emit Error err_message].
      split_and; reflexivity.
    + rewrite dispatch_eq. unfold handleSubscriptionUpdated.
      rewrite bind_emit. unfold bind at 1.
      rewrite createSupabaseAdminClient_eq, Hadmin, Hu, Hplan.
      unfold bind.
      rewrite (upsertSubscription_no_date _ _ _ _ _ _ _ _ Hno).
      reflexivity.
  - intros session sid sub u p Hver Hsid Hsub Huser Hplan Hno.
    pose proof (verified_has_secret_key _ _ _ _ _ _ Hver) as Hkey.
    rewrite (POST_verified_throw
               env stripe req w signature _ (Error InvalidTimeValue)
               (after_emit (console_log (Info "checkout completed"))
                  (after_emit (console_log (Info "webhook event received"))
                     w))
               Hsig Hver).
    + cbn [fst snd db trace faults after_emit Error err_message].
      split_and; reflexivity.
    + rewrite dispatch_eq. unfold handleCheckoutCompleted.
      rewrite bind_emit. unfold bind at 1. unfold getStripeClient.
      rewrite Hkey. cbn [ret]. unfold bind at 1.
      rewrite createSupabaseAdminClient_eq, Hadmin, Hsid, Hsub, Huser,
        Hplan.
      unfold bind.
      rewrite (upsertSubscription_no_date _ _ _ _ _ _ _ _ Hno).
      reflexivity.
Qed.

(** An update of Alice's subscription that carries no period bounds, as
    the events of later API versions do. *)
Lemma invalid_period_answers_500_witness :
  fst (Webhook.POST Scenario.env_utc
         (Events.delivering
            (customer_subscription_updated
               {| ss_id := "sub_1";
                  ss_supabase_user_id := Some Scenario.alice;
                  ss_price_id := Some "price_standard_monthly";
                  ss_customer := ExpId "cus_1";
                  ss_status := stripe_active;
                  ss_current_period_start := None;
                  ss_current_period_end := None;
                  ss_cancel_at_period_end := false |}))
         Events.signed
         (Scenario.world_of Scenario.db_premium Scenario.feb15))
  = Return (NextResponse_json (json_error InvalidTimeValue None None) 500)
  /\ db (snd (Webhook.POST Scenario.env_utc
                 (Events.delivering
                    (customer_subscription_updated
                       {| ss_id := "sub_1";
                          ss_supabase_user_id := Some Scenario.alice;
                          ss_price_id := Some "price_standard_monthly";
                          ss_customer := ExpId "cus_1";
                          ss_status := stripe_active;
                          ss_current_period_start := None;
                          ss_current_period_end := None;
                          ss_cancel_at_period_end := false |}))
                 Events.signed
                 (Scenario.world_of Scenario.db_premium Scenario.feb15)))
     = Scenario.db_premium.
Proof.
  destruct (proj1 (invalid_period_answers_500
                     Scenario.env_utc
                     (Events.delivering
                        (customer_subscription_updated
                           {| ss_id := "sub_1";
                              ss_supabase_user_id := Some Scenario.alice;
                              ss_price_id := Some "price_standard_monthly";
                              ss_customer := ExpId "cus_1";
                              ss_status := stripe_active;
                              ss_current_period_start := None;
                              ss_current_period_end := None;
                              ss_cancel_at_period_end := false |}))
                     Events.signed
                     (Scenario.world_of Scenario.db_premium Scenario.feb15)
                     "t=1,v1=abc" eq_refl eq_refl)
                  _ Scenario.alice (own standard)
                  eq_refl eq_refl eq_refl (or_introl I))
    as (Hres & Hdb & _).
  split; [exact Hres|exact Hdb].
Defined.

Open Scope js_scope.

(* ===================================================================== *)
(** * Further properties of the metered features                          *)
(* ===================================================================== *)

(** The entitlement check of a free-plan user whose entry of the period
    is there, with no fault pending: two reads, nothing written. *)
Lemma checkUsageLimit_free_found env u f w r :
  no_faults w -> on_free_plan (db w) u ->
  filter (Pg.usage_matches u (periodKey env (clock w)))
         (usage_tracking (db w)) = [r] ->
  checkUsageLimit env u f w
  = (Return {| allowed := rowCount f r <? freeLimit f;
               currentUsage := rowCount f r;
               limit := Finite (freeLimit f);
               remaining := Finite (Z.max 0 (freeLimit f - rowCount f r));
               check_planType := free |},
     after_request q_select_usage (db w)
       (after_request q_select_subscription (db w) w)).
Proof.
  intros Hnf Hfree Hr. unfold checkUsageLimit. unfold bind at 1.
  rewrite (@getUserPlanType_free u w Hnf Hfree). cbn [isFreePlan negb].
  unfold bind at 1.
  rewrite (@getOrCreate_found env u _ r
             (no_faults_after_request q_select_subscription (db w) Hnf) Hr).
  rewrite countOf_toUsageTracking, freeLimit_catalogue. reflexivity.
Qed.

(** X16. A free-plan user who has used up a feature is refused before
    anything else is looked at: with the counter at or above the limit
    and no fault pending, the OCR route and the AI assistant route answer
    403 with the code USAGE_LIMIT_EXCEEDED and the snapshot of the check
    (the count, the limit, 0 remaining), and the export handler reports
    the limit as its error; each after the two reads of the check only,
    so the request body is not read and the database is unchanged. *)
Theorem exhausted_quota_is_refused env openai u w r :
  no_faults w -> on_free_plan (db w) u ->
  filter (Pg.usage_matches u (periodKey env (clock w)))
         (usage_tracking (db w)) = [r] ->
  (forall req,
      Ocr.session req = Some u -> 50 <= rowCount ocr r ->
      Ocr.POST env openai req w
      = (Return (NextResponse_json
                   (json_error UsageLimitReached (Some USAGE_LIMIT_EXCEEDED)
                      (Some {| ui_currentUsage := rowCount ocr r;
                               ui_limit := Finite 50;
                               ui_remaining := Finite 0;
                               ui_planType := free |})) 403),
         after_request q_select_usage (db w)
           (after_request q_select_subscription (db w) w)))
  /\ (forall req,
         AiAssistant.session req = Some u -> 10 <= rowCount ai_assistant r ->
         AiAssistant.POST env openai req w
         = (Return (NextResponse_json
                      (json_error UsageLimitReached
                         (Some USAGE_LIMIT_EXCEEDED)
                         (Some {| ui_currentUsage := rowCount ai_assistant r;
                                  ui_limit := Finite 10;
                                  ui_remaining := Finite 0;
                                  ui_planType := free |})) 403),
            after_request q_select_usage (db w)
              (after_request q_select_subscription (db w) w)))
  /\ (forall click,
         ExportButton.session click = Some u -> 3 <= rowCount export r ->
         ExportButton.handleExport env click w
         = (Return {| ExportButton.exportError := Some UsageLimitReached;
                      ExportButton.downloaded := false |},
            after_request q_select_usage (db w)
              (after_request q_select_subscription (db w) w))).
Proof.
  intros Hnf Hfree Hr.
  assert (Hdenied : forall f,
             freeLimit f <= rowCount f r ->
             (rowCount f r <? freeLimit f) = false
             /\ Z.max 0 (freeLimit f - rowCount f r) = 0).
  { intros f H. split; [apply Z.ltb_ge; exact H|lia]. }
  split_and.
  - intros req Hs Hc. destruct (Hdenied ocr Hc) as [Ha Hm].
    unfold Ocr.POST, try_catch. rewrite Hs. unfold bind at 1.
    rewrite (checkUsageLimit_free_found env u ocr w r Hnf Hfree Hr).
    cbn [allowed]. rewrite Ha. cbn [negb ret snapshotOf currentUsage limit
                                    remaining check_planType].
    rewrite Hm. reflexivity.
  - intros req Hs Hc. destruct (Hdenied ai_assistant Hc) as [Ha Hm].
    unfold AiAssistant.POST, try_catch. rewrite Hs. unfold bind at 1.
    rewrite (checkUsageLimit_free_found env u ai_assistant w r Hnf Hfree Hr).
    cbn [allowed]. rewrite Ha. cbn [negb ret snapshotOf currentUsage limit
                                    remaining check_planType].
    rewrite Hm. reflexivity.
  - intros click Hs Hc. destruct (Hdenied export Hc) as [Ha Hm].
    unfold ExportButton.handleExport, try_catch. rewrite Hs.
    unfold bind at 1.
    rewrite (checkUsageLimit_free_found env u export w r Hnf Hfree Hr).
    cbn [allowed]. rewrite Ha. reflexivity.
Qed.

(** Alice's fourth export of the month. *)
Lemma exhausted_quota_is_refused_witness :
  fst (ExportButton.handleExport
         Scenario.env_utc Scenario.export_click
         (Scenario.world_of Events.db_exports_used Scenario.feb15))
  = Return {| ExportButton.exportError := Some UsageLimitReached;
              ExportButton.downloaded := false |}.
Proof.
  destruct (exhausted_quota_is_refused
              Scenario.env_utc Scenario.openai_ok Scenario.alice
              (Scenario.world_of Events.db_exports_used Scenario.feb15)
              {| UsageTracking.id := 1;
                 UsageTracking.user_id := Scenario.alice;
                 UsageTracking.ocr_count := 0;
                 UsageTracking.export_count := 3;
                 UsageTracking.ai_assistant_count := 0;
                 UsageTracking.period_start := JsDate.mkCivil 2024 2 1;
                 UsageTracking.created_at := Scenario.feb01 |})
    as (_ & _ & H).
  - constructor.
  - intros r [].
  - vm_compute. reflexivity.
  - rewrite (H Scenario.export_click eq_refl); [reflexivity|].
    cbn. lia.
Defined.

(** ** A successful call and the ledger *)

Lemma checkUsageLimit_no_faults env u f : nf_step (checkUsageLimit env u f).
Proof.
  unfold checkUsageLimit, getUserPlanType, getUserSubscription,
    getOrCreateUsageRecord, getCurrentPeriodStart.
  nf_steps.
Qed.

(** The entitlement check of a registered free-plan user, with no fault
    pending: what it returns and what it leaves behind. *)
Lemma checkUsageLimit_free_run env u f w :
  no_faults w -> usage_schema_ok (db w) -> In u (auth_users (db w)) ->
  on_free_plan (db w) u ->
  exists w',
    checkUsageLimit env u f w
    = (Return
         {| allowed :=
              ledgerCount (db w) u (periodKey env (clock w)) f <? freeLimit f;
            currentUsage := ledgerCount (db w) u (periodKey env (clock w)) f;
            limit := Finite (freeLimit f);
            remaining :=
              Finite (Z.max 0 (freeLimit f
                               - ledgerCount (db w) u
                                             (periodKey env (clock w)) f));
            check_planType := free |}, w')
    /\ no_faults w' /\ usage_schema_ok (db w') /\ clock w' = clock w
    /\ auth_users (db w') = auth_users (db w)
    /\ subscriptions (db w') = subscriptions (db w)
    /\ forall u' k' f',
        ledgerCount (db w') u' k' f' = ledgerCount (db w) u' k' f'.
Proof.
  intros Hnf Hok Hu Hfree.
  destruct (checkUsageLimit_free env u f w Hnf Hok Hu Hfree) as (w' & E).
  rewrite freeLimit_catalogue in E.
  cbn [JsNum.ltb JsNum.sub JsNum.max0] in E.
  exists w'. split; [exact E|].
  pose proof (checkUsageLimit_no_faults env u f w Hnf) as Hnf'.
  pose proof (checkUsageLimit_db env u f w) as [Hclock Hdb].
  rewrite E in Hnf', Hclock, Hdb. cbn [snd] in Hnf', Hclock, Hdb.
  split; [exact Hnf'|].
  destruct Hdb as [Hdb|Hdb]; rewrite Hdb.
  - split_and; try reflexivity; assumption.
  - split_and.
    + apply insert_usage_ok, Hok.
    + exact Hclock.
    + apply insert_usage_frame.
    + apply insert_usage_frame.
    + intros u' k' f'. apply insert_usage_count.
Qed.

(** X17. When the increment goes through, the snapshot computed locally
    is what the ledger holds. For a registered free-plan user below the
    OCR limit, with no fault pending, a key configured, a non-empty image
    and an OpenAI answer that parses, the OCR route answers 200; the
    counter of the period has gone up by exactly one; and the usage
    snapshot of the response is the one a fresh [checkUsageLimit] would
    give after the call. *)
Theorem ocr_success_snapshot_matches_ledger
        env openai req u image text data w :
  no_faults w -> usage_schema_ok (db w) -> In u (auth_users (db w)) ->
  on_free_plan (db w) u ->
  Ocr.session req = Some u ->
  Ocr.json req = Some (Some image) -> image <> "" ->
  truthy (OPENAI_API_KEY env) = true ->
  create openai "gpt-4o" image = completion_content (Some text) ->
  text <> "" ->
  extractJson openai text = Some data ->
  ledgerCount (db w) u (periodKey env (clock w)) ocr < 50 ->
  exists w1 info c w2,
    Ocr.POST env openai req w
    = (Return (NextResponse_json (json_ocr_success data info) 200), w1)
    /\ ui_currentUsage info
       = ledgerCount (db w) u (periodKey env (clock w)) ocr + 1
    /\ ledgerCount (db w1) u (periodKey env (clock w)) ocr
       = ledgerCount (db w) u (periodKey env (clock w)) ocr + 1
    /\ checkUsageLimit env u ocr w1 = (Return c, w2)
    /\ snapshotOf c = info.
Proof.
  intros Hnf Hok Hu Hfree Hs Hj Himg Hkey Hcreate Htext Hjson Hlt.
  set (k := periodKey env (clock w)) in *.
  set (n := ledgerCount (db w) u k ocr) in *.
  destruct (checkUsageLimit_free_run env u ocr w Hnf Hok Hu Hfree)
    as (wc & Ec & Hnfc & Hokc & Hclk & Hau & Hsub & Hcnt).
  fold k in Ec. fold n in Ec.
  assert (Htruthy : forall s, s <> "" -> nonempty (Some s) = Some s).
  { intros s Hne. unfold nonempty, truthy.
    destruct (String.eqb_spec s ""); [contradiction|reflexivity]. }
  assert (Hfreec : on_free_plan (db wc) u)
    by (unfold on_free_plan; rewrite Hsub; exact Hfree).
  assert (Huc : In u (auth_users (db wc))) by (rewrite Hau; exact Hu).
  destruct (incrementUsage_run env u ocr wc Hnfc Hokc Huc)
    as (w1 & qs & Ei & _ & _ & _).
  { rewrite Hclk. fold k. rewrite Hcnt. fold n. unfold INT4_MAX. lia. }
  pose proof (incrementUsage_success env u ocr wc Hokc) as Hinc.
  rewrite Ei in Hinc. cbn [fst snd] in Hinc. specialize (Hinc eq_refl).
  rewrite Hclk in Hinc. fold k in Hinc.
  assert (Hn1 : ledgerCount (db w1) u k ocr = n + 1).
  { rewrite Hinc, String.eqb_refl, Civil_eqb_refl. cbn [feature_eqb andb].
    rewrite Hcnt. reflexivity. }
  assert (Hpost : Ocr.POST env openai req w
                  = (Return (NextResponse_json
                               (json_ocr_success data
                                  {| ui_currentUsage := n + 1;
                                     ui_limit := Finite 50;
                                     ui_remaining := Finite (50 - n - 1);
                                     ui_planType := free |}) 200), w1)).
  { unfold Ocr.POST. unfold try_catch at 1. rewrite Hs. unfold bind at 1.
    rewrite Ec. cbn [allowed freeLimit].
    replace (n <? 50) with true by (symmetry; apply Z.ltb_lt; exact Hlt).
    cbn [negb]. rewrite Hj, (Htruthy image Himg).
    unfold bind at 1. rewrite getOpenAIClient_try, Hkey. cbn [negb].
    unfold bind at 1, chat_completions_create. rewrite Hcreate.
    cbn [ret]. rewrite (Htruthy text Htext), Hjson.
    rewrite bind_best_effort.
    unfold incrementUsageBestEffort, try_catch. rewrite Ei.
    unfold snapshotAfterUse.
    cbn [snd ret currentUsage limit remaining check_planType JsNum.sub].
    replace (Z.max 0 (50 - n) - 1) with (50 - n - 1) by lia.
    reflexivity. }
  assert (Hnf1 : no_faults w1).
  { pose proof (incrementUsage_returns env u ocr wc Hnfc Hokc Huc) as H.
    destruct H as (w1' & E' & Hnf'); [|congruence].
    rewrite Hclk. fold k. rewrite Hcnt. fold n. unfold INT4_MAX. lia. }
  assert (Hok1 : usage_schema_ok (db w1)).
  { pose proof (incrementUsage_monotone env u ocr wc Hokc) as [H _].
    rewrite Ei in H. exact H. }
  pose proof (incrementUsage_frame env u ocr wc) as [Hau1 Hsub1].
  rewrite Ei in Hau1, Hsub1. cbn [snd] in Hau1, Hsub1.
  pose proof (incrementUsage_cases env u ocr wc) as [Hclk1 _].
  rewrite Ei in Hclk1. cbn [snd] in Hclk1.
  destruct (checkUsageLimit_free_run env u ocr w1 Hnf1 Hok1)
    as (w2 & E2 & _).
  { rewrite Hau1. exact Huc. }
  { unfold on_free_plan. rewrite Hsub1. exact Hfreec. }
  rewrite Hclk1, Hclk in E2. fold k in E2. rewrite Hn1 in E2.
  do 4 eexists. split; [exact Hpost|]. split; [reflexivity|].
  split; [exact Hn1|]. split; [exact E2|].
  unfold snapshotOf. cbn [currentUsage limit remaining check_planType
                          freeLimit].
  f_equal. f_equal. lia.
Qed.

(** Alice's first scan of February 2024. *)
Lemma ocr_success_snapshot_matches_ledger_witness :
  exists w1 c w2,
    Ocr.POST Scenario.env_utc Scenario.openai_ok Scenario.scan_request
             (Scenario.world_of Scenario.db_new_user Scenario.feb15)
    = (Return (NextResponse_json
                 (json_ocr_success "{}"
                    {| ui_currentUsage := 1; ui_limit := Finite 50;
                       ui_remaining := Finite 49; ui_planType := free |})
                 200), w1)
    /\ checkUsageLimit Scenario.env_utc Scenario.alice ocr w1 = (Return c, w2)
    /\ currentUsage c = 1 /\ remaining c = Finite 49.
Proof.
  destruct (ocr_success_snapshot_matches_ledger
              Scenario.env_utc Scenario.openai_ok Scenario.scan_request
              Scenario.alice "data:image/png;base64,AAAA" "{}" "{}"
              (Scenario.world_of Scenario.db_new_user Scenario.feb15))
    as (w1 & info & c & w2 & E & Hcur & _ & E2 & Hsnap).
  - constructor.
  - constructor; simpl; constructor.
  - left. reflexivity.
  - intros r [].
  - reflexivity.
  - reflexivity.
  - discriminate.
  - reflexivity.
  - reflexivity.
  - discriminate.
  - reflexivity.
  - vm_compute. reflexivity.
  - exists w1, c, w2.
    assert (Hinfo : info = {| ui_currentUsage := 1; ui_limit := Finite 50;
                              ui_remaining := Finite 49;
                              ui_planType := free |}).
    { vm_compute in E. injection E as <- _. reflexivity. }
    rewrite Hinfo in *. split; [exact E|]. split; [exact E2|].
    unfold snapshotOf in Hsnap. injection Hsnap as H1 _ H3 _.
    split; assumption.
Defined.




(** ** Errors of the external service *)



Open Scope js_scope.

(** ** The ledger over the months *)

(** An increment for a registered user goes through when nothing fails
    and the counter is below the INTEGER bound. *)
Lemma incrementUsage_raises env u f w :
  no_faults w -> usage_schema_ok (db w) -> In u (auth_users (db w)) ->
  ledgerCount (db w) u (periodKey env (clock w)) f < INT4_MAX ->
  exists w',
    incrementUsage env u f w = (Return tt, w')
    /\ no_faults w' /\ usage_schema_ok (db w')
    /\ auth_users (db w') = auth_users (db w)
    /\ subscriptions (db w') = subscriptions (db w)
    /\ forall u' k' f',
        ledgerCount (db w') u' k' f'
        = if (u' =? u)%string
             && JsDate.Civil_eqb k' (periodKey env (clock w))
             && feature_eqb f f'
          then ledgerCount (db w) u k' f + 1
          else ledgerCount (db w) u' k' f'.
Proof.
  intros Hnf Hok Hu Hlt.
  destruct (incrementUsage_returns env u f w Hnf Hok Hu ltac:(lia))
    as (w' & E & Hnf').
  pose proof (incrementUsage_monotone env u f w Hok) as [Hok' _].
  pose proof (incrementUsage_frame env u f w) as [Hau Hsub].
  pose proof (incrementUsage_success env u f w Hok) as Hcount.
  rewrite E in Hok', Hau, Hsub, Hcount. cbn [fst snd] in *.
  exists w'. split_and; try assumption; try reflexivity.
  apply Hcount. reflexivity.
Qed.

(** The entry of a month that has none yet. *)
Lemma getOrCreate_new_month env u w :
  no_faults w -> In u (auth_users (db w)) ->
  filter (Pg.usage_matches u (periodKey env (clock w)))
         (usage_tracking (db w)) = [] ->
  exists r,
    fst (getOrCreateUsageRecord env u w) = Return (toUsageTracking r)
    /\ usage_tracking (db (snd (getOrCreateUsageRecord env u w)))
       = usage_tracking (db w) ++ [r]
    /\ usage_key r = (u, periodKey env (clock w)) /\ zero_row r.
Proof.
  intros Hnf Hu Hnil.
  pose proof (@getOrCreate_created env u w Hnf Hnil Hu) as E.
  destruct (getOrCreate_fresh env u w Hnil _ (f_equal fst E))
    as (r & Hrows & Hkey & Hzero & Hrec).
  exists r. split_and; try assumption.
  rewrite E. cbn [fst]. f_equal. exact Hrec.
Qed.

(** C8. Counters of the usage ledger never go down, and they are kept per
    calendar month.
    (1) Whatever the pending faults, any history of [checkUsageLimit],
        [getMonthlyUsage] and [incrementUsage] calls keeps the schema's
        constraints and leaves every existing row in place with no counter
        lowered.
    (2) An [incrementUsage] call that returns raises the counter of its
        feature in the caller's entry of the current period by exactly one
        and changes no other count.
    (3) In one environment, times in different local calendar months work
        on different period keys; in particular an increment on 2024-01-31
        and a check on 2024-02-01 use different keys, and the increment
        leaves every count of the February key as it was.
    (4) When the caller has no entry for the current period,
        [getOrCreateUsageRecord] appends one with all counters at zero and
        rewrites no existing row.
    (5) The calls do return: for a registered user, with no fault pending
        and the counter below the INTEGER bound, [incrementUsage] returns
        and the counter of the feature for the current period is one
        higher; with no entry for the current period,
        [getOrCreateUsageRecord] returns the new all-zero entry it has
        appended.
    (6) The increment of 2024-01-31 followed by the check of 2024-02-01,
        for a registered user on the free plan: both return, the check
        reports the February count as it was before the increment, and
        afterwards the January counter is one higher and the February
        counter unchanged. *)
Theorem ledger_monotone_and_month_scoped :
  (forall env ops w,
      usage_schema_ok (db w) ->
      usage_schema_ok (db (runOps env ops w))
      /\ ledger_le (usage_tracking (db w))
                   (usage_tracking (db (runOps env ops w))))
  /\ (forall env u f w,
         usage_schema_ok (db w) ->
         fst (incrementUsage env u f w) = Return tt ->
         forall u' k' f',
           ledgerCount (db (snd (incrementUsage env u f w))) u' k' f'
           = if (u' =? u)%string
                && JsDate.Civil_eqb k' (periodKey env (clock w))
                && feature_eqb f f'
             then ledgerCount (db w) u k' f + 1
             else ledgerCount (db w) u' k' f')
  /\ (forall env t1 t2,
         0 <= t1 -> 0 <= t2 -> tz_in_range env ->
         localMonth env t1 <> localMonth env t2 ->
         periodKey env t1 <> periodKey env t2)
  /\ (forall env t1 t2 u f w,
         tz_in_range env ->
         localDate env t1 = JsDate.mkCivil 2024 1 31 ->
         localDate env t2 = JsDate.mkCivil 2024 2 1 ->
         usage_schema_ok (db w) ->
         periodKey env t1 <> periodKey env t2
         /\ forall u' f',
             ledgerCount (db (snd (incrementUsage env u f (at_time t1 w))))
                         u' (periodKey env t2) f'
             = ledgerCount (db w) u' (periodKey env t2) f')
  /\ (forall env u w rec,
         filter (Pg.usage_matches u (periodKey env (clock w)))
                (usage_tracking (db w)) = [] ->
         fst (getOrCreateUsageRecord env u w) = Return rec ->
         exists r,
           usage_tracking (db (snd (getOrCreateUsageRecord env u w)))
           = usage_tracking (db w) ++ [r]
           /\ usage_key r = (u, periodKey env (clock w)) /\ zero_row r
           /\ rec = toUsageTracking r)
  /\ (forall env u f w,
         no_faults w -> usage_schema_ok (db w) ->
         In u (auth_users (db w)) ->
         ledgerCount (db w) u (periodKey env (clock w)) f < INT4_MAX ->
         fst (incrementUsage env u f w) = Return tt
         /\ ledgerCount (db (snd (incrementUsage env u f w)))
                        u (periodKey env (clock w)) f
            = ledgerCount (db w) u (periodKey env (clock w)) f + 1)
  /\ (forall env u w,
         no_faults w -> In u (auth_users (db w)) ->
         filter (Pg.usage_matches u (periodKey env (clock w)))
                (usage_tracking (db w)) = [] ->
         exists r,
           fst (getOrCreateUsageRecord env u w)
           = Return (toUsageTracking r)
           /\ usage_tracking (db (snd (getOrCreateUsageRecord env u w)))
              = usage_tracking (db w) ++ [r]
           /\ usage_key r = (u, periodKey env (clock w)) /\ zero_row r)
  /\ (forall env t1 t2 u f w,
         tz_in_range env ->
         localDate env t1 = JsDate.mkCivil 2024 1 31 ->
         localDate env t2 = JsDate.mkCivil 2024 2 1 ->
         no_faults w -> usage_schema_ok (db w) ->
         In u (auth_users (db w)) -> on_free_plan (db w) u ->
         ledgerCount (db w) u (periodKey env t1) f < INT4_MAX ->
         exists w1 c w2,
           incrementUsage env u f (at_time t1 w) = (Return tt, w1)
           /\ checkUsageLimit env u f (at_time t2 w1) = (Return c, w2)
           /\ currentUsage c = ledgerCount (db w) u (periodKey env t2) f
           /\ ledgerCount (db w2) u (periodKey env t1) f
              = ledgerCount (db w) u (periodKey env t1) f + 1
           /\ ledgerCount (db w2) u (periodKey env t2) f
              = ledgerCount (db w) u (periodKey env t2) f).
Proof.
  split_and.
  - intros env ops w Hok. apply runOps_monotone. exact Hok.
  - intros env u f w Hok Hret. apply incrementUsage_success; assumption.
  - intros env t1 t2 H1 H2 Htz Hne E. apply Hne.
    apply (periodKey_inj H1 H2 Htz E).
  - intros env t1 t2 u f w Htz H1 H2 Hok.
    pose proof (jan31_feb01_keys env t1 t2 Htz H1 H2) as Hne.
    split; [exact Hne|]. intros u' f'.
    apply (incrementUsage_other_period env u f (at_time t1 w)).
    + exact Hok.
    + cbn [clock at_time]. congruence.
  - intros env u w rec Hnil Hret. apply getOrCreate_fresh; assumption.
  - intros env u f w Hnf Hok Hu Hlt.
    destruct (incrementUsage_raises env u f w Hnf Hok Hu Hlt)
      as (w' & E & _ & _ & _ & _ & Hcount).
    rewrite E. cbn [fst snd]. split; [reflexivity|].
    rewrite Hcount, String.eqb_refl, Civil_eqb_refl, feature_eqb_refl.
    reflexivity.
  - intros env u w Hnf Hu Hnil. apply getOrCreate_new_month; assumption.
  - intros env t1 t2 u f w Htz H1 H2 Hnf Hok Hu Hfree Hlt.
    pose proof (jan31_feb01_keys env t1 t2 Htz H1 H2) as Hne.
    destruct (incrementUsage_raises env u f (at_time t1 w))
      as (w1 & E1 & Hnf1 & Hok1 & Hau1 & Hsub1 & Hcount1).
    { apply no_faults_at_time, Hnf. }
    { exact Hok. }
    { exact Hu. }
    { exact Hlt. }
    cbn [clock db at_time] in Hau1, Hsub1, Hcount1.
    destruct (checkUsageLimit_free_run env u f (at_time t2 w1))
      as (w2 & E2 & _ & _ & _ & _ & _ & Hcount2).
    { apply no_faults_at_time, Hnf1. }
    { exact Hok1. }
    { cbn [db at_time]. rewrite Hau1. exact Hu. }
    { unfold on_free_plan. cbn [db at_time]. rewrite Hsub1. exact Hfree. }
    cbn [clock db at_time] in E2, Hcount2.
    assert (Hfeb : ledgerCount (db w1) u (periodKey env t2) f
                   = ledgerCount (db w) u (periodKey env t2) f).
    { rewrite Hcount1.
      destruct (JsDate.Civil_eqb (periodKey env t2) (periodKey env t1)) eqn:Ek.
      - apply Civil_eqb_eq in Ek. congruence.
      - rewrite andb_false_r. reflexivity. }
    eexists w1, _, w2. split; [exact E1|]. split; [exact E2|].
    cbn [currentUsage]. split_and.
    + exact Hfeb.
    + rewrite Hcount2, Hcount1.
      rewrite String.eqb_refl, Civil_eqb_refl, feature_eqb_refl.
      reflexivity.
    + rewrite Hcount2. exact Hfeb.
Qed.

(** On a deployment in Japan, Alice exports at noon UTC of 2024-01-31 and
    her allowance is checked at noon UTC of 2024-02-01: the check reports
    no use, and the ledger then holds two entries, January with one
    export and February with none. *)
Lemma ledger_monotone_and_month_scoped_witness :
  exists w1 c w2,
    incrementUsage Scenario.env_jst Scenario.alice export
                   (at_time Scenario.jan31
                      (Scenario.world_of Scenario.db_new_user 0))
    = (Return tt, w1)
    /\ checkUsageLimit Scenario.env_jst Scenario.alice export
                       (at_time Scenario.feb01 w1)
       = (Return c, w2)
    /\ currentUsage c = 0
    /\ map (fun r => (UsageTracking.period_start r,
                      UsageTracking.export_count r))
           (usage_tracking (db w2))
       = [ (periodKey Scenario.env_jst Scenario.jan31, 1);
           (periodKey Scenario.env_jst Scenario.feb01, 0) ].
Proof.
  destruct (proj2 (proj2 (proj2 (proj2 (proj2 (proj2 (proj2
              ledger_monotone_and_month_scoped))))))
              Scenario.env_jst Scenario.jan31 Scenario.feb01 Scenario.alice
              export (Scenario.world_of Scenario.db_new_user 0))
    as (w1 & c & w2 & E1 & E2 & Hc & _ & _).
  - unfold tz_in_range. simpl. lia.
  - vm_compute. reflexivity.
  - vm_compute. reflexivity.
  - constructor.
  - constructor; simpl; constructor.
  - left. reflexivity.
  - intros r [].
  - vm_compute. reflexivity.
  - exists w1, c, w2. split; [exact E1|]. split; [exact E2|].
    split; [rewrite Hc; vm_compute; reflexivity|].
    vm_compute in E1. injection E1 as <-.
    vm_compute in E2. injection E2 as <- <-.
    vm_compute. reflexivity.
Defined.

(* ===================================================================== *)
(** * Month ranges ([lib/dateUtils.ts] and the dashboard)                 *)
(* ===================================================================== *)

Section MonthRanges.

Import JsDate DateUtils.

(** ** Calendar dates of local midnights *)

(** The first of a month, from its day number back to the date. *)
Lemma civil_of_first y m :
  1 <= m <= 12 ->
  civil_from_days (days_from_civil y m 1) = mkCivil y m 1.
Proof.
  intros Hm. unfold civil_from_days, days_from_civil.
  set (y' := if m <=? 2 then y - 1 else y).
  set (mp := if 2 <? m then m - 3 else m + 9).
  assert (Hmp : 0 <= mp <= 11)
    by (unfold mp; destruct (Z.ltb_spec 2 m); lia).
  assert (Hyoe : 0 <= y' mod 400 < 400) by (apply Z.mod_pos_bound; lia).
  set (yoe := y' mod 400) in *.
  pose proof (@monthStart_range mp Hmp) as Hms.
  pose proof (@yearStart_bounds yoe Hyoe) as [Hys0 Hys1].
  pose proof (@yearStart_step yoe) as Hstep.
  assert (Hdoe : doe_of_civil yoe m 1 = yearStart yoe + monthStart mp)
    by (unfold doe_of_civil; fold mp; lia).
  replace (y' / 400 * daysPerEra + doe_of_civil yoe m 1 - epochShift
           + epochShift)
    with (y' / 400 * daysPerEra + (yearStart yoe + monthStart mp))
    by (rewrite Hdoe; lia).
  assert (Hr : 0 <= yearStart yoe + monthStart mp < daysPerEra)
    by (unfold daysPerEra; lia).
  destruct (@era_div (y' / 400) _ Hr) as [Hq Hrem]. rewrite Hq, Hrem.
  unfold civil_of_doe.
  rewrite (@yearOfEra_yearStart yoe (monthStart mp) Hyoe) by lia.
  replace (yearStart yoe + monthStart mp - yearStart yoe)
    with (monthStart mp) by lia.
  rewrite (@monthOfYear_monthStart mp Hmp).
  cbn [year month day].
  assert (Hmonth : (if mp <? 10 then mp + 3 else mp - 9) = m).
  { unfold mp. destruct (Z.ltb_spec 2 m).
    - destruct (Z.ltb_spec (m - 3) 10); lia.
    - destruct (Z.ltb_spec (m + 9) 10); lia. }
  rewrite Hmonth. f_equal; [|lia].
  assert (Hy : yoe + y' / 400 * 400 = y')
    by (unfold yoe; pose proof (Z.div_mod y' 400); lia).
  rewrite Hy. unfold y'. destruct (Z.leb_spec m 2); lia.
Qed.

(** The UTC date of a local midnight: the same day on UTC and west of
    it, the day before east of it. *)
Lemma Day_of_local_midnight tz D :
  -1440 < tz < 1440 ->
  Day (D * msPerDay - tz * msPerMinute) = if 0 <? tz then D - 1 else D.
Proof.
  intros Htz. destruct (Z.ltb_spec 0 tz).
  - replace (D * msPerDay - tz * msPerMinute)
      with ((D - 1) * msPerDay + (msPerDay - tz * msPerMinute))
      by (unfold msPerDay; lia).
    apply Day_of_midnight. unfold msPerDay, msPerMinute. lia.
  - replace (D * msPerDay - tz * msPerMinute)
      with (D * msPerDay + (- tz * msPerMinute)) by lia.
    apply Day_of_midnight. unfold msPerDay, msPerMinute. lia.
Qed.

(** Every date of the years -271000..275000, give or take a year, is
    well inside the hundred million days a Date covers. *)
Lemma days_in_range y m :
  -271002 <= y <= 275002 -> 1 <= m <= 12 ->
  -99900000 <= days_from_civil y m 1 <= 99900000.
Proof.
  intros Hy Hm. unfold days_from_civil, doe_of_civil.
  set (y' := if m <=? 2 then y - 1 else y).
  assert (Hy' : -271003 <= y' <= 275002)
    by (unfold y'; destruct (m <=? 2); lia).
  set (mp := if 2 <? m then m - 3 else m + 9).
  assert (Hmp : 0 <= mp <= 11)
    by (unfold mp; destruct (Z.ltb_spec 2 m); lia).
  pose proof (@monthStart_range mp Hmp) as Hms.
  assert (Hyoe : 0 <= y' mod 400 < 400) by (apply Z.mod_pos_bound; lia).
  pose proof (@yearStart_bounds (y' mod 400) Hyoe) as [Hys0 Hys1].
  pose proof (@yearStart_step (y' mod 400)) as Hstep.
  assert (Hera : -678 <= y' / 400 <= 687)
    by (Z.div_mod_to_equations; lia).
  unfold daysPerEra, epochShift. lia.
Qed.

(** After the year 275760 no first of a month is. *)
Lemma days_out_of_range y m :
  275761 <= y -> 1 <= m <= 12 ->
  100000100 <= days_from_civil y m 1.
Proof.
  intros Hy Hm. unfold days_from_civil, doe_of_civil.
  set (y' := if m <=? 2 then y - 1 else y).
  set (mp := if 2 <? m then m - 3 else m + 9).
  assert (Hyoe : 0 <= y' mod 400 < 400) by (apply Z.mod_pos_bound; lia).
  pose proof (@yearStart_bounds (y' mod 400) Hyoe) as [Hys0 _].
  assert (Hmp : 0 <= mp <= 11)
    by (unfold mp; destruct (Z.ltb_spec 2 m); lia).
  pose proof (@monthStart_range mp Hmp) as Hms.
  unfold daysPerEra, epochShift.
  destruct (Z.le_gt_cases 690 (y' / 400)) as [Hbig|Hsmall]; [lia|].
  assert (Hera : y' / 400 = 689).
  { assert (275760 <= y') by (unfold y'; destruct (m <=? 2); lia).
    Z.div_mod_to_equations. lia. }
  rewrite Hera.
  destruct (Z.leb_spec m 2) as [Hjf|Hlater].
  - (* January, February: the year of March before; month 10 or 11 *)
    assert (H160 : 160 <= y' mod 400)
      by (unfold y' in *; Z.div_mod_to_equations; lia).
    pose proof (@yearStart_mono 160 (y' mod 400) H160) as Hmono.
    change (yearStart 160) with 58439 in Hmono.
    assert (306 <= monthStart mp).
    { unfold mp. replace (2 <? m) with false
        by (symmetry; apply Z.ltb_ge; lia).
      unfold monthStart. Z.div_mod_to_equations. lia. }
    lia.
  - assert (H161 : 161 <= y' mod 400)
      by (unfold y' in *; Z.div_mod_to_equations; lia).
    pose proof (@yearStart_mono 161 (y' mod 400) H161) as Hmono.
    change (yearStart 161) with 58804 in Hmono.
    lia.
Qed.

Lemma fullYearOf_range y :
  -271000 <= y <= 275000 -> -271000 <= fullYearOf y <= 275000.
Proof.
  intros Hy. unfold fullYearOf.
  destruct (Z.leb_spec 0 y); destruct (Z.leb_spec y 99); cbn [andb]; lia.
Qed.

Lemma fullYearOf_same y : ~ 0 <= y <= 99 -> fullYearOf y = y.
Proof.
  intros Hy. unfold fullYearOf.
  destruct (Z.leb_spec 0 y); destruct (Z.leb_spec y 99); cbn [andb];
    try reflexivity.
  lia.
Qed.

Lemma fullYearOf_late y : 100 <= y -> fullYearOf y = y.
Proof. intros Hy. apply fullYearOf_same. lia. Qed.

(** The date a constructor call of the loop gives, for the years whose
    dates are valid. *)
Lemma isoDateOf_days tz y mi d :
  -1440 < tz < 1440 -> -271000 <= y <= 275000 ->
  -1 <= mi <= 12 -> 0 <= d <= 1 ->
  isoDateOf tz y mi d
  = Some (civil_from_days
            (days_from_civil (fullYearOf y + mi / 12) (mi mod 12 + 1) 1
             + d - 1 - if 0 <? tz then 1 else 0)).
Proof.
  intros Htz Hy Hmi Hd. unfold isoDateOf, newDate.
  pose proof (fullYearOf_range y Hy) as HY.
  assert (Hq : -1 <= mi / 12 <= 1) by (Z.div_mod_to_equations; lia).
  assert (Hr : 1 <= mi mod 12 + 1 <= 12)
    by (pose proof (Z.mod_pos_bound mi 12); lia).
  pose proof (days_in_range (fullYearOf y + mi / 12) (mi mod 12 + 1)
                ltac:(lia) Hr) as HD.
  set (D := days_from_civil (fullYearOf y + mi / 12) (mi mod 12 + 1) 1)
    in *.
  replace (Z.abs ((D + d - 1) * msPerDay - tz * msPerMinute) <=? maxTime)
    with true
    by (symmetry; apply Z.leb_le;
        unfold maxTime, msPerDay, msPerMinute; lia).
  cbn [option_map]. unfold toISODate.
  rewrite (Day_of_local_midnight tz _ Htz).
  destruct (0 <? tz); f_equal; f_equal; lia.
Qed.

(** The entry of a month of a valid year, month 0 included. *)
Lemma monthRangeOf_some tz y m :
  -1440 < tz < 1440 -> -271000 <= y <= 275000 -> 0 <= m <= 12 ->
  exists r, monthRangeOf tz y m = Some r.
Proof.
  intros Htz Hy Hm. unfold monthRangeOf.
  rewrite (isoDateOf_days tz y (m - 1) 1 Htz Hy) by lia.
  rewrite (isoDateOf_days tz y m 0 Htz Hy) by lia.
  eexists. reflexivity.
Qed.

(** The dates of one entry of [getMonthRange]. *)
Lemma monthRangeOf_dates tz y m :
  -1440 < tz < 1440 -> 1 <= m <= 12 ->
  ~ 0 <= y <= 99 -> -271000 <= y <= 275000 ->
  exists r,
    monthRangeOf tz y m = Some r
    /\ isoDateOf tz y (m - 1) 1 = Some (startDate r)
    /\ isoDateOf tz y m 0 = Some (endDate r)
    /\ startDate r
       = civil_from_days (days_from_civil y m 1 - if 0 <? tz then 1 else 0)
    /\ endDate r
       = civil_from_days
           (days_from_civil (if m =? 12 then y + 1 else y)
                            (if m =? 12 then 1 else m + 1) 1
            - 1 - if 0 <? tz then 1 else 0).
Proof.
  intros Htz Hm Hy0 Hy. unfold monthRangeOf.
  rewrite (isoDateOf_days tz y (m - 1) 1 Htz Hy) by lia.
  rewrite (isoDateOf_days tz y m 0 Htz Hy) by lia.
  rewrite (fullYearOf_same y Hy0).
  eexists. split; [reflexivity|]. cbn [startDate endDate]. split_and.
  - reflexivity.
  - reflexivity.
  - replace ((m - 1) / 12) with 0 by (symmetry; apply Z.div_small; lia).
    replace ((m - 1) mod 12 + 1) with m
      by (rewrite Z.mod_small; lia).
    replace (y + 0) with y by lia.
    f_equal. destruct (0 <? tz); lia.
  - destruct (Z.eqb_spec m 12) as [->|Hne].
    + change (12 / 12) with 1. change (12 mod 12 + 1) with 1.
      f_equal. destruct (0 <? tz); lia.
    + replace (m / 12) with 0 by (symmetry; apply Z.div_small; lia).
      replace (m mod 12) with m by (symmetry; apply Z.mod_small; lia).
      replace (y + 0) with y by lia. f_equal. destruct (0 <? tz); lia.
Qed.

(** X20. The date bounds the month ranges are built with are UTC dates
    of local midnights. For a month 1..12 of a year -271000..275000
    outside 0..99, the entry of [getMonthRange] starts on the first of
    the month and ends on the day before the first of the next month when
    the environment is on UTC or west of it; east of UTC both bounds are
    one day early: the range starts on the last day of the month before
    and stops short of the last day of the month. [getCurrentMonthRange]
    of the dashboard returns the bounds of the entry of the local month of
    [now], so it is one day early east of UTC as well. *)
Theorem month_range_dates_by_time_zone tz y m :
  -1440 < tz < 1440 -> 1 <= m <= 12 ->
  ~ 0 <= y <= 99 -> -271000 <= y <= 275000 ->
  exists r,
    monthRangeOf tz y m = Some r
    /\ (tz <= 0 ->
        startDate r = mkCivil y m 1
        /\ endDate r
           = civil_from_days
               (days_from_civil (if m =? 12 then y + 1 else y)
                                (if m =? 12 then 1 else m + 1) 1 - 1))
    /\ (0 < tz ->
        startDate r = civil_from_days (days_from_civil y m 1 - 1)
        /\ startDate r <> mkCivil y m 1
        /\ endDate r
           = civil_from_days
               (days_from_civil (if m =? 12 then y + 1 else y)
                                (if m =? 12 then 1 else m + 1) 1 - 2))
    /\ (forall now,
           getFullYear tz now = y -> getMonth tz now + 1 = m ->
           getCurrentMonthRange tz now = Some (startDate r, endDate r)).
Proof.
  intros Htz Hm Hy0 Hy.
  destruct (monthRangeOf_dates tz y m Htz Hm Hy0 Hy)
    as (r & Er & Efirst & Elast & Hs & He).
  exists r. split; [exact Er|]. split_and.
  - intros Hwest. rewrite Hs, He.
    replace (0 <? tz) with false by (symmetry; apply Z.ltb_ge; exact Hwest).
    rewrite !Z.sub_0_r. split; [apply civil_of_first; exact Hm|reflexivity].
  - intros Heast. rewrite Hs, He.
    replace (0 <? tz) with true by (symmetry; apply Z.ltb_lt; exact Heast).
    split_and.
    + reflexivity.
    + rewrite <- (civil_of_first y m Hm). intros E.
      apply civil_from_days_inj in E. lia.
    + f_equal. lia.
  - intros now Hyear Hmonth. unfold getCurrentMonthRange.
    rewrite Hyear.
    replace (getMonth tz now) with (m - 1) by lia.
    replace (m - 1 + 1) with m by lia.
    rewrite Efirst, Elast. reflexivity.
Qed.

(** February 2024 on a deployment in Japan: the range runs from
    2024-01-31 to 2024-02-28 and misses the 29th. *)
Lemma month_range_dates_by_time_zone_witness :
  getCurrentMonthRange 540 Scenario.feb15
  = Some (mkCivil 2024 1 31, mkCivil 2024 2 28).
Proof.
  destruct (month_range_dates_by_time_zone 540 2024 2)
    as (r & _ & _ & Heast & Hnow); try lia.
  rewrite (Hnow Scenario.feb15).
  - destruct (Heast ltac:(lia)) as (Hs & _ & He). rewrite Hs, He.
    vm_compute. reflexivity.
  - vm_compute. reflexivity.
  - vm_compute. reflexivity.
Defined.

(** ** The initial range of the charts *)

Lemma local_month_range tz now : 1 <= getMonth tz now + 1 <= 12.
Proof.
  unfold getMonth.
  pose proof (@civil_from_days_month (Day (LocalTime tz now))). lia.
Qed.

(** The ends of the initial range, counted in months. *)
Lemma initialRange_facts tz now monthsBack :
  endYear (getInitialDateRange tz now monthsBack) = getFullYear tz now
  /\ endMonth (getInitialDateRange tz now monthsBack) = getMonth tz now + 1
  /\ 12 * startYear (getInitialDateRange tz now monthsBack)
       + startMonth (getInitialDateRange tz now monthsBack)
     = 12 * getFullYear tz now + (getMonth tz now + 1) - (monthsBack - 1)
  /\ 0 <= startMonth (getInitialDateRange tz now monthsBack)
  /\ (1 <= monthsBack ->
      startMonth (getInitialDateRange tz now monthsBack) <= 12)
  /\ startYear (getInitialDateRange tz now monthsBack) <= getFullYear tz now.
Proof.
  unfold getInitialDateRange.
  pose proof (local_month_range tz now) as Hcm.
  set (cm := getMonth tz now + 1) in *. set (cy := getFullYear tz now).
  destruct (Z.leb_spec (cm - (monthsBack - 1)) 0) as [Hle|Hgt];
    cbn [startYear startMonth endYear endMonth].
  - replace (Z.abs (cm - (monthsBack - 1))) with (monthsBack - 1 - cm)
      by lia.
    split_and; try reflexivity; intros; Z.div_mod_to_equations; lia.
  - split_and; try reflexivity; lia.
Qed.

(** X21. [getInitialDateRange(monthsBack)] ends at the current local
    month and starts [monthsBack - 1] months before it, counted in
    months: 12 * startYear + startMonth is 12 * endYear + endMonth minus
    [monthsBack - 1]. The start month is never negative and, for
    [monthsBack >= 1], at most 12; but it is 0, not 12 of the year before,
    exactly when the start falls on a December, that is when
    [monthsBack - 1 - endMonth] is a non-negative multiple of 12 (in May
    with the default of 6 months, for one). *)
Theorem getInitialDateRange_span tz now monthsBack :
  endYear (getInitialDateRange tz now monthsBack) = getFullYear tz now
  /\ endMonth (getInitialDateRange tz now monthsBack) = getMonth tz now + 1
  /\ 12 * startYear (getInitialDateRange tz now monthsBack)
       + startMonth (getInitialDateRange tz now monthsBack)
     = 12 * getFullYear tz now + (getMonth tz now + 1) - (monthsBack - 1)
  /\ 0 <= startMonth (getInitialDateRange tz now monthsBack)
  /\ (1 <= monthsBack ->
      startMonth (getInitialDateRange tz now monthsBack) <= 12)
  /\ (startMonth (getInitialDateRange tz now monthsBack) = 0
      <-> getMonth tz now + 1 <= monthsBack - 1
          /\ (monthsBack - 1 - (getMonth tz now + 1)) mod 12 = 0).
Proof.
  destruct (initialRange_facts tz now monthsBack)
    as (H1 & H2 & H3 & H4 & H5 & _).
  split_and; try assumption.
  pose proof (local_month_range tz now) as Hcm.
  unfold getInitialDateRange.
  set (cm := getMonth tz now + 1) in *.
  destruct (Z.leb_spec (cm - (monthsBack - 1)) 0) as [Hle|Hgt];
    cbn [startMonth].
  - replace (Z.abs (cm - (monthsBack - 1))) with (monthsBack - 1 - cm)
      by lia.
    split; intros H; [split|]; Z.div_mod_to_equations; lia.
  - split; [lia|]. intros [H _]. lia.
Qed.

(** Mid-May 2024, default range: the start month is 0 of 2024. *)
Lemma getInitialDateRange_span_witness :
  startMonth (getInitialDateRange 0 Events.may15 6) = 0
  /\ startYear (getInitialDateRange 0 Events.may15 6) = 2024.
Proof.
  split.
  - apply (proj2 (proj2 (proj2 (proj2 (proj2 (getInitialDateRange_span
                                                0 Events.may15 6)))))).
    split; vm_compute; [discriminate|reflexivity].
  - reflexivity.
Defined.

(** ** The loop of [getMonthRange] *)

(** Where the loop condition fails the loop is over. *)
Lemma loop_stops fuel tz cy cm ey em :
  (cy <? ey) || ((cy =? ey) && (cm <=? em)) = false ->
  monthRangeLoop fuel tz cy cm ey em = Returns [].
Proof. intros H. destruct fuel; cbn [monthRangeLoop]; rewrite H; reflexivity. Qed.

Lemma loop_condition cy cm ey em :
  (cy <? ey) || ((cy =? ey) && (cm <=? em)) = true
  <-> cy < ey \/ (cy = ey /\ cm <= em).
Proof.
  rewrite orb_true_iff, andb_true_iff, Z.ltb_lt, Z.eqb_eq, Z.leb_le.
  reflexivity.
Qed.

(** Enough rounds: the loop ends whatever the months are. *)
Lemma loop_total tz ey em :
  forall fuel cy cm,
    (Z.to_nat (Z.max 0 (13 - cm) + 13 * Z.max 0 (ey - cy) + 1) <= fuel)%nat ->
    monthRangeLoop fuel tz cy cm ey em <> StillRunning.
Proof.
  induction fuel as [|fuel IH]; intros cy cm Hfuel.
  - exfalso. lia.
  - cbn [monthRangeLoop].
    destruct ((cy <? ey) || ((cy =? ey) && (cm <=? em))) eqn:Hc;
      [|discriminate].
    apply loop_condition in Hc.
    destruct (monthRangeOf tz cy cm) as [r|]; [|discriminate].
    destruct (Z.ltb_spec 12 (cm + 1)) as [Hreset|Hnext]; cbn [fst snd].
    + destruct (Z.lt_ge_cases cy ey) as [Hlt|Hge].
      * pose proof (IH (cy + 1) 1 ltac:(lia)) as Hnot.
        destruct (monthRangeLoop fuel tz (cy + 1) 1 ey em);
          [discriminate|discriminate|contradiction].
      * rewrite loop_stops; [discriminate|].
        apply not_true_is_false. intros H. apply loop_condition in H. lia.
    + pose proof (IH cy (cm + 1) ltac:(lia)) as Hnot.
      destruct (monthRangeLoop fuel tz cy (cm + 1) ey em);
        [discriminate|discriminate|contradiction].
Qed.

(** With months 1..12 and valid years the loop visits the months from
    the current one to the end month, one after the other. *)
Lemma loop_months tz ey em :
  -1440 < tz < 1440 -> 1 <= em <= 12 -> ey <= 275000 ->
  forall n fuel cy cm,
    1 <= cm <= 12 -> -271000 <= cy ->
    Z.of_nat n = Z.max 0 (12 * (ey - cy) + em - cm + 1) ->
    (n <= fuel)%nat ->
    exists ranges,
      monthRangeLoop fuel tz cy cm ey em = Returns ranges
      /\ map Some ranges
         = map (fun i =>
                  monthRangeOf tz
                    ((12 * cy + cm - 1 + Z.of_nat i) / 12)
                    ((12 * cy + cm - 1 + Z.of_nat i) mod 12 + 1))
               (seq 0 n).
Proof.
  intros Htz Hem Hey.
  induction n as [|n IH]; intros fuel cy cm Hcm Hcy Hn Hfuel.
  - exists []. split; [|reflexivity].
    apply loop_stops. apply not_true_is_false. intros H.
    apply loop_condition in H. lia.
  - destruct fuel as [|fuel]; [lia|]. cbn [monthRangeLoop].
    assert (Hc : cy < ey \/ (cy = ey /\ cm <= em)) by lia.
    replace ((cy <? ey) || ((cy =? ey) && (cm <=? em))) with true
      by (symmetry; apply loop_condition; exact Hc).
    destruct (monthRangeOf_some tz cy cm Htz ltac:(lia) ltac:(lia))
      as [r Er].
    rewrite Er.
    cbn [seq map]. rewrite <- seq_shift, map_map.
    replace (12 * cy + cm - 1 + Z.of_nat 0) with (12 * cy + (cm - 1)) by lia.
    replace ((12 * cy + (cm - 1)) / 12) with cy
      by (Z.div_mod_to_equations; lia).
    replace ((12 * cy + (cm - 1)) mod 12 + 1) with cm
      by (Z.div_mod_to_equations; lia).
    rewrite Er.
    destruct (Z.ltb_spec 12 (cm + 1)) as [Hreset|Hnext]; cbn [fst snd].
    + destruct (IH fuel (cy + 1) 1) as (ranges & El & Hl);
        [lia|lia|lia|lia|].
      rewrite El. exists (r :: ranges). split; [reflexivity|].
      cbn [map]. f_equal. rewrite Hl. apply map_ext. intros i.
      replace (12 * (cy + 1) + 1 - 1 + Z.of_nat i)
        with (12 * cy + cm - 1 + Z.of_nat (S i)) by lia.
      reflexivity.
    + destruct (IH fuel cy (cm + 1)) as (ranges & El & Hl);
        [lia|lia|lia|lia|].
      rewrite El. exists (r :: ranges). split; [reflexivity|].
      cbn [map]. f_equal. rewrite Hl. apply map_ext. intros i.
      replace (12 * cy + (cm + 1) - 1 + Z.of_nat i)
        with (12 * cy + cm - 1 + Z.of_nat (S i)) by lia.
      reflexivity.
Qed.

(** Reading the entries off such a list. *)
Lemma entries_nth (ranges : list MonthRange)
      (f : nat -> option MonthRange) n :
  map Some ranges = map f (seq 0 n) ->
  List.length ranges = n
  /\ forall i, (i < n)%nat -> nth_error ranges i = f i.
Proof.
  intros E. split.
  - apply (f_equal (@List.length _)) in E.
    rewrite !length_map, length_seq in E. exact E.
  - intros i Hi.
    assert (Hi' : nth_error (map Some ranges) i = Some (f i)).
    { rewrite E, nth_error_map, nth_error_seq.
      replace (i <? n)%nat with true
        by (symmetry; apply Nat.ltb_lt; exact Hi).
      reflexivity. }
    rewrite nth_error_map in Hi'.
    destruct (nth_error ranges i); cbn [option_map] in Hi'.
    + injection Hi' as <-. reflexivity.
    + discriminate.
Qed.

Lemma getMonthRange_cases tz sy sm ey em :
  getMonthRange tz sy sm ey em <> StillRunning
  /\ (-1440 < tz < 1440 -> 1 <= sm <= 12 -> 1 <= em <= 12 ->
      -271000 <= sy -> ey <= 275000 ->
      exists ranges,
        getMonthRange tz sy sm ey em = Returns ranges
        /\ map Some ranges
           = map (fun i =>
                    monthRangeOf tz
                      ((12 * sy + sm - 1 + Z.of_nat i) / 12)
                      ((12 * sy + sm - 1 + Z.of_nat i) mod 12 + 1))
                 (seq 0 (Z.to_nat (12 * (ey - sy) + em - sm + 1)))).
Proof.
  unfold getMonthRange, monthRangeRounds. split.
  - apply loop_total. lia.
  - intros Htz Hsm Hem Hsy Hey.
    apply (loop_months tz ey em Htz Hem Hey); [exact Hsm|exact Hsy|lia|lia].
Qed.

(** X22. [getMonthRange] ends for all integer arguments: it returns or
    throws. For start and end months in 1..12 and years from -271000 to
    275000 it returns one entry for each month from the start to the end,
    in order and without gaps (the [i]-th entry is the month [i] months
    after the start), so 12 * (endYear - startYear) + endMonth -
    startMonth + 1 entries, and none when the start is after the end.
    When the start is a month of a year after 275760 and not after the
    end, the first date is beyond the range of Date and the call throws a
    RangeError. *)
Theorem getMonthRange_months tz sy sm ey em :
  getMonthRange tz sy sm ey em <> StillRunning
  /\ (-1440 < tz < 1440 -> 1 <= sm <= 12 -> 1 <= em <= 12 ->
      -271000 <= sy -> ey <= 275000 ->
      exists ranges,
        getMonthRange tz sy sm ey em = Returns ranges
        /\ List.length ranges
           = Z.to_nat (12 * (ey - sy) + em - sm + 1)
        /\ forall i,
            (i < List.length ranges)%nat ->
            nth_error ranges i
            = monthRangeOf tz
                ((12 * sy + sm - 1 + Z.of_nat i) / 12)
                ((12 * sy + sm - 1 + Z.of_nat i) mod 12 + 1))
  /\ (-1440 < tz < 1440 -> 1 <= sm <= 12 -> 275761 <= sy ->
      sy < ey \/ (sy = ey /\ sm <= em) ->
      getMonthRange tz sy sm ey em = ThrowsRangeError).
Proof.
  destruct (getMonthRange_cases tz sy sm ey em) as [Htotal Hvalid].
  split; [exact Htotal|]. split.
  - intros Htz Hsm Hem Hsy Hey.
    destruct (Hvalid Htz Hsm Hem Hsy Hey) as (ranges & E & Hentries).
    exists ranges. split; [exact E|].
    destruct (entries_nth _ _ _ Hentries) as [Hlen Hnth].
    split; [exact Hlen|]. intros i Hi. apply Hnth. rewrite <- Hlen. exact Hi.
  - intros Htz Hsm Hsy Hc. unfold getMonthRange, monthRangeRounds.
    replace (Z.to_nat (Z.max 0 (13 - sm) + 13 * Z.max 0 (ey - sy) + 1))
      with (S (Z.to_nat (Z.max 0 (13 - sm) + 13 * Z.max 0 (ey - sy))))
      by lia.
    cbn [monthRangeLoop].
    replace ((sy <? ey) || ((sy =? ey) && (sm <=? em))) with true
      by (symmetry; apply loop_condition; exact Hc).
    assert (Hthrow : monthRangeOf tz sy sm = None).
    { unfold monthRangeOf, isoDateOf, newDate.
      rewrite (fullYearOf_late sy) by lia.
      replace ((sm - 1) / 12) with 0 by (symmetry; apply Z.div_small; lia).
      replace ((sm - 1) mod 12 + 1) with sm by (rewrite Z.mod_small; lia).
      replace (sy + 0) with sy by lia.
      pose proof (days_out_of_range sy sm Hsy Hsm) as HD.
      replace (Z.abs ((days_from_civil sy sm 1 + 1 - 1) * msPerDay
                      - tz * msPerMinute) <=? maxTime)
        with false
        by (symmetry; apply Z.leb_gt;
            unfold maxTime, msPerDay, msPerMinute; lia).
      reflexivity. }
    rewrite Hthrow. reflexivity.
Qed.

(** November 2023 to February 2024: four entries. *)
Lemma getMonthRange_months_witness :
  exists ranges,
    getMonthRange 0 2023 11 2024 2 = Returns ranges
    /\ map monthKey ranges = ["2023-11"; "2023-12"; "2024-01"; "2024-02"].
Proof.
  destruct (proj1 (proj2 (getMonthRange_months 0 2023 11 2024 2)))
    as (ranges & E & _); [lia|lia|lia|lia|lia|].
  exists ranges. split; [exact E|].
  vm_compute in E. injection E as <-. reflexivity.
Defined.

(** X23. The charts' initial range, handed to [getMonthRange], gives
    exactly [monthsBack] entries ending with the current local month,
    for every [monthsBack >= 1] that keeps the years within
    -271000..275000. When the start month is 0 the first entry is the
    one of month 0 of the start year: it is keyed [YYYY-00] although its
    dates are those of December of the year before. *)
Theorem initial_range_months tz now monthsBack :
  -1440 < tz < 1440 -> 1 <= monthsBack ->
  -271000 <= startYear (getInitialDateRange tz now monthsBack) ->
  getFullYear tz now <= 275000 ->
  exists ranges,
    getMonthRange tz
      (startYear (getInitialDateRange tz now monthsBack))
      (startMonth (getInitialDateRange tz now monthsBack))
      (endYear (getInitialDateRange tz now monthsBack))
      (endMonth (getInitialDateRange tz now monthsBack))
    = Returns ranges
    /\ Z.of_nat (List.length ranges) = monthsBack
    /\ nth_error ranges (Z.to_nat (monthsBack - 1))
       = monthRangeOf tz (getFullYear tz now) (getMonth tz now + 1)
    /\ (startMonth (getInitialDateRange tz now monthsBack) = 0 ->
        nth_error ranges 0
        = monthRangeOf
            tz (startYear (getInitialDateRange tz now monthsBack)) 0).
Proof.
  intros Htz Hmb Hlow Hhigh.
  destruct (initialRange_facts tz now monthsBack)
    as (Hey & Hem & Hspan & Hlo & Hhi & Hsy).
  specialize (Hhi Hmb).
  pose proof (local_month_range tz now) as Hcm.
  rewrite Hey, Hem.
  set (sy := startYear (getInitialDateRange tz now monthsBack)) in *.
  set (sm := startMonth (getInitialDateRange tz now monthsBack)) in *.
  set (cy := getFullYear tz now) in *.
  set (cm := getMonth tz now + 1) in *.
  assert (Hlast : forall L n (ranges : list MonthRange),
             L + Z.of_nat n = 12 * cy + cm - 1 ->
             map Some ranges
             = map (fun i => monthRangeOf tz ((L + Z.of_nat i) / 12)
                                          ((L + Z.of_nat i) mod 12 + 1))
                   (seq 0 (S n)) ->
             List.length ranges = S n
             /\ nth_error ranges n = monthRangeOf tz cy cm).
  { intros L n ranges HL E.
    destruct (entries_nth _ _ _ E) as [Hlen Hnth].
    split; [exact Hlen|]. rewrite (Hnth n) by lia. rewrite HL. f_equal.
    - Z.div_mod_to_equations. lia.
    - Z.div_mod_to_equations. lia. }
  destruct (Z.eq_dec sm 0) as [H0|Hne].
  - (* the start month is 0: one round for it, then months 1.. *)
    unfold getMonthRange, monthRangeRounds. rewrite H0.
    replace (Z.to_nat (Z.max 0 (13 - 0) + 13 * Z.max 0 (cy - sy) + 1))
      with (S (Z.to_nat (13 * (cy - sy) + 13))) by lia.
    cbn [monthRangeLoop].
    replace ((sy <? cy) || ((sy =? cy) && (0 <=? cm))) with true
      by (symmetry; apply loop_condition; lia).
    destruct (monthRangeOf_some tz sy 0 Htz ltac:(lia) ltac:(lia))
      as [r0 E0].
    rewrite E0.
    change (12 <? 0 + 1) with false. cbn [fst snd]. change (0 + 1) with 1.
    destruct (loop_months tz cy cm Htz Hcm Hhigh
                (Z.to_nat (monthsBack - 1))
                (Z.to_nat (13 * (cy - sy) + 13)) sy 1)
      as (ranges & El & Hl); [lia|lia|lia|lia|].
    rewrite El. exists (r0 :: ranges). split; [reflexivity|].
    destruct (entries_nth _ _ _ Hl) as [Hlen Hnth].
    split_and.
    + cbn [List.length]. lia.
    + destruct (Z.to_nat (monthsBack - 1)) as [|n] eqn:Hn.
      * cbn [nth_error]. rewrite <- E0. f_equal; lia.
      * cbn [nth_error]. rewrite (Hnth n) by lia. f_equal.
        -- Z.div_mod_to_equations. lia.
        -- Z.div_mod_to_equations. lia.
    + intros _. reflexivity.
  - destruct (proj2 (getMonthRange_cases tz sy sm cy cm))
      as (ranges & E & Hl); [exact Htz|lia|lia|lia|lia|].
    rewrite E. exists ranges. split; [reflexivity|].
    replace (Z.to_nat (12 * (cy - sy) + cm - sm + 1))
      with (S (Z.to_nat (monthsBack - 1))) in Hl by lia.
    destruct (Hlast (12 * sy + sm - 1) (Z.to_nat (monthsBack - 1)) ranges
                    ltac:(lia) Hl)
      as [Hlen Hnth].
    split_and.
    + lia.
    + exact Hnth.
    + intros H. contradiction.
Qed.

(** Mid-May 2024, default range of six months. *)
Lemma initial_range_months_witness :
  exists ranges,
    getMonthRange 0 2024 0 2024 5 = Returns ranges
    /\ map monthKey ranges
       = ["2024-00"; "2024-01"; "2024-02"; "2024-03"; "2024-04"; "2024-05"]
    /\ option_map startDate (nth_error ranges 0)
       = Some (mkCivil 2023 12 1).
Proof.
  destruct (initial_range_months 0 Events.may15 6) as (ranges & E & _).
  - lia.
  - lia.
  - vm_compute. discriminate.
  - vm_compute. discriminate.
  - exists ranges. split; [exact E|].
    vm_compute in E. injection E as <-. split; reflexivity.
Defined.

(** ** The options of the month pickers *)

Lemma countdown_S a k : countdown a (S k) = a :: countdown (a - 1) k.
Proof.
  unfold countdown. cbn [seq map]. f_equal; [lia|].
  rewrite <- seq_shift, map_map. apply map_ext. intros i. lia.
Qed.

Lemma countdown_app a n m :
  countdown a (n + m) = countdown a n ++ countdown (a - Z.of_nat n) m.
Proof.
  revert a. induction n as [|n IH]; intros a.
  - cbn [Nat.add app]. unfold countdown at 2. cbn [seq map app].
    replace (a - Z.of_nat 0) with a by lia. reflexivity.
  - cbn [Nat.add]. rewrite !countdown_S, IH. cbn [app].
    replace (a - Z.of_nat (S n)) with (a - 1 - Z.of_nat n) by lia.
    reflexivity.
Qed.

Lemma countdown_In a n x :
  In x (countdown a n) <-> a - Z.of_nat n < x <= a.
Proof.
  unfold countdown. rewrite in_map_iff. split.
  - intros (i & <- & Hi). apply in_seq in Hi. lia.
  - intros H. exists (Z.to_nat (a - x)). split; [lia|].
    apply in_seq. lia.
Qed.

Lemma countdown_shift c a n :
  map (fun x => c + x) (countdown a n) = countdown (c + a) n.
Proof.
  unfold countdown. rewrite map_map. apply map_ext. intros i. lia.
Qed.

(** The months of the years before the current one, twelve each. *)
Lemma options_of_past_years (F : Z -> list YearMonthOption) :
  forall k y0,
    (forall y, y <= y0 ->
               map (fun o => 12 * ymo_year o + ymo_month o) (F y)
               = countdown (12 * y + 12) 12) ->
    map (fun o => 12 * ymo_year o + ymo_month o)
        (flat_map F (countdown y0 k))
    = countdown (12 * y0 + 12) (12 * k).
Proof.
  induction k as [|k IH]; intros y0 HF; [reflexivity|].
  rewrite countdown_S. cbn [flat_map]. rewrite map_app.
  rewrite (HF y0) by lia. rewrite (IH (y0 - 1)).
  - replace (12 * S k)%nat with (12 + 12 * k)%nat by lia.
    rewrite countdown_app.
    replace (12 * (y0 - 1) + 12) with (12 * y0 + 12 - Z.of_nat 12) by lia.
    reflexivity.
  - intros y Hy. apply HF. lia.
Qed.

(** X24. For [yearsBack >= 0], [getYearMonthOptions] lists the months
    from the current local month back to January of the year
    [yearsBack] years earlier, newest first, each month once: counted in
    months (12 * year + month) the options run down one by one from the
    current month, there are currentMonth + 12 * yearsBack of them, every
    option has a month in 1..12 and a year within the range, and its value
    is the key [YYYY-MM] of its year and month. For a negative
    [yearsBack] there are no options. *)
Theorem getYearMonthOptions_months tz now yearsBack :
  (0 <= yearsBack ->
   map (fun o => 12 * ymo_year o + ymo_month o)
       (getYearMonthOptions tz now yearsBack)
   = countdown (12 * getFullYear tz now + (getMonth tz now + 1))
               (Z.to_nat (getMonth tz now + 1 + 12 * yearsBack)))
  /\ Forall (fun o =>
               1 <= ymo_month o <= 12
               /\ getFullYear tz now - yearsBack <= ymo_year o
                  <= getFullYear tz now
               /\ ymo_value o = yearMonthKey (ymo_year o) (ymo_month o))
            (getYearMonthOptions tz now yearsBack)
  /\ (yearsBack < 0 -> getYearMonthOptions tz now yearsBack = []).
Proof.
  pose proof (local_month_range tz now) as Hcm.
  unfold getYearMonthOptions.
  set (cy := getFullYear tz now). set (cm := getMonth tz now + 1) in *.
  set (F := fun year : Z =>
              map (fun month =>
                     {| ymo_year := year; ymo_month := month;
                        ymo_label := yearMonthLabel year month;
                        ymo_value := yearMonthKey year month |})
                  (countdown (if year =? cy then cm else 12)
                             (Z.to_nat (if year =? cy then cm else 12)))).
  assert (HF : forall y,
             map (fun o => 12 * ymo_year o + ymo_month o) (F y)
             = countdown (12 * y + (if y =? cy then cm else 12))
                         (Z.to_nat (if y =? cy then cm else 12))).
  { intros y. unfold F. rewrite map_map. cbn [ymo_year ymo_month].
    apply countdown_shift. }
  split_and.
  - intros Hyb.
    replace (Z.to_nat (yearsBack + 1)) with (S (Z.to_nat yearsBack)) by lia.
    rewrite countdown_S. cbn [flat_map]. rewrite map_app, (HF cy).
    rewrite Z.eqb_refl.
    rewrite (options_of_past_years F (Z.to_nat yearsBack) (cy - 1)).
    + replace (Z.to_nat (cm + 12 * yearsBack))
        with (Z.to_nat cm + 12 * Z.to_nat yearsBack)%nat by lia.
      rewrite countdown_app.
      replace (12 * (cy - 1) + 12)
        with (12 * cy + cm - Z.of_nat (Z.to_nat cm)) by lia.
      reflexivity.
    + intros y Hy. rewrite (HF y).
      destruct (Z.eqb_spec y cy); [lia|reflexivity].
  - apply Forall_forall. intros o Ho.
    apply in_flat_map in Ho. destruct Ho as (year & Hyear & Ho).
    apply countdown_In in Hyear.
    apply in_map_iff in Ho. destruct Ho as (month & <- & Hmonth).
    apply countdown_In in Hmonth. cbn [ymo_year ymo_month ymo_value].
    split_and; try reflexivity; try lia;
      destruct (year =? cy); lia.
  - intros Hneg.
    replace (Z.to_nat (yearsBack + 1)) with 0%nat by lia. reflexivity.
Qed.

(** Mid-February 2024, one year back: fourteen options from 2024-02 down
    to 2023-01. *)
Lemma getYearMonthOptions_months_witness :
  map ymo_value (getYearMonthOptions 0 Scenario.feb15 1)
  = ["2024-02"; "2024-01"; "2023-12"; "2023-11"; "2023-10"; "2023-09";
     "2023-08"; "2023-07"; "2023-06"; "2023-05"; "2023-04"; "2023-03";
     "2023-02"; "2023-01"]
  /\ List.length (getYearMonthOptions 0 Scenario.feb15 1) = 14%nat.
Proof.
  split; [vm_compute; reflexivity|].
  pose proof (proj1 (getYearMonthOptions_months 0 Scenario.feb15 1)
                    ltac:(lia)) as H.
  apply (f_equal (@List.length Z)) in H.
  rewrite length_map in H. rewrite H. vm_compute. reflexivity.
Defined.

End MonthRanges.

Open Scope js_scope.

(* ===================================================================== *)
(** * The checkout and portal routes                                      *)
(* ===================================================================== *)

Section CheckoutRoute.

Import Checkout.

(** ** Where the user is sent back to *)

(** X25. The base URL of the checkout route does not use the value of
    NEXT_PUBLIC_APP_URL. When that variable is set, the success and
    cancel URLs are built on [https://] followed by VERCEL_URL, and on
    [https://undefined] when VERCEL_URL is unset, while the portal route
    returns to NEXT_PUBLIC_APP_URL itself. The two routes build the same
    base URL when NEXT_PUBLIC_APP_URL is unset or empty. *)
Theorem checkout_base_url senv :
  (forall appUrl,
      NEXT_PUBLIC_APP_URL senv = Some appUrl -> appUrl <> "" ->
      portalBaseUrl senv = appUrl
      /\ checkoutBaseUrl senv
         = ("https://" ++ templateOf (VERCEL_URL senv))%string
      /\ (VERCEL_URL senv = None ->
          checkoutBaseUrl senv = "https://undefined"))
  /\ (truthy (NEXT_PUBLIC_APP_URL senv) = false ->
      checkoutBaseUrl senv = portalBaseUrl senv).
Proof.
  unfold checkoutBaseUrl, portalBaseUrl. split.
  - intros appUrl Happ Hne. rewrite Happ.
    assert (Ht : truthy (Some appUrl) = true).
    { unfold truthy. destruct (String.eqb_spec appUrl "");
        [contradiction|reflexivity]. }
    unfold or_else. rewrite Ht. cbn [orb]. split_and.
    + destruct (String.eqb_spec appUrl ""); [contradiction|reflexivity].
    + reflexivity.
    + intros Hv. rewrite Hv. reflexivity.
  - intros Hfalse. rewrite Hfalse. cbn [orb]. unfold or_else.
    unfold truthy in Hfalse.
    destruct (NEXT_PUBLIC_APP_URL senv) as [s|]; [|reflexivity].
    destruct (String.eqb_spec s ""); [reflexivity|discriminate].
Qed.

Lemma checkout_base_url_witness :
  portalBaseUrl senv_app_url_only = "https://farm.example"
  /\ checkoutBaseUrl senv_app_url_only = "https://undefined".
Proof.
  destruct (proj1 (checkout_base_url senv_app_url_only)
                  "https://farm.example" eq_refl ltac:(discriminate))
    as (Hp & _ & Hc).
  split; [exact Hp|apply Hc; reflexivity].
Defined.

(** ** The Stripe customer of a user *)

(** The variables the route needs are set. *)
Lemma clients_built env senv (B : Type) (k : M B) w :
  truthy (STRIPE_SECRET_KEY env) = true ->
  truthy (NEXT_PUBLIC_SUPABASE_URL env) = true ->
  truthy (NEXT_PUBLIC_SUPABASE_ANON_KEY senv) = true ->
  (getStripeClient env ;;; createSupabaseServerClient env senv ;;; k) w
  = k w.
Proof.
  intros H1 H2 H3. unfold getStripeClient, createSupabaseServerClient, bind.
  rewrite H1, H2, H3. reflexivity.
Qed.

Lemma select_customer_of_row u d r now :
  filter (fun a => (Subscriptions.user_id a =? u)%string) (subscriptions d)
  = [r] ->
  storedCustomer (fst (select_customer u now d))
  = nonempty (Subscriptions.stripe_customer_id r).
Proof.
  intros Hr. unfold select_customer. cbn [fst]. rewrite Hr. reflexivity.
Qed.

(** X26. A stored customer is reused. When the row of the user holds a
    non-empty [stripe_customer_id] and the read does not fail,
    [getOrCreateStripeCustomer] returns that id after the one SELECT: it
    does not depend on what the Stripe client would answer, and nothing
    is written. A registered user without any row gets the customer
    Stripe creates, stored in a new free row, and every later call
    returns that same customer. *)
Theorem stripe_customer_reused env senv u email w :
  truthy (STRIPE_SECRET_KEY env) = true ->
  truthy (NEXT_PUBLIC_SUPABASE_URL env) = true ->
  truthy (NEXT_PUBLIC_SUPABASE_ANON_KEY senv) = true ->
  (forall stripe r c,
      hd false (faults w) = false ->
      filter (fun a => (Subscriptions.user_id a =? u)%string)
             (subscriptions (db w)) = [r] ->
      nonempty (Subscriptions.stripe_customer_id r) = Some c ->
      getOrCreateStripeCustomer env senv stripe u email w
      = (Return c, after_request q_select_subscription (db w) w))
  /\ (forall stripe c,
         no_faults w ->
         filter (fun a => (Subscriptions.user_id a =? u)%string)
                (subscriptions (db w)) = [] ->
         In u (auth_users (db w)) ->
         customers_create stripe email u = inr c -> c <> "" ->
         exists w1,
           getOrCreateStripeCustomer env senv stripe u email w
           = (Return c, w1)
           /\ (forall stripe' t,
                  fst (getOrCreateStripeCustomer env senv stripe' u email
                                                 (at_time t w1))
                  = Return c)).
Proof.
  intros H1 H2 H3. split.
  - intros stripe r c Hf Hr Hc. unfold getOrCreateStripeCustomer.
    rewrite (clients_built env senv _ _ w H1 H2 H3).
    unfold bind. fold q_select_subscription. rewrite request_eq, Hf.
    rewrite (select_customer_of_row u (db w) r (clock w) Hr), Hc.
    reflexivity.
  - intros stripe c Hnf Hnil Hu Hcreate Hc.
    unfold getOrCreateStripeCustomer at 1.
    rewrite (clients_built env senv _ _ w H1 H2 H3).
    unfold bind at 1. fold q_select_subscription.
    rewrite (request_ok _ _ Hnf).
    unfold select_customer at 1. cbn [fst snd]. rewrite Hnil.
    cbn [Pg.single storedCustomer]. rewrite Hcreate.
    unfold bind at 1. fold q_upsert_subscription.
    rewrite request_ok by (apply no_faults_after_request, Hnf).
    cbn [clock db after_request].
    set (d1 := snd (upsert_customer_as_user u c (clock w) (db w))).
    eexists. split; [reflexivity|].
    intros stripe' t. unfold getOrCreateStripeCustomer.
    rewrite (clients_built env senv _ _ _ H1 H2 H3).
    unfold bind. rewrite request_ok
      by (apply no_faults_at_time, no_faults_after_request,
            no_faults_after_request, Hnf).
    cbn [clock db at_time after_request].
    assert (Hrow : exists r,
               filter (fun a => (Subscriptions.user_id a =? u)%string)
                      (subscriptions d1) = [r]
               /\ Subscriptions.stripe_customer_id r = Some c).
    { unfold d1, upsert_customer_as_user.
      apply filter_nil_existsb in Hnil. rewrite Hnil.
      apply mem_string_In in Hu. rewrite Hu. cbn [negb snd subscriptions].
      rewrite filter_app. apply filter_nil_existsb in Hnil. rewrite Hnil.
      cbn [filter app Subscriptions.user_id]. rewrite String.eqb_refl.
      eexists. split; reflexivity. }
    destruct Hrow as (r & Hr & Hcust).
    rewrite (select_customer_of_row u d1 r _ Hr), Hcust.
    unfold nonempty, truthy.
    destruct (String.eqb_spec c ""); [contradiction|]. reflexivity.
Qed.

(** Alice has no row at all: the first call stores [cus_new_alice], and
    a later call returns it even if Stripe is unreachable. *)
Lemma stripe_customer_reused_witness :
  exists w1,
    getOrCreateStripeCustomer
      Scenario.env_utc senv_app_url_only stripe_ok Scenario.alice "a@farm"
      (Scenario.world_of Scenario.db_new_user Scenario.feb15)
    = (Return "cus_new_alice", w1)
    /\ fst (getOrCreateStripeCustomer
              Scenario.env_utc senv_app_url_only
              {| customers_create := fun _ _ =>
                   inl (Error (External "unreachable")) |}
              Scenario.alice "a@farm" (at_time Scenario.feb16 w1))
       = Return "cus_new_alice".
Proof.
  destruct (proj2 (stripe_customer_reused
                     Scenario.env_utc senv_app_url_only Scenario.alice
                     "a@farm"
                     (Scenario.world_of Scenario.db_new_user Scenario.feb15)
                     eq_refl eq_refl eq_refl)
                  stripe_ok "cus_new_alice")
    as (w1 & E & Hlater).
  - constructor.
  - reflexivity.
  - left. reflexivity.
  - reflexivity.
  - discriminate.
  - exists w1. split; [exact E|apply Hlater].
Defined.

(** X27. The route cannot store a customer in a row that exists. For a
    user who has a row without a customer (every user the signup trigger
    gave a free row) and with no fault pending,
    [getOrCreateStripeCustomer] returns the customer Stripe has just
    created, but its upsert is an update of the user's own row, which the
    policies of [subscriptions] refuse, and the reply is not looked at:
    the database is unchanged, and a further call asks Stripe for a new
    customer again and returns whatever that call creates. *)
Theorem stripe_customer_not_stored env senv stripe u email w r c :
  truthy (STRIPE_SECRET_KEY env) = true ->
  truthy (NEXT_PUBLIC_SUPABASE_URL env) = true ->
  truthy (NEXT_PUBLIC_SUPABASE_ANON_KEY senv) = true ->
  no_faults w ->
  filter (fun a => (Subscriptions.user_id a =? u)%string)
         (subscriptions (db w)) = [r] ->
  nonempty (Subscriptions.stripe_customer_id r) = None ->
  customers_create stripe email u = inr c ->
  exists w1,
    getOrCreateStripeCustomer env senv stripe u email w = (Return c, w1)
    /\ db w1 = db w
    /\ requestsSince w w1 = [q_select_subscription; q_upsert_subscription]
    /\ forall stripe' c' t,
        customers_create stripe' email u = inr c' ->
        fst (getOrCreateStripeCustomer env senv stripe' u email
                                       (at_time t w1))
        = Return c'.
Proof.
  intros H1 H2 H3 Hnf Hr Hnone Hcreate.
  assert (Hex : existsb (fun a => (Subscriptions.user_id a =? u)%string)
                        (subscriptions (db w)) = true)
    by (apply (filter_cons_existsb _ _ Hr)).
  assert (Hrun : forall stripe0 c0 w0,
             no_faults w0 -> db w0 = db w ->
             customers_create stripe0 email u = inr c0 ->
             getOrCreateStripeCustomer env senv stripe0 u email w0
             = (Return c0,
                after_request q_upsert_subscription (db w0)
                  (after_request q_select_subscription (db w0) w0))).
  { intros stripe0 c0 w0 Hnf0 Hdb Hc0. unfold getOrCreateStripeCustomer.
    rewrite (clients_built env senv _ _ w0 H1 H2 H3).
    unfold bind at 1. fold q_select_subscription.
    rewrite (request_ok _ _ Hnf0).
    rewrite (select_customer_of_row u (db w0) r (clock w0))
      by (rewrite Hdb; exact Hr).
    rewrite Hnone, Hc0. unfold bind. fold q_upsert_subscription.
    rewrite request_ok by (apply no_faults_after_request, Hnf0).
    unfold select_customer, upsert_customer_as_user.
    cbn [snd db clock after_request]. rewrite Hdb, Hex. reflexivity. }
  rewrite (Hrun stripe c w Hnf eq_refl Hcreate).
  eexists. split; [reflexivity|]. split_and.
  - reflexivity.
  - apply requestsSince_app. cbn [trace after_request].
    rewrite <- app_assoc. reflexivity.
  - intros stripe' c' t Hc'. rewrite (Hrun stripe' c'); [reflexivity| | |].
    + apply no_faults_at_time, no_faults_after_request,
        no_faults_after_request, Hnf.
    + reflexivity.
    + exact Hc'.
Qed.

(** Alice after signup: her row still has no customer after a checkout
    attempt. *)
Lemma stripe_customer_not_stored_witness :
  exists w1,
    getOrCreateStripeCustomer
      Scenario.env_utc senv_app_url_only stripe_ok Scenario.alice "a@farm"
      (Scenario.world_of db_signed_up Scenario.feb15)
    = (Return "cus_new_alice", w1)
    /\ subscriptions (db w1) = [signup_row].
Proof.
  destruct (stripe_customer_not_stored
              Scenario.env_utc senv_app_url_only stripe_ok Scenario.alice
              "a@farm" (Scenario.world_of db_signed_up Scenario.feb15)
              signup_row "cus_new_alice")
    as (w1 & E & Hdb & _); try reflexivity.
  - constructor.
  - exists w1. split; [exact E|]. rewrite Hdb. reflexivity.
Defined.

(** ** What is charged and what is granted *)

(** X28. For each of the three plans on sale [getPriceIdForPlan] returns
    a price id (the configured one, or the default when the variable is
    unset or empty) and never throws; and when the three price ids are
    pairwise distinct, the webhook maps the price charged for a plan back
    to that plan. *)
Theorem price_charged_is_plan_granted env p :
  p <> free ->
  exists priceId,
    getPriceIdForPlan env p = Some priceId
    /\ priceId <> ""
    /\ (price_standard (STRIPE_PRICE_IDS env)
        <> price_premium (STRIPE_PRICE_IDS env) ->
        price_standard (STRIPE_PRICE_IDS env)
        <> price_pro_yearly (STRIPE_PRICE_IDS env) ->
        price_premium (STRIPE_PRICE_IDS env)
        <> price_pro_yearly (STRIPE_PRICE_IDS env) ->
        getPlanTypeFromPriceId env priceId = Some (own p)).
Proof.
  intros Hpaid.
  assert (Hor : forall v d, d <> "" -> or_else v d <> "").
  { intros v d Hd. unfold or_else. destruct v as [s|]; [|exact Hd].
    destruct (String.eqb_spec s ""); assumption. }
  assert (Hne : forall s, s <> "" -> nonempty (Some s) = Some s).
  { intros s Hs. unfold nonempty, truthy.
    destruct (String.eqb_spec s ""); [contradiction|reflexivity]. }
  unfold getPlanTypeFromPriceId, object_read, PRICE_ID_TO_PLAN.
  cbn [object_get].
  destruct p; [contradiction| | |]; cbn [getPriceIdForPlan];
    eexists; (split; [apply Hne|split]);
    try (cbn [STRIPE_PRICE_IDS price_standard price_premium
              price_pro_yearly]; apply Hor; discriminate).
  - intros Hab Hac Hbc.
    destruct (String.eqb_spec (price_pro_yearly (STRIPE_PRICE_IDS env))
                              (price_standard (STRIPE_PRICE_IDS env)));
      [congruence|].
    destruct (String.eqb_spec (price_premium (STRIPE_PRICE_IDS env))
                              (price_standard (STRIPE_PRICE_IDS env)));
      [congruence|].
    rewrite String.eqb_refl. reflexivity.
  - intros Hab Hac Hbc.
    destruct (String.eqb_spec (price_pro_yearly (STRIPE_PRICE_IDS env))
                              (price_premium (STRIPE_PRICE_IDS env)));
      [congruence|].
    rewrite String.eqb_refl. reflexivity.
  - intros _ _ _. rewrite String.eqb_refl. reflexivity.
Qed.

Lemma price_charged_is_plan_granted_witness :
  getPriceIdForPlan Scenario.env_utc standard = Some "price_standard_monthly"
  /\ getPlanTypeFromPriceId Scenario.env_utc "price_standard_monthly"
     = Some (own standard).
Proof.
  destruct (price_charged_is_plan_granted Scenario.env_utc standard
                                          ltac:(discriminate))
    as (priceId & E & _ & Hback).
  assert (Hid : priceId = "price_standard_monthly")
    by (vm_compute in E; injection E as <-; reflexivity).
  subst priceId. split; [exact E|].
  apply Hback; discriminate.
Defined.

End CheckoutRoute.

